(* ===== verification/_CoqProject ===== *)
-Q . S2P
Prelude.v
Types.v
Minilib.v
Cheri.v
Cap.v
CNode.v
Tcb.v
Endpoint.v
Notification.v
Irq.v
Alloc.v
Iommu.v
Sched.v
Mdb.v
VSpace.v
Io.v
Vga.v
Kernel.v
Invoke.v
Syscall.v
Process.v
Elf.v
Hardening.v
Boot.v
Server.v
MemServer.v
SchedServer.v
VfsServer.v
NetDriver.v
BlockDriver.v
VgaDriver.v
Dice.v
Harness.v
