(* ===== verification/Prelude.v ===== *)
(** * MoonlightOS: a verification library for the microkernel

    MoonlightOS is a capability microkernel for RISC-V with CHERI, with servers
    and drivers in user space. This library models its C sources (under
    [kernel], [userspace] and [boot] of the repository) as Rocq functions and
    proves the properties that make the components correct. The configuration modelled is the hybrid RISC-V build:
    [__riscv] is defined and [__CHERI_PURE_CAPABILITY__] is not, so a hardware
    capability is the record [sim_cap_t] of cheri.h.

    ** The program and the files

    The kernel keeps all its state in records and arrays that are passed by
    pointer; system calls and process management combine the components below.
    Each file models one component, one definition per C function, with the
    names of the source. An indented line says what its main theorems show.

    - [Prelude]: machine integers, arrays, record update, early return, counting
      and searching; the tactics and the hint database [moon].
    - [Types] (types.h): constants, error codes, messages, opcodes.
    - [Minilib] (minilib.c): memset, memcpy, memcmp over a byte memory.
      memcpy terminates, copies and touches nothing else.
    - [Cheri] (cheri.h, cheri.c): the simulated capability and the bounded copy.
      The copy stays inside its capability unless the end address wraps.
    - [Cap] (cap.h, cap.c): capabilities, derivation, retyping. The union of
      [cap_t] is kept as the four words C lays it out in.
      Derivation only removes rights.
    - [CNode] (cnode.h, cnode.c): capability nodes, on a store of nodes by
      address because source and destination may be one node.
      No sequence of operations creates authority; totality; exact mint.
    - [Tcb] (tcb.h, tcb.c): threads and their state machine.
    - [Endpoint] (endpoint.h, endpoint.c): synchronous IPC through a ring of 16.
      Refinement of an abstract queue with hand-over; FIFO delivery.
    - [Notification] (notification.h, notification.c): badge words.
      Every signal is delivered exactly once.
    - [Irq] (irq.h, irq.c): interrupt lines.
      One owner until unbound; pending exactly when handled while bound.
    - [Alloc] (alloc.h, alloc.c): the cache-colouring frame allocator.
      Granted frames are disjoint, in the region and of the right colour.
    - [Iommu] (iommu.h, iommu.c): DMA windows.
      Admitted accesses lie inside a capability given for the device.
    - [Sched] (sched.h, sched.c): time partitions and contexts.
      Disjoint slots; the picked thread is the best eligible one of the
      partition that owns the instant; bounds of the admission test.
    - [Mdb] (revoke.h, revoke.c): the derivation tree of capabilities.
      The links always spell a forest; revocation frees exactly the
      descendants and terminates; insertion, deletion and the descendant
      test are exact.
    - [VSpace] (vspace.h, vspace.c): Sv39 page tables in physical memory.
      Map, unmap and resolve agree; spaces on one allocator are isolated. The
      class [PageSource] states what the tables need of a supplier of pages;
      the frame allocator and the fallback pool are instances of it.
    - [Kernel] (the globals of boot.c): the state the system calls share, its
      invariant [kernel_wf], and what it means that capabilities point to
      objects of their type ([objects_ok]).
    - [Invoke] (syscall.c, handle_invoke): the eleven invocations.
      Each touches only what its capability names (binding a scheduling
      context, which any capability permits, is stated apart), creates no
      authority, is total and keeps the kernel well formed.
    - [Syscall] (syscall.h, syscall.c, syscall_handler): the trap handler.
      Complete mediation; any program of system calls that retypes no memory
      into kernel objects runs without undefined behaviour; failed calls
      have no effect; messages arrive.
    - [Process] (process.h, process.c): creation and teardown.
      Both are characterised on every exit; destruction undoes creation,
      except that a process with no entry and no stack cannot be destroyed.
    - [Io] (flush.c and the serial routines of boot.c and vga.c): accesses to
      device registers as a trace; what is sent on the serial line.
    - [Vga] (vga.h, vga.c): framebuffer, font, console and the set-up of the
      display. The console refines a grid of characters with a cursor;
      initialisation touches only the windows it has mapped.
    - [Elf] (elf.h, elf.c): the loader's checks on an image of bytes.
      The outcome on every encoded image is characterised, the wrap-around
      of a segment's end included.
    - [Hardening] (hardening.h, hardening.c): canary, guard pages, addresses.
    - [Boot] (boot.c, kernel_boot and user_hello): the boot sequence as a state monad that can
      halt, with a Hoare triple for its steps. It establishes [kernel_ok],
      reaches its parking loop on every bootable machine, and the booted
      kernel then serves any sequence of such system calls; none of the
      threads it creates can use IPC.
    - [Server]: the loop of a user-space server, over the class [Server] of
      servers given by one turn; [MemServer], [SchedServer] and [VfsServer] are
      its instances.
    - [MemServer] (userspace/mem_server): what is handed out never overlaps.
    - [SchedServer] (userspace/sched_server): the admission test agrees with
      the kernel's, and what is admitted the kernel accepts; the real load is
      bounded up to the rounding of the shares.
    - [VfsServer] (userspace/vfs_server): what is created under a terminated name
      can be opened; no file ever has contents.
    - [NetDriver], [BlockDriver], [VgaDriver] (userspace/drivers): the drivers
      keep to their DMA pools, registers and framebuffer.
    - [Dice] (boot/dice.c): measured boot.
    - [Harness] (cbmc_harness.c): the assertions of the model checking harness
      hold from states in the invariants, and not from arbitrary ones.

    ** Conventions

    A [uintN_t] is a [Z]; an operation that can leave its width is wrapped with
    [u8], [u16], [u32] or [u64] where C wraps, and [fits w z] says that [z] is a
    value of the width. Flags ([bool] or 0/1 bytes) are [bool]. A C array is a
    list of its declared length and [l.[i]] / [l.[i := x]] read and write it. The
    outer [option] of a result is definedness: [None] is behaviour C leaves
    undefined (an index outside an array, a dangling pointer, division by zero)
    or a bounded loop that has run out of its bound; theorems of totality show
    when it does not occur. A pointer argument that the code tests against
    [NULL] is an [option] of the object, which is returned updated; where two
    pointers may alias, or where pages refer to each other, the objects live in a
    map by address. Error codes are values of [kerror_t]. [retif c with e;; k] is
    [if (c) return e;] followed by [k].

    ** Bounds and fuel

    Loops over arrays are structural. The colour search of [alloc_frame] is given
    16 rounds, one per colour, and always ends within them, even when the address
    wraps. The recursion of [mdb_revoke] is given depth 2 * 1024 + 2: a chain
    step and a node step for each of the 1024 nodes; [mdb_delete] and
    [mdb_is_descendant] walk at most 1024 links. The loops of [vspace_map] and
    [vspace_unmap] get exactly [size / 4096] rounds. The loop that removes a
    thread from a queue gets 16 rounds, the size of the ring. The scan of the PCI bus
    visits 32 devices, clearing the screen 480000 words, and strings are walked
    along their bytes. In each case a theorem shows the bound is enough on
    well-formed states. The endless loops of the servers are seen through
    their finite prefixes.

    ** Parameters and hypotheses

    What the code reads from outside is an argument: the time of [wcet_check] and
    of the trap handler, the address of the static page pool of vspace.c, the
    addresses the linker gives to the global objects ([layout]; distinct and
    not null) and the rest of what boot.c finds ([machine]), the answers of
    devices (functions of the accesses so far), the results of
    [moonlight_retype] (a function of the calls so far), and [sha256]. Fences, cache flushes and
    writes to control registers have no effect on the modelled state (the value
    written to [satp] is modelled). Hypotheses of the theorems are the widths of
    C arguments, well-formedness invariants that the initial states satisfy and
    every operation preserves, and, where the code itself wraps around, that an
    end address does not; the wrap-around is then shown by a theorem of its own.

    Page tables live in a store of their own, apart from the bytes of the kernel
    image. The frames the allocator grants start at 0x80400000, so for an image
    that ends above that address the model does not show the tables overwriting
    the image; [Boot] says nothing about the contents of such an image.

    ** Not modelled

    The pure-capability build (compiler intrinsics), the x86 branches, assembly
    (start.S, trap.S), [panic] and [ubsan_handler], which do not return, the
    tests, the Isabelle theories and the example program,
    which only makes two calls. *)

From Stdlib Require Export ZArith Lia.
From stdpp Require Export base tactics option list gmap numbers.

Open Scope Z_scope.

(** ** Machine integers

    A [uintN_t] is a [Z] in [0, 2^N); every operation that may leave the range
    is wrapped with the width it has in C. *)

Definition wrap (w z : Z) : Z := z mod 2 ^ w.

Definition u8 (z : Z) : Z := wrap 8 z.
Definition u16 (z : Z) : Z := wrap 16 z.
Definition u32 (z : Z) : Z := wrap 32 z.
Definition u64 (z : Z) : Z := wrap 64 z.

(** [fits w z]: [z] is the value of an unsigned [w]-bit object. *)
Definition fits (w z : Z) : Prop := 0 <= z < 2 ^ w.

(** [~x] on an unsigned [w]-bit value. *)
Definition bnot (w x : Z) : Z := wrap w (Z.lnot x).

(** Bit-field read and write: [len] bits of [w] from bit [lo] up. *)
Definition bits_get (w lo len : Z) : Z := Z.land (Z.shiftr w lo) (Z.ones len).
Definition bits_set (w lo len v : Z) : Z :=
  Z.lor (Z.ldiff w (Z.shiftl (Z.ones len) lo)) (Z.shiftl (Z.land v (Z.ones len)) lo).

(** The flag test [(x & f) != 0] and the subset test [(x & f) == f]. *)
Definition has_any (x f : Z) : bool := negb (Z.land x f =? 0).
Definition has_all (x f : Z) : bool := Z.land x f =? f.

(** ** Arrays

    A C array is a list; indexing outside it is undefined behaviour, which the
    [option] monad carries: [None] is "no defined result". *)

Definition arr_get {A} (l : list A) (i : Z) : option A :=
  if 0 <=? i then l !! Z.to_nat i else None.

Definition arr_set {A} (l : list A) (i : Z) (x : A) : option (list A) :=
  if (0 <=? i) && (i <? Z.of_nat (length l)) then Some (<[Z.to_nat i:=x]> l) else None.

Declare Scope carr_scope.
Delimit Scope carr_scope with carr.
Notation "l .[ i ]" := (arr_get l i)
  (at level 1, left associativity, format "l .[ i ]") : carr_scope.
Notation "l .[ i := x ]" := (arr_set l i x)
  (at level 1, left associativity, format "l .[ i  :=  x ]") : carr_scope.
Open Scope carr_scope.

(** ** Record update

    [r <| f := v |>] is [r] with the field [f] assigned, the reading of the C
    statement [r.f = v]. A record opts in with an [Eta] instance, its own
    eta-expansion; the setter of a projection is found by abstracting the
    projection out of that term. *)

Class Eta (T : Type) := eta_of : T -> T.
Class Setter {T A : Type} (p : T -> A) := modify_field : (A -> A) -> T -> T.
Arguments modify_field {T A} p {_} _ _.

Ltac build_setter :=
  match goal with
  | |- @Setter ?T ?A ?p =>
      let e := eval hnf in (eta_of (T := T)) in
      match eval pattern p in e with
      | ?g _ => exact (fun (h : A -> A) => g (fun r => h (p r)))
      end
  end.
#[export] Hint Extern 0 (Setter _) => build_setter : typeclass_instances.

Declare Scope rec_scope.
Notation "r <| f := v |>" := (modify_field f (fun _ => v) r)
  (at level 1, f at level 9, left associativity,
   format "r  <|  f  :=  v  |>") : rec_scope.
Notation "r <| f ::= g |>" := (modify_field f g r)
  (at level 1, f at level 9, left associativity,
   format "r  <|  f  ::=  g  |>") : rec_scope.
Open Scope rec_scope.

(** ** Control flow

    [guard_ret c e k] is the early return [if (c) return e;] in front of [k]. *)

Definition guard_ret {A} (c : bool) (e k : A) : A := if c then e else k.
Notation "'retif' c 'with' e ;; k" := (guard_ret c e k)
  (at level 100, c at level 99, e at level 99, k at level 200, right associativity,
   format "'[v' 'retif'  c  'with'  e ;; '/' k ']'") : rec_scope.

(** [count_if f l]: how many elements of an array satisfy a flag. *)
Definition count_if {A} (f : A -> bool) (l : list A) : Z :=
  Z.of_nat (length (List.filter f l)).

(** [find_idx f l]: the index where [for (i = 0; i < N; i++) if (f(l[i])) ...]
    stops first. *)
Fixpoint find_idx_from {A} (f : A -> bool) (l : list A) (i : Z) : option Z :=
  match l with
  | [] => None
  | x :: l' => if f x then Some i else find_idx_from f l' (i + 1)
  end.
Definition find_idx {A} (f : A -> bool) (l : list A) : option Z := find_idx_from f l 0.

(** [for (j = i; j < i + n; j++) body(j)] on a state. *)
Fixpoint for_loop {S} (n : nat) (i : Z) (body : Z -> S -> option S) (s : S) : option S :=
  match n with
  | O => Some s
  | Datatypes.S n' => s' ← body i s; for_loop n' (i + 1) body s'
  end.
#[global] Arguments for_loop : simpl never.

(** The [n] bytes of an integer, the lowest first. *)
Fixpoint le_bytes (n : nat) (z : Z) : list Z :=
  match n with O => [] | S n' => z mod 256 :: le_bytes n' (z / 256) end.

(** [subset x y]: every bit of the mask [x] is a bit of [y]. *)
Definition subset (x y : Z) : Prop := Z.ldiff x y = 0.

(** ** Tactics *)

(** Split the goal or a hypothesis along the boolean tests of the code. *)
Ltac branches :=
  repeat match goal with
  | H : context [guard_ret ?b _ _] |- _ => unfold guard_ret in H
  | |- context [guard_ret ?b _ _] => unfold guard_ret
  | H : context [if ?b then _ else _] |- _ =>
      lazymatch type of b with bool => destruct b eqn:? end
  | |- context [if ?b then _ else _] =>
      lazymatch type of b with bool => destruct b eqn:? end
  end; try discriminate.

(** Peel the option monad off a hypothesis that says a run is defined. *)
Ltac peel H :=
  repeat first
    [ progress cbn [mbind option_bind] in H
    | match type of H with
      | context [mbind _ ?o] =>
          let E := fresh "E" in destruct o eqn:E; [cbn [mbind option_bind] in H | discriminate H]
      end ].

(** Drive a hypothesis [run = Some _] to its return statements. *)
Ltac run H := repeat first [progress branches | progress peel H].

(** A closed range fact, by computation. *)
Ltac fits_now := split; [vm_compute; discriminate | vm_compute; reflexivity].

(** Read boolean hypotheses as propositions. *)
Ltac bools :=
  repeat match goal with
  | H : negb _ = true |- _ => apply negb_true_iff in H
  | H : negb _ = false |- _ => apply negb_false_iff in H
  | H : _ && _ = true |- _ => apply andb_true_iff in H as [? ?]
  | H : _ || _ = false |- _ => apply orb_false_iff in H as [? ?]
  | H : _ || _ = true |- _ => apply orb_true_iff in H
  | H : _ && _ = false |- _ => apply andb_false_iff in H
  | H : (_ =? _) = true |- _ => apply Z.eqb_eq in H
  | H : (_ =? _) = false |- _ => apply Z.eqb_neq in H
  | H : (_ <? _) = true |- _ => apply Z.ltb_lt in H
  | H : (_ <? _) = false |- _ => apply Z.ltb_ge in H
  | H : (_ <=? _) = true |- _ => apply Z.leb_le in H
  | H : (_ <=? _) = false |- _ => apply Z.leb_gt in H
  end.

Create HintDb moon.
Create Rewrite HintDb moon.

(** ** Lemmas on machine integers *)

Lemma wrap_range w z : 0 <= w -> 0 <= wrap w z < 2 ^ w.
Proof. intros. unfold wrap. apply Z.mod_pos_bound. lia. Qed.

Lemma wrap_small w z : fits w z -> wrap w z = z.
Proof. intros. unfold wrap. by apply Z.mod_small. Qed.

Lemma u64_small z : fits 64 z -> u64 z = z.
Proof. apply wrap_small. Qed.

Lemma u32_small z : fits 32 z -> u32 z = z.
Proof. apply wrap_small. Qed.

Lemma u16_small z : fits 16 z -> u16 z = z.
Proof. apply wrap_small. Qed.

Lemma u8_small z : fits 8 z -> u8 z = z.
Proof. apply wrap_small. Qed.

Lemma testbit_high w z n : fits w z -> 0 <= w <= n -> Z.testbit z n = false.
Proof.
  intros [Hlo Hhi] Hn. destruct (decide (z = 0)) as [->|Hz]; [apply Z.testbit_0_l|].
  apply Z.bits_above_log2; [done|].
  apply Z.log2_lt_pow2 in Hhi; lia.
Qed.

Lemma wrap_testbit w z n : 0 <= w -> 0 <= n ->
  Z.testbit (wrap w z) n = (n <? w) && Z.testbit z n.
Proof.
  intros Hw Hn. unfold wrap. destruct (Z.ltb_spec n w).
  - rewrite Z.mod_pow2_bits_low by lia. done.
  - rewrite Z.mod_pow2_bits_high by lia. done.
Qed.

Lemma fits_bits w x : 0 <= w -> (forall n, w <= n -> Z.testbit x n = false) -> fits w x.
Proof.
  intros Hw Hx. replace x with (wrap w x); [by apply wrap_range|]. apply Z.bits_inj'. intros n Hn.
  rewrite wrap_testbit by done. destruct (Z.ltb_spec n w); [done|]. symmetry. by apply Hx.
Qed.

Lemma land_bnot w x y : 0 <= w -> fits w x -> Z.land x (bnot w y) = Z.ldiff x y.
Proof.
  intros Hw Hx. apply Z.bits_inj'. intros n Hn. unfold bnot.
  rewrite Z.land_spec, wrap_testbit, Z.lnot_spec, Z.ldiff_spec by lia.
  destruct (Z.ltb_spec n w); [done|].
  rewrite (testbit_high w x n) by (done || lia). done.
Qed.

Lemma subset_bits x y :
  subset x y <-> (forall n, 0 <= n -> Z.testbit x n = true -> Z.testbit y n = true).
Proof.
  unfold subset. split.
  - intros H n Hn Hx. assert (Z.testbit (Z.ldiff x y) n = false) as E
      by (rewrite H; apply Z.testbit_0_l).
    rewrite Z.ldiff_spec, Hx in E. by destruct (Z.testbit y n).
  - intros H. apply Z.bits_inj'. intros n Hn.
    rewrite Z.ldiff_spec, Z.testbit_0_l.
    destruct (Z.testbit x n) eqn:E; [|done]. by rewrite (H n Hn E).
Qed.

#[export] Instance subset_preorder : PreOrder subset.
Proof.
  split.
  - intros x. apply subset_bits. auto.
  - intros x y z. rewrite !subset_bits. eauto.
Qed.

Lemma subset_fits w x y : 0 <= w -> subset x y -> fits w y -> fits w x.
Proof.
  intros Hw Hs Hy. unfold subset in Hs. apply Z.ldiff_le in Hs as Hle; [|unfold fits in Hy; lia].
  unfold fits in *. lia.
Qed.

Lemma subset_has_all x y r : subset x y -> has_all x r = true -> has_all y r = true.
Proof.
  unfold has_all. rewrite subset_bits, !Z.eqb_eq. intros Hs Hx.
  apply Z.bits_inj'. intros n Hn. rewrite Z.land_spec.
  assert (Z.testbit (Z.land x r) n = Z.testbit r n) as E by (by rewrite Hx).
  rewrite Z.land_spec in E. specialize (Hs n Hn).
  destruct (Z.testbit x n), (Z.testbit y n), (Z.testbit r n); try done. by rewrite Hs in *.
Qed.

Lemma bits_get_range w lo len : 0 <= len -> 0 <= bits_get w lo len < 2 ^ len.
Proof.
  intros. unfold bits_get. rewrite Z.land_ones by done. apply Z.mod_pos_bound. lia.
Qed.

Lemma bits_get_set_eq w lo len v : 0 <= lo -> 0 <= len -> fits len v ->
  bits_get (bits_set w lo len v) lo len = v.
Proof.
  intros Hlo Hlen Hv. apply Z.bits_inj'. intros n Hn. unfold bits_get, bits_set.
  rewrite Z.land_spec, Z.shiftr_spec, Z.lor_spec, Z.ldiff_spec, !Z.shiftl_spec,
    Z.land_spec by lia.
  replace (n + lo - lo) with n by lia.
  destruct (Z.lt_ge_cases n len).
  - rewrite Z.ones_spec_low by lia. by destruct (Z.testbit w (n + lo)), (Z.testbit v n).
  - rewrite Z.ones_spec_high, (testbit_high len v n) by (done || lia).
    by rewrite andb_false_r.
Qed.

(** ** Lemmas on arrays *)

Lemma arr_get_Some {A} (l : list A) i x :
  l.[i] = Some x -> 0 <= i < Z.of_nat (length l) /\ l !! Z.to_nat i = Some x.
Proof.
  unfold arr_get. destruct (Z.leb_spec 0 i); [|done]. intros E.
  pose proof (lookup_lt_Some _ _ _ E). split; [lia|done].
Qed.

Lemma arr_get_nat {A} (l : list A) (n : nat) : l.[Z.of_nat n] = l !! n.
Proof. unfold arr_get. destruct (Z.leb_spec 0 (Z.of_nat n)); [|lia]. by rewrite Nat2Z.id. Qed.

Lemma arr_get_lookup {A} (l : list A) i : 0 <= i -> l.[i] = l !! Z.to_nat i.
Proof. intros. unfold arr_get. destruct (Z.leb_spec 0 i); [done|lia]. Qed.

Lemma arr_get_is_Some {A} (l : list A) i :
  0 <= i < Z.of_nat (length l) -> is_Some l.[i].
Proof. intros. rewrite arr_get_lookup by lia. apply lookup_lt_is_Some. lia. Qed.

Lemma arr_get_None {A} (l : list A) i :
  l.[i] = None <-> ~ (0 <= i < Z.of_nat (length l)).
Proof.
  split.
  - intros E H. destruct (arr_get_is_Some l i H). congruence.
  - intros H. destruct l.[i] eqn:E; [|done]. apply arr_get_Some in E. lia.
Qed.

Lemma arr_set_Some {A} (l l' : list A) i x :
  l.[i := x] = Some l' -> 0 <= i < Z.of_nat (length l) /\ l' = <[Z.to_nat i := x]> l.
Proof. unfold arr_set. branches. intros [= <-]. split; [lia|done]. Qed.

Lemma arr_set_in {A} (l : list A) i x :
  0 <= i < Z.of_nat (length l) -> l.[i := x] = Some (<[Z.to_nat i := x]> l).
Proof. intros. unfold arr_set. branches; [done|lia]. Qed.

Lemma arr_set_None {A} (l : list A) i x :
  l.[i := x] = None <-> ~ (0 <= i < Z.of_nat (length l)).
Proof. unfold arr_set. branches; split; intros; try done; lia. Qed.

Lemma arr_set_length {A} (l l' : list A) i x :
  l.[i := x] = Some l' -> length l' = length l.
Proof. intros [_ ->]%arr_set_Some. apply length_insert. Qed.

Lemma arr_get_insert_eq {A} (l : list A) i x :
  0 <= i < Z.of_nat (length l) -> (<[Z.to_nat i := x]> l).[i] = Some x.
Proof. intros. rewrite arr_get_lookup by lia. apply list_lookup_insert_eq. lia. Qed.

Lemma arr_get_insert_ne {A} (l : list A) i j x :
  0 <= i -> i <> j -> (<[Z.to_nat i := x]> l).[j] = l.[j].
Proof.
  intros. unfold arr_get. destruct (Z.leb_spec 0 j); [|done].
  apply list_lookup_insert_ne. lia.
Qed.

Lemma arr_get_insert {A} (l : list A) i j x :
  0 <= i < Z.of_nat (length l) ->
  (<[Z.to_nat i := x]> l).[j] = if j =? i then Some x else l.[j].
Proof.
  intros. destruct (Z.eqb_spec j i) as [->|].
  - by apply arr_get_insert_eq.
  - apply arr_get_insert_ne; lia.
Qed.

Lemma arr_get_set {A} (l l' : list A) i j x :
  l.[i := x] = Some l' -> l'.[j] = if j =? i then Some x else l.[j].
Proof. intros [? ->]%arr_set_Some. by apply arr_get_insert. Qed.

Lemma arr_get_replicate {A} n (x y : A) i :
  (replicate n x).[i] = Some y -> y = x.
Proof. intros [_ [-> _]%lookup_replicate]%arr_get_Some. done. Qed.

(** ** Lemmas on counting and searching *)

Lemma count_if_nonneg {A} f (l : list A) : 0 <= count_if f l.
Proof. unfold count_if. lia. Qed.

Lemma count_if_cons {A} f (x : A) l :
  count_if f (x :: l) = (if f x then 1 else 0) + count_if f l.
Proof. unfold count_if. cbn. destruct (f x); cbn [length]; lia. Qed.

Lemma count_if_le {A} f (l : list A) : count_if f l <= Z.of_nat (length l).
Proof.
  induction l as [|x l IH]; [done|]. rewrite count_if_cons. cbn [length].
  destruct (f x); lia.
Qed.

Lemma count_if_insert {A} f (l : list A) (i : nat) x y :
  l !! i = Some y ->
  count_if f (<[i := x]> l) =
  count_if f l + (if f x then 1 else 0) - (if f y then 1 else 0).
Proof.
  revert i. induction l as [|z l IH]; intros [|i] H; try done.
  - injection H as ->. change (<[0%nat:=x]> (y :: l)) with (x :: l).
    rewrite !count_if_cons. lia.
  - change (<[S i:=x]> (z :: l)) with (z :: <[i:=x]> l).
    rewrite !count_if_cons, (IH i H). lia.
Qed.

Lemma count_if_full {A} f (l : list A) :
  count_if f l = Z.of_nat (length l) <-> Forall (fun x => f x = true) l.
Proof.
  induction l as [|x l IH]; [split; done|].
  rewrite count_if_cons. cbn [length]. pose proof (count_if_le f l). split.
  - intros H0. destruct (f x) eqn:E; [|lia]. constructor; [done|]. apply IH. lia.
  - intros [Hx Hl]%Forall_cons_1. rewrite Hx. apply IH in Hl. lia.
Qed.

Lemma count_if_replicate {A} f n (x : A) :
  f x = false -> count_if f (replicate n x) = 0.
Proof.
  intros E. induction n as [|n IH]; [done|]. cbn [replicate].
  rewrite count_if_cons, E, IH. done.
Qed.

Lemma find_idx_from_Some {A} f (l : list A) k i :
  find_idx_from f l k = Some i <->
  k <= i /\ (exists x, l !! Z.to_nat (i - k) = Some x /\ f x = true) /\
  forall j y, k <= j < i -> l !! Z.to_nat (j - k) = Some y -> f y = false.
Proof.
  revert k. induction l as [|x l IH]; intros k; cbn.
  { split; [done|]. intros (_ & (y & H & _) & _). by rewrite lookup_nil in H. }
  destruct (f x) eqn:Ex.
  - split.
    + intros [= <-]. rewrite Z.sub_diag. split_and!; [lia|by exists x|lia].
    + intros (Hk & (y & Hy & Ey) & Hmin). f_equal.
      destruct (decide (k = i)) as [|Hne]; [done|].
      specialize (Hmin k x). rewrite Z.sub_diag in Hmin.
      rewrite Hmin in Ex; [done|lia|done].
  - rewrite IH. split; intros (Hk & (y & Hy & Ey) & Hmin); split_and!.
    + lia.
    + exists y. split; [|done].
      replace (Z.to_nat (i - k)) with (S (Z.to_nat (i - (k + 1)))) by lia. done.
    + intros j z Hj Hz. destruct (decide (j = k)) as [->|Hne].
      { rewrite Z.sub_diag in Hz. by injection Hz as <-. }
      apply (Hmin j); [lia|].
      replace (Z.to_nat (j - k)) with (S (Z.to_nat (j - (k + 1)))) in Hz by lia. done.
    + destruct (decide (i = k)) as [->|Hne]; [|lia].
      rewrite Z.sub_diag in Hy. injection Hy as <-. congruence.
    + exists y. split; [|done]. destruct (decide (i = k)) as [->|Hne].
      { rewrite Z.sub_diag in Hy. injection Hy as <-. congruence. }
      replace (Z.to_nat (i - k)) with (S (Z.to_nat (i - (k + 1)))) in Hy by lia. done.
    + intros j z Hj Hz. apply (Hmin j); [lia|].
      replace (Z.to_nat (j - k)) with (S (Z.to_nat (j - (k + 1)))) by lia. done.
Qed.

Lemma find_idx_Some {A} f (l : list A) i :
  find_idx f l = Some i <->
  (exists x, l.[i] = Some x /\ f x = true) /\
  forall j y, j < i -> l.[j] = Some y -> f y = false.
Proof.
  unfold find_idx. rewrite find_idx_from_Some. split.
  - intros (Hi & (x & Hx & Ex) & Hmin). rewrite Z.sub_0_r in Hx. split.
    + exists x. by rewrite arr_get_lookup.
    + intros j y Hj [? Hy]%arr_get_Some. apply (Hmin j); [lia|]. by rewrite Z.sub_0_r.
  - intros ((x & [Hi Hx]%arr_get_Some & Ex) & Hmin). split_and!; [lia| |].
    + exists x. by rewrite Z.sub_0_r.
    + intros j y Hj Hy. rewrite Z.sub_0_r in Hy. apply (Hmin j); [lia|].
      by rewrite arr_get_lookup by lia.
Qed.

Lemma find_idx_from_None {A} f (l : list A) k :
  find_idx_from f l k = None <-> Forall (fun x => f x = false) l.
Proof.
  revert k. induction l as [|x l IH]; intros k; cbn; [split; constructor|].
  destruct (f x) eqn:E.
  - split; [done|]. intros H. apply Forall_cons_1 in H as [? _]. congruence.
  - rewrite IH, Forall_cons_iff. split; [by intros | by intros [_ ?]].
Qed.

Lemma find_idx_None {A} f (l : list A) :
  find_idx f l = None <-> Forall (fun x => f x = false) l.
Proof. apply find_idx_from_None. Qed.

#[export] Hint Resolve wrap_range arr_set_length count_if_nonneg : moon.
#[export] Hint Rewrite @length_insert @length_replicate : moon.

(** ** Counted loops *)

(** A loop whose body keeps an invariant indexed by the counter is defined and ends
    with the invariant at its bound. *)
Lemma for_loop_inv {S} (P : Z -> S -> Prop) body n : forall i s, P i s ->
  (forall j s, i <= j < i + Z.of_nat n -> P j s -> exists s', body j s = Some s' /\ P (j + 1) s') ->
  exists s', for_loop n i body s = Some s' /\ P (i + Z.of_nat n) s'.
Proof.
  induction n as [|n IH]; intros i s H0 Hstep; unfold for_loop; fold (@for_loop S).
  { exists s. by rewrite Z.add_0_r. }
  destruct (Hstep i s) as (s1 & -> & H1); [lia|done|]. cbn [mbind option_bind].
  destruct (IH (i + 1) s1 H1) as (s' & -> & H'); [intros j t Hj; apply Hstep; lia|].
  exists s'. split; [done|]. by replace (i + Z.of_nat (Datatypes.S n)) with (i + 1 + Z.of_nat n) by lia.
Qed.

Lemma le_bytes_length n : forall z, length (le_bytes n z) = n.
Proof. induction n as [|n IH]; intros z; cbn; [done|]. by rewrite IH. Qed.
