(* ===== verification/Types.v ===== *)
(** * types.h: the kernel's basic types

    Constants, error codes, the IPC message, system-call numbers and invocation
    opcodes of [kernel/include/types.h]. *)

From S2P Require Import Prelude.

Definition PAGE_SIZE : Z := 4096.
Definition MAX_PARTITIONS : Z := 8.
Definition MAX_THREADS : Z := 256.
Definition MAX_CSPACE_DEPTH : Z := 4.
Definition IPC_MSG_MAX : Z := 30.
Definition IPC_CAPS_MAX : Z := 3.

(** The null pointer. *)
Definition NULL : Z := 0.

Inductive kerror_t :=
| ERR_OK
| ERR_INVALID_CAP
| ERR_NO_RIGHTS
| ERR_INVALID_ARG
| ERR_NO_MEM
| ERR_REVOKE_NEEDED
| ERR_OVERFLOW
| ERR_PARTITION_DENIED
| ERR_WCET_EXCEEDED.

#[export] Instance kerror_eq_dec : EqDecision kerror_t.
Proof. solve_decision. Defined.

(** The value the enumerator has in a register. *)
Definition kerror_code (e : kerror_t) : Z :=
  match e with
  | ERR_OK => 0
  | ERR_INVALID_CAP => 1
  | ERR_NO_RIGHTS => 2
  | ERR_INVALID_ARG => 3
  | ERR_NO_MEM => 4
  | ERR_REVOKE_NEEDED => 5
  | ERR_OVERFLOW => 6
  | ERR_PARTITION_DENIED => 7
  | ERR_WCET_EXCEEDED => 8
  end.

(** [e == ERR_OK]. *)
Definition is_ok (e : kerror_t) : bool := bool_decide (e = ERR_OK).

Record ipc_msg_t := mk_ipc_msg {
  label : Z;
  msg_length : Z;
  msg_caps : Z;
  words : list Z;
  cap_ptrs : list Z
}.
#[export] Instance ipc_msg_eta : Eta ipc_msg_t := fun m =>
  mk_ipc_msg (label m) (msg_length m) (msg_caps m) (words m) (cap_ptrs m).

#[export] Instance ipc_msg_eq_dec : EqDecision ipc_msg_t.
Proof. solve_decision. Defined.

(** [ipc_msg_t msg = {0}]. *)
Definition ipc_msg_zero : ipc_msg_t :=
  mk_ipc_msg 0 0 0 (replicate (Z.to_nat IPC_MSG_MAX) 0) (replicate (Z.to_nat IPC_CAPS_MAX) 0).

Inductive syscall_t :=
| SYS_CALL
| SYS_REPLY_RECV
| SYS_SEND
| SYS_YIELD
| SYS_SEAL
| SYS_INVOKE.

#[export] Instance syscall_eq_dec : EqDecision syscall_t.
Proof. solve_decision. Defined.

Definition syscall_code (s : syscall_t) : Z :=
  match s with
  | SYS_CALL => 0
  | SYS_REPLY_RECV => 1
  | SYS_SEND => 2
  | SYS_YIELD => 3
  | SYS_SEAL => 4
  | SYS_INVOKE => 5
  end.

(** [(syscall_t)reg] followed by the test [sys > SYS_INVOKE]: the enum has the
    width of [unsigned int], so the cast drops the upper half of the register. *)
Definition syscall_decode (reg : Z) : option syscall_t :=
  match u32 reg with
  | 0 => Some SYS_CALL
  | 1 => Some SYS_REPLY_RECV
  | 2 => Some SYS_SEND
  | 3 => Some SYS_YIELD
  | 4 => Some SYS_SEAL
  | 5 => Some SYS_INVOKE
  | _ => None
  end.

Inductive invoke_op_t :=
| INV_UNTYPED_RETYPE
| INV_CNODE_COPY
| INV_CNODE_MINT
| INV_CNODE_MOVE
| INV_CNODE_DELETE
| INV_TCB_CONFIGURE
| INV_TCB_RESUME
| INV_TCB_SUSPEND
| INV_VSPACE_MAP
| INV_VSPACE_UNMAP
| INV_FRAME_MAP
| INV_SCHED_BIND.

#[export] Instance invoke_op_eq_dec : EqDecision invoke_op_t.
Proof. solve_decision. Defined.

Definition invoke_op_code (o : invoke_op_t) : Z :=
  match o with
  | INV_UNTYPED_RETYPE => 0
  | INV_CNODE_COPY => 1
  | INV_CNODE_MINT => 2
  | INV_CNODE_MOVE => 3
  | INV_CNODE_DELETE => 4
  | INV_TCB_CONFIGURE => 5
  | INV_TCB_RESUME => 6
  | INV_TCB_SUSPEND => 7
  | INV_VSPACE_MAP => 8
  | INV_VSPACE_UNMAP => 9
  | INV_FRAME_MAP => 10
  | INV_SCHED_BIND => 11
  end.

(** The opcode a [switch (op)] selects; [None] is its [default]. *)
Definition invoke_op_decode (op : Z) : option invoke_op_t :=
  match op with
  | 0 => Some INV_UNTYPED_RETYPE
  | 1 => Some INV_CNODE_COPY
  | 2 => Some INV_CNODE_MINT
  | 3 => Some INV_CNODE_MOVE
  | 4 => Some INV_CNODE_DELETE
  | 5 => Some INV_TCB_CONFIGURE
  | 6 => Some INV_TCB_RESUME
  | 7 => Some INV_TCB_SUSPEND
  | 8 => Some INV_VSPACE_MAP
  | 9 => Some INV_VSPACE_UNMAP
  | 10 => Some INV_FRAME_MAP
  | 11 => Some INV_SCHED_BIND
  | _ => None
  end.

(** A message as C lays it out: fixed arrays of words and capability pointers. *)
Definition ipc_msg_wf (m : ipc_msg_t) : Prop :=
  length (words m) = Z.to_nat IPC_MSG_MAX /\
  length (cap_ptrs m) = Z.to_nat IPC_CAPS_MAX /\
  fits 32 (msg_length m) /\ fits 32 (msg_caps m).

(** The bounds [endpoint_send] enforces on a message it accepts. *)
Definition ipc_msg_bounded (m : ipc_msg_t) : Prop :=
  msg_length m <= IPC_MSG_MAX /\ msg_caps m <= IPC_CAPS_MAX.

Lemma ipc_msg_zero_wf : ipc_msg_wf ipc_msg_zero.
Proof. repeat split; cbn; lia. Qed.

Lemma is_ok_true e : is_ok e = true <-> e = ERR_OK.
Proof. unfold is_ok. by rewrite bool_decide_eq_true. Qed.

Lemma kerror_code_inj e1 e2 : kerror_code e1 = kerror_code e2 -> e1 = e2.
Proof. by destruct e1, e2. Qed.

Lemma syscall_decode_code s : syscall_decode (syscall_code s) = Some s.
Proof. by destruct s. Qed.

Lemma invoke_op_decode_code o : invoke_op_decode (invoke_op_code o) = Some o.
Proof. by destruct o. Qed.

#[export] Hint Resolve ipc_msg_zero_wf : moon.
