(* ===== verification/Minilib.v ===== *)
(** * minilib.c: the freestanding memory functions

    Byte-addressed memory and the loops of [memset], [memcpy] and [memcmp]
    ([kernel/src/minilib.c]). A byte that is not in the map is not accessible:
    touching it has no defined result. *)

From S2P Require Import Prelude Types.

(** Physical memory, one byte per address. *)
Abbreviation bmem := (gmap Z Z).

Definition load8 (m : bmem) (a : Z) : option Z := m !! a.
Definition store8 (m : bmem) (a v : Z) : option bmem :=
  match m !! a with Some _ => Some (<[a := u8 v]> m) | None => None end.

(** [while(n--) *p++ = (unsigned char)c;] *)
Fixpoint memset_loop (m : bmem) (p c : Z) (n : nat) : option bmem :=
  match n with
  | O => Some m
  | S n' => m' ← store8 m p c; memset_loop m' (p + 1) c n'
  end.
Definition memset (m : bmem) (s c n : Z) : option bmem := memset_loop m s c (Z.to_nat n).

(** [while(n--) *dd++ = *ss++;] *)
Fixpoint memcpy_loop (m : bmem) (d s : Z) (n : nat) : option bmem :=
  match n with
  | O => Some m
  | S n' => v ← load8 m s; m' ← store8 m d v; memcpy_loop m' (d + 1) (s + 1) n'
  end.
Definition memcpy (m : bmem) (d s n : Z) : option bmem := memcpy_loop m d s (Z.to_nat n).

(** Stops at the first pair of bytes that differ and returns their difference. *)
Fixpoint memcmp_loop (m : bmem) (a b : Z) (n : nat) : option Z :=
  match n with
  | O => Some 0
  | S n' =>
      x ← load8 m a; y ← load8 m b;
      if negb (x =? y) then Some (x - y) else memcmp_loop m (a + 1) (b + 1) n'
  end.
Definition memcmp (m : bmem) (a b n : Z) : option Z := memcmp_loop m a b (Z.to_nat n).

(** The bytes of a range, read back as a list; the specification's view. *)
Fixpoint bytes_at (m : bmem) (a : Z) (n : nat) : option (list Z) :=
  match n with
  | O => Some []
  | S n' => x ← load8 m a; l ← bytes_at m (a + 1) n'; Some (x :: l)
  end.

(** Every byte of the range is mapped and holds an 8-bit value. *)
Definition mapped (m : bmem) (a n : Z) : Prop :=
  forall x, a <= x < a + n -> exists v, m !! x = Some v /\ fits 8 v.

Lemma store8_lookup m a v m' b :
  store8 m a v = Some m' -> m' !! b = if b =? a then Some (u8 v) else m !! b.
Proof.
  unfold store8. destruct (m !! a) eqn:E; [|done]. intros [= <-].
  destruct (Z.eqb_spec b a) as [->|]; by simplify_map_eq.
Qed.

Lemma store8_mapped m a n b v :
  mapped m a n -> a <= b < a + n ->
  exists m', store8 m b v = Some m' /\ forall x k, mapped m x k -> mapped m' x k.
Proof.
  intros Hm Hb. destruct (Hm b Hb) as (w & Hw & _). unfold store8. rewrite Hw.
  eexists. split; [done|]. intros x k Hx y Hy. destruct (decide (y = b)) as [->|].
  - exists (u8 v). rewrite lookup_insert_eq. split; [done|]. apply wrap_range. lia.
  - rewrite lookup_insert_ne by done. by apply Hx.
Qed.

Lemma memcpy_loop_frame n : forall m d s m',
  memcpy_loop m d s n = Some m' ->
  forall x, ~ (d <= x < d + Z.of_nat n) -> m' !! x = m !! x.
Proof.
  induction n as [|n IH]; intros m d s m' H x Hx; [by injection H as <-|].
  cbn in H. peel H. rewrite (IH _ _ _ _ H x) by lia.
  rewrite (store8_lookup _ _ _ _ x E0). destruct (Z.eqb_spec x d); [lia|done].
Qed.

Lemma memcpy_loop_copies n : forall m d s m',
  mapped m s (Z.of_nat n) ->
  (d + Z.of_nat n <= s \/ s + Z.of_nat n <= d) ->
  memcpy_loop m d s n = Some m' ->
  forall i, 0 <= i < Z.of_nat n -> m' !! (d + i) = m !! (s + i).
Proof.
  induction n as [|n IH]; intros m d s m' Hs Hdis H i Hi; [lia|].
  cbn in H. peel H. destruct (decide (i = 0)) as [->|Hne].
  - rewrite !Z.add_0_r, (memcpy_loop_frame _ _ _ _ _ H d) by lia.
    rewrite (store8_lookup _ _ _ _ d E0), Z.eqb_refl.
    destruct (Hs s) as (v & Hv & Hf); [lia|]. unfold load8 in E.
    rewrite Hv in E. injection E as <-. by rewrite u8_small.
  - replace (d + i) with (d + 1 + (i - 1)) by lia.
    erewrite (IH _ (d + 1) (s + 1) m'); [| | |exact H|lia].
    + rewrite (store8_lookup _ _ _ _ (s + 1 + (i - 1)) E0).
      destruct (Z.eqb_spec (s + 1 + (i - 1)) d); [lia|]. f_equal. lia.
    + intros x Hx. rewrite (store8_lookup _ _ _ _ x E0).
      destruct (Z.eqb_spec x d); [lia|]. apply Hs. lia.
    + lia.
Qed.

Lemma memcpy_loop_defined n : forall m d s,
  mapped m s (Z.of_nat n) -> mapped m d (Z.of_nat n) ->
  is_Some (memcpy_loop m d s n).
Proof.
  induction n as [|n IH]; intros m d s Hs Hd; [by eexists|]. cbn.
  destruct (Hs s) as (v & Hv & _); [lia|]. unfold load8. rewrite Hv. cbn.
  destruct (store8_mapped m d (Z.of_nat (S n)) d v Hd ltac:(lia)) as (m' & Hst & Hk).
  rewrite Hst. cbn. apply IH; apply Hk; intros x Hx; [apply Hs|apply Hd]; lia.
Qed.

Lemma memcmp_loop_zero n : forall m a b,
  mapped m a (Z.of_nat n) -> mapped m b (Z.of_nat n) ->
  exists r, memcmp_loop m a b n = Some r /\
    (r = 0 <-> forall i, 0 <= i < Z.of_nat n -> m !! (a + i) = m !! (b + i)).
Proof.
  induction n as [|n IH]; intros m a b Ha Hb.
  { exists 0. split; [done|]. split; [lia|done]. }
  destruct (Ha a) as (x & Hx & _); [lia|]. destruct (Hb b) as (y & Hy & _); [lia|].
  cbn. unfold load8. rewrite Hx, Hy. cbn. destruct (Z.eqb_spec x y) as [->|Hne]; cbn.
  - destruct (IH m (a + 1) (b + 1)) as (r & Hr & Hiff);
      [intros z Hz; apply Ha; lia|intros z Hz; apply Hb; lia|].
    exists r. split; [done|]. rewrite Hiff. split; intros H i Hi.
    + destruct (decide (i = 0)) as [->|]; [rewrite !Z.add_0_r; congruence|].
      specialize (H (i - 1)). rewrite <- !Z.add_assoc in H.
      replace (1 + (i - 1)) with i in H by lia. apply H. lia.
    + rewrite <- !Z.add_assoc. apply H. lia.
  - exists (x - y). split; [done|]. split; [lia|]. intros H.
    specialize (H 0 ltac:(lia)). rewrite !Z.add_0_r, Hx, Hy in H. congruence.
Qed.

(** [memcpy] is total on mapped, disjoint ranges: the loop ends with the
    destination holding the source bytes and every other byte as it was. *)
Theorem memcpy_correct m d s n :
  0 <= n -> mapped m s n -> mapped m d n -> d + n <= s \/ s + n <= d ->
  exists m', memcpy m d s n = Some m' /\
    (forall i, 0 <= i < n -> m' !! (d + i) = m !! (s + i)) /\
    (forall x, ~ (d <= x < d + n) -> m' !! x = m !! x).
Proof.
  intros Hn Hs Hd Hdis. unfold memcpy.
  rewrite <- (Z2Nat.id n) in Hs, Hd, Hdis by done.
  destruct (memcpy_loop_defined _ _ _ _ Hs Hd) as [m' Hm'].
  exists m'. split; [done|]. split.
  - intros i Hi. eapply memcpy_loop_copies; eauto. lia.
  - intros x Hx. eapply memcpy_loop_frame; eauto. lia.
Qed.

(** Eight bytes 0x10..0x17 holding 1..8 and eight zero bytes from 0x20. *)
Definition demo_mem : bmem :=
  list_to_map (map (fun i => (0x10 + Z.of_nat i, 1 + Z.of_nat i)) (seq 0 8) ++
               map (fun i => (0x20 + Z.of_nat i, 0)) (seq 0 8)).

Lemma demo_mem_mapped a : a = 0x10 \/ a = 0x20 -> mapped demo_mem a 8.
Proof.
  intros Ha x Hx.
  assert (x = a \/ x = a + 1 \/ x = a + 2 \/ x = a + 3 \/ x = a + 4 \/ x = a + 5 \/
          x = a + 6 \/ x = a + 7) as Hc by lia.
  destruct Ha as [-> | ->]; repeat (destruct Hc as [-> | Hc]); subst;
    eexists; (split; [vm_compute; reflexivity|fits_now]).
Qed.

Lemma memcpy_correct_witness :
  exists m', memcpy demo_mem 0x20 0x10 8 = Some m' /\ m' !! 0x23 = Some 4.
Proof.
  destruct (memcpy_correct demo_mem 0x20 0x10 8) as (m' & H & Hcopy & _).
  - lia.
  - apply demo_mem_mapped. lia.
  - apply demo_mem_mapped. lia.
  - lia.
  - exists m'. split; [exact H|]. change 0x23 with (0x20 + 3). rewrite Hcopy by lia.
    vm_compute. reflexivity.
Defined.
