(* ===== verification/Cheri.v ===== *)
(** * cheri.h, cheri.c: the simulated CHERI capability

    The hybrid build (no [__CHERI_PURE_CAPABILITY__]) carries the bounds,
    permissions, object type, tag and seal of a capability in a struct and checks
    them in software. *)

From S2P Require Import Prelude Types Minilib.

Record sim_cap_t := mk_sim_cap {
  hw_base : Z;
  hw_top : Z;
  hw_addr : Z;
  hw_perms : Z;
  hw_otype : Z;
  hw_tag : bool;
  hw_sealed : bool
}.
#[export] Instance sim_cap_eta : Eta sim_cap_t := fun c =>
  mk_sim_cap (hw_base c) (hw_top c) (hw_addr c) (hw_perms c) (hw_otype c)
    (hw_tag c) (hw_sealed c).

#[export] Instance sim_cap_eq_dec : EqDecision sim_cap_t.
Proof. solve_decision. Defined.

Definition sim_cap_zero : sim_cap_t := mk_sim_cap 0 0 0 0 0 false false.

Definition cheri_tag_get (c : sim_cap_t) : bool := hw_tag c.
Definition cheri_base_get (c : sim_cap_t) : Z := hw_base c.
Definition cheri_length_get (c : sim_cap_t) : Z := u64 (hw_top c - hw_base c).

Definition CHERI_PERM_LOAD : Z := Z.shiftl 1 0.
Definition CHERI_PERM_STORE : Z := Z.shiftl 1 1.
Definition CHERI_PERM_EXECUTE : Z := Z.shiftl 1 2.
Definition CHERI_PERM_LOAD_CAP : Z := Z.shiftl 1 3.
Definition CHERI_PERM_STORE_CAP : Z := Z.shiftl 1 4.
Definition CHERI_PERM_SEAL : Z := Z.shiftl 1 5.
Definition CHERI_PERM_UNSEAL : Z := Z.shiftl 1 6.
Definition CHERI_PERM_SYSTEM : Z := Z.shiftl 1 7.

Definition OTYPE_CNODE : Z := 0x100.
Definition OTYPE_TCB : Z := 0x101.
Definition OTYPE_VSPACE : Z := 0x102.
Definition OTYPE_ENDPOINT : Z := 0x103.
Definition OTYPE_NOTIFICATION : Z := 0x104.
Definition OTYPE_FRAME : Z := 0x105.
Definition OTYPE_SCHEDCONTEXT : Z := 0x106.
Definition OTYPE_TIMEPARTITION : Z := 0x107.

Definition cheri_cap_is_valid (cap : sim_cap_t) (base len perms : Z) : bool :=
  retif negb (hw_tag cap) with false;;
  retif hw_sealed cap with false;;
  retif negb (hw_base cap =? base) with false;;
  retif negb (hw_top cap =? u64 (base + len)) with false;;
  retif negb (Z.land (hw_perms cap) perms =? perms) with false;;
  true.

(** Returns the destination address, or [NULL] without touching memory when a
    check fails. *)
Definition cheri_memcpy_capped (m : bmem) (dst : sim_cap_t) (src len : Z)
    : option (Z * bmem) :=
  retif negb (hw_tag dst) || hw_sealed dst with Some (NULL, m);;
  retif hw_top dst <? u64 (hw_addr dst + len) with Some (NULL, m);;
  retif hw_addr dst <? hw_base dst with Some (NULL, m);;
  m' ← memcpy m (hw_addr dst) src len;
  Some (hw_addr dst, m').

(** The copy writes only inside the bounds of the destination capability. *)
Definition writes_within (m m' : bmem) (lo hi : Z) : Prop :=
  forall x, ~ (lo <= x < hi) -> m' !! x = m !! x.

Lemma memcpy_frame m d s n m' : 0 <= n ->
  memcpy m d s n = Some m' -> writes_within m m' d (d + n).
Proof.
  intros Hn H x Hx. eapply memcpy_loop_frame; [exact H|]. lia.
Qed.

Lemma cheri_cap_is_valid_spec cap base len perms :
  cheri_cap_is_valid cap base len perms = true <->
  hw_tag cap = true /\ hw_sealed cap = false /\ hw_base cap = base /\
  hw_top cap = u64 (base + len) /\ has_all (hw_perms cap) perms = true.
Proof. unfold cheri_cap_is_valid, has_all. branches; bools; rewrite ?Z.eqb_eq; intuition congruence. Qed.

(** C29. The copy through a capability stays inside it: whenever
    [dst.addr + len] does not leave the 64-bit address space, the bytes outside
    [base, top) keep their values, and a null result has copied nothing. *)
Theorem cheri_memcpy_confined m dst src len r m' :
  fits 64 (hw_addr dst) -> fits 64 (hw_addr dst + len) -> 0 <= len ->
  cheri_memcpy_capped m dst src len = Some (r, m') ->
  writes_within m m' (hw_base dst) (hw_top dst) /\
  (r = NULL -> m' = m \/ hw_addr dst = NULL).
Proof.
  intros Ha Hal Hlen. unfold cheri_memcpy_capped, guard_ret.
  rewrite (u64_small _ Hal). branches.
  1-3: intros [= <- <-]; split; [done|by left].
  intros H. peel H. injection H as <- <-. split; [|by right].
  intros x Hx. eapply memcpy_frame; [exact Hlen|exact E|lia].
Qed.

Lemma cheri_memcpy_confined_witness :
  exists m', cheri_memcpy_capped demo_mem (mk_sim_cap 0x20 0x28 0x22 3 0 true false) 0x10 4
               = Some (0x22, m') /\ writes_within demo_mem m' 0x20 0x28.
Proof.
  eexists. split; [vm_compute; reflexivity|].
  eapply (cheri_memcpy_confined demo_mem (mk_sim_cap 0x20 0x28 0x22 3 0 true false) 0x10 4);
    [fits_now|fits_now|discriminate|vm_compute; reflexivity].
Defined.

(** Without the hypothesis the bound test wraps: a capability of one page admits
    a copy whose length exceeds it. *)
Theorem cheri_memcpy_bound_wraps :
  exists dst len, hw_tag dst = true /\ hw_sealed dst = false /\
    fits 64 len /\ hw_top dst - hw_base dst < len /\
    forall m src, cheri_memcpy_capped m dst src len =
      (m' ← memcpy m (hw_addr dst) src len; Some (hw_addr dst, m')).
Proof.
  exists (mk_sim_cap 0x1000 0x2000 0x1000 3 0 true false), (2 ^ 64 - 0x800).
  repeat split; cbn; lia.
Qed.
