(* ===== verification/Cap.v ===== *)
(** * cap.h, cap.c: kernel capabilities

    [cap_t] with its untagged union kept as the words C lays it out in, so that
    a member written through one view is read back through another the way the
    compiled code reads it; derivation and retyping ([kernel/src/cap.c]). *)

From S2P Require Import Prelude Types Cheri.

Definition MAX_CAPS_PER_CNODE : Z := 256.
Definition CAP_RIGHTS_READ : Z := Z.shiftl 1 0.
Definition CAP_RIGHTS_WRITE : Z := Z.shiftl 1 1.
Definition CAP_RIGHTS_GRANT : Z := Z.shiftl 1 2.
Definition CAP_RIGHTS_GRANT_REPLY : Z := Z.shiftl 1 3.

(** [cap_type_t] is an open enum: the system-call layer casts a register into
    it, and the code does arithmetic on it. *)
Abbreviation cap_type_t := Z (only parsing).
Definition CAP_NULL : cap_type_t := 0.
Definition CAP_UNTYPED : cap_type_t := 1.
Definition CAP_CNODE : cap_type_t := 2.
Definition CAP_TCB : cap_type_t := 3.
Definition CAP_VSPACE : cap_type_t := 4.
Definition CAP_FRAME : cap_type_t := 5.
Definition CAP_ENDPOINT : cap_type_t := 6.
Definition CAP_NOTIFICATION : cap_type_t := 7.
Definition CAP_IRQ : cap_type_t := 8.
Definition CAP_IOMMU : cap_type_t := 9.
Definition CAP_SCHED_CONTEXT : cap_type_t := 10.
Definition CAP_TIME_PARTITION : cap_type_t := 11.

(** ** The union

    Its largest member ([iommu]) spans four 64-bit words; the others overlay a
    prefix of them, little-endian, at the offsets of the lp64 ABI. *)

Record cap_u := mk_cap_u { w0 : Z; w1 : Z; w2 : Z; w3 : Z }.
#[export] Instance cap_u_eta : Eta cap_u := fun u => mk_cap_u (w0 u) (w1 u) (w2 u) (w3 u).

#[export] Instance cap_u_eq_dec : EqDecision cap_u.
Proof. solve_decision. Defined.

Definition cap_u_zero : cap_u := mk_cap_u 0 0 0 0.

Definition untyped_paddr (u : cap_u) : Z := w0 u.
Definition untyped_size (u : cap_u) : Z := w1 u.
Definition untyped_free_idx (u : cap_u) : Z := bits_get (w2 u) 0 16.
Definition cnode_guard (u : cap_u) : Z := bits_get (w0 u) 0 32.
Definition tcb_tcb_ptr (u : cap_u) : Z := w0 u.
Definition vspace_root_pt (u : cap_u) : Z := w0 u.
Definition vspace_asid (u : cap_u) : Z := bits_get (w1 u) 0 16.
Definition frame_paddr (u : cap_u) : Z := w0 u.
Definition frame_perms (u : cap_u) : Z := bits_get (w1 u) 0 8.
Definition frame_color (u : cap_u) : Z := bits_get (w1 u) 16 16.
Definition endpoint_ep_ptr (u : cap_u) : Z := w0 u.
Definition irq_irq (u : cap_u) : Z := bits_get (w0 u) 0 32.
Definition irq_badge (u : cap_u) : Z := bits_get (w0 u) 32 32.
Definition iommu_dev_id (u : cap_u) : Z := bits_get (w0 u) 0 32.

Definition set_untyped_paddr (v : Z) (u : cap_u) : cap_u := u <| w0 := v |>.
Definition set_untyped_size (v : Z) (u : cap_u) : cap_u := u <| w1 := v |>.
Definition set_frame_paddr (v : Z) (u : cap_u) : cap_u := u <| w0 := v |>.
Definition set_frame_color (v : Z) (u : cap_u) : cap_u :=
  u <| w1 := bits_set (w1 u) 16 16 v |>.
Definition set_endpoint_ep_ptr (v : Z) (u : cap_u) : cap_u := u <| w0 := v |>.

Record cap_t := mk_cap {
  type : cap_type_t;
  rights : Z;
  badge : Z;
  is_sealed : bool;
  is_valid : bool;
  color : Z;
  u : cap_u;
  hw_cap : sim_cap_t
}.
#[export] Instance cap_eta : Eta cap_t := fun c =>
  mk_cap (type c) (rights c) (badge c) (is_sealed c) (is_valid c) (color c) (u c) (hw_cap c).

#[export] Instance cap_eq_dec : EqDecision cap_t.
Proof. solve_decision. Defined.

(** [cap_t c = {0}], and what [memset(c, 0, sizeof(cap_t))] leaves. *)
Definition cap_zero : cap_t := mk_cap 0 0 0 false false 0 cap_u_zero sim_cap_zero.

Definition cap_has_right (c : cap_t) (r : Z) : bool := Z.land (rights c) r =? r.

Definition cap_is_valid (c : option cap_t) : bool :=
  match c with
  | None => false
  | Some c =>
      retif negb (is_valid c) with false;;
      retif type c =? CAP_NULL with false;;
      retif negb (cheri_tag_get (hw_cap c)) with false;;
      true
  end.

Definition cap_derive (parent : cap_t) (new_rights new_badge : Z) : cap_t :=
  let child := parent in
  retif negb (Z.land new_rights (bnot 32 (rights parent)) =? 0)
    with child <| is_valid := false |>;;
  child <| rights := new_rights |> <| badge := new_badge |>.

Definition cap_can_retype (untyped : cap_t) (new_type : cap_type_t) (size : Z) : bool :=
  retif negb (type untyped =? CAP_UNTYPED) with false;;
  retif negb (is_valid untyped) with false;;
  retif untyped_size (u untyped) <? size with false;;
  retif new_type =? CAP_UNTYPED with false;;
  retif negb (Z.land size (u64 (size - 1)) =? 0) with false;;
  retif size <? 4096 with false;;
  true.

Definition cap_retype (untyped : cap_t) (new_type : cap_type_t) (paddr size : Z) : cap_t :=
  let c := cap_zero in
  retif negb (cap_can_retype untyped new_type size) with c;;
  c <| type := new_type |>
    <| rights := 0xF |>
    <| is_valid := true |>
    <| is_sealed := true |>
    <| u ::= set_frame_paddr paddr |>
    <| hw_cap := mk_sim_cap paddr (u64 (paddr + size)) paddr 0
                   (u32 (OTYPE_FRAME + u32 (new_type - CAP_FRAME))) true true |>.

(** ** Derivation as a relation

    [derived_from child parent]: [child] names the same object with the same
    hardware capability and no right its parent lacks. *)

Definition derived_from (child parent : cap_t) : Prop :=
  type child = type parent /\ u child = u parent /\ hw_cap child = hw_cap parent /\
  color child = color parent /\ is_sealed child = is_sealed parent /\
  subset (rights child) (rights parent).

#[export] Instance derived_from_preorder : PreOrder derived_from.
Proof.
  split.
  - intros c. repeat split. apply reflexivity.
  - intros a b c (?&?&?&?&?&?) (?&?&?&?&?&?). repeat split; try congruence.
    by etransitivity.
Qed.

(** The struct's field widths. *)
Definition cap_wf (c : cap_t) : Prop := fits 32 (rights c) /\ fits 32 (badge c).

Lemma cap_zero_wf : cap_wf cap_zero.
Proof. split; unfold fits; cbn; lia. Qed.

Lemma cap_derive_valid parent r b : fits 32 r ->
  is_valid (cap_derive parent r b) = true <->
  is_valid parent = true /\ subset r (rights parent).
Proof.
  intros Hr. unfold cap_derive, guard_ret, subset. rewrite land_bnot by done.
  destruct (Z.eqb_spec (Z.ldiff r (rights parent)) 0); cbn; intuition congruence.
Qed.

Lemma cap_derive_fields parent r b : fits 32 r -> subset r (rights parent) ->
  cap_derive parent r b = parent <| rights := r |> <| badge := b |>.
Proof.
  intros Hr Hs. unfold cap_derive, guard_ret. rewrite land_bnot by done.
  unfold subset in Hs. rewrite Hs. done.
Qed.

Lemma cap_derive_derived parent r b : fits 32 r ->
  is_valid (cap_derive parent r b) = true -> derived_from (cap_derive parent r b) parent.
Proof.
  intros Hr Hv. apply cap_derive_valid in Hv as [_ Hs]; [|done].
  rewrite cap_derive_fields by done. repeat split. exact Hs.
Qed.

Lemma cap_has_right_mono child parent r :
  derived_from child parent -> cap_has_right child r = true -> cap_has_right parent r = true.
Proof. intros (_&_&_&_&_&Hs). by apply subset_has_all. Qed.

Lemma pow2_test n : 0 < n < 2 ^ 64 -> Z.land n (u64 (n - 1)) = 0 -> exists k, 0 <= k /\ n = 2 ^ k.
Proof.
  intros Hn H. rewrite u64_small in H by (unfold fits; lia).
  exists (Z.log2 n). split; [apply Z.log2_nonneg|].
  destruct (Z.log2_spec n ltac:(lia)) as [Hlo Hhi].
  destruct (decide (n = 2 ^ Z.log2 n)) as [|Hne]; [done|exfalso].
  assert (Z.log2 (n - 1) = Z.log2 n) as El.
  { apply Z.log2_unique; [apply Z.log2_nonneg|lia]. }
  assert (Z.testbit (Z.land n (n - 1)) (Z.log2 n) = true) as E.
  { rewrite Z.land_spec. apply andb_true_iff. split; [by apply Z.bit_log2; lia|].
    rewrite <- El. apply Z.bit_log2. pose proof (Z.pow_pos_nonneg 2 (Z.log2 n)).
    pose proof (Z.log2_nonneg n). lia. }
  rewrite H, Z.testbit_0_l in E. done.
Qed.

Lemma cap_can_retype_spec c t size : fits 64 size ->
  cap_can_retype c t size = true ->
  type c = CAP_UNTYPED /\ is_valid c = true /\ size <= untyped_size (u c) /\
  t <> CAP_UNTYPED /\ PAGE_SIZE <= size /\ exists k, 12 <= k /\ size = 2 ^ k.
Proof.
  intros Hf. unfold cap_can_retype. branches. bools. intros _.
  destruct (pow2_test size) as (k & Hk & ->); [unfold fits in Hf; lia|done|].
  repeat split; try done. exists k. split; [|done].
  destruct (Z.lt_ge_cases k 12) as [Hlt|]; [|done].
  assert (2 ^ k < 2 ^ 12) by (apply Z.pow_lt_mono_r; lia). lia.
Qed.

#[export] Hint Resolve cap_zero_wf cap_derive_derived : moon.

(** [cap_derive] attenuates: the child is valid exactly when the parent is and
    the requested rights are a subset of the parent's; a valid child names the
    same object through the same hardware capability, carries the requested
    rights and badge, and passes no rights test its parent fails. *)
Theorem cap_derive_attenuates parent r b :
  fits 32 r ->
  let child := cap_derive parent r b in
  (is_valid child = true <-> is_valid parent = true /\ subset r (rights parent)) /\
  (is_valid child = true ->
     derived_from child parent /\ rights child = r /\ badge child = b /\
     forall right, cap_has_right child right = true -> cap_has_right parent right = true).
Proof.
  intros Hr child. split; [by apply cap_derive_valid|]. intros Hv.
  pose proof Hv as Hs. apply cap_derive_valid in Hs as [_ Hs]; [|done].
  split; [by apply cap_derive_derived|]. subst child.
  split_and!; [by rewrite cap_derive_fields..|].
  intros right. apply cap_has_right_mono. by apply cap_derive_derived.
Qed.

Definition demo_frame : cap_t :=
  mk_cap CAP_FRAME CAP_RIGHTS_READ 0 true true 0 (mk_cap_u 0x80000000 0 0 0)
    (mk_sim_cap 0x80000000 0x80001000 0x80000000 0 OTYPE_FRAME true true).

Lemma cap_derive_attenuates_witness :
  fits 32 CAP_RIGHTS_READ /\
  is_valid (cap_derive demo_frame CAP_RIGHTS_READ 42) = true /\
  derived_from (cap_derive demo_frame CAP_RIGHTS_READ 42) demo_frame.
Proof.
  assert (fits 32 CAP_RIGHTS_READ) as Hf by fits_now.
  split_and!; [done|reflexivity|].
  apply (cap_derive_attenuates demo_frame CAP_RIGHTS_READ 42 Hf). reflexivity.
Defined.
