(* ===== verification/CNode.v ===== *)
(** * cnode.h, cnode.c: capability nodes

    A capability node is an array of 256 slots. The operations take pointers to
    their source and destination nodes, which may be the same node, so they are
    modelled on a store of nodes addressed by pointer. *)

From S2P Require Import Prelude Types Cheri Cap.

Record cnode_t := mk_cnode {
  slots : list cap_t;
  guard : Z;
  radix : Z;
  guard_size : Z;
  used : Z
}.
#[export] Instance cnode_eta : Eta cnode_t := fun c =>
  mk_cnode (slots c) (guard c) (radix c) (guard_size c) (used c).

Definition cnode_zero : cnode_t :=
  mk_cnode (replicate (Z.to_nat MAX_CAPS_PER_CNODE) cap_zero) 0 0 0 0.

(** The nodes in memory, by address. *)
Abbreviation cnodes := (gmap Z cnode_t).

(** [cn->slots[i]] for an index the caller has bounded. *)
Definition slot_at (cn : cnode_t) (i : Z) : cap_t := default cap_zero (slots cn).[i].

Definition cnode_init (h : cnodes) (cn guard' radix' : Z) : option (kerror_t * cnodes) :=
  retif cn =? NULL with Some (ERR_INVALID_ARG, h);;
  retif (8 <? radix') || (radix' =? 0) with Some (ERR_INVALID_ARG, h);;
  _ ← h !! cn;
  Some (ERR_OK, <[cn := cnode_zero <| guard := guard' |> <| radix := radix' |>]> h).

(** The result is the index of the slot the returned pointer designates; [None]
    is the null pointer. [None] as an argument is a null node. [guard_size], the count of
    a shift, is 0 in every node the code makes. *)
Definition cnode_lookup (cn : option cnode_t) (idx : Z) : option Z :=
  match cn with
  | None => None
  | Some cn =>
      retif (radix cn =? 0) || (8 <? radix cn) with None;;
      let mask := u32 (Z.shiftl 1 (radix cn) - 1) in
      retif (0 <? guard_size cn) &&
            negb (Z.shiftr idx (radix cn) =?
                  Z.land (guard cn) (u32 (Z.shiftl 1 (guard_size cn) - 1))) with None;;
      let slot := if radix cn =? 8 then Z.land idx 0xFF else Z.land idx mask in
      retif MAX_CAPS_PER_CNODE <=? slot with None;;
      let c := slot_at cn slot in
      retif negb (is_valid c) with None;;
      retif negb (cheri_tag_get (hw_cap c)) with None;;
      Some slot
  end.

Definition cnode_copy (h : cnodes) (dst dst_idx src src_idx rights' : Z)
    : option (kerror_t * cnodes) :=
  retif (dst =? NULL) || (src =? NULL) with Some (ERR_INVALID_ARG, h);;
  retif (MAX_CAPS_PER_CNODE <=? dst_idx) || (MAX_CAPS_PER_CNODE <=? src_idx)
    with Some (ERR_INVALID_ARG, h);;
  scn ← h !! src;
  match cnode_lookup (Some scn) src_idx with
  | None => Some (ERR_INVALID_CAP, h)
  | Some s =>
      let sc := slot_at scn s in
      retif negb (Z.land rights' (bnot 32 (rights sc)) =? 0) with Some (ERR_NO_RIGHTS, h);;
      let derived := cap_derive sc rights' (badge sc) in
      retif negb (is_valid derived) with Some (ERR_INVALID_CAP, h);;
      dcn ← h !! dst;
      old ← (slots dcn).[dst_idx];
      retif is_valid old with Some (ERR_REVOKE_NEEDED, h);;
      sl ← (slots dcn).[dst_idx := derived];
      Some (ERR_OK, <[dst := dcn <| slots := sl |> <| used ::= fun n => u32 (n + 1) |>]> h)
  end.

Definition cnode_mint (h : cnodes) (dst dst_idx src src_idx rights' badge' : Z)
    : option (kerror_t * cnodes) :=
  retif (dst =? NULL) || (src =? NULL) with Some (ERR_INVALID_ARG, h);;
  retif (MAX_CAPS_PER_CNODE <=? dst_idx) || (MAX_CAPS_PER_CNODE <=? src_idx)
    with Some (ERR_INVALID_ARG, h);;
  scn ← h !! src;
  match cnode_lookup (Some scn) src_idx with
  | None => Some (ERR_INVALID_CAP, h)
  | Some s =>
      let sc := slot_at scn s in
      retif negb (cap_has_right sc CAP_RIGHTS_GRANT) with Some (ERR_NO_RIGHTS, h);;
      dcn ← h !! dst;
      old ← (slots dcn).[dst_idx];
      retif is_valid old with Some (ERR_REVOKE_NEEDED, h);;
      let derived := cap_derive sc rights' badge' in
      retif negb (is_valid derived) with Some (ERR_INVALID_CAP, h);;
      sl ← (slots dcn).[dst_idx := derived];
      Some (ERR_OK, <[dst := dcn <| slots := sl |> <| used ::= fun n => u32 (n + 1) |>]> h)
  end.

(** No bound test on [dst_idx], and [used] is left alone in both nodes. *)
Definition cnode_move (h : cnodes) (dst dst_idx src src_idx : Z)
    : option (kerror_t * cnodes) :=
  retif (dst =? NULL) || (src =? NULL) with Some (ERR_INVALID_ARG, h);;
  scn ← h !! src;
  match cnode_lookup (Some scn) src_idx with
  | None => Some (ERR_INVALID_CAP, h)
  | Some s =>
      let sc := slot_at scn s in
      dcn ← h !! dst;
      old ← (slots dcn).[dst_idx];
      retif is_valid old with Some (ERR_REVOKE_NEEDED, h);;
      sl ← (slots dcn).[dst_idx := sc];
      let h1 := <[dst := dcn <| slots := sl |>]> h in
      scn1 ← h1 !! src;
      sl1 ← (slots scn1).[s := cap_zero];
      Some (ERR_OK, <[src := scn1 <| slots := sl1 |>]> h1)
  end.

Definition cnode_delete (h : cnodes) (cn idx : Z) : option (kerror_t * cnodes) :=
  retif cn =? NULL with Some (ERR_INVALID_ARG, h);;
  retif MAX_CAPS_PER_CNODE <=? idx with Some (ERR_INVALID_ARG, h);;
  n ← h !! cn;
  c ← (slots n).[idx];
  retif negb (is_valid c) with Some (ERR_INVALID_CAP, h);;
  sl ← (slots n).[idx := cap_zero];
  Some (ERR_OK, <[cn := n <| slots := sl |> <| used ::= fun k => u32 (k - 1) |>]> h).

(** ** Sequences of operations *)

Inductive cnode_op :=
| OpCopy (dst dst_idx src src_idx rights' : Z)
| OpMint (dst dst_idx src src_idx rights' badge' : Z)
| OpMove (dst dst_idx src src_idx : Z)
| OpDelete (cn idx : Z).

Definition cnode_exec (h : cnodes) (o : cnode_op) : option (kerror_t * cnodes) :=
  match o with
  | OpCopy d di s si r => cnode_copy h d di s si r
  | OpMint d di s si r b => cnode_mint h d di s si r b
  | OpMove d di s si => cnode_move h d di s si
  | OpDelete c i => cnode_delete h c i
  end.

(** The arguments have the C types of the parameters. *)
Definition op_typed (o : cnode_op) : Prop :=
  match o with
  | OpCopy _ di _ si r => fits 32 di /\ fits 32 si /\ fits 32 r
  | OpMint _ di _ si r b => fits 32 di /\ fits 32 si /\ fits 32 r /\ fits 32 b
  | OpMove _ di _ si => fits 32 di /\ fits 32 si
  | OpDelete _ i => fits 32 i
  end.

Inductive cnode_step (h h' : cnodes) : Prop :=
| cnode_step_intro o e : op_typed o -> cnode_exec h o = Some (e, h') -> cnode_step h h'.

(** [holds h c]: some node of the store has the valid capability [c] in a slot. *)
Definition holds (h : cnodes) (c : cap_t) : Prop :=
  exists p cn i, h !! p = Some cn /\ (slots cn).[i] = Some c /\ is_valid c = true.

(** The shape of a node in memory. *)
Definition cnode_wf (cn : cnode_t) : Prop :=
  length (slots cn) = Z.to_nat MAX_CAPS_PER_CNODE.
Definition cnodes_wf (h : cnodes) : Prop := forall p cn, h !! p = Some cn -> cnode_wf cn.

(** [used] counts the valid slots. *)
Definition used_ok (cn : cnode_t) : Prop := used cn = count_if is_valid (slots cn).
Definition cnodes_used_ok (h : cnodes) : Prop := forall p cn, h !! p = Some cn -> used_ok cn.

(** ** Lemmas *)

Arguments cnode_lookup : simpl never.

(** One slot of one node rewritten and its counter updated by [f]: the store
    effect all the operations are made of. *)
Definition put_slot (h : cnodes) (p i : Z) (c : cap_t) (f : Z -> Z) (h' : cnodes) : Prop :=
  exists cn, h !! p = Some cn /\ 0 <= i < Z.of_nat (length (slots cn)) /\
    h' = <[p := cn <| slots := <[Z.to_nat i := c]> (slots cn) |> <| used ::= f |>]> h.

Lemma slot_at_valid cn i : is_valid (slot_at cn i) = true ->
  (slots cn).[i] = Some (slot_at cn i).
Proof. unfold slot_at. by destruct (slots cn).[i]. Qed.

Lemma cnode_lookup_Some cn idx s : cnode_lookup (Some cn) idx = Some s ->
  (slots cn).[s] = Some (slot_at cn s) /\ is_valid (slot_at cn s) = true /\
  cheri_tag_get (hw_cap (slot_at cn s)) = true.
Proof.
  unfold cnode_lookup, guard_ret; cbn zeta. intros H. branches; injection H as <-; bools;
    split_and!; auto using slot_at_valid.
Qed.

Lemma put_slot_holds h p i c f h' x :
  put_slot h p i c f h' -> holds h' x -> (x = c /\ is_valid c = true) \/ holds h x.
Proof.
  intros (cn & Hp & Hi & ->) (q & cn' & j & Hq & Hj & Hv).
  destruct (decide (p = q)) as [<-|Hne]; simplify_map_eq.
  - rewrite arr_get_insert in Hj by done. destruct (Z.eqb_spec j i) as [Ej|Ej].
    + injection Hj as <-. by left.
    + right. by exists p, cn, j.
  - right. by exists q, cn', j.
Qed.

Lemma put_slot_wf h p i c f h' : put_slot h p i c f h' -> cnodes_wf h -> cnodes_wf h'.
Proof.
  intros (cn & Hp & Hi & ->) Hwf q cn' Hq. destruct (decide (p = q)) as [<-|]; simplify_map_eq.
  - unfold cnode_wf. cbn. rewrite length_insert. by apply (Hwf p).
  - by apply (Hwf q).
Qed.

(** The effect of each operation: an error leaves the store alone; success writes
    one slot (and, for a move, clears another). *)
Lemma cnode_copy_effect h d di s si r e h' : fits 32 r ->
  cnode_copy h d di s si r = Some (e, h') ->
  (e <> ERR_OK /\ h' = h) \/
  (e = ERR_OK /\ exists dcn old sc,
     h !! d = Some dcn /\ (slots dcn).[di] = Some old /\ is_valid old = false /\
     holds h sc /\ is_valid (cap_derive sc r (badge sc)) = true /\
     put_slot h d di (cap_derive sc r (badge sc)) (fun n => u32 (n + 1)) h').
Proof.
  intros Hr H. unfold cnode_copy, guard_ret in H. branches; try (injection H as <- <-; by left).
  destruct (h !! s) as [scn|] eqn:Es; [cbn [mbind option_bind] in H|done].
  destruct (cnode_lookup (Some scn) si) as [sl|] eqn:El; [|injection H as <- <-; by left].
  apply cnode_lookup_Some in El as (Hg & Hv & _).
  run H; injection H as <- <-; try by left. right.
  apply arr_set_Some in E1 as [Hi ->]. bools. split; [done|].
  exists c, c0, (slot_at scn sl). split_and!; try done; [by exists s, scn, sl|by exists c].
Qed.

Lemma cnode_mint_effect h d di s si r b e h' : fits 32 r ->
  cnode_mint h d di s si r b = Some (e, h') ->
  (e <> ERR_OK /\ h' = h) \/
  (e = ERR_OK /\ exists dcn old sc,
     h !! d = Some dcn /\ (slots dcn).[di] = Some old /\ is_valid old = false /\
     holds h sc /\ cap_has_right sc CAP_RIGHTS_GRANT = true /\
     is_valid (cap_derive sc r b) = true /\
     put_slot h d di (cap_derive sc r b) (fun n => u32 (n + 1)) h').
Proof.
  intros Hr H. unfold cnode_mint, guard_ret in H. branches; try (injection H as <- <-; by left).
  destruct (h !! s) as [scn|] eqn:Es; [cbn [mbind option_bind] in H|done].
  destruct (cnode_lookup (Some scn) si) as [sl|] eqn:El; [|injection H as <- <-; by left].
  apply cnode_lookup_Some in El as (Hg & Hv & _).
  run H; injection H as <- <-; try by left. right.
  apply arr_set_Some in E1 as [Hi ->]. bools. split; [done|].
  exists c, c0, (slot_at scn sl). split_and!; try done; [by exists s, scn, sl|by exists c].
Qed.

Lemma cnode_move_effect h d di s si e h' :
  cnode_move h d di s si = Some (e, h') ->
  (e <> ERR_OK /\ h' = h) \/
  (e = ERR_OK /\ exists scn dcn old sl h1,
     h !! s = Some scn /\ cnode_lookup (Some scn) si = Some sl /\
     h !! d = Some dcn /\ (slots dcn).[di] = Some old /\ is_valid old = false /\
     put_slot h d di (slot_at scn sl) id h1 /\
     put_slot h1 s sl cap_zero id h').
Proof.
  intros H. unfold cnode_move, guard_ret in H. branches; try (injection H as <- <-; by left).
  destruct (h !! s) as [scn|] eqn:Es; [cbn [mbind option_bind] in H|done].
  destruct (cnode_lookup (Some scn) si) as [sl|] eqn:El; [|injection H as <- <-; by left].
  run H; injection H as <- <-; [by left|right]. split; [done|].
  apply arr_set_Some in E1 as [Hi ->]. apply arr_set_Some in E3 as [Hi' ->].
  exists scn, c, c0, sl, (<[d := c <| slots := <[Z.to_nat di := slot_at scn sl]> (slots c) |>]> h).
  split_and!; [done..|by exists c|by exists c1].
Qed.

Lemma cnode_delete_effect h p i e h' : cnode_delete h p i = Some (e, h') ->
  (e <> ERR_OK /\ h' = h) \/
  (e = ERR_OK /\ exists cn c, h !! p = Some cn /\ (slots cn).[i] = Some c /\
     is_valid c = true /\ put_slot h p i cap_zero (fun n => u32 (n - 1)) h').
Proof.
  intros H. unfold cnode_delete, guard_ret in H. branches; try (injection H as <- <-; by left).
  run H; injection H as <- <-; [by left|right].
  apply arr_set_Some in E1 as [Hi ->]. bools. split; [done|]. exists c, c0.
  split_and!; [done..|by exists c].
Qed.

(** One operation adds no authority. *)
Lemma cnode_step_confined h h' : cnode_step h h' ->
  forall c, holds h' c -> exists c0, holds h c0 /\ derived_from c c0.
Proof.
  intros [o e Ht H] c Hc. destruct o as [d di s si r|d di s si r b|d di s si|p i]; cbn in *.
  - destruct Ht as (_ & _ & Hr). destruct (cnode_copy_effect _ _ _ _ _ _ _ _ Hr H)
      as [[_ ->]|(_ & dcn & old & sc & _ & _ & _ & Hsc & Hv & Hput)]; [by exists c|].
    destruct (put_slot_holds _ _ _ _ _ _ _ Hput Hc) as [[-> _]|]; [|by exists c].
    exists sc. split; [done|]. by apply cap_derive_derived.
  - destruct Ht as (_ & _ & Hr & _).
    destruct (cnode_mint_effect _ _ _ _ _ _ _ _ _ Hr H)
      as [[_ ->]|(_ & dcn & old & sc & _ & _ & _ & Hsc & _ & Hv & Hput)]; [by exists c|].
    destruct (put_slot_holds _ _ _ _ _ _ _ Hput Hc) as [[-> _]|]; [|by exists c].
    exists sc. split; [done|]. by apply cap_derive_derived.
  - destruct (cnode_move_effect _ _ _ _ _ _ _ H)
      as [[_ ->]|(_ & scn & dcn & old & sl & h1 & Hs & Hl & _ & _ & _ & Hp1 & Hp2)];
      [by exists c|].
    destruct (put_slot_holds _ _ _ _ _ _ _ Hp2 Hc) as [[-> ?]|Hc1]; [done|].
    destruct (put_slot_holds _ _ _ _ _ _ _ Hp1 Hc1) as [[-> ?]|]; [|by exists c].
    apply cnode_lookup_Some in Hl as (Hg & Hv & _).
    eexists. split; [|done]. by exists s, scn, sl.
  - destruct (cnode_delete_effect _ _ _ _ _ H) as [[_ ->]|(_ & cn & c1 & _ & _ & _ & Hput)];
      [by exists c|].
    destruct (put_slot_holds _ _ _ _ _ _ _ Hput Hc) as [[-> ?]|]; [done|by exists c].
Qed.

(** ** The slot counter *)

Lemma put_slot_used h p i c f h' cn old :
  cnodes_used_ok h -> h !! p = Some cn -> (slots cn).[i] = Some old ->
  put_slot h p i c f h' ->
  f (used cn) = used cn + (if is_valid c then 1 else 0) - (if is_valid old then 1 else 0) ->
  cnodes_used_ok h'.
Proof.
  intros Hok Hp [_ Hold]%arr_get_Some (cn' & Hp' & Hi & ->) Hf q cnq Hq.
  destruct (decide (p = q)) as [<-|]; simplify_map_eq; [|by apply (Hok q)].
  unfold used_ok. cbn. rewrite Hf, (count_if_insert _ _ _ _ _ Hold), (Hok p _ Hp). done.
Qed.

Lemma used_ok_bounds h p cn : cnodes_wf h -> cnodes_used_ok h -> h !! p = Some cn ->
  0 <= used cn <= MAX_CAPS_PER_CNODE.
Proof.
  intros Hwf Hok Hp. rewrite (Hok p _ Hp). pose proof (count_if_le is_valid (slots cn)).
  rewrite (Hwf p _ Hp) in H. pose proof (count_if_nonneg is_valid (slots cn)). unfold MAX_CAPS_PER_CNODE in *. lia.
Qed.

Lemma count_if_pos {A} (f : A -> bool) l (i : nat) x :
  l !! i = Some x -> f x = true -> 1 <= count_if f l.
Proof.
  revert i. induction l as [|y l IH]; intros [|i] H Hx; try done; rewrite count_if_cons.
  - injection H as ->. rewrite Hx. pose proof (count_if_nonneg f l). lia.
  - specialize (IH i H Hx). destruct (f y); lia.
Qed.

Lemma used_succ h p cn : cnodes_wf h -> cnodes_used_ok h -> h !! p = Some cn ->
  u32 (used cn + 1) = used cn + 1.
Proof.
  intros Hwf Hok Hp. pose proof (used_ok_bounds _ _ _ Hwf Hok Hp).
  apply u32_small. unfold fits, MAX_CAPS_PER_CNODE in *. lia.
Qed.

(** A move within one node. *)
Definition local_op (o : cnode_op) : Prop :=
  match o with OpMove d _ s _ => d = s | _ => True end.

(** ** Definedness *)

(** A pointer that is null or addresses a node. *)
Definition ptr_ok (h : cnodes) (p : Z) : Prop := p = NULL \/ is_Some (h !! p).

Definition op_ptrs_ok (h : cnodes) (o : cnode_op) : Prop :=
  match o with
  | OpCopy d _ s _ _ | OpMint d _ s _ _ _ => ptr_ok h d /\ ptr_ok h s
  | OpMove d di s _ => ptr_ok h d /\ ptr_ok h s /\ di < MAX_CAPS_PER_CNODE
  | OpDelete p _ => ptr_ok h p
  end.

Lemma slot_defined h p cn i : cnodes_wf h -> h !! p = Some cn ->
  0 <= i < MAX_CAPS_PER_CNODE -> is_Some (slots cn).[i] /\
  forall c, is_Some ((slots cn).[i := c]).
Proof.
  intros Hwf Hp Hi. assert (Z.of_nat (length (slots cn)) = MAX_CAPS_PER_CNODE) as Hl
    by (rewrite (Hwf p _ Hp); done).
  split; [apply arr_get_is_Some; lia|]. intros c. rewrite arr_set_in by lia. by eexists.
Qed.

Lemma cnode_lookup_range cn idx s : cnode_lookup (Some cn) idx = Some s ->
  0 <= s < Z.of_nat (length (slots cn)).
Proof. intros (Hg & _)%cnode_lookup_Some. apply arr_get_Some in Hg. apply Hg. Qed.

Ltac node_of Hp := let E := fresh "En" in
  destruct Hp as [Hp|[? E]]; [bools; lia|rewrite E; cbn [mbind option_bind]].

Lemma cnode_exec_defined h o : cnodes_wf h -> op_typed o -> op_ptrs_ok h o ->
  is_Some (cnode_exec h o).
Proof.
  intros Hwf Ht Hp. destruct o as [d di s si r|d di s si r b|d di s si|p i]; cbn in *.
  - destruct Ht as (Hdi & _ & _), Hp as [Hd Hs]. unfold fits in Hdi.
    unfold cnode_copy, guard_ret. branches; try by eexists.
    node_of Hs. destruct (cnode_lookup _ _); [|by eexists]. branches; try by eexists.
    node_of Hd. bools.
    destruct (slot_defined h d x0 di Hwf En0 ltac:(lia)) as [[c Hc] Hset].
    rewrite Hc. cbn. branches; try by eexists.
    edestruct Hset as [l Hl]. rewrite Hl. by eexists.
  - destruct Ht as (Hdi & _ & _ & _), Hp as [Hd Hs]. unfold fits in Hdi.
    unfold cnode_mint, guard_ret. branches; try by eexists.
    node_of Hs. destruct (cnode_lookup _ _); [|by eexists]. branches; try by eexists.
    all: node_of Hd; bools;
      destruct (slot_defined h d x0 di Hwf En0 ltac:(lia)) as [[c Hc] Hset];
      rewrite Hc; cbn; branches; try by eexists.
    edestruct Hset as [l Hl]. rewrite Hl. by eexists.
  - destruct Ht as (Hdi & _), Hp as (Hd & Hs & Hlt). unfold fits in Hdi.
    unfold cnode_move, guard_ret. branches; try by eexists.
    node_of Hs. destruct (cnode_lookup _ _) as [sl|] eqn:El; [|by eexists].
    node_of Hd. bools.
    destruct (slot_defined h d x0 di Hwf En0 ltac:(lia)) as [[c Hc] Hset].
    rewrite Hc. cbn. branches; try by eexists.
    destruct (Hset (slot_at x sl)) as [l Hl]. rewrite Hl. cbn.
    pose proof (arr_set_length _ _ _ _ Hl) as Hlen.
    apply cnode_lookup_range in El.
    destruct (decide (d = s)) as [->|Hne]; simplify_map_eq; cbn;
      rewrite arr_set_in by (cbn; lia); by eexists.
  - unfold fits in Ht. unfold cnode_delete, guard_ret. branches; try by eexists.
    node_of Hp. bools.
    destruct (slot_defined h p x i Hwf En ltac:(lia)) as [[c Hc] Hset].
    rewrite Hc. cbn. branches; try by eexists.
    destruct (Hset cap_zero) as [l Hl]. rewrite Hl. by eexists.
Qed.

Lemma cnode_exec_wf h o e h' : op_typed o -> cnodes_wf h ->
  cnode_exec h o = Some (e, h') -> cnodes_wf h' /\ (e <> ERR_OK -> h' = h).
Proof.
  intros Ht Hwf H. destruct o as [d di s si r|d di s si r b|d di s si|p i]; cbn in *.
  - destruct Ht as (_ & _ & Hr). destruct (cnode_copy_effect _ _ _ _ _ _ _ _ Hr H)
      as [[_ ->]|(-> & ? & ? & ? & _ & _ & _ & _ & _ & Hput)]; [done|].
    split; [by eapply put_slot_wf|done].
  - destruct Ht as (_ & _ & Hr & _). destruct (cnode_mint_effect _ _ _ _ _ _ _ _ _ Hr H)
      as [[_ ->]|(-> & ? & ? & ? & _ & _ & _ & _ & _ & _ & Hput)]; [done|].
    split; [by eapply put_slot_wf|done].
  - destruct (cnode_move_effect _ _ _ _ _ _ _ H)
      as [[_ ->]|(-> & ? & ? & ? & ? & ? & _ & _ & _ & _ & _ & Hp1 & Hp2)]; [done|].
    split; [|done]. eapply put_slot_wf; [exact Hp2|]. by eapply put_slot_wf.
  - destruct (cnode_delete_effect _ _ _ _ _ H) as [[_ ->]|(-> & ? & ? & _ & _ & _ & Hput)];
      [done|]. split; [by eapply put_slot_wf|done].
Qed.

Lemma put_slot_dom h p i c f h' q : put_slot h p i c f h' -> is_Some (h !! q) -> is_Some (h' !! q).
Proof.
  intros (cn & Hp & _ & ->) Hq. destruct (decide (p = q)) as [<-|]; simplify_map_eq; by eauto.
Qed.

(** No node appears or disappears. *)
Lemma cnode_exec_dom h o e h' q : op_typed o ->
  cnode_exec h o = Some (e, h') -> is_Some (h !! q) -> is_Some (h' !! q).
Proof.
  intros Ht H. destruct o as [d di s si r|d di s si r b|d di s si|p i]; cbn in *.
  - destruct Ht as (_ & _ & Hr). destruct (cnode_copy_effect _ _ _ _ _ _ _ _ Hr H)
      as [[_ ->]|(-> & ? & ? & ? & _ & _ & _ & _ & _ & Hput)]; [done|by eapply put_slot_dom].
  - destruct Ht as (_ & _ & Hr & _). destruct (cnode_mint_effect _ _ _ _ _ _ _ _ _ Hr H)
      as [[_ ->]|(-> & ? & ? & ? & _ & _ & _ & _ & _ & _ & Hput)]; [done|by eapply put_slot_dom].
  - destruct (cnode_move_effect _ _ _ _ _ _ _ H)
      as [[_ ->]|(-> & ? & ? & ? & ? & ? & _ & _ & _ & _ & _ & Hp1 & Hp2)]; [done|].
    intros Hq. eapply put_slot_dom; [exact Hp2|]. by eapply put_slot_dom.
  - destruct (cnode_delete_effect _ _ _ _ _ H) as [[_ ->]|(-> & ? & ? & _ & _ & _ & Hput)];
      [done|by eapply put_slot_dom].
Qed.

Lemma cnode_exec_used h o e h' : op_typed o -> local_op o -> cnodes_wf h ->
  cnodes_used_ok h -> cnode_exec h o = Some (e, h') -> cnodes_used_ok h'.
Proof.
  intros Ht Hloc Hwf Hok H. destruct o as [d di s si r|d di s si r b|d di s si|p i]; cbn in *.
  - destruct Ht as (_ & _ & Hr). destruct (cnode_copy_effect _ _ _ _ _ _ _ _ Hr H)
      as [[_ ->]|(-> & dcn & old & sc & Hd & Hold & Hnv & _ & Hv & Hput)]; [done|].
    eapply put_slot_used; eauto. rewrite Hv, Hnv. erewrite used_succ by eauto. lia.
  - destruct Ht as (_ & _ & Hr & _). destruct (cnode_mint_effect _ _ _ _ _ _ _ _ _ Hr H)
      as [[_ ->]|(-> & dcn & old & sc & Hd & Hold & Hnv & _ & _ & Hv & Hput)]; [done|].
    eapply put_slot_used; eauto. rewrite Hv, Hnv. erewrite used_succ by eauto. lia.
  - subst d. destruct (cnode_move_effect _ _ _ _ _ _ _ H)
      as [[_ ->]|(-> & scn & dcn & old & sl & h1 & Hs & Hl & Hd & Hold & Hnv & Hp1 & Hp2)];
      [done|].
    apply cnode_lookup_Some in Hl as (Hg & Hv & _). simplify_eq.
    destruct Hp1 as (cn1 & Hc1 & Hi & ->). simplify_eq.
    destruct Hp2 as (cn2 & Hc2 & Hi2 & ->). rewrite lookup_insert_eq in Hc2.
    injection Hc2 as <-. intros q cnq Hq. destruct (decide (s = q)) as [<-|]; simplify_map_eq;
      [|by apply (Hok q)].
    assert (sl <> di) as Hne by (intros ->; congruence).
    unfold used_ok. cbn. apply arr_get_Some in Hg as [Hsl Hg], Hold as [Hdi Hold].
    erewrite count_if_insert by (rewrite list_lookup_insert_ne by lia; exact Hg).
    rewrite (count_if_insert _ _ _ _ _ Hold), Hv, Hnv, (Hok s _ Hs). cbn. lia.
  - destruct (cnode_delete_effect _ _ _ _ _ H) as [[_ ->]|(-> & cn & c & Hp & Hc & Hv & Hput)];
      [done|].
    eapply put_slot_used; eauto. rewrite Hv. cbn.
    pose proof (used_ok_bounds _ _ _ Hwf Hok Hp). apply arr_get_Some in Hc as [_ Hc].
    pose proof (count_if_pos _ _ _ _ Hc Hv). rewrite <- (Hok p _ Hp) in *.
    rewrite u32_small; unfold fits, MAX_CAPS_PER_CNODE in *; lia.
Qed.

(** ** Properties *)

(** A node whose slot 0 holds a grantable frame capability. *)
Definition demo_cap : cap_t :=
  mk_cap CAP_FRAME 0xF 7 true true 0 (mk_cap_u 0x80000000 0 0 0)
    (mk_sim_cap 0x80000000 0x80001000 0x80000000 0 OTYPE_FRAME true true).
Definition demo_node : cnode_t :=
  cnode_zero <| slots ::= fun l => <[0%nat := demo_cap]> l |> <| radix := 8 |> <| used := 1 |>.
Definition demo_store : cnodes := {[ 0x1000 := demo_node ]}.

Lemma demo_store_inv p cn : demo_store !! p = Some cn -> p = 0x1000 /\ cn = demo_node.
Proof. unfold demo_store. intros H. by apply lookup_singleton_Some in H as [<- <-]. Qed.

Lemma demo_store_wf : cnodes_wf demo_store /\ cnodes_used_ok demo_store.
Proof. split; intros p cn [_ ->]%demo_store_inv; vm_compute; reflexivity. Qed.

(** C6. Authority confinement: along any sequence of copy, mint, move and delete
    operations, with any arguments and on any nodes, every valid capability that
    ends up in a slot descends from a valid capability of the initial store: same
    object, same hardware capability, no additional right. *)
Theorem cnode_ops_confine_authority h h' :
  rtc cnode_step h h' ->
  forall c, holds h' c ->
  exists c0, holds h c0 /\ derived_from c c0 /\ cheri_tag_get (hw_cap c) = cheri_tag_get (hw_cap c0).
Proof.
  intros Hsteps. induction Hsteps as [h|h1 h2 h3 Hstep _ IH]; intros c Hc.
  - exists c. split_and!; done.
  - destruct (IH c Hc) as (c2 & Hc2 & Hd2 & Ht2).
    destruct (cnode_step_confined _ _ Hstep _ Hc2) as (c1 & Hc1 & Hd1).
    exists c1. split_and!; [done|by etransitivity|].
    rewrite Ht2. by destruct Hd1 as (_ & _ & -> & _).
Qed.

Lemma cnode_ops_confine_authority_witness :
  exists h', cnode_exec demo_store (OpMint 0x1000 3 0x1000 0 CAP_RIGHTS_READ 9) = Some (ERR_OK, h')
    /\ forall c, holds h' c -> exists c0, holds demo_store c0 /\ derived_from c c0 /\
         cheri_tag_get (hw_cap c) = cheri_tag_get (hw_cap c0).
Proof.
  eexists. split; [vm_compute; reflexivity|].
  apply (cnode_ops_confine_authority demo_store). apply rtc_once.
  apply (cnode_step_intro _ _ (OpMint 0x1000 3 0x1000 0 CAP_RIGHTS_READ 9) ERR_OK).
  - repeat split; vm_compute; congruence.
  - vm_compute. reflexivity.
Defined.

(** The operations are total on a well-formed store: for arguments of their C
    types, with pointers that are null or address a node (and, for [cnode_move],
    a destination index inside the node), every operation has a defined result,
    keeps every node at 256 slots, changes nothing when it returns an error, and
    keeps [used] equal to the number of valid slots unless it is a move between
    two nodes. *)
Theorem cnode_exec_total h o :
  cnodes_wf h -> op_typed o -> op_ptrs_ok h o ->
  exists e h', cnode_exec h o = Some (e, h') /\ cnodes_wf h' /\
    (e <> ERR_OK -> h' = h) /\
    (local_op o -> cnodes_used_ok h -> cnodes_used_ok h').
Proof.
  intros Hwf Ht Hp. destruct (cnode_exec_defined h o Hwf Ht Hp) as [[e h'] H].
  exists e, h'. destruct (cnode_exec_wf h o e h' Ht Hwf H). split_and!; try done.
  intros Hl Hu. exact (cnode_exec_used h o e h' Ht Hl Hwf Hu H).
Qed.

Lemma cnode_exec_total_witness :
  exists e h', cnode_exec demo_store (OpMove 0x1000 5 0x1000 0) = Some (e, h') /\
    cnodes_wf h' /\ cnodes_used_ok h'.
Proof.
  destruct demo_store_wf as [Hwf Hu].
  destruct (cnode_exec_total demo_store (OpMove 0x1000 5 0x1000 0)) as (e & h' & H & Hwf' & _ & Hu').
  - exact Hwf.
  - split; fits_now.
  - split_and!; [right; exists demo_node; reflexivity..|reflexivity].
  - exists e, h'. split_and!; [exact H|exact Hwf'|]. by apply Hu'.
Defined.

(** A capability is minted exactly when the checks of the code pass: both
    pointers set, both indices in range, the source slot found, valid and tagged,
    [GRANT] among its rights, the destination free and the requested rights a
    subset; the destination slot then holds the source with exactly those rights
    and that badge. *)
Theorem cnode_mint_succeeds_iff h d di s si r b h' :
  fits 32 di -> fits 32 si -> fits 32 r ->
  cnode_mint h d di s si r b = Some (ERR_OK, h') <->
  d <> NULL /\ s <> NULL /\ di < MAX_CAPS_PER_CNODE /\ si < MAX_CAPS_PER_CNODE /\
  exists scn dcn old sl, h !! s = Some scn /\ cnode_lookup (Some scn) si = Some sl /\
    h !! d = Some dcn /\ (slots dcn).[di] = Some old /\ is_valid old = false /\
    cap_has_right (slot_at scn sl) CAP_RIGHTS_GRANT = true /\
    subset r (rights (slot_at scn sl)) /\
    h' = <[d := dcn <| slots := <[Z.to_nat di :=
               (slot_at scn sl) <| rights := r |> <| badge := b |>]> (slots dcn) |>
              <| used ::= fun n => u32 (n + 1) |>]> h.
Proof.
  intros Hdi Hsi Hr. unfold cnode_mint, guard_ret. split.
  - intros H. branches. bools. split_and!; [done..|lia|lia|].
    destruct (h !! s) as [scn|] eqn:Es; [cbn [mbind option_bind] in H|done].
    destruct (cnode_lookup (Some scn) si) as [sl|] eqn:El; [|done].
    run H; injection H as <-. bools. apply arr_set_Some in E1 as [_ ->].
    match goal with X : is_valid (cap_derive _ _ _) = true |- _ =>
      apply cap_derive_valid in X as [_ Hsub]; [|done] end.
    exists scn, c, c0, sl. rewrite cap_derive_fields by done. done.
  - intros (Hd & Hs & Hdi' & Hsi' & scn & dcn & old & sl & Es & El & Ed & Eo & Hnv & Hg & Hsub & ->).
    assert (is_valid (cap_derive (slot_at scn sl) r b) = true) as Hv.
    { apply cap_derive_valid; [done|]. split; [|done]. by apply cnode_lookup_Some in El as (_ & ? & _). }
    destruct (arr_get_Some _ _ _ Eo) as [Hrange _].
    branches; bools; try lia. rewrite Es. cbn [mbind option_bind]. rewrite El, Hg. cbn [negb].
    rewrite Ed. cbn [mbind option_bind]. rewrite Eo. cbn [mbind option_bind].
    rewrite Hnv, Hv, arr_set_in by done. cbn [negb mbind option_bind].
    by rewrite cap_derive_fields.
Qed.

Lemma cnode_mint_succeeds_iff_witness :
  exists h', cnode_mint demo_store 0x1000 3 0x1000 0 CAP_RIGHTS_READ 9 = Some (ERR_OK, h').
Proof.
  eexists. apply (cnode_mint_succeeds_iff demo_store 0x1000 3 0x1000 0 CAP_RIGHTS_READ 9);
    [fits_now..|].
  split_and!; [done..|]. exists demo_node, demo_node, cap_zero, 0.
  split_and!; vm_compute; reflexivity.
Defined.

(** A move between two nodes leaves both counters behind: starting from exact
    counters, moving a capability into an empty node and deleting it there wraps
    that node's [used] around to [0xFFFFFFFF]. *)
Theorem cnode_move_skews_used :
  exists h h1 h2 cn, cnodes_wf h /\ cnodes_used_ok h /\
    cnode_move h 0x2000 0 0x1000 0 = Some (ERR_OK, h1) /\
    cnode_delete h1 0x2000 0 = Some (ERR_OK, h2) /\
    h2 !! 0x2000 = Some cn /\ count_if is_valid (slots cn) = 0 /\ used cn = 2 ^ 32 - 1.
Proof.
  exists (<[0x2000 := cnode_zero <| radix := 8 |>]> demo_store).
  do 3 eexists. split_and!.
  - intros p cn H.
    destruct (decide (p = 0x2000)) as [->|]; simplify_map_eq; [done|].
    apply demo_store_inv in H as [_ ->]. done.
  - intros p cn H.
    destruct (decide (p = 0x2000)) as [->|]; simplify_map_eq; [done|].
    apply demo_store_inv in H as [_ ->]. done.
  - vm_compute. reflexivity.
  - vm_compute. reflexivity.
  - vm_compute. reflexivity.
  - vm_compute. reflexivity.
  - vm_compute. reflexivity.
Qed.
