(* ===== verification/Tcb.v ===== *)
(** * tcb.h, tcb.c: thread control blocks

    A [tcb_t *] argument that the code tests against null is an [option]: [None]
    is the null pointer, and the updated block is returned the same way. *)

From S2P Require Import Prelude Types Cheri Cap.

Inductive tcb_state_t :=
| TCB_INACTIVE
| TCB_RUNNABLE
| TCB_BLOCKED_SEND
| TCB_BLOCKED_RECV
| TCB_BLOCKED_REPLY.

#[export] Instance tcb_state_eq_dec : EqDecision tcb_state_t.
Proof. solve_decision. Defined.

Record tcb_t := mk_tcb {
  id : Z;
  state : tcb_state_t;
  pc : Z;
  sp : Z;
  csp : sim_cap_t;
  pcc : sim_cap_t;
  cspace : Z;
  vspace_root : Z;
  asid : Z;
  time_partition : Z;
  sched_context : Z;
  priority : Z;
  ipc_buffer : ipc_msg_t;
  bound_notification : Z;
  bound_endpoint : Z;
  fault_addr : Z;
  fault_type : Z
}.
#[export] Instance tcb_eta : Eta tcb_t := fun t =>
  mk_tcb (id t) (state t) (pc t) (sp t) (csp t) (pcc t) (cspace t) (vspace_root t)
    (asid t) (time_partition t) (sched_context t) (priority t) (ipc_buffer t)
    (bound_notification t) (bound_endpoint t) (fault_addr t) (fault_type t).

Definition tcb_zero : tcb_t :=
  mk_tcb 0 TCB_INACTIVE 0 0 sim_cap_zero sim_cap_zero NULL 0 0 0 0 0 ipc_msg_zero 0 0 0 0.

Definition MAX_TCBS : Z := 128.

Record tcb_table_t := mk_tcb_table { threads : list tcb_t; count : Z }.
#[export] Instance tcb_table_eta : Eta tcb_table_t := fun t =>
  mk_tcb_table (threads t) (count t).

Definition tcb_table_zero : tcb_table_t :=
  mk_tcb_table (replicate (Z.to_nat MAX_TCBS) tcb_zero) 0.

(** [tcb->state == s]. *)
Definition in_state (t : tcb_t) (s : tcb_state_t) : bool := bool_decide (state t = s).

Definition tcb_configure (tcb : option tcb_t) (cspace' vspace_root' asid' partition : Z)
    : kerror_t * option tcb_t :=
  match tcb with
  | None => (ERR_INVALID_ARG, tcb)
  | Some t =>
      retif cspace' =? NULL with (ERR_INVALID_ARG, tcb);;
      (ERR_OK, Some (t <| cspace := cspace' |> <| vspace_root := vspace_root' |>
                       <| asid := asid' |> <| time_partition := partition |>
                       <| state := TCB_INACTIVE |>))
  end.

Definition tcb_set_regs (tcb : option tcb_t) (pc' sp' : Z) (pcc' csp' : sim_cap_t)
    : kerror_t * option tcb_t :=
  match tcb with
  | None => (ERR_INVALID_ARG, tcb)
  | Some t =>
      retif negb (cheri_tag_get pcc') || negb (cheri_tag_get csp')
        with (ERR_INVALID_CAP, tcb);;
      (ERR_OK, Some (t <| pc := pc' |> <| sp := sp' |> <| pcc := pcc' |> <| csp := csp' |>))
  end.

Definition tcb_suspend (tcb : option tcb_t) : option tcb_t :=
  match tcb with
  | None => None
  | Some t => Some (t <| state := TCB_INACTIVE |>)
  end.

Definition tcb_resume (tcb : option tcb_t) : option tcb_t :=
  match tcb with
  | None => None
  | Some t =>
      if in_state t TCB_INACTIVE || in_state t TCB_BLOCKED_RECV ||
         in_state t TCB_BLOCKED_SEND || in_state t TCB_BLOCKED_REPLY
      then Some (t <| state := TCB_RUNNABLE |>)
      else Some t
  end.

Definition tcb_is_runnable (tcb : option tcb_t) : bool :=
  match tcb with
  | None => false
  | Some t => in_state t TCB_RUNNABLE
  end.

Definition tcb_wake_from_ipc (tcb : option tcb_t) (sender_id : Z) : kerror_t * option tcb_t :=
  match tcb with
  | None => (ERR_INVALID_ARG, tcb)
  | Some t =>
      retif negb (in_state t TCB_BLOCKED_RECV) && negb (in_state t TCB_BLOCKED_REPLY)
        with (ERR_INVALID_ARG, tcb);;
      (ERR_OK, Some (t <| state := TCB_RUNNABLE |> <| fault_addr := 0 |> <| fault_type := 0 |>))
  end.

(** ** The thread state machine *)

Inductive tcb_op :=
| TConfigure (cspace' vspace_root' asid' partition : Z)
| TSetRegs (pc' sp' : Z) (pcc' csp' : sim_cap_t)
| TSuspend
| TResume
| TWake (sender : Z).

(** The block after an operation on a non-null pointer. *)
Definition tcb_exec (t : tcb_t) (o : tcb_op) : tcb_t :=
  default t
    match o with
    | TConfigure c v a p => (tcb_configure (Some t) c v a p).2
    | TSetRegs p s pc' cs => (tcb_set_regs (Some t) p s pc' cs).2
    | TSuspend => tcb_suspend (Some t)
    | TResume => tcb_resume (Some t)
    | TWake s => (tcb_wake_from_ipc (Some t) s).2
    end.

(** The transitions of the code: any thread may be stopped, only [resume] and
    [wake] make a thread runnable, and [wake] only from a wait for a message or a
    reply. *)
Inductive tcb_transition : tcb_op -> tcb_state_t -> tcb_state_t -> Prop :=
| tr_configure c v a p s : c <> NULL -> tcb_transition (TConfigure c v a p) s TCB_INACTIVE
| tr_configure_null v a p s : tcb_transition (TConfigure NULL v a p) s s
| tr_set_regs p sp' pc' cs s : tcb_transition (TSetRegs p sp' pc' cs) s s
| tr_suspend s : tcb_transition TSuspend s TCB_INACTIVE
| tr_resume s : tcb_transition TResume s TCB_RUNNABLE
| tr_wake_recv x : tcb_transition (TWake x) TCB_BLOCKED_RECV TCB_RUNNABLE
| tr_wake_reply x : tcb_transition (TWake x) TCB_BLOCKED_REPLY TCB_RUNNABLE
| tr_wake_other x s : s <> TCB_BLOCKED_RECV -> s <> TCB_BLOCKED_REPLY ->
    tcb_transition (TWake x) s s.

(** Everything of a block that only its creation or its owner sets. *)
Definition same_identity (t t' : tcb_t) : Prop :=
  id t' = id t /\ sched_context t' = sched_context t /\ priority t' = priority t /\
  ipc_buffer t' = ipc_buffer t.

Lemma tcb_exec_state t o : tcb_transition o (state t) (state (tcb_exec t o)).
Proof.
  destruct o as [c v a p|p s pc' cs| | |x]; cbn; unfold guard_ret.
  - destruct (Z.eqb_spec c NULL); cbn; [subst|]; by constructor.
  - branches; constructor.
  - constructor.
  - unfold in_state. destruct (state t) eqn:E; repeat case_bool_decide; try congruence; cbn;
      rewrite ?E; constructor.
  - unfold in_state. destruct (state t) eqn:E; repeat case_bool_decide; try congruence; cbn;
      rewrite ?E; by constructor.
Qed.

Lemma tcb_exec_identity t o : same_identity t (tcb_exec t o).
Proof.
  destruct o; cbn; unfold guard_ret, in_state; branches; done.
Qed.

(** A suspended thread stays suspended until it is resumed. *)
Lemma inactive_stays o t : o <> TResume -> state t = TCB_INACTIVE ->
  state (tcb_exec t o) = TCB_INACTIVE.
Proof.
  intros Ho Hs. pose proof (tcb_exec_state t o) as H. rewrite Hs in H.
  remember (state (tcb_exec t o)) as s'. inversion H; subst; congruence.
Qed.

(** C26. Thread control: each operation of tcb.c moves the state of a thread along
    the transition of the state machine above and leaves its identity, scheduling
    context, priority and IPC buffer alone; and a thread that has been suspended
    stays out of the scheduler through every sequence of operations that does not
    resume it, an IPC wake-up included. *)
Theorem tcb_state_machine t o l :
  tcb_transition o (state t) (state (tcb_exec t o)) /\ same_identity t (tcb_exec t o) /\
  (TResume ∉ l ->
   tcb_is_runnable (Some (fold_left tcb_exec l (tcb_exec t TSuspend))) = false).
Proof.
  split_and!; [apply tcb_exec_state|apply tcb_exec_identity|]. intros Hno.
  assert (state (fold_left tcb_exec l (tcb_exec t TSuspend)) = TCB_INACTIVE) as Hi;
    [|unfold tcb_is_runnable, in_state; rewrite Hi; done].
  assert (state (tcb_exec t TSuspend) = TCB_INACTIVE) as Hs by done.
  generalize dependent (tcb_exec t TSuspend).
  induction l as [|o' l IH]; intros t' Hs; [done|]. apply not_elem_of_cons in Hno as [? ?].
  cbn [fold_left]. apply IH; [done|]. by apply inactive_stays.
Qed.

Lemma tcb_state_machine_witness :
  TResume ∉ [TWake 3; TConfigure 0x1000 0x2000 1 2] /\
  tcb_is_runnable (Some (fold_left tcb_exec [TWake 3; TConfigure 0x1000 0x2000 1 2]
                           (tcb_exec tcb_zero TSuspend))) = false.
Proof.
  assert (TResume ∉ [TWake 3; TConfigure 0x1000 0x2000 1 2]) as H.
  { intros H. apply list_elem_of_In in H. cbn in H. intuition discriminate. }
  split; [exact H|]. apply (tcb_state_machine tcb_zero TSuspend). exact H.
Defined.
