(* ===== verification/Endpoint.v ===== *)
(** * endpoint.h, endpoint.c: synchronous IPC endpoints

    A 16-entry ring of (sender, message) pairs, a rendezvous slot
    ([pending]/[pending_msg]) and one waiting receiver. The operations also wake
    threads of the global table [g_tcbs], which they take and return. The second
    half of the file is an abstract endpoint and the proof that the ring
    implements it. *)

From S2P Require Import Prelude Types Cheri Cap Tcb.

Record endpoint_t := mk_endpoint {
  has_sender : bool;
  has_receiver : bool;
  sender_tcb : Z;
  receiver_tcb : Z;
  pending_msg : ipc_msg_t;
  pending : bool;
  queue : list Z;
  queue_msgs : list ipc_msg_t;
  q_head : Z;
  q_tail : Z;
  q_len : Z;
  ep_badge : Z
}.
#[export] Instance endpoint_eta : Eta endpoint_t := fun e =>
  mk_endpoint (has_sender e) (has_receiver e) (sender_tcb e) (receiver_tcb e)
    (pending_msg e) (pending e) (queue e) (queue_msgs e) (q_head e) (q_tail e)
    (q_len e) (ep_badge e).

Definition MAX_ENDPOINTS : Z := 64.

Definition endpoint_zero : endpoint_t :=
  mk_endpoint false false 0 0 ipc_msg_zero false (replicate 16 0)
    (replicate 16 ipc_msg_zero) 0 0 0 0.

(** [tcb_wake_from_ipc(&g_tcbs.threads[i], sender)], its result ignored. *)
Definition wake_thread (tcbs : tcb_table_t) (i sender : Z) : option tcb_table_t :=
  t ← (threads tcbs).[i];
  let (_, t') := tcb_wake_from_ipc (Some t) sender in
  l ← (threads tcbs).[i := default t t'];
  Some (tcbs <| threads := l |>).

(** [if (stcb->state == TCB_BLOCKED_SEND) tcb_resume(stcb);] *)
Definition resume_sender (tcbs : tcb_table_t) (i : Z) : option tcb_table_t :=
  t ← (threads tcbs).[i];
  if in_state t TCB_BLOCKED_SEND then
    l ← (threads tcbs).[i := default t (tcb_resume (Some t))];
    Some (tcbs <| threads := l |>)
  else Some tcbs.

Definition endpoint_send (tcbs : tcb_table_t) (ep : option endpoint_t) (sender : Z)
    (msg : option ipc_msg_t) : option (kerror_t * option endpoint_t * tcb_table_t) :=
  match ep, msg with
  | Some e, Some m =>
      retif IPC_MSG_MAX <? msg_length m with Some (ERR_INVALID_ARG, ep, tcbs);;
      retif IPC_CAPS_MAX <? msg_caps m with Some (ERR_INVALID_ARG, ep, tcbs);;
      if has_receiver e then
        let recvr := receiver_tcb e in
        let e' := e <| pending_msg := m |> <| pending := true |> <| has_receiver := false |> in
        tcbs' ← (if recvr <? MAX_TCBS then wake_thread tcbs recvr sender else Some tcbs);
        Some (ERR_OK, Some e', tcbs')
      else
        retif 16 <=? q_len e with Some (ERR_OVERFLOW, ep, tcbs);;
        q ← (queue e).[q_tail e := sender];
        qm ← (queue_msgs e).[q_tail e := m];
        Some (ERR_OK,
              Some (e <| queue := q |> <| queue_msgs := qm |>
                      <| q_tail := u8 ((q_tail e + 1) mod 16) |>
                      <| q_len := u8 (q_len e + 1) |>
                      <| pending_msg := m |> <| pending := true |>),
              tcbs)
  | _, _ => Some (ERR_INVALID_ARG, ep, tcbs)
  end.

(** [out] is the caller's buffer: its contents come back changed only when a
    message was delivered. *)
Definition endpoint_recv (tcbs : tcb_table_t) (ep : option endpoint_t) (receiver : Z)
    (out : option ipc_msg_t)
    : option (kerror_t * option endpoint_t * tcb_table_t * option ipc_msg_t) :=
  match ep, out with
  | Some e, Some _ =>
      if 0 <? q_len e then
        m ← (queue_msgs e).[q_head e];
        sender ← (queue e).[q_head e];
        let e1 := e <| q_head := u8 ((q_head e + 1) mod 16) |>
                    <| q_len := u8 (q_len e - 1) |> in
        e2 ← (if q_len e1 =? 0 then Some (e1 <| pending := false |>)
              else m' ← (queue_msgs e1).[q_head e1]; Some (e1 <| pending_msg := m' |>));
        tcbs' ← (if sender <? MAX_TCBS then resume_sender tcbs sender else Some tcbs);
        Some (ERR_OK, Some e2, tcbs', Some m)
      else if pending e then
        Some (ERR_OK, Some (e <| pending := false |> <| has_receiver := false |>), tcbs,
              Some (pending_msg e))
      else
        Some (ERR_OK, Some (e <| has_receiver := true |> <| receiver_tcb := receiver |>),
              tcbs, out)
  | _, _ => Some (ERR_INVALID_ARG, ep, tcbs, out)
  end.

Definition endpoint_call (tcbs : tcb_table_t) (ep : option endpoint_t) (caller : Z)
    (msg reply : option ipc_msg_t) : option (kerror_t * option endpoint_t * tcb_table_t) :=
  match ep, msg, reply with
  | Some _, Some _, Some _ => endpoint_send tcbs ep caller msg
  | _, _, _ => Some (ERR_INVALID_ARG, ep, tcbs)
  end.

(** ** Invariant *)

(** The entry [k] places behind the head. *)
Definition ring_entry (e : endpoint_t) (k : nat) : Z * ipc_msg_t :=
  let i := (q_head e + Z.of_nat k) mod 16 in
  (default 0 (queue e).[i], default ipc_msg_zero (queue_msgs e).[i]).

(** The queued entries, oldest first. *)
Definition ring_list (e : endpoint_t) : list (Z * ipc_msg_t) :=
  map (ring_entry e) (seq 0 (Z.to_nat (q_len e))).

(** What the ring may hold: a thread number and a message within its limits. *)
Definition entry_ok (p : Z * ipc_msg_t) : Prop := 0 <= p.1 /\ ipc_msg_bounded p.2.

Record endpoint_wf (e : endpoint_t) : Prop := {
  ew_queue : length (queue e) = 16%nat;
  ew_msgs : length (queue_msgs e) = 16%nat;
  ew_head : 0 <= q_head e < 16;
  ew_len : 0 <= q_len e <= 16;
  ew_tail : q_tail e = (q_head e + q_len e) mod 16;
  ew_entries : Forall entry_ok (ring_list e);
  ew_pending : pending e = true -> ipc_msg_bounded (pending_msg e);
  ew_queued : 0 < q_len e -> pending e = true;
  ew_recv : has_receiver e = true -> q_len e = 0 /\ pending e = false;
  ew_receiver : 0 <= receiver_tcb e
}.

(** ** The abstract endpoint

    An unbounded-in-time view: the queue, a message handed to a woken receiver
    that has not come back for it, and the thread waiting to receive. *)

Record ep_spec := mk_ep_spec {
  sp_queue : list (Z * ipc_msg_t);
  sp_handoff : option ipc_msg_t;
  sp_waiting : option Z
}.

Definition ep_abs (e : endpoint_t) : ep_spec :=
  mk_ep_spec (ring_list e)
    (if (q_len e =? 0) && pending e then Some (pending_msg e) else None)
    (if has_receiver e then Some (receiver_tcb e) else None).

(** [spec_send a s m]: the error, the new endpoint and the thread to wake. *)
Definition spec_send (a : ep_spec) (s : Z) (m : ipc_msg_t) : kerror_t * ep_spec * option Z :=
  if (IPC_MSG_MAX <? msg_length m) || (IPC_CAPS_MAX <? msg_caps m)
  then (ERR_INVALID_ARG, a, None)
  else match sp_waiting a with
       | Some r => (ERR_OK, mk_ep_spec (sp_queue a) (Some m) None, Some r)
       | None =>
           if (16 <=? length (sp_queue a))%nat then (ERR_OVERFLOW, a, None)
           else (ERR_OK, mk_ep_spec (sp_queue a ++ [(s, m)]) None None, None)
       end.

(** [spec_recv a r]: the new endpoint, the message delivered and its sender. *)
Definition spec_recv (a : ep_spec) (r : Z) : ep_spec * option ipc_msg_t * option Z :=
  match sp_queue a, sp_handoff a with
  | (s, m) :: q, _ => (mk_ep_spec q None (sp_waiting a), Some m, Some s)
  | [], Some m => (mk_ep_spec [] None None, Some m, None)
  | [], None => (mk_ep_spec [] None (Some r), None, None)
  end.

(** The thread table has its 128 blocks. *)
Definition tcbs_wf (t : tcb_table_t) : Prop := length (threads t) = Z.to_nat MAX_TCBS.

(** ** Lemmas on the ring *)

Ltac zmod := Z.div_mod_to_equations; lia.

Lemma ring_list_length e : endpoint_wf e -> length (ring_list e) = Z.to_nat (q_len e).
Proof. intros _. unfold ring_list. by rewrite length_map, length_seq. Qed.

Lemma endpoint_zero_wf : endpoint_wf endpoint_zero.
Proof. constructor; cbn; try done; lia. Qed.

(** Two arrays written at the tail: the ring grows at its end. *)
Lemma ring_push e s m q qm e' :
  endpoint_wf e -> q_len e < 16 ->
  (queue e).[q_tail e := s] = Some q -> (queue_msgs e).[q_tail e := m] = Some qm ->
  queue e' = q -> queue_msgs e' = qm -> q_head e' = q_head e -> q_len e' = q_len e + 1 ->
  ring_list e' = ring_list e ++ [(s, m)].
Proof.
  intros Hwf Hlt Hq Hqm Eq Eqm Eh El. destruct Hwf.
  unfold ring_list. rewrite El.
  replace (Z.to_nat (q_len e + 1)) with (S (Z.to_nat (q_len e))) by lia.
  rewrite seq_S, map_app. cbn [map Nat.add]. f_equal.
  - apply map_ext_in. intros k Hk%in_seq. unfold ring_entry.
    rewrite Eq, Eqm, Eh, (arr_get_set _ _ _ _ _ Hq), (arr_get_set _ _ _ _ _ Hqm).
    destruct (Z.eqb_spec ((q_head e + Z.of_nat k) mod 16) (q_tail e)); [zmod|done].
  - unfold ring_entry.
    rewrite Eq, Eqm, Eh, (arr_get_set _ _ _ _ _ Hq), (arr_get_set _ _ _ _ _ Hqm).
    rewrite Z2Nat.id, <- ew_tail0, Z.eqb_refl by lia. done.
Qed.

(** The head advanced by one: the ring loses its oldest entry. *)
Lemma ring_pop e e' :
  endpoint_wf e -> 0 < q_len e ->
  queue e' = queue e -> queue_msgs e' = queue_msgs e ->
  q_head e' = (q_head e + 1) mod 16 -> q_len e' = q_len e - 1 ->
  ring_list e = ring_entry e 0 :: ring_list e'.
Proof.
  intros Hwf Hlt Eq Eqm Eh El. destruct Hwf. unfold ring_list. rewrite El.
  replace (Z.to_nat (q_len e)) with (S (Z.to_nat (q_len e - 1))) by lia.
  cbn [seq map]. f_equal. rewrite <- seq_shift, map_map.
  apply map_ext_in. intros k Hk%in_seq. unfold ring_entry. rewrite Eq, Eqm, Eh.
  replace (((q_head e + 1) mod 16 + Z.of_nat k) mod 16)
    with ((q_head e + Z.of_nat (S k)) mod 16) by zmod. done.
Qed.

Lemma ring_head e : endpoint_wf e ->
  (queue e).[q_head e] = Some (ring_entry e 0).1 /\
  (queue_msgs e).[q_head e] = Some (ring_entry e 0).2.
Proof.
  intros []. unfold ring_entry. rewrite Z.add_0_r, Z.mod_small by lia.
  destruct (arr_get_is_Some (queue e) (q_head e)) as [s Hs]; [lia|].
  destruct (arr_get_is_Some (queue_msgs e) (q_head e)) as [m Hm]; [lia|].
  cbn. by rewrite Hs, Hm.
Qed.

Lemma ring_nil e : endpoint_wf e -> ring_list e = [] <-> q_len e = 0.
Proof.
  intros Hwf. pose proof (ring_list_length e Hwf) as Hl. destruct Hwf. split.
  - intros H. rewrite H in Hl. cbn in Hl. lia.
  - intros H. rewrite H in Hl. by apply nil_length_inv.
Qed.

Lemma wake_thread_defined tcbs i s : tcbs_wf tcbs -> 0 <= i < MAX_TCBS ->
  exists tcbs', wake_thread tcbs i s = Some tcbs' /\ tcbs_wf tcbs'.
Proof.
  intros Hwf Hi. unfold wake_thread, tcbs_wf in *.
  destruct (arr_get_is_Some (threads tcbs) i) as [t Ht]; [rewrite Hwf; unfold MAX_TCBS in *; lia|].
  rewrite Ht. cbn [mbind option_bind]. destruct (tcb_wake_from_ipc _ _) as [? t'].
  rewrite arr_set_in by (rewrite Hwf; unfold MAX_TCBS in *; lia). eexists. split; [done|].
  cbn. by rewrite length_insert.
Qed.

Lemma resume_sender_defined tcbs i : tcbs_wf tcbs -> 0 <= i < MAX_TCBS ->
  exists tcbs', resume_sender tcbs i = Some tcbs' /\ tcbs_wf tcbs'.
Proof.
  intros Hwf Hi. unfold resume_sender, tcbs_wf in *.
  destruct (arr_get_is_Some (threads tcbs) i) as [t Ht]; [rewrite Hwf; unfold MAX_TCBS in *; lia|].
  rewrite Ht. cbn [mbind option_bind]. destruct (in_state t _); [|by eexists].
  rewrite arr_set_in by (rewrite Hwf; unfold MAX_TCBS in *; lia). eexists. split; [done|].
  cbn. by rewrite length_insert.
Qed.

(** What a send or a receive may do to the thread table: nothing, or wake the
    thread the abstract operation names. *)
Definition woken (f : tcb_table_t -> Z -> option tcb_table_t) (tcbs : tcb_table_t)
    (w : option Z) (tcbs' : tcb_table_t) : Prop :=
  match w with
  | Some i => if i <? MAX_TCBS then f tcbs i = Some tcbs' else tcbs' = tcbs
  | None => tcbs' = tcbs
  end.

(** A successful queued send. *)
Lemma send_queued e s m q qm :
  endpoint_wf e -> 0 <= s -> ipc_msg_bounded m -> has_receiver e = false -> q_len e < 16 ->
  (queue e).[q_tail e := s] = Some q -> (queue_msgs e).[q_tail e := m] = Some qm ->
  let e' := e <| queue := q |> <| queue_msgs := qm |>
              <| q_tail := u8 ((q_tail e + 1) mod 16) |> <| q_len := u8 (q_len e + 1) |>
              <| pending_msg := m |> <| pending := true |> in
  endpoint_wf e' /\ ep_abs e' = mk_ep_spec (ring_list e ++ [(s, m)]) None None.
Proof.
  intros Hwf Hs Hm Hr Hlt Hq Hqm e'.
  assert (q_len e' = q_len e + 1) as El.
  { cbn. apply u8_small. destruct Hwf. unfold fits. lia. }
  assert (ring_list e' = ring_list e ++ [(s, m)]) as Hring by (by eapply ring_push).
  split.
  - pose proof (arr_set_length _ _ _ _ Hq). pose proof (arr_set_length _ _ _ _ Hqm).
    destruct Hwf. constructor; try (cbn; congruence); try done; try (rewrite El; lia).
    + rewrite El. cbn. rewrite u8_small by (unfold fits; zmod). zmod.
    + rewrite Hring. apply Forall_app. split; [done|]. by constructor.
  - unfold ep_abs. rewrite Hring, El. cbn. rewrite Hr. destruct Hwf.
    destruct (Z.eqb_spec (q_len e + 1) 0); [lia|done].
Qed.

(** A successful dequeue. *)
Lemma recv_dequeued e e2 :
  endpoint_wf e -> 0 < q_len e ->
  let e1 := e <| q_head := u8 ((q_head e + 1) mod 16) |> <| q_len := u8 (q_len e - 1) |> in
  (if q_len e1 =? 0 then Some (e1 <| pending := false |>)
   else m' ← (queue_msgs e1).[q_head e1]; Some (e1 <| pending_msg := m' |>)) = Some e2 ->
  endpoint_wf e2 /\ ring_list e = ring_entry e 0 :: ring_list e2 /\
  ep_abs e2 = mk_ep_spec (ring_list e2) None (sp_waiting (ep_abs e)).
Proof.
  intros Hwf Hlt e1 H.
  assert (q_len e1 = q_len e - 1) as El.
  { cbn. apply u8_small. destruct Hwf. unfold fits. lia. }
  assert (q_head e1 = (q_head e + 1) mod 16) as Eh.
  { cbn. apply u8_small. unfold fits. zmod. }
  assert (queue e2 = queue e /\ queue_msgs e2 = queue_msgs e /\ q_head e2 = q_head e1 /\
          q_len e2 = q_len e1 /\ q_tail e2 = q_tail e /\ has_receiver e2 = has_receiver e /\
          receiver_tcb e2 = receiver_tcb e /\
          (q_len e1 = 0 /\ pending e2 = false \/
           q_len e1 <> 0 /\ pending e2 = pending e /\ exists m', (queue_msgs e).[q_head e1] = Some m' /\
             pending_msg e2 = m')) as (E1 & E2 & E3 & E4 & E5 & E6 & E7 & E8).
  { destruct (Z.eqb_spec (q_len e1) 0) as [Hz|Hz].
    - injection H as <-. repeat split. by left.
    - peel H. injection H as <-. repeat split. right. split_and!; try done. by eexists. }
  assert (has_receiver e = false) as Hnr.
  { destruct (has_receiver e) eqn:E; [|done]. destruct (ew_recv e Hwf E). lia. }
  assert (ring_list e = ring_entry e 0 :: ring_list e2) as Hring.
  { apply ring_pop; congruence || lia. }
  split_and!; [|done|].
  - pose proof (ew_entries e Hwf) as Hent. rewrite Hring in Hent.
    apply Forall_cons_1 in Hent as [Hent0 Hent].
    destruct Hwf. constructor; try congruence.
    + rewrite E3, Eh. zmod.
    + lia.
    + rewrite E5, E4, E3, El, Eh, ew_tail0. zmod.
    + intros Hp. destruct E8 as [[_ ?]|(Hnz & _ & m' & Hm' & Ep)]; [congruence|].
      rewrite Ep. clear Ep.
      assert (In (ring_entry e2 0) (ring_list e2)) as Hin.
      { unfold ring_list. rewrite E4. replace (Z.to_nat (q_len e1)) with (S (Z.to_nat (q_len e1 - 1))) by lia.
        by left. }
      rewrite List.Forall_forall in Hent. destruct (Hent _ Hin) as [_ Hb].
      unfold ring_entry in Hb. rewrite E3, Z.add_0_r, E2 in Hb. cbn [snd] in Hb.
      rewrite Z.mod_small, Hm' in Hb by (rewrite Eh; zmod). done.
    + intros Hpos. destruct E8 as [[? _]|(_ & -> & _)]; [lia|]. apply ew_queued0. lia.
  - unfold ep_abs. rewrite E6, E7, Hnr. cbn. f_equal.
    destruct E8 as [[? ->]|(? & _ & _)]; [by rewrite andb_false_r|].
    destruct (Z.eqb_spec (q_len e2) 0); [congruence|done].
Qed.

Lemma bounded_iff m :
  (IPC_MSG_MAX <? msg_length m) || (IPC_CAPS_MAX <? msg_caps m) = false <-> ipc_msg_bounded m.
Proof. unfold ipc_msg_bounded. rewrite orb_false_iff, !Z.ltb_ge. done. Qed.

Lemma send_refines tcbs e s m : endpoint_wf e -> tcbs_wf tcbs -> 0 <= s ->
  exists err e' tcbs' w,
    endpoint_send tcbs (Some e) s (Some m) = Some (err, Some e', tcbs') /\
    spec_send (ep_abs e) s m = (err, ep_abs e', w) /\ endpoint_wf e' /\ tcbs_wf tcbs' /\
    woken (fun t i => wake_thread t i s) tcbs w tcbs'.
Proof.
  intros Hwf Ht Hs. unfold endpoint_send, spec_send, guard_ret.
  destruct (IPC_MSG_MAX <? msg_length m) eqn:E1;
    [by exists ERR_INVALID_ARG, e, tcbs, None|].
  destruct (IPC_CAPS_MAX <? msg_caps m) eqn:E2;
    [by exists ERR_INVALID_ARG, e, tcbs, None|].
  assert (ipc_msg_bounded m) as Hm by (apply bounded_iff; by rewrite E1, E2).
  cbn [orb ep_abs sp_waiting]. destruct (has_receiver e) eqn:Er.
  - destruct (ew_recv e Hwf Er) as [Hl Hp]. pose proof (ew_receiver e Hwf) as Hrv.
    set (e' := e <| pending_msg := m |> <| pending := true |> <| has_receiver := false |>).
    assert (endpoint_wf e') as Hwf' by (destruct Hwf; constructor; cbn; done || lia).
    assert (ep_abs e' = mk_ep_spec (ring_list e) (Some m) None) as Ha.
    { unfold ep_abs. cbn. rewrite Hl. done. }
    destruct (receiver_tcb e <? MAX_TCBS) eqn:Elt.
    + destruct (wake_thread_defined tcbs (receiver_tcb e) s Ht) as (t' & Hw & Ht');
        [bools; lia|].
      rewrite Hw. cbn [mbind option_bind]. exists ERR_OK, e', t', (Some (receiver_tcb e)).
      rewrite Ha. cbn. rewrite Elt. done.
    + exists ERR_OK, e', tcbs, (Some (receiver_tcb e)). rewrite Ha. cbn. rewrite Elt. done.
  - assert (length (sp_queue (ep_abs e)) = Z.to_nat (q_len e)) as Hlen
      by (by apply ring_list_length).
    rewrite Hlen. pose proof (ew_len e Hwf) as Hl16.
    destruct (16 <=? q_len e) eqn:E16.
    + assert ((16 <=? Z.to_nat (q_len e))%nat = true) as -> by (apply Nat.leb_le; lia).
      by exists ERR_OVERFLOW, e, tcbs, None.
    + assert ((16 <=? Z.to_nat (q_len e))%nat = false) as -> by (apply Nat.leb_gt; lia).
      assert (0 <= q_tail e < 16) as Htl by (rewrite (ew_tail e Hwf); zmod).
      rewrite !arr_set_in by (rewrite ?(ew_queue e Hwf), ?(ew_msgs e Hwf); lia).
      cbn [mbind option_bind]. do 4 eexists. split; [reflexivity|].
      destruct (send_queued e s m (<[Z.to_nat (q_tail e) := s]> (queue e))
        (<[Z.to_nat (q_tail e) := m]> (queue_msgs e)) Hwf Hs Hm Er) as [Hwf' Ha];
        [lia|apply arr_set_in; rewrite ?(ew_queue e Hwf), ?(ew_msgs e Hwf); lia..|].
      split; [rewrite Ha; reflexivity|]. done.
Qed.

Lemma recv_refines tcbs e r out : endpoint_wf e -> tcbs_wf tcbs -> 0 <= r ->
  exists e' tcbs' d w,
    endpoint_recv tcbs (Some e) r (Some out) = Some (ERR_OK, Some e', tcbs', Some (default out d)) /\
    spec_recv (ep_abs e) r = (ep_abs e', d, w) /\ endpoint_wf e' /\ tcbs_wf tcbs' /\
    woken resume_sender tcbs w tcbs' /\ (forall m, d = Some m -> ipc_msg_bounded m).
Proof.
  intros Hwf Ht Hr. unfold endpoint_recv, spec_recv.
  destruct (0 <? q_len e) eqn:E.
  - bools. destruct (ring_head e Hwf) as [Hq Hm]. rewrite Hq, Hm. cbn [mbind option_bind].
    set (e1 := e <| q_head := u8 ((q_head e + 1) mod 16) |> <| q_len := u8 (q_len e - 1) |>).
    assert (exists e2, (if q_len e1 =? 0 then Some (e1 <| pending := false |>)
       else m' ← (queue_msgs e1).[q_head e1]; Some (e1 <| pending_msg := m' |>)) = Some e2)
      as [e2 He2].
    { destruct (q_len e1 =? 0); [by eexists|].
      destruct (arr_get_is_Some (queue_msgs e1) (q_head e1)) as [m' Hm'].
      - destruct Hwf. cbn. rewrite u8_small by (unfold fits; zmod). rewrite ew_msgs0. zmod.
      - rewrite Hm'. by eexists. }
    rewrite He2. cbn [mbind option_bind].
    destruct (recv_dequeued e e2 Hwf ltac:(lia) He2) as (Hwf2 & Hring & Ha).
    pose proof (ew_entries e Hwf) as Hent. rewrite Hring in Hent.
    apply Forall_cons_1 in Hent as [[Hs0 Hb0] _].
    cbn [ep_abs sp_queue sp_handoff]. rewrite Hring.
    destruct (ring_entry e 0) as [s0 m0] eqn:Ee. cbn [fst snd] in *.
    destruct (s0 <? MAX_TCBS) eqn:Elt.
    + destruct (resume_sender_defined tcbs s0 Ht ltac:(lia)) as (t' & Hw & Ht').
      rewrite Hw. cbn [mbind option_bind]. exists e2, t', (Some m0), (Some s0).
      rewrite Ha. cbn. rewrite Elt. split_and!; try done. by intros ? [= <-].
    + exists e2, tcbs, (Some m0), (Some s0). rewrite Ha. cbn. rewrite Elt.
      split_and!; try done. by intros ? [= <-].
  - assert (q_len e = 0) as Hz by (pose proof (ew_len e Hwf); lia).
    assert (sp_queue (ep_abs e) = []) as -> by (by apply ring_nil).
    cbn [ep_abs sp_handoff]. rewrite Hz. cbn [Z.eqb andb]. destruct (pending e) eqn:Ep.
    + set (e' := e <| pending := false |> <| has_receiver := false |>).
      exists e', tcbs, (Some (pending_msg e)), None. split_and!; try done.
      * unfold ep_abs. assert (ring_list e' = []) as -> by (unfold ring_list; cbn; by rewrite Hz).
        cbn. by rewrite andb_false_r.
      * destruct Hwf; constructor; cbn; done || lia.
      * intros m [= <-]. by apply (ew_pending e Hwf).
    + set (e' := e <| has_receiver := true |> <| receiver_tcb := r |>).
      exists e', tcbs, None, None. split_and!; try done.
      * unfold ep_abs. assert (ring_list e' = []) as -> by (unfold ring_list; cbn; by rewrite Hz).
        cbn. by rewrite Hz, Ep.
      * destruct Hwf; constructor; cbn; done || lia.
Qed.

(** The refinement in the form a script of operations uses it. *)
Lemma send_step tcbs e s m : endpoint_wf e -> tcbs_wf tcbs -> 0 <= s ->
  exists e' tcbs', endpoint_wf e' /\ tcbs_wf tcbs' /\
    let '(err, a, _) := spec_send (ep_abs e) s m in
    ep_abs e' = a /\ endpoint_send tcbs (Some e) s (Some m) = Some (err, Some e', tcbs').
Proof.
  intros Hwf Ht Hs. destruct (send_refines tcbs e s m Hwf Ht Hs)
    as (err & e' & t' & w & H & -> & Hwf' & Ht' & _). by exists e', t'.
Qed.

Lemma recv_step tcbs e r : endpoint_wf e -> tcbs_wf tcbs -> 0 <= r ->
  exists e' tcbs', endpoint_wf e' /\ tcbs_wf tcbs' /\
    let '(a, d, _) := spec_recv (ep_abs e) r in
    ep_abs e' = a /\ forall out, endpoint_recv tcbs (Some e) r (Some out)
      = Some (ERR_OK, Some e', tcbs', Some (default out d)).
Proof.
  intros Hwf Ht Hs. destruct (recv_refines tcbs e r ipc_msg_zero Hwf Ht Hs)
    as (e' & t' & d & w & H & Hspec & Hwf' & Ht' & _). exists e', t'.
  rewrite Hspec. split_and!; try done. intros out.
  destruct (recv_refines tcbs e r out Hwf Ht Hs) as (e2 & t2 & d2 & w2 & H2 & Hspec2 & _).
  rewrite Hspec in Hspec2. injection Hspec2 as _ _ _ <- _. rewrite H2.
  unfold endpoint_recv in *.
  destruct (0 <? q_len e).
  - peel H. peel H2. congruence.
  - destruct (pending e); congruence.
Qed.

(** ** Runs of sends and receives *)

Arguments endpoint_send : simpl never.
Arguments endpoint_recv : simpl never.

Fixpoint send_all (tcbs : tcb_table_t) (e : endpoint_t) (l : list (Z * ipc_msg_t))
    : option (list kerror_t * endpoint_t * tcb_table_t) :=
  match l with
  | [] => Some ([], e, tcbs)
  | (s, m) :: l' =>
      match endpoint_send tcbs (Some e) s (Some m) with
      | Some (err, Some e', tcbs') =>
          '(errs, e'', tcbs'') ← send_all tcbs' e' l'; Some (err :: errs, e'', tcbs'')
      | _ => None
      end
  end.

Fixpoint recv_all (tcbs : tcb_table_t) (e : endpoint_t) (r : Z) (n : nat)
    : option (list ipc_msg_t * endpoint_t * tcb_table_t) :=
  match n with
  | O => Some ([], e, tcbs)
  | S n' =>
      match endpoint_recv tcbs (Some e) r (Some ipc_msg_zero) with
      | Some (ERR_OK, Some e', tcbs', Some m) =>
          '(ms, e'', tcbs'') ← recv_all tcbs' e' r n'; Some (m :: ms, e'', tcbs'')
      | _ => None
      end
  end.

Lemma send_all_queues l : forall tcbs e,
  endpoint_wf e -> tcbs_wf tcbs -> sp_waiting (ep_abs e) = None ->
  Forall entry_ok l -> (length (ring_list e) + length l <= 16)%nat ->
  exists e' tcbs', send_all tcbs e l = Some (map (fun _ => ERR_OK) l, e', tcbs') /\
    endpoint_wf e' /\ tcbs_wf tcbs' /\ sp_waiting (ep_abs e') = None /\
    ring_list e' = ring_list e ++ l.
Proof.
  induction l as [|[s m] l IH]; intros tcbs e Hwf Ht Hw Hl Hlen; cbn.
  - exists e, tcbs. by rewrite app_nil_r.
  - apply Forall_cons_1 in Hl as [[Hs Hm] Hl]. cbn [fst snd length] in *.
    destruct (send_refines tcbs e s m Hwf Ht Hs) as (err & e1 & t1 & w & -> & Hspec & Hwf1 & Ht1 & _).
    unfold spec_send in Hspec. rewrite (proj2 (bounded_iff m) Hm), Hw in Hspec.
    assert ((16 <=? length (sp_queue (ep_abs e)))%nat = false) as Hlt.
    { apply Nat.leb_gt. cbn. lia. }
    rewrite Hlt in Hspec. injection Hspec as <- Hring Hh Hw1 <-.
    destruct (IH t1 e1) as (e2 & t2 & -> & Hwf2 & Ht2 & Hw2 & Hr2); try done.
    { rewrite <- Hring, length_app. cbn. cbn in Hlen. lia. }
    exists e2, t2. split_and!; try done. by rewrite Hr2, <- Hring, <- app_assoc.
Qed.

Lemma recv_all_drains l : forall tcbs e r,
  endpoint_wf e -> tcbs_wf tcbs -> 0 <= r -> ring_list e = l ->
  exists e' tcbs', recv_all tcbs e r (length l) = Some (map snd l, e', tcbs') /\
    endpoint_wf e' /\ ring_list e' = [].
Proof.
  induction l as [|[s m] l IH]; intros tcbs e r Hwf Ht Hr Hl; cbn.
  - by exists e, tcbs.
  - destruct (recv_refines tcbs e r ipc_msg_zero Hwf Ht Hr)
      as (e1 & t1 & d & w & -> & Hspec & Hwf1 & Ht1 & _).
    unfold spec_recv in Hspec. cbn [ep_abs sp_queue] in Hspec. rewrite Hl in Hspec.
    injection Hspec as Hring _ _ <- <-. cbn [default].
    destruct (IH t1 e1 r Hwf1 Ht1 Hr (eq_sym Hring)) as (e2 & t2 & -> & Hwf2 & Hr2).
    by exists e2, t2.
Qed.

(** ** Properties *)

Definition demo_msg (n : Z) : ipc_msg_t := ipc_msg_zero <| label := n |> <| msg_length := 2 |>.

(** C7. Refinement: on a well-formed endpoint and thread table, [endpoint_send] and
    [endpoint_recv] are defined, return the error and the message of the abstract
    endpoint, move to the endpoint the abstract operation gives, wake exactly the
    thread it names, and keep the ring invariant. Every delivered message is
    within [IPC_MSG_MAX] words and [IPC_CAPS_MAX] capabilities. *)
Theorem endpoint_refines_spec tcbs e s m out :
  endpoint_wf e -> tcbs_wf tcbs -> 0 <= s ->
  (exists err e' tcbs' w,
     endpoint_send tcbs (Some e) s (Some m) = Some (err, Some e', tcbs') /\
     spec_send (ep_abs e) s m = (err, ep_abs e', w) /\ endpoint_wf e' /\ tcbs_wf tcbs' /\
     woken (fun t i => wake_thread t i s) tcbs w tcbs') /\
  (exists e' tcbs' d w,
     endpoint_recv tcbs (Some e) s (Some out) = Some (ERR_OK, Some e', tcbs', Some (default out d)) /\
     spec_recv (ep_abs e) s = (ep_abs e', d, w) /\ endpoint_wf e' /\ tcbs_wf tcbs' /\
     woken resume_sender tcbs w tcbs' /\ (forall m', d = Some m' -> ipc_msg_bounded m')).
Proof. intros He Ht Hs. split; [by apply send_refines|by apply recv_refines]. Qed.

Lemma endpoint_refines_spec_witness :
  exists e' tcbs', endpoint_send tcb_table_zero (Some endpoint_zero) 3 (Some (demo_msg 1))
      = Some (ERR_OK, Some e', tcbs') /\ endpoint_wf e' /\ ring_list e' = [(3, demo_msg 1)].
Proof.
  destruct (endpoint_refines_spec tcb_table_zero endpoint_zero 3 (demo_msg 1) ipc_msg_zero)
    as [(err & e' & t' & w & H & Hspec & Hwf & _) _].
  - apply endpoint_zero_wf.
  - reflexivity.
  - discriminate.
  - vm_compute in Hspec. injection Hspec as <- Hr _ _ _. exists e', t'. split_and!; [exact H|exact Hwf|].
    symmetry. exact Hr.
Defined.

(** C25. FIFO delivery: from a well-formed endpoint with an empty ring and no waiting
    receiver, up to 16 sends of bounded messages all succeed, and as many receives
    then deliver exactly those messages in the order they were sent and leave the
    ring empty. *)
Theorem endpoint_fifo tcbs e l r :
  endpoint_wf e -> tcbs_wf tcbs -> ring_list e = [] -> has_receiver e = false ->
  Forall entry_ok l -> (length l <= 16)%nat -> 0 <= r ->
  exists e1 tcbs1 e2 tcbs2,
    send_all tcbs e l = Some (map (fun _ => ERR_OK) l, e1, tcbs1) /\
    recv_all tcbs1 e1 r (length l) = Some (map snd l, e2, tcbs2) /\ ring_list e2 = [].
Proof.
  intros Hwf Ht Hring Hw Hl Hlen Hr.
  destruct (send_all_queues l tcbs e) as (e1 & t1 & H1 & Hwf1 & Ht1 & _ & Hr1); try done.
  { cbn. by rewrite Hw. } { by rewrite Hring. }
  destruct (recv_all_drains l t1 e1 r) as (e2 & t2 & H2 & _ & Hr2); try done.
  { by rewrite Hr1, Hring. }
  by exists e1, t1, e2, t2.
Qed.

Lemma endpoint_fifo_witness :
  exists e1 tcbs1 e2 tcbs2,
    send_all tcb_table_zero endpoint_zero [(1, demo_msg 10); (2, demo_msg 20); (1, demo_msg 30)]
      = Some ([ERR_OK; ERR_OK; ERR_OK], e1, tcbs1) /\
    recv_all tcbs1 e1 5 3 = Some ([demo_msg 10; demo_msg 20; demo_msg 30], e2, tcbs2) /\
    ring_list e2 = [].
Proof.
  apply (endpoint_fifo tcb_table_zero endpoint_zero
    [(1, demo_msg 10); (2, demo_msg 20); (1, demo_msg 30)] 5).
  - apply endpoint_zero_wf.
  - reflexivity.
  - reflexivity.
  - reflexivity.
  - repeat constructor; vm_compute; discriminate.
  - cbn; lia.
  - discriminate.
Defined.

(** A handed-over message can be lost: on any empty endpoint, after a receiver
    has blocked, a first send hands its message over and succeeds, a second send
    succeeds as well, and of the two receives that follow the first delivers the
    second message and the other blocks: the first message is gone. *)
Theorem endpoint_handoff_overwritten tcbs e m1 m2 :
  endpoint_wf e -> tcbs_wf tcbs -> ring_list e = [] -> pending e = false ->
  ipc_msg_bounded m1 -> ipc_msg_bounded m2 ->
  exists e0 e1 e2 e3 e4 t0 t1 t2 t3 t4, forall out,
    endpoint_recv tcbs (Some e) 5 (Some out) = Some (ERR_OK, Some e0, t0, Some out) /\
    endpoint_send t0 (Some e0) 1 (Some m1) = Some (ERR_OK, Some e1, t1) /\
    endpoint_send t1 (Some e1) 2 (Some m2) = Some (ERR_OK, Some e2, t2) /\
    endpoint_recv t2 (Some e2) 5 (Some out) = Some (ERR_OK, Some e3, t3, Some m2) /\
    endpoint_recv t3 (Some e3) 5 (Some out) = Some (ERR_OK, Some e4, t4, Some out) /\
    sp_waiting (ep_abs e4) = Some 5.
Proof.
  intros Hwf Ht Hring Hp Hm1%bounded_iff Hm2%bounded_iff.
  assert (ep_abs e = mk_ep_spec [] None (sp_waiting (ep_abs e))) as Ha.
  { unfold ep_abs. rewrite Hring, Hp, andb_false_r. done. }
  destruct (recv_step tcbs e 5) as (e0 & t0 & Hwf0 & Ht0 & H0); [done..|].
  rewrite Ha in H0. cbn in H0. destruct H0 as [Ha0 H0].
  destruct (send_step t0 e0 1 m1) as (e1 & t1 & Hwf1 & Ht1 & H1); [done..|].
  rewrite Ha0 in H1. unfold spec_send in H1. rewrite Hm1 in H1. cbn in H1.
  destruct H1 as [Ha1 H1].
  destruct (send_step t1 e1 2 m2) as (e2 & t2 & Hwf2 & Ht2 & H2); [done..|].
  rewrite Ha1 in H2. unfold spec_send in H2. rewrite Hm2 in H2. cbn in H2.
  destruct H2 as [Ha2 H2].
  destruct (recv_step t2 e2 5) as (e3 & t3 & Hwf3 & Ht3 & H3); [done..|].
  rewrite Ha2 in H3. cbn in H3. destruct H3 as [Ha3 H3].
  destruct (recv_step t3 e3 5) as (e4 & t4 & _ & _ & H4); [done..|].
  rewrite Ha3 in H4. cbn in H4. destruct H4 as [Ha4 H4].
  exists e0, e1, e2, e3, e4, t0, t1, t2, t3, t4. intros out.
  split_and!; try done. by rewrite Ha4.
Qed.

Lemma endpoint_handoff_overwritten_witness :
  exists e2 e3 t2 t3, forall out, 
    endpoint_recv t2 (Some e2) 5 (Some out) = Some (ERR_OK, Some e3, t3, Some (demo_msg 2)).
Proof.
  destruct (endpoint_handoff_overwritten tcb_table_zero endpoint_zero (demo_msg 1) (demo_msg 2))
    as (e0 & e1 & e2 & e3 & e4 & t0 & t1 & t2 & t3 & t4 & H).
  - apply endpoint_zero_wf.
  - reflexivity.
  - reflexivity.
  - reflexivity.
  - split; vm_compute; discriminate.
  - split; vm_compute; discriminate.
  - exists e2, e3, t2, t3. intros out. apply H.
Defined.
