(* ===== verification/Notification.v ===== *)
(** * notification.h, notification.c: asynchronous notifications

    A 64-bit badge that signals are or-ed into and that a wait or a poll takes. *)

From S2P Require Import Prelude Types.

Record notification_t := mk_notification {
  nt_badge : Z;
  has_waiter : bool;
  waiter_tcb : Z;
  bound_tcb : Z
}.
#[export] Instance notification_eta : Eta notification_t := fun n =>
  mk_notification (nt_badge n) (has_waiter n) (waiter_tcb n) (bound_tcb n).

Definition MAX_NOTIFICATIONS : Z := 64.

Definition notification_zero : notification_t := mk_notification 0 false 0 0.

Definition notification_init (ntfn : option notification_t)
    : kerror_t * option notification_t :=
  match ntfn with
  | None => (ERR_INVALID_ARG, ntfn)
  | Some _ => (ERR_OK, Some notification_zero)
  end.

Definition notification_signal (ntfn : option notification_t) (badge : Z)
    : kerror_t * option notification_t :=
  match ntfn with
  | None => (ERR_INVALID_ARG, ntfn)
  | Some n =>
      retif badge =? 0 with (ERR_INVALID_ARG, ntfn);;
      (ERR_OK, Some (n <| nt_badge ::= fun b => Z.lor b badge |>))
  end.

(** [out_badge] is the caller's variable; it comes back with the value it holds. *)
Definition notification_wait (ntfn : option notification_t) (waiter : Z) (out_badge : option Z)
    : kerror_t * option notification_t * option Z :=
  match ntfn, out_badge with
  | Some n, Some _ =>
      retif negb (nt_badge n =? 0)
        with (ERR_OK, Some (n <| nt_badge := 0 |>), Some (nt_badge n));;
      (ERR_OK, Some (n <| has_waiter := true |> <| waiter_tcb := waiter |>), out_badge)
  | _, _ => (ERR_INVALID_ARG, ntfn, out_badge)
  end.

Definition notification_poll (ntfn : option notification_t) (out_badge : option Z)
    : kerror_t * option notification_t * option Z :=
  match ntfn, out_badge with
  | Some n, Some _ => (ERR_OK, Some (n <| nt_badge := 0 |>), Some (nt_badge n))
  | _, _ => (ERR_INVALID_ARG, ntfn, out_badge)
  end.

Definition notification_bind (ntfn : option notification_t) (tcb_id : Z)
    : kerror_t * option notification_t :=
  match ntfn with
  | None => (ERR_INVALID_ARG, ntfn)
  | Some n => (ERR_OK, Some (n <| bound_tcb := tcb_id |>))
  end.

(** ** Histories *)

Inductive ntfn_op :=
| NSignal (badge : Z)
| NWait (waiter : Z)
| NPoll
| NBind (tcb_id : Z).

(** One operation: the new object, the badge bits it takes in and the bits it
    hands to its caller, whose variable starts at 0. *)
Definition ntfn_exec (n : notification_t) (o : ntfn_op) : notification_t * Z * Z :=
  match o with
  | NSignal b =>
      let '(e, n') := notification_signal (Some n) b in
      (default n n', if is_ok e then b else 0, 0)
  | NWait w =>
      let '(_, n', out) := notification_wait (Some n) w (Some 0) in
      (default n n', 0, default 0 out)
  | NPoll =>
      let '(_, n', out) := notification_poll (Some n) (Some 0) in
      (default n n', 0, default 0 out)
  | NBind t => (default n (notification_bind (Some n) t).2, 0, 0)
  end.

(** A history: the final object, the or of everything signalled and the or of
    everything delivered. *)
Fixpoint ntfn_run (n : notification_t) (l : list ntfn_op) : notification_t * Z * Z :=
  match l with
  | [] => (n, 0, 0)
  | o :: l' =>
      let '(n1, i1, d1) := ntfn_exec n o in
      let '(n2, i2, d2) := ntfn_run n1 l' in
      (n2, Z.lor i1 i2, Z.lor d1 d2)
  end.

Lemma ntfn_exec_conserves n o :
  let '(n', i, d) := ntfn_exec n o in
  Z.lor d (nt_badge n') = Z.lor (nt_badge n) i.
Proof.
  destruct o as [b|w| |t]; cbn.
  - unfold guard_ret. destruct (Z.eqb_spec b 0) as [->|]; cbn.
    + by rewrite Z.lor_0_r.
    + done.
  - unfold guard_ret. destruct (Z.eqb_spec (nt_badge n) 0) as [E|]; cbn.
    + by rewrite Z.lor_0_r.
    + by rewrite !Z.lor_0_r.
  - by rewrite !Z.lor_0_r.
  - by rewrite Z.lor_0_r.
Qed.

(** The bits of the accepted signals of a history; which operations take the badge. *)
Definition signals (l : list ntfn_op) : Z :=
  fold_right (fun o x => match o with NSignal b => Z.lor b x | _ => x end) 0 l.
Definition takes (o : ntfn_op) : bool := match o with NWait _ | NPoll => true | _ => false end.

Lemma ntfn_run_conserves n l :
  let '(n', signalled, delivered) := ntfn_run n l in
  Z.lor delivered (nt_badge n') = Z.lor (nt_badge n) signalled.
Proof.
  revert n. induction l as [|o l IH]; intros n; cbn [ntfn_run].
  - by rewrite Z.lor_0_r.
  - pose proof (ntfn_exec_conserves n o) as H1.
    destruct (ntfn_exec n o) as [[n1 i1] d1]. specialize (IH n1).
    destruct (ntfn_run n1 l) as [[n2 i2] d2].
    rewrite <- Z.lor_assoc, IH, Z.lor_assoc, H1. by rewrite Z.lor_assoc.
Qed.

(** Taking delivers what is pending and leaves nothing. *)
Lemma ntfn_take n o : takes o = true ->
  (ntfn_exec n o).2 = nt_badge n /\ nt_badge (ntfn_exec n o).1.1 = 0.
Proof.
  destruct o as [b|w| |t]; try done; intros _; cbn; try done. unfold guard_ret.
  destruct (Z.eqb_spec (nt_badge n) 0) as [E|E]; cbn; split; congruence.
Qed.

(** What accumulates between two takes. *)
Lemma ntfn_accumulate n l : Forall (fun o => takes o = false) l ->
  (ntfn_run n l).2 = 0 /\ nt_badge (ntfn_run n l).1.1 = Z.lor (nt_badge n) (signals l).
Proof.
  intros Hl. revert n. induction Hl as [|o l Ho _ IH]; intros n; cbn [ntfn_run signals fold_right].
  - by rewrite Z.lor_0_r.
  - fold (signals l). assert (ntfn_exec n o = ((ntfn_exec n o).1.1, (ntfn_exec n o).1.2, 0)) as ->
      by (destruct o as [b|w| |t]; try done; cbn; unfold guard_ret; by destruct (b =? 0)).
    destruct (IH (ntfn_exec n o).1.1) as [Hd Hb]. destruct (ntfn_run (ntfn_exec n o).1.1 l) as [[n2 i2] d2].
    cbn in Hd, Hb |- *. split; [by rewrite Hd|]. rewrite Hb.
    destruct o as [b|w| |t]; try done; cbn; unfold guard_ret.
    destruct (Z.eqb_spec b 0) as [->|]; cbn; by rewrite ?Z.lor_assoc, ?Z.lor_0_r.
Qed.

(** C28. Every signal is delivered once. Over any history of signals, waits, polls and
    binds no bit is lost or invented: the bits delivered together with those pending are
    the bits pending at the start together with those of the accepted signals. And taking
    empties the object: after any history and a wait or poll, the next wait or poll
    delivers exactly the bits signalled in between, so a bit that was delivered is
    delivered again only if it is signalled again. A wait that finds nothing pending
    delivers nothing and records the waiter. *)
Theorem notification_delivers_once n l o l' o' w :
  takes o = true -> Forall (fun x => takes x = false) l' -> takes o' = true ->
  (let '(n1, signalled, delivered) := ntfn_run n l in
   Z.lor delivered (nt_badge n1) = Z.lor (nt_badge n) signalled) /\
  (let n1 := (ntfn_run n (l ++ o :: l')).1.1 in
   (ntfn_exec n1 o').2 = signals l' /\
   (signals l' = 0 -> notification_wait (Some n1) w (Some 0)
      = (ERR_OK, Some (n1 <| has_waiter := true |> <| waiter_tcb := w |>), Some 0))).
Proof.
  intros Ho Hl' Ho'. split; [apply ntfn_run_conserves|].
  assert (nt_badge (ntfn_run n (l ++ o :: l')).1.1 = signals l') as Hb.
  { revert n. induction l as [|x l IH]; intros n; cbn [app ntfn_run].
    - destruct (ntfn_take n o Ho) as [_ H0]. destruct (ntfn_exec n o) as [[n1 i1] d1]. cbn in H0.
      destruct (ntfn_accumulate n1 l' Hl') as [_ Hb]. destruct (ntfn_run n1 l') as [[n2 i2] d2].
      cbn in Hb |- *. by rewrite Hb, H0.
    - destruct (ntfn_exec n x) as [[n1 i1] d1]. specialize (IH n1).
      by destruct (ntfn_run n1 (l ++ o :: l')) as [[n2 i2] d2]. }
  cbv zeta. split; [rewrite <- Hb; by apply ntfn_take|]. intros Hz. unfold notification_wait, guard_ret.
  by rewrite Hb, Hz.
Qed.

Lemma notification_delivers_once_witness :
  let n1 := (ntfn_run notification_zero ([NSignal 5] ++ NPoll :: [NSignal 2; NSignal 8])).1.1 in
  (ntfn_exec n1 (NWait 3)).2 = 10.
Proof.
  destruct (notification_delivers_once notification_zero [NSignal 5] NPoll [NSignal 2; NSignal 8] (NWait 3) 0)
    as [_ [H _]]; [reflexivity|repeat constructor|reflexivity|]. exact H.
Defined.
