(* ===== verification/Irq.v ===== *)
(** * irq.h, irq.c: interrupt lines

    Binding of interrupt lines to driver threads and the mask of lines that have
    fired. *)

From S2P Require Import Prelude Types Cheri Cap.

Definition MAX_IRQS : Z := 64.

Record irq_entry_t := mk_irq_entry {
  irq_valid : bool;
  bound : bool;
  irq_num : Z;
  owner_tcb : Z;
  notification_cap : Z;
  ent_badge : Z;
  irq_partition_id : Z
}.
#[export] Instance irq_entry_eta : Eta irq_entry_t := fun e =>
  mk_irq_entry (irq_valid e) (bound e) (irq_num e) (owner_tcb e) (notification_cap e)
    (ent_badge e) (irq_partition_id e).

Definition irq_entry_zero : irq_entry_t := mk_irq_entry false false 0 0 0 0 0.

(** [pending_mask[0]] is the only word of the mask. *)
Record irq_state_t := mk_irq_state { irqs : list irq_entry_t; pending_mask : Z }.
#[export] Instance irq_state_eta : Eta irq_state_t := fun s =>
  mk_irq_state (irqs s) (pending_mask s).

Definition irq_state_zero : irq_state_t :=
  mk_irq_state (replicate (Z.to_nat MAX_IRQS) irq_entry_zero) 0.

Definition irq_bind (st : option irq_state_t) (irq_cap : option cap_t)
    (tcb_id ntfn_cptr badge' : Z) : option (kerror_t * option irq_state_t) :=
  match st, irq_cap with
  | Some s, Some c =>
      retif negb (type c =? CAP_IRQ) with Some (ERR_INVALID_CAP, st);;
      retif negb (is_valid c) with Some (ERR_INVALID_CAP, st);;
      let irq := irq_irq (u c) in
      retif MAX_IRQS <=? irq with Some (ERR_INVALID_ARG, st);;
      e ← (irqs s).[irq];
      retif bound e with Some (ERR_REVOKE_NEEDED, st);;
      l ← (irqs s).[irq := e <| irq_valid := true |> <| bound := true |> <| irq_num := irq |>
                             <| owner_tcb := tcb_id |> <| notification_cap := ntfn_cptr |>
                             <| ent_badge := badge' |>];
      Some (ERR_OK, Some (s <| irqs := l |>))
  | _, _ => Some (ERR_INVALID_ARG, st)
  end.

Definition irq_unbind (st : option irq_state_t) (irq : Z)
    : option (kerror_t * option irq_state_t) :=
  match st with
  | Some s =>
      retif MAX_IRQS <=? irq with Some (ERR_INVALID_ARG, st);;
      e ← (irqs s).[irq];
      retif negb (bound e) with Some (ERR_INVALID_ARG, st);;
      l ← (irqs s).[irq := irq_entry_zero];
      Some (ERR_OK, Some (s <| irqs := l |>))
  | None => Some (ERR_INVALID_ARG, st)
  end.

Definition irq_handle (st : option irq_state_t) (irq : Z) : option (option irq_state_t) :=
  match st with
  | Some s =>
      retif MAX_IRQS <=? irq with Some st;;
      e ← (irqs s).[irq];
      retif negb (bound e) with Some st;;
      Some (Some (s <| pending_mask ::= fun m => Z.lor m (u64 (Z.shiftl 1 (irq mod 64))) |>))
  | None => Some st
  end.

Definition irq_is_pending (st : option irq_state_t) (irq : Z) : bool :=
  match st with
  | Some s =>
      retif MAX_IRQS <=? irq with false;;
      negb (Z.land (Z.shiftr (pending_mask s) (irq mod 64)) 1 =? 0)
  | None => false
  end.

(** ** Histories *)

Inductive irq_op :=
| IBind (c : cap_t) (tcb_id ntfn_cptr badge' : Z)
| IUnbind (irq : Z)
| IHandle (irq : Z).

Definition irq_exec (s : irq_state_t) (o : irq_op) : option irq_state_t :=
  match o with
  | IBind c t n b => '(_, s') ← irq_bind (Some s) (Some c) t n b; s'
  | IUnbind i => '(_, s') ← irq_unbind (Some s) i; s'
  | IHandle i => s' ← irq_handle (Some s) i; s'
  end.

Inductive irq_step (s s' : irq_state_t) : irq_op -> Prop :=
| irq_step_intro o : irq_exec s o = Some s' -> irq_step s s' o.

(** Runs with their operations. *)
Inductive irq_run : irq_state_t -> list irq_op -> irq_state_t -> Prop :=
| irq_run_nil s : irq_run s [] s
| irq_run_cons s1 s2 s3 o l : irq_step s1 s2 o -> irq_run s2 l s3 -> irq_run s1 (o :: l) s3.

Arguments irq_bind : simpl never.
Arguments irq_unbind : simpl never.
Arguments irq_handle : simpl never.

Lemma irq_pending_testbit s i : 0 <= i < MAX_IRQS ->
  irq_is_pending (Some s) i = Z.testbit (pending_mask s) i.
Proof.
  unfold MAX_IRQS. intros Hi. unfold irq_is_pending, guard_ret, MAX_IRQS. branches; [bools; lia|].
  rewrite Z.mod_small by lia. change 1 with (Z.ones 1).
  destruct (Z.testbit (pending_mask s) i) eqn:E.
  - apply negb_true_iff, Z.eqb_neq. intros H. apply (f_equal (fun z => Z.testbit z 0)) in H.
    rewrite Z.land_spec, Z.shiftr_spec, Z.testbit_0_l in H by lia.
    rewrite Z.add_0_l, E in H. done.
  - apply negb_false_iff, Z.eqb_eq. apply Z.bits_inj'. intros n Hn.
    rewrite Z.land_spec, Z.shiftr_spec, Z.testbit_0_l by lia.
    destruct (decide (n = 0)) as [->|]; [by rewrite Z.add_0_l, E|].
    rewrite Z.ones_spec_high by lia. apply andb_false_r.
Qed.

Lemma handle_mask_testbit m i j : 0 <= i < 64 -> 0 <= j ->
  Z.testbit (Z.lor m (u64 (Z.shiftl 1 (i mod 64)))) j = Z.testbit m j || (j =? i).
Proof.
  intros Hi Hj. rewrite Z.lor_spec, Z.mod_small by lia. f_equal.
  rewrite Z.shiftl_mul_pow2, Z.mul_1_l by lia.
  rewrite u64_small.
  - rewrite Z.pow2_bits_eqb by lia. apply Z.eqb_sym.
  - split; [lia|]. apply Z.pow_lt_mono_r; lia.
Qed.

(** The effect of one operation: the entry of one line is rewritten, or one bit
    of the mask is set, or nothing happens. *)
Lemma irq_exec_effect s o s' : irq_exec s o = Some s' ->
  s' = s \/
  match o with
  | IBind c t n b => exists e l, 0 <= irq_irq (u c) < MAX_IRQS /\
      (irqs s).[irq_irq (u c)] = Some e /\ bound e = false /\
      (irqs s).[irq_irq (u c) := e <| irq_valid := true |> <| bound := true |>
         <| irq_num := irq_irq (u c) |> <| owner_tcb := t |> <| notification_cap := n |>
         <| ent_badge := b |>] = Some l /\ s' = s <| irqs := l |>
  | IUnbind i => exists e l, i < MAX_IRQS /\ (irqs s).[i] = Some e /\ bound e = true /\
      (irqs s).[i := irq_entry_zero] = Some l /\ s' = s <| irqs := l |>
  | IHandle i => exists e, i < MAX_IRQS /\ (irqs s).[i] = Some e /\ bound e = true /\
      s' = s <| pending_mask ::= fun m => Z.lor m (u64 (Z.shiftl 1 (i mod 64))) |>
  end.
Proof.
  intros H. destruct o as [c t n b|i|i]; cbn in H.
  - destruct (irq_bind _ _ _ _ _) as [[err r]|] eqn:E; [|done]. cbn in H. subst r.
    unfold irq_bind in E. run E; injection E as <- E; try (left; congruence).
    right. bools. subst. pose proof (arr_get_Some _ _ _ E0) as [? _]. exists i, l. split_and!; try done; lia.
  - destruct (irq_unbind _ _) as [[err r]|] eqn:E; [|done]. cbn in H. subst r.
    unfold irq_unbind in E. run E; injection E as <- E; try (left; congruence).
    right. bools. subst. by exists i0, l.
  - destruct (irq_handle _ _) as [r|] eqn:E; [|done]. cbn in H. subst r.
    unfold irq_handle in E. run E; injection E as E; try (left; congruence).
    right. bools. subst. by exists i0.
Qed.

(** A bound line keeps its entry through every operation but its own unbind. *)
Lemma irq_exec_line s o s' i e : irq_exec s o = Some s' -> (irqs s).[i] = Some e ->
  bound e = true -> o <> IUnbind i -> (irqs s').[i] = Some e.
Proof.
  intros H Hi Hb Hne. apply irq_exec_effect in H as [->|H]; [done|].
  destruct o as [c t n b|j|j].
  - destruct H as (e0 & l & _ & He & Hnb & Hl & ->). cbn. rewrite (arr_get_set _ _ _ _ _ Hl).
    destruct (Z.eqb_spec i (irq_irq (u c))) as [Eq|]; [|done]. rewrite Eq in Hi. congruence.
  - destruct H as (e0 & l & _ & He & Hnb & Hl & ->). cbn. rewrite (arr_get_set _ _ _ _ _ Hl).
    destruct (Z.eqb_spec i j) as [Eq|]; [|done]. congruence.
  - by destruct H as (e0 & _ & _ & _ & ->).
Qed.

(** The pending bit of a line changes only when the line is handled while bound. *)
Lemma irq_exec_pending s o s' i : 0 <= i < MAX_IRQS -> irq_exec s o = Some s' ->
  irq_is_pending (Some s') i = true <->
  irq_is_pending (Some s) i = true \/
  (o = IHandle i /\ exists e, (irqs s).[i] = Some e /\ bound e = true).
Proof.
  intros Hi H. rewrite !irq_pending_testbit by done.
  destruct o as [c t n b|j|j].
  - apply irq_exec_effect in H as [->|(e & l & _ & _ & _ & _ & ->)]; intuition discriminate.
  - apply irq_exec_effect in H as [->|(e & l & _ & _ & _ & _ & ->)]; intuition discriminate.
  - cbn in H. unfold irq_handle, guard_ret in H. cbn in H. unfold MAX_IRQS in *.
    destruct (Z.leb_spec 64 j).
    { injection H as <-. split; [auto|]. intros [?|[[= ->] _]]; [done|lia]. }
    destruct (irqs s).[j] as [e|] eqn:Ej; [cbn in H|done].
    destruct (bound e) eqn:Hb; cbn in H; injection H as <-.
    + cbn. apply arr_get_Some in Ej as Hj.
      rewrite handle_mask_testbit, orb_true_iff, Z.eqb_eq by lia.
      split; intros [?|Hh]; auto; [subst; eauto|]. destruct Hh as [[= ->] _]. auto.
    + split; [auto|]. intros [?|([= ->] & e' & He' & Hb')]; congruence.
Qed.

(** [irq_init_wf]: 64 entries, as declared. *)
Definition irq_wf (s : irq_state_t) : Prop := length (irqs s) = Z.to_nat MAX_IRQS.

Lemma irq_exec_wf s o s' : irq_wf s -> irq_exec s o = Some s' -> irq_wf s'.
Proof.
  unfold irq_wf. intros Hwf H. apply irq_exec_effect in H as [->|H]; [done|].
  destruct o; [destruct H as (e & l & _ & _ & _ & Hl & ->)|
    destruct H as (e & l & _ & _ & _ & Hl & ->)|by destruct H as (e & _ & _ & _ & ->)];
    cbn; by rewrite (arr_set_length _ _ _ _ Hl).
Qed.

Lemma irq_run_wf s l s' : irq_run s l s' -> irq_wf s -> irq_wf s'.
Proof. induction 1 as [|s1 s2 s3 o l [o' H] _ IH]; eauto using irq_exec_wf. Qed.

(** ** Properties *)

(** C27. A bound interrupt line has one owner until it is unbound: along any run
    without [irq_unbind] of that line its entry (owner, notification, badge) does
    not change, and every attempt to bind it again, with whatever valid
    capability, returns [ERR_REVOKE_NEEDED] and changes nothing. *)
Theorem irq_binding_exclusive s l s' i e :
  irq_run s l s' -> (irqs s).[i] = Some e -> bound e = true -> i < MAX_IRQS ->
  IUnbind i ∉ l ->
  (irqs s').[i] = Some e /\
  forall c t n b, type c = CAP_IRQ -> is_valid c = true -> irq_irq (u c) = i ->
    irq_bind (Some s') (Some c) t n b = Some (ERR_REVOKE_NEEDED, Some s').
Proof.
  intros Hrun Hi Hb Hlt Hno.
  assert ((irqs s').[i] = Some e) as He.
  { induction Hrun as [|s1 s2 s3 o l [o' H] _ IH]; [done|].
    apply not_elem_of_cons in Hno as [Hne Hno]. apply IH; [|done].
    eapply irq_exec_line; eauto. }
  split; [done|]. intros c t n b Ht Hv Hc.
  unfold irq_bind, guard_ret. rewrite Ht, Hv, Hc. cbn.
  destruct (Z.leb_spec MAX_IRQS i); [lia|]. rewrite He. cbn. by rewrite Hb.
Qed.

(** An interrupt capability for line 10. *)
Definition demo_irq_cap : cap_t :=
  mk_cap CAP_IRQ 0xF 0 true true 0 (mk_cap_u 10 0 0 0) (mk_sim_cap 0 0 0 0 0 true true).
Definition demo_irq_bound : irq_state_t :=
  irq_state_zero <| irqs ::= fun l =>
    <[10%nat := mk_irq_entry true true 10 5 2 0x100 0]> l |>.

Lemma irq_binding_exclusive_witness :
  irq_exec irq_state_zero (IBind demo_irq_cap 5 2 0x100) = Some demo_irq_bound /\
  irq_bind (Some demo_irq_bound) (Some demo_irq_cap) 6 3 0x200 =
    Some (ERR_REVOKE_NEEDED, Some demo_irq_bound).
Proof.
  split; [vm_compute; reflexivity|].
  apply (irq_binding_exclusive demo_irq_bound [] demo_irq_bound 10
           (mk_irq_entry true true 10 5 2 0x100 0)); try reflexivity.
  - constructor.
  - apply not_elem_of_nil.
Defined.

(** The pending mask is exactly the history of delivered interrupts: after any
    run, a line is pending iff it was pending before or some [irq_handle] of it
    ran at a moment when the line was bound. An interrupt on an unbound line is
    dropped, and no operation, not even [irq_unbind], clears a pending line. *)
Theorem irq_pending_iff_handled s l s' i :
  0 <= i < MAX_IRQS -> irq_run s l s' ->
  irq_is_pending (Some s') i = true <->
  irq_is_pending (Some s) i = true \/
  exists l1 l2 sm e, l = l1 ++ IHandle i :: l2 /\ irq_run s l1 sm /\
    (irqs sm).[i] = Some e /\ bound e = true.
Proof.
  intros Hi Hrun. induction Hrun as [s|s1 s2 s3 o l [o' H] _ IH].
  - split; [auto|]. intros [?|(l1 & l2 & ? & ? & Hnil & _)]; [done|]. by destruct l1.
  - rewrite IH, (irq_exec_pending _ _ _ _ Hi H). split.
    + intros [[?|(-> & e & He & Hb)]|(l1 & l2 & sm & e & -> & Hr & He & Hb)]; [auto|right..].
      * exists [], l, s1, e. split_and!; [done|constructor|done..].
      * exists (o' :: l1), l2, sm, e. split_and!; [done| |done..].
        by econstructor; [constructor|].
    + intros [?|(l1 & l2 & sm & e & Hl & Hr & He & Hb)]; [auto|].
      destruct l1 as [|o1 l1]; injection Hl as -> ->.
      * inversion Hr; subst. left. right. eauto.
      * inversion Hr as [|? s2' ? ? ? [? H'] Hr']; subst. rewrite H in H'. injection H' as <-.
        right. by exists l1, l2, sm, e.
Qed.

Lemma irq_pending_iff_handled_witness :
  exists s', irq_run demo_irq_bound [IHandle 10; IUnbind 10] s' /\
    irq_is_pending (Some s') 10 = true.
Proof.
  eexists. split.
  - econstructor; [constructor; vm_compute; reflexivity|].
    econstructor; [constructor; vm_compute; reflexivity|]. constructor.
  - eapply (irq_pending_iff_handled demo_irq_bound [IHandle 10; IUnbind 10]).
    + split; [discriminate|reflexivity].
    + econstructor; [constructor; vm_compute; reflexivity|].
      econstructor; [constructor; vm_compute; reflexivity|]. constructor.
    + right. exists [], [IUnbind 10], demo_irq_bound, (mk_irq_entry true true 10 5 2 0x100 0).
      split_and!; [reflexivity|constructor|reflexivity..].
Defined.
