(* ===== verification/Alloc.v ===== *)
(** * alloc.h, alloc.c: the cache-colouring frame allocator

    A bump allocator that starts each frame at the next page whose cache colour
    (bits 12 to 15 of its address) is the one of the requesting partition. *)

From S2P Require Import Prelude Types Cheri Cap.

Definition NUM_COLORS : Z := 16.
Definition COLORS_PER_PARTITION : Z := 2.
Definition MAX_FRAMES : Z := 512.

Record frame_alloc_t := mk_frame_alloc {
  al_base : Z;
  al_next : Z;
  al_top : Z;
  al_free_head : list Z;
  al_free_count : list Z;
  al_frames : list cap_t;
  al_frame_count : Z
}.
#[export] Instance frame_alloc_eta : Eta frame_alloc_t := fun a =>
  mk_frame_alloc (al_base a) (al_next a) (al_top a) (al_free_head a) (al_free_count a)
    (al_frames a) (al_frame_count a).

Definition frame_alloc_zero : frame_alloc_t :=
  mk_frame_alloc 0 0 0 (replicate (Z.to_nat NUM_COLORS) 0) (replicate (Z.to_nat NUM_COLORS) 0)
    (replicate (Z.to_nat MAX_FRAMES) cap_zero) 0.

(** The pointer is dereferenced without a test, so it is not optional. *)
Definition alloc_init (base size : Z) : frame_alloc_t :=
  frame_alloc_zero <| al_base := base |> <| al_next := base |> <| al_top := u64 (base + size) |>.

Definition alloc_color_for_partition (partition_id : Z) : Z :=
  u16 (u32 (partition_id * COLORS_PER_PARTITION) mod NUM_COLORS).

Definition alloc_color_is_valid (partition_id color' : Z) : bool :=
  let base := alloc_color_for_partition partition_id in
  (color' =? base) || (color' =? u16 (base + 1)).

(** [(paddr >> 12) % NUM_COLORS]. *)
Definition page_color (paddr : Z) : Z := Z.shiftr paddr 12 mod NUM_COLORS.

(** [while (((paddr >> 12) % NUM_COLORS) != color) paddr += PAGE_SIZE;] with at most
    [fuel] rounds. *)
Fixpoint color_loop (fuel : nat) (paddr color' : Z) : option Z :=
  if page_color paddr =? color' then Some paddr
  else match fuel with
       | O => None
       | S fuel' => color_loop fuel' (u64 (paddr + PAGE_SIZE)) color'
       end.

(** The capability [alloc_frame] writes to [*out]. *)
Definition frame_cap (paddr size color' : Z) : cap_t :=
  cap_zero
    <| type := CAP_FRAME |>
    <| rights := Z.lor (Z.lor (Z.lor CHERI_PERM_LOAD CHERI_PERM_STORE) CHERI_PERM_LOAD_CAP)
                       CHERI_PERM_STORE_CAP |>
    <| is_valid := true |>
    <| is_sealed := true |>
    <| color := color' |>
    <| u ::= set_frame_paddr paddr |>
    <| u ::= set_frame_color color' |>
    <| hw_cap := mk_sim_cap paddr (u64 (paddr + size)) paddr 0 OTYPE_FRAME true true |>.

Definition alloc_frame (al : option frame_alloc_t) (partition_id size : Z) (out : option cap_t)
    : option (kerror_t * option frame_alloc_t * option cap_t) :=
  match al, out with
  | Some a, Some _ =>
      retif negb (size mod PAGE_SIZE =? 0) with Some (ERR_INVALID_ARG, al, out);;
      retif 8 <=? partition_id with Some (ERR_INVALID_ARG, al, out);;
      let color' := alloc_color_for_partition partition_id in
      paddr ← color_loop (Z.to_nat NUM_COLORS) (al_next a) color';
      retif al_top a <? u64 (paddr + size) with Some (ERR_NO_MEM, al, out);;
      let c := frame_cap paddr size color' in
      let a1 := a <| al_next := u64 (paddr + size) |> in
      if al_frame_count a1 <? MAX_FRAMES then
        fs ← (al_frames a1).[al_frame_count a1 := c];
        Some (ERR_OK, Some (a1 <| al_frames := fs |> <| al_frame_count ::= fun n => u32 (n + 1) |>),
              Some c)
      else Some (ERR_OK, Some a1, Some c)
  | _, _ => Some (ERR_INVALID_ARG, al, out)
  end.

Definition alloc_free (al : option frame_alloc_t) (frame : option cap_t)
    : kerror_t * option cap_t :=
  match al, frame with
  | Some _, Some f =>
      retif negb (type f =? CAP_FRAME) with (ERR_INVALID_CAP, frame);;
      (ERR_OK, Some cap_zero)
  | _, _ => (ERR_INVALID_ARG, frame)
  end.

(** ** Invariant *)

(** The allocator between two calls: the frontier is a page inside the region,
    and the region ends far enough below the top of the address space for the
    colour search not to wrap. *)
Record alloc_wf (a : frame_alloc_t) : Prop := {
  aw_base : 0 <= al_base a;
  aw_next : al_base a <= al_next a <= al_top a;
  aw_page : al_next a mod PAGE_SIZE = 0;
  aw_top : al_top a + NUM_COLORS * PAGE_SIZE <= 2 ^ 64;
  aw_frames : length (al_frames a) = Z.to_nat MAX_FRAMES;
  aw_count : 0 <= al_frame_count a <= MAX_FRAMES
}.

(** A size whose end, searched for from anywhere in the region, is still an
    address. *)
Definition size_ok (a : frame_alloc_t) (size : Z) : Prop :=
  0 <= size /\ al_top a + NUM_COLORS * PAGE_SIZE + size <= 2 ^ 64.

(** How many pages lie between an address and the next one of a colour. *)
Definition color_gap (paddr color' : Z) : Z := (color' - Z.shiftr paddr 12) mod NUM_COLORS.

(** Where the next frame of a partition starts. *)
Definition next_frame (a : frame_alloc_t) (partition_id : Z) : Z :=
  al_next a + PAGE_SIZE * color_gap (al_next a) (alloc_color_for_partition partition_id).

(** ** Lemmas *)

Arguments alloc_frame : simpl never.
Arguments frame_cap : simpl never.

Lemma color_for_partition_small p : 0 <= p < 8 -> alloc_color_for_partition p = 2 * p.
Proof.
  intros Hp. unfold alloc_color_for_partition, COLORS_PER_PARTITION, NUM_COLORS.
  rewrite u32_small by (unfold fits; lia). rewrite Z.mod_small by lia.
  rewrite u16_small by (unfold fits; lia). lia.
Qed.

Lemma color_for_partition_range p : 0 <= alloc_color_for_partition p < NUM_COLORS.
Proof.
  unfold alloc_color_for_partition, NUM_COLORS.
  pose proof (Z.mod_pos_bound (u32 (p * COLORS_PER_PARTITION)) 16 ltac:(lia)).
  rewrite u16_small; unfold fits; lia.
Qed.

Lemma page_color_add p k : page_color (p + PAGE_SIZE * k) = (Z.shiftr p 12 + k) mod NUM_COLORS.
Proof.
  unfold page_color. rewrite !Z.shiftr_div_pow2 by lia. change (2 ^ 12) with PAGE_SIZE.
  unfold PAGE_SIZE. rewrite Z.mul_comm, Z.div_add by lia. done.
Qed.

Lemma page_color_wrap p : page_color (u64 p) = page_color p.
Proof.
  unfold page_color, u64, wrap, NUM_COLORS. rewrite !Z.shiftr_div_pow2 by lia.
  Z.div_mod_to_equations. lia.
Qed.

Lemma u64_add_l p q : u64 (u64 p + q) = u64 (p + q).
Proof. unfold u64, wrap. apply Zplus_mod_idemp_l. Qed.

(** The search ends after as many rounds as the gap, whatever the start. *)
Lemma color_loop_finds n p c :
  0 <= c < NUM_COLORS -> color_gap p c = Z.of_nat n -> forall fuel, (n <= fuel)%nat ->
  color_loop fuel (u64 p) c = Some (u64 (p + PAGE_SIZE * Z.of_nat n)).
Proof.
  unfold color_gap, NUM_COLORS. revert p. induction n as [|n IH]; intros p Hc Hgap fuel Hf.
  - assert (page_color (u64 p) = c) as E.
    { rewrite page_color_wrap. unfold page_color, NUM_COLORS. Z.div_mod_to_equations. lia. }
    destruct fuel; cbn [color_loop]; rewrite E, Z.eqb_refl; f_equal; f_equal; lia.
  - assert (page_color (u64 p) <> c) as E.
    { rewrite page_color_wrap. unfold page_color, NUM_COLORS. Z.div_mod_to_equations. lia. }
    destruct fuel as [|fuel]; [lia|]. cbn [color_loop].
    rewrite (proj2 (Z.eqb_neq _ _) E), u64_add_l, IH; [|done| |lia].
    + do 2 f_equal. lia.
    + rewrite !Z.shiftr_div_pow2 in * by lia. unfold PAGE_SIZE.
      Z.div_mod_to_equations. lia.
Qed.

Lemma color_gap_range p c : 0 <= color_gap p c < NUM_COLORS.
Proof. unfold color_gap, NUM_COLORS. apply Z.mod_pos_bound. lia. Qed.

Lemma color_loop_total p c : fits 64 p -> 0 <= c < NUM_COLORS ->
  color_loop (Z.to_nat NUM_COLORS) p c = Some (u64 (p + PAGE_SIZE * color_gap p c)).
Proof.
  intros Hp Hc. pose proof (color_gap_range p c) as Hg.
  rewrite <- (u64_small p Hp) at 1.
  rewrite (color_loop_finds (Z.to_nat (color_gap p c))); try done.
  - by rewrite Z2Nat.id by lia.
  - lia.
  - lia.
Qed.

Lemma color_is_valid_iff p c : 0 <= p < 8 -> 0 <= c < NUM_COLORS ->
  alloc_color_is_valid p c = true <-> c / COLORS_PER_PARTITION = p.
Proof.
  intros Hp Hc. unfold alloc_color_is_valid. cbn zeta. rewrite color_for_partition_small by done.
  rewrite u16_small by (unfold fits; lia). rewrite orb_true_iff, !Z.eqb_eq.
  unfold COLORS_PER_PARTITION. Z.div_mod_to_equations. lia.
Qed.

(** Where a frame starts: past the frontier, page aligned and of its colour. *)
Lemma next_frame_spec a p : alloc_wf a -> 0 <= p < 8 ->
  al_next a <= next_frame a p < al_next a + NUM_COLORS * PAGE_SIZE /\
  next_frame a p mod PAGE_SIZE = 0 /\ page_color (next_frame a p) = 2 * p.
Proof.
  intros Hwf Hp. unfold next_frame. set (c := alloc_color_for_partition p).
  pose proof (color_gap_range (al_next a) c) as Hg. split_and!.
  - unfold PAGE_SIZE, NUM_COLORS in *. lia.
  - unfold PAGE_SIZE, NUM_COLORS in *. lia.
  - pose proof (aw_page _ Hwf). unfold PAGE_SIZE in *. rewrite Z.mul_comm, Z.mod_add by lia. done.
  - rewrite page_color_add. unfold color_gap in *. subst c.
    rewrite color_for_partition_small by done. unfold NUM_COLORS in *.
    Z.div_mod_to_equations. lia.
Qed.

Lemma next_frame_search a p : alloc_wf a -> 0 <= p < 8 ->
  color_loop (Z.to_nat NUM_COLORS) (al_next a) (alloc_color_for_partition p) =
  Some (next_frame a p).
Proof.
  intros Hwf Hp. pose proof (next_frame_spec a p Hwf Hp) as [Hn _].
  pose proof (aw_base _ Hwf). pose proof (aw_next _ Hwf). pose proof (aw_top _ Hwf).
  unfold NUM_COLORS, PAGE_SIZE in *.
  rewrite color_loop_total; [|unfold fits; lia|apply color_for_partition_range].
  fold (next_frame a p). rewrite u64_small; [done|]. unfold fits. lia.
Qed.

(** The allocator after a grant. *)
Definition alloc_granted (a : frame_alloc_t) (p size : Z) (a' : frame_alloc_t) : Prop :=
  al_base a' = al_base a /\ al_top a' = al_top a /\ al_next a' = next_frame a p + size /\
  alloc_wf a'.

(** The three outcomes of a request. *)
Lemma alloc_frame_cases a p size out : alloc_wf a -> size_ok a size -> 0 <= p ->
  exists e a' out', alloc_frame (Some a) p size (Some out) = Some (e, Some a', Some out') /\
  ((e = ERR_INVALID_ARG /\ (size mod PAGE_SIZE <> 0 \/ 8 <= p) /\ a' = a /\ out' = out) \/
   (size mod PAGE_SIZE = 0 /\ p < 8 /\ e = ERR_NO_MEM /\ al_top a < next_frame a p + size /\
    a' = a /\ out' = out) \/
   (size mod PAGE_SIZE = 0 /\ p < 8 /\ e = ERR_OK /\ next_frame a p + size <= al_top a /\
    out' = frame_cap (next_frame a p) size (2 * p) /\ alloc_granted a p size a')).
Proof.
  intros Hwf [Hs0 Hs] Hp. unfold alloc_frame, guard_ret.
  destruct (Z.eqb_spec (size mod PAGE_SIZE) 0) as [Em|Em]; cbn [negb];
    [|do 3 eexists; split; [reflexivity|left; auto]].
  destruct (Z.leb_spec 8 p) as [Hp8|Hp8]; [do 3 eexists; split; [reflexivity|left; auto]|].
  assert (0 <= p < 8) as Hp' by lia.
  rewrite (next_frame_search a p Hwf Hp'). cbn [mbind option_bind].
  pose proof (next_frame_spec a p Hwf Hp') as (Hn & Hpage & _).
  pose proof (aw_base _ Hwf). pose proof (aw_next _ Hwf).
  assert (u64 (next_frame a p + size) = next_frame a p + size) as Eu.
  { apply u64_small. unfold fits, NUM_COLORS, PAGE_SIZE in *. lia. }
  rewrite Eu, color_for_partition_small by done.
  destruct (Z.ltb_spec (al_top a) (next_frame a p + size)) as [Ht|Ht].
  { do 3 eexists. split; [reflexivity|]. right. left. auto 10. }
  assert (forall fs n, length fs = Z.to_nat MAX_FRAMES -> 0 <= n <= MAX_FRAMES ->
    alloc_granted a p size
      ((a <| al_next := next_frame a p + size |>) <| al_frames := fs |> <| al_frame_count := n |>))
    as Hgr.
  { intros fs n Hfs Hn'. pose proof (aw_top _ Hwf).
    split_and!; [done..|]. constructor; cbn; try lia; try done.
    rewrite Z.add_mod, Hpage, Em by done. done. }
  pose proof (aw_count _ Hwf) as Hc. cbn [modify_field al_frame_count al_frames].
  destruct (Z.ltb_spec (al_frame_count a) MAX_FRAMES) as [Hlt|Hge].
  - rewrite arr_set_in by (rewrite (aw_frames _ Hwf); unfold MAX_FRAMES in *; lia).
    do 3 eexists. split; [reflexivity|]. right. right. split_and!; try done.
    apply (Hgr (<[Z.to_nat (al_frame_count a) := _]> (al_frames a)) (u32 (al_frame_count a + 1))).
    + rewrite length_insert. apply (aw_frames _ Hwf).
    + rewrite u32_small by (unfold fits, MAX_FRAMES in *; lia). lia.
  - do 3 eexists. split; [reflexivity|]. right. right. split_and!; try done.
    apply (Hgr (al_frames a) (al_frame_count a)); [apply (aw_frames _ Hwf)|done].
Qed.

(** ** Histories *)

(** Requests served in order: the granted frames with the partition that asked. *)
Fixpoint alloc_all (a : frame_alloc_t) (reqs : list (Z * Z))
    : option (list (Z * cap_t) * frame_alloc_t) :=
  match reqs with
  | [] => Some ([], a)
  | (p, size) :: reqs' =>
      '(e, a1, out) ← alloc_frame (Some a) p size (Some cap_zero);
      a1 ← a1; out ← out;
      '(gs, a2) ← alloc_all a1 reqs';
      Some (if is_ok e then (p, out) :: gs else gs, a2)
  end.

(** A granted frame: a valid sealed capability for exactly the pages it names,
    inside the region, starting on a page whose colour is one of its partition's
    and of no other partition's. *)
Definition frame_ok (lo hi : Z) (g : Z * cap_t) : Prop :=
  let '(p, c) := g in
  0 <= p < 8 /\ cap_is_valid (Some c) = true /\ type c = CAP_FRAME /\
  frame_paddr (u c) = hw_base (hw_cap c) /\ frame_color (u c) = color c /\
  lo <= hw_base (hw_cap c) /\ hw_base (hw_cap c) <= hw_top (hw_cap c) /\
  hw_top (hw_cap c) <= hi /\ hw_base (hw_cap c) mod PAGE_SIZE = 0 /\
  page_color (hw_base (hw_cap c)) = color c /\
  forall q, 0 <= q < 8 -> alloc_color_is_valid q (color c) = true <-> q = p.

Lemma frame_cap_hw p size c :
  hw_cap (frame_cap p size c) = mk_sim_cap p (u64 (p + size)) p 0 OTYPE_FRAME true true.
Proof. done. Qed.

Lemma frame_cap_color p size c : color (frame_cap p size c) = c.
Proof. done. Qed.

Lemma frame_cap_u_color p size c : fits 16 c -> frame_color (u (frame_cap p size c)) = c.
Proof.
  intros Hc. change (frame_color (u (frame_cap p size c)))
    with (bits_get (bits_set 0 16 16 c) 16 16). by apply bits_get_set_eq.
Qed.

Lemma frame_cap_ok a p size : alloc_wf a -> size_ok a size -> 0 <= p < 8 ->
  next_frame a p + size <= al_top a ->
  let c := frame_cap (next_frame a p) size (2 * p) in
  frame_ok (al_next a) (al_top a) (p, c) /\ hw_base (hw_cap c) = next_frame a p /\
  hw_top (hw_cap c) = next_frame a p + size.
Proof.
  intros Hwf [Hs _] Hp Ht c. subst c.
  pose proof (next_frame_spec a p Hwf Hp) as (Hn & Hpage & Hcol).
  pose proof (aw_base _ Hwf). pose proof (aw_next _ Hwf). pose proof (aw_top _ Hwf).
  unfold NUM_COLORS, PAGE_SIZE in *.
  unfold frame_ok. rewrite frame_cap_hw, frame_cap_color, frame_cap_u_color
    by (unfold fits; lia).
  cbn [hw_base hw_top]. rewrite u64_small by (unfold fits; lia). split_and!; try done; try lia.
  - intros q Hq. rewrite color_is_valid_iff by (unfold NUM_COLORS; lia).
    unfold COLORS_PER_PARTITION. Z.div_mod_to_equations. lia.
Qed.

Lemma frame_ok_weaken lo lo' hi g : lo <= lo' -> frame_ok lo' hi g -> frame_ok lo hi g.
Proof. destruct g as [p c]. unfold frame_ok. intuition lia. Qed.

(** C13. Spatial isolation of the allocator: from a well-formed state, any sequence of
    requests whose sizes are small enough that the end of a frame in the region cannot
    pass 2^64 (the test on it wraps around) runs to the end (the colour search always
    stops), keeps the allocator well formed, and grants frames that lie inside the
    region, each past the end of the ones granted before it, hence pairwise
    disjoint; each is a valid sealed capability for exactly its pages, and its
    colour belongs to the requesting partition and to no other. *)
Theorem alloc_frames_isolated a reqs :
  alloc_wf a -> Forall (fun r => 0 <= r.1 /\ size_ok a r.2) reqs ->
  exists gs a', alloc_all a reqs = Some (gs, a') /\ alloc_wf a' /\
    al_next a <= al_next a' /\
    Forall (frame_ok (al_next a) (al_next a')) gs /\
    ForallOrdPairs (fun g h => hw_top (hw_cap g.2) <= hw_base (hw_cap h.2)) gs.
Proof.
  revert a. induction reqs as [|[p size] reqs IH]; intros a Hwf Hr; cbn [alloc_all].
  { exists [], a. split_and!; [done|done|lia|constructor..]. }
  apply Forall_cons_1 in Hr as [[Hp Hs] Hr]. cbn in Hp, Hs.
  destruct (alloc_frame_cases a p size cap_zero Hwf Hs Hp) as (e & a1 & out & -> & Hc).
  cbn [mbind option_bind].
  destruct Hc as [(-> & _ & -> & _)|[(_ & _ & -> & _ & -> & _)|
                  (Hm & Hp8 & -> & Ht & -> & Hb1 & Ht1 & Hn1 & Hwf1)]].
  1-2: destruct (IH a Hwf Hr) as (gs & a' & -> & H); by exists gs, a'.
  destruct (IH a1 Hwf1) as (gs & a' & -> & Hwf' & Hle & Hgs & Hord).
  { eapply List.Forall_impl; [|exact Hr]. unfold size_ok. intros r. rewrite Ht1. done. }
  destruct (frame_cap_ok a p size Hwf Hs ltac:(lia) Ht) as (Hok & Hbase & Htop).
  pose proof (next_frame_spec a p Hwf ltac:(lia)) as [Hn _]. destruct Hs as [Hs _].
  eexists _, a'. split; [reflexivity|]. split_and!; [done|lia|constructor..].
  - unfold frame_ok in *. rewrite Htop, Hbase in *. intuition lia.
  - eapply List.Forall_impl; [|exact Hgs]. intros g. apply frame_ok_weaken. lia.
  - cbn [snd]. rewrite Htop, <- Hn1. eapply List.Forall_impl; [|exact Hgs].
    intros [q c] Hg. unfold frame_ok in Hg. cbn. intuition.
  - done.
Qed.

Lemma alloc_init_wf base size : 0 <= base -> base mod PAGE_SIZE = 0 -> 0 <= size ->
  base + size + NUM_COLORS * PAGE_SIZE <= 2 ^ 64 -> alloc_wf (alloc_init base size).
Proof.
  intros Hb Hp Hs Ht. unfold NUM_COLORS, PAGE_SIZE in *. unfold alloc_init.
  rewrite u64_small by (unfold fits; lia). constructor; cbn; unfold NUM_COLORS, PAGE_SIZE; try done; lia.
Qed.

(** Four megabytes from 0x80400000. *)
Definition demo_alloc : frame_alloc_t := alloc_init 0x80400000 0x400000.

Lemma demo_alloc_wf : alloc_wf demo_alloc.
Proof. apply alloc_init_wf; vm_compute; congruence. Qed.

Lemma alloc_frames_isolated_witness :
  exists c0 c1 a', alloc_all demo_alloc [(1, 0x1000); (9, 0x1000); (0, 0x2000)]
    = Some ([(1, c0); (0, c1)], a') /\
  hw_top (hw_cap c0) <= hw_base (hw_cap c1) /\ frame_ok 0x80400000 (al_next a') (0, c1).
Proof.
  destruct (alloc_frames_isolated demo_alloc [(1, 0x1000); (9, 0x1000); (0, 0x2000)])
    as (gs & a' & H & _ & _ & Hok & Hord).
  - apply demo_alloc_wf.
  - repeat constructor; vm_compute; congruence.
  - assert (exists c0 c1 a1, alloc_all demo_alloc [(1, 0x1000); (9, 0x1000); (0, 0x2000)]
      = Some ([(1, c0); (0, c1)], a1)) as (c0 & c1 & a1 & H1).
    { vm_compute. do 3 eexists. reflexivity. }
    rewrite H in H1. injection H1 as -> ->. exists c0, c1, a1.
    apply Forall_cons_1 in Hok as [_ Hok]. apply Forall_cons_1 in Hok as [Hok _].
    inversion Hord as [|? ? Hh _]; subst. apply Forall_cons_1 in Hh as [Hh _].
    split_and!; [exact H|exact Hh|exact Hok].
Defined.

(** The size test wraps around: a request of almost the whole address space is
    granted, moves the frontier back, and the allocator then hands out a frame a
    second time. *)
Theorem alloc_size_wraps :
  exists size c1 c2 c3 a', size mod PAGE_SIZE = 0 /\ fits 64 size /\
    al_top demo_alloc - al_base demo_alloc < size /\
    alloc_all demo_alloc [(0, PAGE_SIZE); (0, size); (0, PAGE_SIZE)]
      = Some ([(0, c1); (0, c2); (0, c3)], a') /\ c1 = c3.
Proof.
  exists (2 ^ 64 - 0x10000). vm_compute. do 4 eexists.
  split_and!; try reflexivity; discriminate.
Qed.

(** Colouring holds for the first page only: a granted frame of three pages or
    more contains a page whose cache colour the code does not count as one of its
    partition's. *)
Theorem alloc_large_frame_crosses_colors a p size out a' c :
  alloc_wf a -> size_ok a size -> 0 <= p -> 3 * PAGE_SIZE <= size ->
  alloc_frame (Some a) p size (Some out) = Some (ERR_OK, Some a', Some c) ->
  exists page, hw_base (hw_cap c) <= page /\ page + PAGE_SIZE <= hw_top (hw_cap c) /\
    page mod PAGE_SIZE = 0 /\ alloc_color_is_valid p (page_color page) = false.
Proof.
  intros Hwf Hs Hp Hsize H.
  destruct (alloc_frame_cases a p size out Hwf Hs Hp) as (e & a1 & out' & H' & Hc).
  rewrite H in H'. injection H' as <- <- <-.
  destruct Hc as [(? & _)|[(_ & _ & ? & _)|(_ & Hp8 & _ & Ht & -> & _)]]; [done..|].
  destruct (frame_cap_ok a p size Hwf Hs ltac:(lia) Ht) as (_ & -> & ->).
  pose proof (next_frame_spec a p Hwf ltac:(lia)) as (_ & Hpage & Hcol).
  exists (next_frame a p + PAGE_SIZE * 2). split_and!; try (unfold PAGE_SIZE in *; lia).
  - unfold PAGE_SIZE in *. rewrite Z.mul_comm, Z.mod_add by lia. done.
  - apply not_true_is_false. rewrite page_color_add. unfold page_color in Hcol.
    rewrite color_is_valid_iff by (unfold NUM_COLORS in *; Z.div_mod_to_equations; lia).
    unfold NUM_COLORS, COLORS_PER_PARTITION in *. Z.div_mod_to_equations. lia.
Qed.

Lemma alloc_large_frame_crosses_colors_witness :
  exists a' c page,
    alloc_frame (Some demo_alloc) 1 0x4000 (Some cap_zero) = Some (ERR_OK, Some a', Some c) /\
    hw_base (hw_cap c) <= page /\ page + PAGE_SIZE <= hw_top (hw_cap c) /\
    page mod PAGE_SIZE = 0 /\ alloc_color_is_valid 1 (page_color page) = false.
Proof.
  assert (exists a' c,
    alloc_frame (Some demo_alloc) 1 0x4000 (Some cap_zero) = Some (ERR_OK, Some a', Some c))
    as (a' & c & H) by (vm_compute; do 2 eexists; reflexivity).
  exists a', c.
  destruct (alloc_large_frame_crosses_colors demo_alloc 1 0x4000 cap_zero a' c) as (page & Hp).
  - apply demo_alloc_wf.
  - split; vm_compute; congruence.
  - lia.
  - vm_compute; congruence.
  - exact H.
  - exists page. split; [exact H|exact Hp].
Defined.
