(* ===== verification/Iommu.v ===== *)
(** * iommu.h, iommu.c: DMA windows

    The table of windows a device may reach by DMA, each backed by an IOMMU
    capability, and the check made for every DMA access. *)

From S2P Require Import Prelude Types Cheri Cap.

Definition MAX_IOMMU_WINDOWS : Z := 16.

Record iommu_window_t := mk_iommu_window {
  win_valid : bool;
  win_dev_id : Z;
  win_paddr_base : Z;
  win_size : Z;
  win_perms : Z;
  win_partition_id : Z;
  win_color : Z;
  win_cap : cap_t
}.
#[export] Instance iommu_window_eta : Eta iommu_window_t := fun w =>
  mk_iommu_window (win_valid w) (win_dev_id w) (win_paddr_base w) (win_size w) (win_perms w)
    (win_partition_id w) (win_color w) (win_cap w).

Definition iommu_window_zero : iommu_window_t := mk_iommu_window false 0 0 0 0 0 0 cap_zero.

Record iommu_state_t := mk_iommu_state { windows : list iommu_window_t; win_count : Z }.
#[export] Instance iommu_state_eta : Eta iommu_state_t := fun s =>
  mk_iommu_state (windows s) (win_count s).

Definition iommu_state_zero : iommu_state_t :=
  mk_iommu_state (replicate (Z.to_nat MAX_IOMMU_WINDOWS) iommu_window_zero) 0.

(** Fences only. *)
Definition iommu_flush (s : iommu_state_t) : iommu_state_t := s.

Definition iommu_map (st : option iommu_state_t) (iommu_cap : option cap_t)
    (dev_id paddr size perms : Z) : option (kerror_t * option iommu_state_t) :=
  match st, iommu_cap with
  | Some s, Some c =>
      retif negb (type c =? CAP_IOMMU) with Some (ERR_INVALID_CAP, st);;
      retif negb (is_valid c) || negb (cheri_tag_get (hw_cap c)) with Some (ERR_INVALID_CAP, st);;
      retif negb (size mod PAGE_SIZE =? 0) || negb (paddr mod PAGE_SIZE =? 0)
        with Some (ERR_INVALID_ARG, st);;
      retif MAX_IOMMU_WINDOWS <=? win_count s with Some (ERR_NO_MEM, st);;
      let cap_base := cheri_base_get (hw_cap c) in
      let cap_len := cheri_length_get (hw_cap c) in
      retif (paddr <? cap_base) || (u64 (cap_base + cap_len) <? u64 (paddr + size))
        with Some (ERR_INVALID_ARG, st);;
      retif negb (Z.land perms (bnot 32 (rights c)) =? 0) with Some (ERR_NO_RIGHTS, st);;
      match find_idx (fun w => negb (win_valid w)) (windows s) with
      | Some i =>
          w ← (windows s).[i];
          l ← (windows s).[i := w <| win_valid := true |> <| win_dev_id := dev_id |>
                               <| win_paddr_base := paddr |> <| win_size := size |>
                               <| win_perms := perms |> <| win_partition_id := iommu_dev_id (u c) |>
                               <| win_cap := c |>];
          Some (ERR_OK,
                Some (iommu_flush (s <| windows := l |> <| win_count ::= fun n => u32 (n + 1) |>)))
      | None => Some (ERR_NO_MEM, st)
      end
  | _, _ => Some (ERR_INVALID_ARG, st)
  end.

Definition iommu_unmap (st : option iommu_state_t) (dev_id paddr : Z)
    : option (kerror_t * option iommu_state_t) :=
  match st with
  | Some s =>
      match find_idx (fun w => win_valid w && (win_dev_id w =? dev_id) &&
                               (win_paddr_base w =? paddr)) (windows s) with
      | Some i =>
          l ← (windows s).[i := iommu_window_zero];
          Some (ERR_OK,
                Some (iommu_flush (s <| windows := l |> <| win_count ::= fun n => u32 (n - 1) |>)))
      | None => Some (ERR_INVALID_ARG, st)
      end
  | None => Some (ERR_INVALID_ARG, st)
  end.

(** [paddr >= base && paddr + len <= base + sz] for a window of the device. *)
Definition win_covers (dev_id paddr len : Z) (w : iommu_window_t) : bool :=
  win_valid w && (win_dev_id w =? dev_id) &&
  (win_paddr_base w <=? paddr) && (u64 (paddr + len) <=? u64 (win_paddr_base w + win_size w)).

(** The first window that covers the access decides. *)
Fixpoint iommu_check_loop (l : list iommu_window_t) (dev_id paddr len : Z) (is_write : bool)
    : bool :=
  match l with
  | [] => false
  | w :: l' =>
      if win_covers dev_id paddr len w then
        let need := if is_write then CHERI_PERM_STORE else CHERI_PERM_LOAD in
        retif Z.land (win_perms w) need =? 0 with false;;
        true
      else iommu_check_loop l' dev_id paddr len is_write
  end.

Definition iommu_check (st : option iommu_state_t) (dev_id paddr len : Z) (is_write : bool)
    : bool :=
  match st with
  | None => false
  | Some s => iommu_check_loop (windows s) dev_id paddr len is_write
  end.

(** ** Histories *)

Inductive iommu_op :=
| DMap (c : cap_t) (dev_id paddr size perms : Z)
| DUnmap (dev_id paddr : Z).

Definition iommu_exec (s : iommu_state_t) (o : iommu_op) : option (kerror_t * iommu_state_t) :=
  match o with
  | DMap c d p z r => '(e, s') ← iommu_map (Some s) (Some c) d p z r; s' ← s'; Some (e, s')
  | DUnmap d p => '(e, s') ← iommu_unmap (Some s) d p; s' ← s'; Some (e, s')
  end.

Fixpoint iommu_run (s : iommu_state_t) (l : list iommu_op) : option iommu_state_t :=
  match l with
  | [] => Some s
  | o :: l' => '(_, s') ← iommu_exec s o; iommu_run s' l'
  end.

(** The arguments have their C types, the capability is a range of addresses and
    the range to map does not leave the address space. *)
Definition dma_op_ok (o : iommu_op) : Prop :=
  match o with
  | DMap c d p z r =>
      0 <= hw_base (hw_cap c) <= hw_top (hw_cap c) /\ fits 64 (hw_top (hw_cap c)) /\
      fits 32 r /\ 0 <= z /\ fits 64 p /\ fits 64 (p + z)
  | DUnmap _ _ => True
  end.

(** [count] is exact. *)
Definition iommu_wf (s : iommu_state_t) : Prop :=
  length (windows s) = Z.to_nat MAX_IOMMU_WINDOWS /\ win_count s = count_if win_valid (windows s).

(** What backs a live window: a valid, tagged IOMMU capability that covers the
    window and has every permission of it. *)
Definition win_backed (w : iommu_window_t) : Prop :=
  let c := win_cap w in
  type c = CAP_IOMMU /\ is_valid c = true /\ cheri_tag_get (hw_cap c) = true /\
  hw_base (hw_cap c) <= win_paddr_base w /\ 0 <= win_size w /\
  win_paddr_base w + win_size w <= hw_top (hw_cap c) /\ fits 64 (hw_top (hw_cap c)) /\
  0 <= hw_base (hw_cap c) /\ subset (win_perms w) (rights c).

(** The window was opened by one of these operations. *)
Definition win_from (l : list iommu_op) (w : iommu_window_t) : Prop :=
  DMap (win_cap w) (win_dev_id w) (win_paddr_base w) (win_size w) (win_perms w) ∈ l.

Definition windows_ok (l : list iommu_op) (s : iommu_state_t) : Prop :=
  forall i w, (windows s).[i] = Some w -> win_valid w = true -> win_backed w /\ win_from l w.

(** ** Lemmas *)

Arguments iommu_map : simpl never.
Arguments iommu_unmap : simpl never.

Lemma iommu_zero_wf : iommu_wf iommu_state_zero.
Proof. split; reflexivity. Qed.

(** A count below 16 leaves a free window, so the loop finds one. *)
Lemma free_window s : iommu_wf s -> win_count s < MAX_IOMMU_WINDOWS ->
  exists i w, find_idx (fun w => negb (win_valid w)) (windows s) = Some i /\
    (windows s).[i] = Some w /\ win_valid w = false.
Proof.
  intros [Hl Hc] Hlt. destruct (find_idx _ _) as [i|] eqn:E.
  - pose proof E as E'. apply find_idx_Some in E' as [(w & Hw & Hv) _].
    exists i, w. split_and!; [done..|]. by apply negb_true_iff.
  - exfalso. apply find_idx_None in E. assert (Forall (fun w => win_valid w = true) (windows s)) as F.
    { eapply List.Forall_impl; [|exact E]. intros w. apply negb_false_iff. }
    apply count_if_full in F. unfold MAX_IOMMU_WINDOWS in *. lia.
Qed.

Lemma cheri_length_top c : 0 <= hw_base c <= hw_top c -> fits 64 (hw_top c) ->
  u64 (cheri_base_get c + cheri_length_get c) = hw_top c.
Proof.
  intros Hb Ht. unfold cheri_base_get, cheri_length_get. rewrite (u64_small (_ - _)).
  - rewrite Zplus_minus. by apply u64_small.
  - unfold fits in *. lia.
Qed.

(** Writing one window keeps the counter exact when it is adjusted with it. *)
Lemma set_window_wf s i w w' n : iommu_wf s -> (windows s).[i] = Some w ->
  n = win_count s + (if win_valid w' then 1 else 0) - (if win_valid w then 1 else 0) ->
  iommu_wf (mk_iommu_state (<[Z.to_nat i := w']> (windows s)) (u32 n)).
Proof.
  intros [Hl Hc] [Hi Hw]%arr_get_Some Hn. split; cbn; [by rewrite length_insert|].
  rewrite (count_if_insert _ _ _ _ _ Hw).
  assert (n = count_if win_valid (<[Z.to_nat i:=w']> (windows s))) as E.
  { rewrite (count_if_insert _ _ _ _ _ Hw). lia. }
  rewrite u32_small; [lia|]. rewrite E.
  pose proof (count_if_le win_valid (<[Z.to_nat i:=w']> (windows s))) as Hle.
  rewrite length_insert, Hl in Hle. unfold fits, MAX_IOMMU_WINDOWS in *.
  pose proof (count_if_nonneg win_valid (<[Z.to_nat i:=w']> (windows s))). lia.
Qed.

Lemma iommu_map_cases s c d p z r : iommu_wf s -> dma_op_ok (DMap c d p z r) ->
  exists e s', iommu_map (Some s) (Some c) d p z r = Some (e, Some s') /\
  ((e <> ERR_OK /\ s' = s) \/
   (e = ERR_OK /\ exists i w w', (windows s).[i] = Some w /\ win_valid w = false /\
      win_valid w' = true /\ win_backed w' /\ win_from [DMap c d p z r] w' /\
      windows s' = <[Z.to_nat i := w']> (windows s) /\ iommu_wf s')).
Proof.
  intros Hwf (Hb & Ht & Hr & Hz & Hp & Hpz). unfold iommu_map, guard_ret.
  rewrite cheri_length_top, (u64_small _ Hpz) by done. cbn zeta.
  branches; try by (do 2 eexists; split; [reflexivity|by left]). bools.
  destruct (free_window s Hwf ltac:(done)) as (i & w & -> & Hw & Hv).
  pose proof Hw as Hw'. apply arr_get_Some in Hw' as [Hi _].
  rewrite Hw. cbn [mbind option_bind]. rewrite arr_set_in by done. cbn [mbind option_bind].
  do 2 eexists. split; [reflexivity|]. right. split; [done|].
  eexists i, w, _. split_and!; [done|done| | | |reflexivity|].
  - done.
  - unfold win_backed. cbn. rewrite land_bnot in * by done. unfold cheri_base_get in *.
    split_and!; done || lia.
  - apply list_elem_of_singleton. done.
  - eapply set_window_wf; [done..|]. cbn. rewrite Hv. lia.
Qed.

Lemma iommu_unmap_cases s d p : iommu_wf s ->
  exists e s', iommu_unmap (Some s) d p = Some (e, Some s') /\
  ((e = ERR_INVALID_ARG /\ s' = s /\ forall i w, (windows s).[i] = Some w ->
      win_valid w = true -> win_dev_id w = d -> win_paddr_base w <> p) \/
   (e = ERR_OK /\ exists i w, (windows s).[i] = Some w /\ win_valid w = true /\
      win_dev_id w = d /\ win_paddr_base w = p /\
      windows s' = <[Z.to_nat i := iommu_window_zero]> (windows s) /\ iommu_wf s')).
Proof.
  intros Hwf. unfold iommu_unmap. destruct (find_idx _ _) as [i|] eqn:E.
  - apply find_idx_Some in E as [(w & Hw & Hf) _]. bools.
    pose proof Hw as Hw'. apply arr_get_Some in Hw' as [Hi _].
    rewrite arr_set_in by done. do 2 eexists. split; [reflexivity|]. right. split; [done|].
    exists i, w. split_and!; try done. eapply set_window_wf; [done..|]. cbn.
    replace (win_valid w) with true by done. lia.
  - do 2 eexists. split; [reflexivity|]. left. split_and!; [done..|].
    apply find_idx_None in E. intros i w [_ Hw]%arr_get_Some Hv Hd Hp.
    apply (Forall_lookup_1 _ _ _ _ E) in Hw. rewrite Hv, Hd, Hp, !Z.eqb_refl in Hw. done.
Qed.

Lemma windows_ok_insert l s i w' s' : windows_ok l s ->
  windows s' = <[Z.to_nat i := w']> (windows s) -> 0 <= i < Z.of_nat (length (windows s)) ->
  (win_valid w' = true -> win_backed w' /\ win_from l w') -> windows_ok l s'.
Proof.
  intros Hok Hs Hi Hw' j w Hj Hv. rewrite Hs, arr_get_insert in Hj by done.
  destruct (Z.eqb_spec j i); [|by apply (Hok j)]. injection Hj as <-. auto.
Qed.

Lemma iommu_exec_step l s o : o ∈ l -> iommu_wf s -> windows_ok l s -> dma_op_ok o ->
  exists e s', iommu_exec s o = Some (e, s') /\ iommu_wf s' /\ windows_ok l s'.
Proof.
  intros Ho Hwf Hok Hop. destruct o as [c d p z r|d p]; cbn [iommu_exec].
  - destruct (iommu_map_cases s c d p z r Hwf Hop) as (e & s' & -> & Hc).
    exists e, s'. split; [done|]. destruct Hc as [[_ ->]|(-> & i & w & w' & Hw & _ & Hv & Hb & Hf & Hs & ?)]; [done|].
    split; [done|]. apply arr_get_Some in Hw as [Hi _].
    eapply windows_ok_insert; [done..|]. intros _. split; [done|].
    unfold win_from in *. apply list_elem_of_singleton in Hf. by rewrite Hf.
  - destruct (iommu_unmap_cases s d p Hwf) as (e & s' & -> & Hc).
    exists e, s'. split; [done|]. destruct Hc as [(_ & -> & _)|(-> & i & w & Hw & _ & _ & _ & Hs & ?)]; [done|].
    split; [done|]. apply arr_get_Some in Hw as [Hi _]. by eapply windows_ok_insert.
Qed.

Lemma iommu_run_ok l l' s : (forall o, o ∈ l' -> o ∈ l) -> Forall dma_op_ok l' -> iommu_wf s -> windows_ok l s ->
  exists s', iommu_run s l' = Some s' /\ iommu_wf s' /\ windows_ok l s'.
Proof.
  revert s. induction l' as [|o l' IH]; intros s Hsub Hf Hwf Hok; [by exists s|].
  apply Forall_cons_1 in Hf as [Hop Hf].
  destruct (iommu_exec_step l s o) as (e & s1 & Hs1 & Hwf1 & Hok1); try done.
  { apply Hsub. left. }
  cbn [iommu_run]. rewrite Hs1. cbn [mbind option_bind]. apply IH; try done.
  intros o' Ho'. apply Hsub. by right.
Qed.

Lemma win_covers_true d p n w : win_covers d p n w = true ->
  win_valid w = true /\ win_dev_id w = d /\ win_paddr_base w <= p /\
  u64 (p + n) <= u64 (win_paddr_base w + win_size w).
Proof. unfold win_covers. rewrite !andb_true_iff, Z.eqb_eq, !Z.leb_le. tauto. Qed.

(** An admitted access comes from a live window of the device that covers it. *)
Lemma iommu_check_loop_window l d p n w : iommu_check_loop l d p n w = true ->
  exists i win, l !! i = Some win /\ win_covers d p n win = true /\
    has_any (win_perms win) (if w then CHERI_PERM_STORE else CHERI_PERM_LOAD) = true.
Proof.
  induction l as [|x l IH]; cbn; [done|]. destruct (win_covers d p n x) eqn:E.
  - unfold guard_ret, has_any. intros H. exists 0%nat, x. split_and!; [done..|].
    by destruct (Z.land _ _ =? 0).
  - intros H. destruct (IH H) as (i & win & ? & ? & ?). by exists (S i), win.
Qed.

Lemma subset_has_any x y f : subset x y -> has_any x f = true -> has_any y f = true.
Proof.
  unfold has_any. rewrite subset_bits, !negb_true_iff, !Z.eqb_neq. intros Hs Hx Hy. apply Hx.
  apply Z.bits_inj'. intros n Hn. rewrite Z.land_spec, Z.testbit_0_l.
  destruct (Z.testbit x n) eqn:E; [|done].
  apply (f_equal (fun z => Z.testbit z n)) in Hy. rewrite Z.land_spec, Z.testbit_0_l in Hy.
  by rewrite (Hs n Hn E) in Hy.
Qed.

(** ** Properties *)

(** C14. DMA confinement: after any sequence of map and unmap operations in which no
    range to map passes 2^64, which always runs to the end and keeps the window counter
    exact, an access that does not pass 2^64 (the check wraps around) and that the check
    admits lies within the bounds of a valid tagged IOMMU capability
    that was presented for that very device, and that capability carries the
    permission the access needs. *)
Theorem iommu_dma_confined ops :
  Forall dma_op_ok ops ->
  exists s, iommu_run iommu_state_zero ops = Some s /\ iommu_wf s /\
  forall dev paddr len is_write,
    0 <= len -> fits 64 (paddr + len) ->
    iommu_check (Some s) dev paddr len is_write = true ->
    exists c base size perms, DMap c dev base size perms ∈ ops /\
      type c = CAP_IOMMU /\ is_valid c = true /\ cheri_tag_get (hw_cap c) = true /\
      hw_base (hw_cap c) <= paddr /\ paddr + len <= hw_top (hw_cap c) /\
      has_any (rights c) (if is_write then CHERI_PERM_STORE else CHERI_PERM_LOAD) = true.
Proof.
  intros Hops. destruct (iommu_run_ok ops ops iommu_state_zero) as (s & Hrun & Hwf & Hok); try done.
  { intros i w H Hv. apply arr_get_replicate in H as ->. done. }
  exists s. split_and!; [done..|]. intros dev p n w Hn Hpn Hchk.
  apply iommu_check_loop_window in Hchk as (i & win & Hw & Hcov & Hperm).
  apply win_covers_true in Hcov as (Hval & Hdev & Hlo & Hhi).
  destruct (Hok (Z.of_nat i) win) as [(Ht & Hv & Htag & Hb & Hz & Htop & Hf & Hb0 & Hsub) Hfrom].
  { by rewrite arr_get_nat. } { done. }
  unfold win_from in Hfrom. rewrite Hdev in Hfrom.
  exists (win_cap win), (win_paddr_base win), (win_size win), (win_perms win).
  rewrite (u64_small _ Hpn), u64_small in Hhi by (unfold fits in *; lia).
  split_and!; try done; try lia. by eapply subset_has_any.
Qed.

(** An IOMMU capability for one page, read and write. *)
Definition demo_iommu_cap : cap_t :=
  mk_cap CAP_IOMMU 3 0 true true 0 (mk_cap_u 7 0 0 0)
    (mk_sim_cap 0x80000000 0x80001000 0x80000000 0 0 true true).

Lemma iommu_dma_confined_witness :
  exists s, iommu_run iommu_state_zero [DMap demo_iommu_cap 7 0x80000000 0x1000 3] = Some s /\
    iommu_check (Some s) 7 0x80000800 0x100 true = true /\
    exists c, hw_base (hw_cap c) <= 0x80000800 /\ 0x80000800 + 0x100 <= hw_top (hw_cap c).
Proof.
  destruct (iommu_dma_confined [DMap demo_iommu_cap 7 0x80000000 0x1000 3])
    as (s & Hrun & _ & Hchk).
  { repeat constructor; vm_compute; congruence. }
  assert (iommu_check (Some s) 7 0x80000800 0x100 true = true) as H.
  { vm_compute in Hrun. injection Hrun as <-. reflexivity. }
  exists s. split_and!; [exact Hrun|exact H|].
  destruct (Hchk 7 0x80000800 0x100 true) as (c & b & z & p & _ & _ & _ & _ & Hlo & Hhi & _);
    [lia|fits_now|exact H|]. exists c. split; [exact Hlo|exact Hhi].
Defined.

(** The check wraps around: with the one page 0x80000000 mapped, it admits a
    write by the device that starts far outside the page, when the length is
    large enough for the end address to wrap. *)
Theorem iommu_check_wraps :
  exists s paddr len, iommu_run iommu_state_zero [DMap demo_iommu_cap 7 0x80000000 0x1000 3] = Some s /\
    fits 64 paddr /\ fits 64 len /\ 0x80001000 <= paddr /\ 0 < len /\
    iommu_check (Some s) 7 paddr len true = true.
Proof.
  eexists _, 0x90000000, (2 ^ 64 - 0x10000000). split; [vm_compute; reflexivity|].
  repeat split; vm_compute; congruence.
Qed.

(** Unmapping revokes: [iommu_unmap] succeeds exactly when the device has a
    live window at that address; if it has no other window, no access of the
    device is admitted afterwards, and the windows of other devices are as they
    were. *)
Theorem iommu_unmap_revokes s dev paddr :
  iommu_wf s ->
  exists e s', iommu_unmap (Some s) dev paddr = Some (e, Some s') /\
    (e = ERR_OK <-> exists i w, (windows s).[i] = Some w /\ win_valid w = true /\
                    win_dev_id w = dev /\ win_paddr_base w = paddr) /\
    (e = ERR_OK ->
     (forall i j w w', (windows s).[i] = Some w -> (windows s).[j] = Some w' ->
        win_valid w = true -> win_valid w' = true ->
        win_dev_id w = dev -> win_dev_id w' = dev -> i = j) ->
     forall p len is_write, iommu_check (Some s') dev p len is_write = false) /\
    (forall j w, (windows s).[j] = Some w -> win_valid w = true -> win_dev_id w <> dev ->
       (windows s').[j] = Some w).
Proof.
  intros Hwf. destruct (iommu_unmap_cases s dev paddr Hwf) as (e & s' & H & Hc).
  exists e, s'. split; [done|].
  destruct Hc as [(-> & -> & Hno)|(-> & i & w & Hw & Hv & Hd & Hp & Hs & Hwf')].
  { split_and!; [|done|done]. split; [done|]. intros (i & w & Hw & Hv & Hd & Hp). by destruct (Hno i w). }
  pose proof Hw as [Hi _]%arr_get_Some. split_and!.
  - split; [|done]. intros _. by exists i, w.
  - intros _ Huniq p len b. apply not_true_is_false. intros Hchk.
    apply iommu_check_loop_window in Hchk as (j & win & Hj & Hcov & _).
    rewrite <- arr_get_nat, Hs, arr_get_insert in Hj by done. apply win_covers_true in Hcov as (? & ? & _).
    destruct (Z.eqb_spec (Z.of_nat j) i) as [Ej|Ej]; [by injection Hj as <-|].
    apply Ej. by apply (Huniq (Z.of_nat j) i win w).
  - intros j w' Hj Hv' Hd'. rewrite Hs, arr_get_insert by done.
    destruct (Z.eqb_spec j i) as [Ej|]; [|done]. congruence.
Qed.

Lemma iommu_unmap_revokes_witness :
  exists s s', iommu_run iommu_state_zero [DMap demo_iommu_cap 7 0x80000000 0x1000 3] = Some s /\
    iommu_unmap (Some s) 8 0x80000000 = Some (ERR_INVALID_ARG, Some s) /\
    iommu_unmap (Some s) 7 0x80000000 = Some (ERR_OK, Some s').
Proof.
  assert (exists s, iommu_run iommu_state_zero [DMap demo_iommu_cap 7 0x80000000 0x1000 3] = Some s)
    as [s Hs] by (vm_compute; eexists; reflexivity).
  assert (iommu_wf s) as Hwf by (vm_compute in Hs; injection Hs as <-; split; reflexivity).
  destruct (iommu_unmap_revokes s 7 0x80000000 Hwf) as (e & s' & H & Hiff & _).
  exists s, s'. split; [exact Hs|]. split; [vm_compute in Hs; injection Hs as <-; reflexivity|].
  rewrite H. do 2 f_equal. apply Hiff. vm_compute in Hs. injection Hs as <-.
  exists 0. eexists. split_and!; reflexivity.
Defined.
