(* ===== verification/Sched.v ===== *)
(** * sched.h, sched.c: time partitions and scheduling contexts

    A cyclic schedule of time partitions within a 10 ms major frame, fixed
    priorities within a partition, budgets with periodic replenishment and the
    admission test. *)

From Stdlib Require Import QArith.
From S2P Require Import Prelude Types Cheri Cap Tcb.
Open Scope Z_scope.

Definition MAJOR_FRAME_US : Z := 10000.
Definition MAX_SCHED_CONTEXTS : Z := 64.
Definition WCET_KERNEL_MAX_US : Z := 5.

Record time_partition_t := mk_time_partition {
  tp_id : Z;
  tp_name : Z;
  tp_offset_us : Z;
  tp_budget_us : Z;
  tp_used_us : Z;
  tp_criticality : Z;
  tp_color_base : Z;
  tp_active : bool
}.
#[export] Instance time_partition_eta : Eta time_partition_t := fun p =>
  mk_time_partition (tp_id p) (tp_name p) (tp_offset_us p) (tp_budget_us p) (tp_used_us p)
    (tp_criticality p) (tp_color_base p) (tp_active p).

Definition time_partition_zero : time_partition_t := mk_time_partition 0 0 0 0 0 0 0 false.

Record sched_context_t := mk_sched_context {
  sc_bound : bool;
  sc_tcb_id : Z;
  sc_partition_id : Z;
  sc_budget_us : Z;
  sc_period_us : Z;
  sc_remaining_us : Z;
  sc_deadline : Z;
  sc_priority : Z;
  sc_is_realtime : bool;
  sc_consumed_this_period : Z
}.
#[export] Instance sched_context_eta : Eta sched_context_t := fun c =>
  mk_sched_context (sc_bound c) (sc_tcb_id c) (sc_partition_id c) (sc_budget_us c)
    (sc_period_us c) (sc_remaining_us c) (sc_deadline c) (sc_priority c) (sc_is_realtime c)
    (sc_consumed_this_period c).

Definition sched_context_zero : sched_context_t := mk_sched_context false 0 0 0 0 0 0 0 false 0.

Record sched_state_t := mk_sched_state {
  partitions : list time_partition_t;
  num_partitions : Z;
  major_frame_start : Z;
  current_partition : Z;
  contexts : list sched_context_t;
  ready_bitmap : list Z;
  ready_queues : list (list Z)
}.
#[export] Instance sched_state_eta : Eta sched_state_t := fun s =>
  mk_sched_state (partitions s) (num_partitions s) (major_frame_start s) (current_partition s)
    (contexts s) (ready_bitmap s) (ready_queues s).

Definition sched_init : sched_state_t :=
  mk_sched_state (replicate (Z.to_nat MAX_PARTITIONS) time_partition_zero) 0 0 0
    (replicate (Z.to_nat MAX_SCHED_CONTEXTS) sched_context_zero)
    (replicate (Z.to_nat MAX_PARTITIONS) 0)
    (replicate (Z.to_nat MAX_PARTITIONS) (replicate 256 0)).

(** [for (i = 0; i < n; i++) if (f(l[i])) break;]: the index where the loop stops,
    if it stops early; [None] when it leaves the array. *)
Fixpoint scan {A} (f : A -> bool) (l : list A) (i : Z) (n : nat) : option (option Z) :=
  match n with
  | O => Some None
  | S n' => x ← l.[i]; if f x then Some (Some i) else scan f l (i + 1) n'
  end.

(** [!(d <= a || c >= b)] for the slot [[a, b)] of a partition. *)
Definition slot_overlaps (offset budget : Z) (p : time_partition_t) : bool :=
  let a := tp_offset_us p in
  let b := u64 (a + tp_budget_us p) in
  let c := offset in
  let d := u64 (offset + budget) in
  negb ((d <=? a) || (b <=? c)).

Definition sched_partition_create (st : option sched_state_t) (id offset budget crit : Z)
    : option (kerror_t * option sched_state_t) :=
  match st with
  | None => Some (ERR_INVALID_ARG, st)
  | Some s =>
      retif MAX_PARTITIONS <=? id with Some (ERR_INVALID_ARG, st);;
      retif MAJOR_FRAME_US <? u64 (offset + budget) with Some (ERR_INVALID_ARG, st);;
      hit ← scan (slot_overlaps offset budget) (partitions s) 0 (Z.to_nat (num_partitions s));
      match hit with
      | Some _ => Some (ERR_INVALID_ARG, st)
      | None =>
          p ← (partitions s).[id];
          l ← (partitions s).[id := p <| tp_id := id |> <| tp_offset_us := offset |>
                                     <| tp_budget_us := budget |> <| tp_criticality := crit |>
                                     <| tp_color_base := u16 (u32 (id * 2)) |>
                                     <| tp_active := true |>];
          let s1 := s <| partitions := l |> in
          Some (ERR_OK, Some (if num_partitions s1 <=? id
                              then s1 <| num_partitions := u32 (id + 1) |> else s1))
      end
  end.

Definition sched_context_bind (st : option sched_state_t) (sc_id tcb_id part_id budget period prio : Z)
    : option (kerror_t * option sched_state_t) :=
  match st with
  | None => Some (ERR_INVALID_ARG, st)
  | Some s =>
      retif MAX_SCHED_CONTEXTS <=? sc_id with Some (ERR_INVALID_ARG, st);;
      retif MAX_PARTITIONS <=? part_id with Some (ERR_INVALID_ARG, st);;
      p ← (partitions s).[part_id];
      retif negb (tp_active p) with Some (ERR_INVALID_ARG, st);;
      retif (budget =? 0) || (period =? 0) || (period <? budget) with Some (ERR_INVALID_ARG, st);;
      retif tp_budget_us p <? budget with Some (ERR_INVALID_ARG, st);;
      c ← (contexts s).[sc_id];
      l ← (contexts s).[sc_id := c <| sc_bound := true |> <| sc_tcb_id := tcb_id |>
                                  <| sc_partition_id := part_id |> <| sc_budget_us := budget |>
                                  <| sc_period_us := period |> <| sc_priority := prio |>
                                  <| sc_remaining_us := budget |> <| sc_deadline := period |>];
      Some (ERR_OK, Some (s <| contexts := l |>))
  end.

(** Fences only. *)
Definition sched_flush_partition (s : sched_state_t) (old_part : Z) : sched_state_t := s.

(** [frame_offset >= off && frame_offset < end]. *)
Definition in_slot (frame_offset : Z) (p : time_partition_t) : bool :=
  let off := tp_offset_us p in
  let end_ := u64 (off + tp_budget_us p) in
  (off <=? frame_offset) && (frame_offset <? end_).

Definition replenish (now_us : Z) (c : sched_context_t) : sched_context_t :=
  if negb (sc_bound c) then c
  else if sc_deadline c <=? now_us
  then c <| sc_remaining_us := sc_budget_us c |>
         <| sc_deadline := u64 (sc_deadline c + sc_period_us c) |>
         <| sc_consumed_this_period := 0 |>
  else c.

Definition sched_tick (s : sched_state_t) (now_us : Z) : option sched_state_t :=
  let frame_offset := u64 (now_us - major_frame_start s) mod MAJOR_FRAME_US in
  hit ← scan (in_slot frame_offset) (partitions s) 0 (Z.to_nat (num_partitions s));
  let new_part := default (current_partition s) hit in
  let s1 := if negb (new_part =? current_partition s)
            then (sched_flush_partition s (current_partition s)) <| current_partition := new_part |>
            else s in
  Some (s1 <| contexts ::= map (replenish now_us) |>).

(** One pass over the contexts for one priority. *)
Fixpoint pick_prio (tcbs : tcb_table_t) (part prio : Z) (l : list sched_context_t)
    : option (option Z) :=
  match l with
  | [] => Some None
  | sc :: l' =>
      if negb (sc_bound sc) then pick_prio tcbs part prio l'
      else if negb (sc_partition_id sc =? part) then pick_prio tcbs part prio l'
      else if negb (sc_priority sc =? prio) then pick_prio tcbs part prio l'
      else if sc_remaining_us sc =? 0 then pick_prio tcbs part prio l'
      else
        tcb ← (threads tcbs).[sc_tcb_id sc];
        if negb (tcb_is_runnable (Some tcb)) then pick_prio tcbs part prio l'
        else Some (Some (sc_tcb_id sc))
  end.

(** [n] priorities from [prio] on. *)
Fixpoint pick_loop (tcbs : tcb_table_t) (part : Z) (l : list sched_context_t) (prio : Z) (n : nat)
    : option (option Z) :=
  match n with
  | O => Some None
  | S n' =>
      r ← pick_prio tcbs part prio l;
      match r with
      | Some t => Some (Some t)
      | None => pick_loop tcbs part l (prio + 1) n'
      end
  end.

Definition IDLE : Z := 0xFFFFFFFF.

Definition sched_pick_next (tcbs : tcb_table_t) (s : sched_state_t) (now_us : Z) : option Z :=
  let part := current_partition s in
  r ← pick_loop tcbs part (contexts s) 0 256;
  Some (default IDLE r).

(** [sum += budget_us * 100 / period_us] over the contexts of a partition; a zero
    divisor has no result. *)
Fixpoint utilization_sum (p : Z) (l : list sched_context_t) (sum : Z) : option Z :=
  match l with
  | [] => Some sum
  | c :: l' =>
      if negb (sc_bound c) then utilization_sum p l' sum
      else if negb (sc_partition_id c =? p) then utilization_sum p l' sum
      else if sc_period_us c =? 0 then None
      else utilization_sum p l' (u64 (sum + u64 (sc_budget_us c * 100) / sc_period_us c))
  end.

Fixpoint schedulable_loop (l : list sched_context_t) (p : Z) (n : nat) : option bool :=
  match n with
  | O => Some true
  | S n' =>
      sum ← utilization_sum p l 0;
      if 99 <? sum then Some false else schedulable_loop l (p + 1) n'
  end.

Definition sched_is_schedulable (s : sched_state_t) : option bool :=
  schedulable_loop (contexts s) 0 (Z.to_nat (num_partitions s)).

(** [now] is the value [rdtime] reads. *)
Definition wcet_check (now entry_us : Z) : bool :=
  u64 (now - entry_us) <=? WCET_KERNEL_MAX_US * 1000.

(** ** Histories and the invariant *)

Inductive sched_op :=
| SCreate (id offset budget crit : Z)
| SBind (sc_id tcb_id part_id budget period prio : Z)
| STick (now_us : Z).

Definition sched_exec (s : sched_state_t) (o : sched_op) : option sched_state_t :=
  match o with
  | SCreate i f b c => '(_, s') ← sched_partition_create (Some s) i f b c; s'
  | SBind sc t p b q r => '(_, s') ← sched_context_bind (Some s) sc t p b q r; s'
  | STick now => sched_tick s now
  end.

Fixpoint sched_run (s : sched_state_t) (l : list sched_op) : option sched_state_t :=
  match l with
  | [] => Some s
  | o :: l' => s1 ← sched_exec s o; sched_run s1 l'
  end.

(** The arguments have their C types, and the end of a slot is a 64-bit number. *)
Definition sched_op_ok (o : sched_op) : Prop :=
  match o with
  | SCreate i f b _ => 0 <= i /\ 0 <= f /\ 0 <= b /\ fits 64 (f + b)
  | SBind sc _ p b q r => 0 <= sc /\ 0 <= p /\ fits 64 b /\ fits 64 q /\ 0 <= r < 256
  | STick now => fits 64 now
  end.

Definition slot_end (p : time_partition_t) : Z := tp_offset_us p + tp_budget_us p.

Definition slot_ok (p : time_partition_t) : Prop :=
  0 <= tp_offset_us p /\ 0 <= tp_budget_us p /\ slot_end p <= MAJOR_FRAME_US.

Definition slots_disjoint (p q : time_partition_t) : Prop :=
  slot_end p <= tp_offset_us q \/ slot_end q <= tp_offset_us p.

Definition context_ok (c : sched_context_t) : Prop :=
  0 <= sc_partition_id c < MAX_PARTITIONS /\
  0 < sc_budget_us c <= sc_period_us c /\ sc_budget_us c <= MAJOR_FRAME_US /\
  0 <= sc_remaining_us c <= sc_budget_us c /\ 0 <= sc_priority c < 256 /\
  fits 64 (sc_period_us c) /\ fits 64 (sc_deadline c).

Record sched_wf (s : sched_state_t) : Prop := {
  sw_partitions : length (partitions s) = Z.to_nat MAX_PARTITIONS;
  sw_contexts : length (contexts s) = Z.to_nat MAX_SCHED_CONTEXTS;
  sw_num : 0 <= num_partitions s <= MAX_PARTITIONS;
  sw_current : 0 <= current_partition s < MAX_PARTITIONS;
  sw_slots : forall i p, (partitions s).[i] = Some p -> slot_ok p;
  sw_disjoint : forall i j p q, i <> j -> (partitions s).[i] = Some p ->
    (partitions s).[j] = Some q -> slots_disjoint p q;
  sw_unused : forall i p, num_partitions s <= i -> (partitions s).[i] = Some p ->
    tp_offset_us p = 0 /\ tp_budget_us p = 0 /\ tp_active p = false;
  sw_bound : forall i c, (contexts s).[i] = Some c -> sc_bound c = true -> context_ok c
}.

(** ** Lemmas *)

Lemma scan_spec {A} (f : A -> bool) l n i : 0 <= i -> i + Z.of_nat n <= Z.of_nat (length l) ->
  exists r, scan f l i n = Some r /\
  match r with
  | Some j => i <= j < i + Z.of_nat n /\ exists x, l.[j] = Some x /\ f x = true
  | None => forall k x, i <= k < i + Z.of_nat n -> l.[k] = Some x -> f x = false
  end.
Proof.
  revert i. induction n as [|n IH]; intros i Hi Hlen; cbn [scan].
  { exists None. split; [done|]. intros k x Hk. lia. }
  destruct (arr_get_is_Some l i ltac:(lia)) as [x Hx]. rewrite Hx. cbn [mbind option_bind].
  destruct (f x) eqn:Ef.
  { exists (Some i). split; [done|]. split; [lia|]. by exists x. }
  destruct (IH (i + 1) ltac:(lia) ltac:(lia)) as (r & Hr & Hs). exists r. split; [done|].
  destruct r as [j|].
  - destruct Hs as [Hj ?]. split; [lia|done].
  - intros k y Hk Hy. destruct (decide (k = i)) as [->|]; [congruence|].
    apply (Hs k); [lia|done].
Qed.

Lemma slot_end_u64 p : slot_ok p -> u64 (tp_offset_us p + tp_budget_us p) = slot_end p.
Proof.
  intros (H1 & H2 & H3). apply u64_small. unfold fits, slot_end, MAJOR_FRAME_US in *. lia.
Qed.

Lemma slot_overlaps_false f b p : slot_ok p -> fits 64 (f + b) ->
  slot_overlaps f b p = false -> f + b <= tp_offset_us p \/ slot_end p <= f.
Proof.
  intros Hp Hfb. unfold slot_overlaps. rewrite slot_end_u64, (u64_small _ Hfb) by done.
  intros H. apply negb_false_iff, orb_true_iff in H. rewrite !Z.leb_le in H. done.
Qed.

Lemma in_slot_iff t p : slot_ok p -> in_slot t p = true <-> tp_offset_us p <= t < slot_end p.
Proof.
  intros Hp. unfold in_slot. rewrite slot_end_u64 by done.
  rewrite andb_true_iff, Z.leb_le, Z.ltb_lt. done.
Qed.

(** Two slots that contain the same instant are one. *)
Lemma slot_unique s t i j p q : sched_wf s ->
  (partitions s).[i] = Some p -> (partitions s).[j] = Some q ->
  tp_offset_us p <= t < slot_end p -> tp_offset_us q <= t < slot_end q -> i = j.
Proof.
  intros Hwf Hi Hj Hp Hq. destruct (decide (i = j)) as [|Hne]; [done|].
  destruct (sw_disjoint _ Hwf i j p q Hne Hi Hj); lia.
Qed.

Lemma sched_init_wf : sched_wf sched_init.
Proof.
  constructor; try done; cbn [sched_init partitions contexts].
  - intros i p H. apply arr_get_replicate in H as ->. done.
  - intros i j p q _ Hp Hq. apply arr_get_replicate in Hp as ->, Hq as ->. by left.
  - intros i p _ H. apply arr_get_replicate in H as ->. done.
  - intros i c H. apply arr_get_replicate in H as ->. done.
Qed.

(** Creating a partition: defined, and the invariant is kept. *)
Lemma sched_partition_create_cases s i f b c : sched_wf s -> sched_op_ok (SCreate i f b c) ->
  exists e s', sched_partition_create (Some s) i f b c = Some (e, Some s') /\
  ((e = ERR_INVALID_ARG /\ s' = s) \/
   (e = ERR_OK /\ i < MAX_PARTITIONS /\ f + b <= MAJOR_FRAME_US /\
    (exists p p', (partitions s).[i] = Some p /\
      tp_offset_us p' = f /\ tp_budget_us p' = b /\ tp_active p' = true /\
      partitions s' = <[Z.to_nat i := p']> (partitions s)) /\
    (forall j q, (partitions s).[j] = Some q -> f + b <= tp_offset_us q \/ slot_end q <= f) /\
    num_partitions s' = Z.max (num_partitions s) (i + 1) /\
    contexts s' = contexts s /\ current_partition s' = current_partition s)).
Proof.
  intros Hwf (Hi & Hf & Hb & Hfb). unfold sched_partition_create, guard_ret.
  rewrite (u64_small _ Hfb). pose proof (sw_num _ Hwf). pose proof (sw_partitions _ Hwf) as Hl.
  unfold MAX_PARTITIONS in *.
  destruct (Z.leb_spec 8 i) as [Hi8|Hi8]; [do 2 eexists; split; [reflexivity|by left]|].
  destruct (Z.ltb_spec MAJOR_FRAME_US (f + b)) as [Hm|Hm];
    [do 2 eexists; split; [reflexivity|by left]|].
  destruct (scan_spec (slot_overlaps f b) (partitions s) (Z.to_nat (num_partitions s)) 0)
    as (r & -> & Hr); [lia|lia|]. cbn [mbind option_bind].
  destruct r as [j|]; [do 2 eexists; split; [reflexivity|by left]|].
  destruct (arr_get_is_Some (partitions s) i ltac:(lia)) as [p Hp]. rewrite Hp.
  cbn [mbind option_bind]. rewrite arr_set_in by lia. cbn [mbind option_bind modify_field num_partitions].
  rewrite u32_small by (unfold fits; lia).
  assert (forall j q, (partitions s).[j] = Some q -> f + b <= tp_offset_us q \/ slot_end q <= f) as Hd.
  { intros j q Hq. pose proof (sw_slots _ Hwf j q Hq) as Hs. destruct (Z.lt_ge_cases j (num_partitions s)).
    - apply slot_overlaps_false; try done. apply arr_get_Some in Hq as Hj.
      apply (Hr j); [lia|done].
    - destruct (sw_unused _ Hwf j q ltac:(lia) Hq) as (E1 & E2 & _). unfold slot_end. lia. }
  destruct (Z.leb_spec (num_partitions s) i); do 2 eexists; (split; [reflexivity|]); right;
    split_and!; try done; cbn; try lia; exists p; eexists; (split_and!; [done| | | |reflexivity]); done.
Qed.

Lemma sched_partition_create_wf s i f b c e s' : sched_wf s -> sched_op_ok (SCreate i f b c) ->
  sched_partition_create (Some s) i f b c = Some (e, Some s') -> sched_wf s'.
Proof.
  intros Hwf Hop H. destruct (sched_partition_create_cases s i f b c Hwf Hop) as (e1 & s1 & H1 & Hc).
  rewrite H in H1. injection H1 as <- <-. destruct Hop as (Hi & Hf & Hb & Hfb).
  destruct Hc as [[_ ->]|(-> & Hi8 & Hm & (p & p' & Hp & Eo & Eb & Ea & Hps) & Hd & Hn & Hcs & Hcur)];
    [done|].
  apply arr_get_Some in Hp as Hir. pose proof (sw_num _ Hwf). unfold MAX_PARTITIONS in *.
  assert (forall j q, (partitions s').[j] = Some q ->
            (j = i /\ q = p') \/ (j <> i /\ (partitions s).[j] = Some q)) as Hget.
  { intros j q. rewrite Hps, arr_get_insert by apply Hir.
    destruct (Z.eqb_spec j i); [|by right]. intros [= ->]. by left. }
  assert (forall q j, (partitions s).[j] = Some q -> slots_disjoint p' q) as Hdis.
  { intros q j Hq. unfold slots_disjoint. unfold slot_end at 1. rewrite Eo, Eb.
    by apply (Hd j). }
  constructor; rewrite ?Hcs, ?Hcur.
  - rewrite Hps, length_insert. apply (sw_partitions _ Hwf).
  - apply (sw_contexts _ Hwf).
  - unfold MAX_PARTITIONS. lia.
  - apply (sw_current _ Hwf).
  - intros j q [[_ ->]|[_ Hq]]%Hget; [|by apply (sw_slots _ Hwf j)].
    unfold slot_ok, slot_end. rewrite Eo, Eb. done.
  - intros j k q r Hne [[-> ->]|[Hj Hq]]%Hget [[-> ->]|[Hk Hr]]%Hget.
    + done.
    + by apply (Hdis r k).
    + apply or_comm. by apply (Hdis q j).
    + by apply (sw_disjoint _ Hwf j k).
  - intros j q Hj [[-> ->]|[_ Hq]]%Hget; [lia|]. apply (sw_unused _ Hwf j); [lia|done].
  - apply (sw_bound _ Hwf).
Qed.

Lemma sched_context_bind_cases s sc t p b q r : sched_wf s -> sched_op_ok (SBind sc t p b q r) ->
  exists e s', sched_context_bind (Some s) sc t p b q r = Some (e, Some s') /\ sched_wf s' /\
  ((e = ERR_INVALID_ARG /\ s' = s) \/
   (e = ERR_OK /\ exists tp, (partitions s).[p] = Some tp /\ tp_active tp = true /\
     0 < b <= q /\ b <= tp_budget_us tp)).
Proof.
  intros Hwf (Hsc & Hp & Hb & Hq & Hr). unfold sched_context_bind, guard_ret.
  pose proof (sw_partitions _ Hwf) as Hlp. pose proof (sw_contexts _ Hwf) as Hlc.
  unfold MAX_PARTITIONS, MAX_SCHED_CONTEXTS in *.
  destruct (Z.leb_spec 64 sc) as [|Hsc']; [do 2 eexists; split; [reflexivity|]; auto|].
  destruct (Z.leb_spec 8 p) as [|Hp']; [do 2 eexists; split; [reflexivity|]; auto|].
  destruct (arr_get_is_Some (partitions s) p ltac:(lia)) as [tp Htp]. rewrite Htp.
  cbn [mbind option_bind].
  branches; try by (do 2 eexists; split; [reflexivity|]; auto). bools.
  destruct (arr_get_is_Some (contexts s) sc ltac:(lia)) as [c Hc]. rewrite Hc.
  cbn [mbind option_bind]. rewrite arr_set_in by lia. cbn [mbind option_bind].
  pose proof (sw_slots _ Hwf p tp Htp) as (Ho & Hbu & He). unfold slot_end, fits in *.
  do 2 eexists. split; [reflexivity|]. split; [|right; split; [done|]; exists tp; split_and!; done || lia].
  constructor; cbn; try apply Hwf.
  - by rewrite length_insert.
  - intros i c' Hc'. rewrite arr_get_insert in Hc' by lia.
    destruct (Z.eqb_spec i sc); [|by apply (sw_bound _ Hwf i)].
    injection Hc' as <-. intros _. unfold context_ok, fits, MAX_PARTITIONS, MAJOR_FRAME_US in *. cbn. lia.
Qed.

(** The context a successful binding leaves. *)
Definition bound_context (c : sched_context_t) (t p b q r : Z) : sched_context_t :=
  c <| sc_bound := true |> <| sc_tcb_id := t |> <| sc_partition_id := p |> <| sc_budget_us := b |>
    <| sc_period_us := q |> <| sc_priority := r |> <| sc_remaining_us := b |> <| sc_deadline := q |>.

Lemma sched_context_bind_err s sc t p b q r e s' :
  sched_context_bind (Some s) sc t p b q r = Some (e, Some s') -> e <> ERR_OK -> s' = s.
Proof. unfold sched_context_bind, guard_ret. intros H He. run H; by injection H as <- <-. Qed.

Lemma sched_context_bind_inv s sc t p b q r s' :
  sched_context_bind (Some s) sc t p b q r = Some (ERR_OK, Some s') ->
  exists c, (contexts s).[sc] = Some c /\
    s' = s <| contexts := <[Z.to_nat sc := bound_context c t p b q r]> (contexts s) |>.
Proof.
  unfold sched_context_bind, guard_ret. intros H. run H.
  injection H as <-. apply arr_set_Some in E1 as [_ ->]. by eexists.
Qed.

Lemma replenish_ok now c : fits 64 now -> context_ok c -> context_ok (replenish now c).
Proof.
  intros Hn Hc. unfold replenish. branches; try done.
  unfold context_ok in *. cbn. pose proof (wrap_range 64 (sc_deadline c + sc_period_us c) ltac:(lia)).
  unfold fits in *. intuition lia.
Qed.

Lemma replenish_bound now c : sc_bound (replenish now c) = sc_bound c.
Proof. unfold replenish. by branches. Qed.

Lemma arr_get_map {A B} (f : A -> B) l i : (map f l).[i] = f <$> l.[i].
Proof. unfold arr_get. destruct (0 <=? i); [|done]. apply list_lookup_fmap. Qed.

(** What a tick does: it selects the partition whose slot the instant is in. *)
Lemma sched_tick_cases s now : sched_wf s -> fits 64 now ->
  let t := u64 (now - major_frame_start s) mod MAJOR_FRAME_US in
  exists s', sched_tick s now = Some s' /\ sched_wf s' /\ partitions s' = partitions s /\
    contexts s' = map (replenish now) (contexts s) /\
    ((exists p, (partitions s).[current_partition s'] = Some p /\ in_slot t p = true) \/
     (current_partition s' = current_partition s /\
      forall i p, (partitions s).[i] = Some p -> in_slot t p = false)).
Proof.
  intros Hwf Hnow t. unfold sched_tick. fold t. pose proof (sw_num _ Hwf) as Hn.
  pose proof (sw_partitions _ Hwf) as Hl. unfold MAX_PARTITIONS in *.
  destruct (scan_spec (in_slot t) (partitions s) (Z.to_nat (num_partitions s)) 0)
    as (r & -> & Hr); [lia|lia|]. cbn [mbind option_bind].
  assert (0 <= default (current_partition s) r < MAX_PARTITIONS) as Hcur.
  { destruct r as [j|]; cbn; [unfold MAX_PARTITIONS; lia|apply (sw_current _ Hwf)]. }
  assert (sched_wf (s <| current_partition := default (current_partition s) r |>
                      <| contexts ::= map (replenish now) |>)) as Hwf'.
  { constructor; cbn; try apply Hwf; try done.
    - rewrite length_map. apply (sw_contexts _ Hwf).
    - intros i c Hc. rewrite arr_get_map in Hc. apply fmap_Some in Hc as (c0 & Hc0 & ->).
      rewrite replenish_bound. intros Hb. apply replenish_ok; [done|]. by apply (sw_bound _ Hwf i). }
  assert ((if negb (default (current_partition s) r =? current_partition s)
    then (sched_flush_partition s (current_partition s))
           <| current_partition := default (current_partition s) r |> else s)
    = s <| current_partition := default (current_partition s) r |>) as ->.
  { destruct (Z.eqb_spec (default (current_partition s) r) (current_partition s)) as [E|]; cbn [negb].
    - rewrite E. by destruct s. - done. }
  eexists. split; [reflexivity|]. split_and!; [exact Hwf'|done|done|]. cbn. destruct r as [j|]; cbn.
  - left. by destruct Hr as (_ & p & ? & ?); exists p.
  - right. split; [done|]. intros i p Hp. destruct (Z.lt_ge_cases i (num_partitions s)).
    + apply arr_get_Some in Hp as Hi. apply (Hr i); [lia|done].
    + destruct (sw_unused _ Hwf i p ltac:(lia) Hp) as (E1 & E2 & _).
      apply not_true_is_false. rewrite in_slot_iff by by apply (sw_slots _ Hwf i).
      unfold slot_end. lia.
Qed.

Lemma sched_exec_wf s o : sched_wf s -> sched_op_ok o ->
  exists s', sched_exec s o = Some s' /\ sched_wf s'.
Proof.
  intros Hwf Hop. destruct o as [i f b c|sc t p b q r|now]; cbn [sched_exec].
  - destruct (sched_partition_create_cases s i f b c Hwf Hop) as (e & s' & H & _).
    rewrite H. exists s'. split; [done|]. by eapply sched_partition_create_wf.
  - destruct (sched_context_bind_cases s sc t p b q r Hwf Hop) as (e & s' & -> & Hwf' & _).
    by exists s'.
  - destruct (sched_tick_cases s now Hwf Hop) as (s' & -> & Hwf' & _). by exists s'.
Qed.

Lemma sched_run_wf l s : sched_wf s -> Forall sched_op_ok l ->
  exists s', sched_run s l = Some s' /\ sched_wf s'.
Proof.
  revert s. induction l as [|o l IH]; intros s Hwf Hok; [by exists s|].
  apply Forall_cons_1 in Hok as [Ho Hok].
  destruct (sched_exec_wf s o Hwf Ho) as (s1 & Hs1 & Hwf1).
  cbn [sched_run]. rewrite Hs1. by apply IH.
Qed.

(** ** Choosing a thread *)

(** The context may run now: bound to the partition, budget left, thread runnable. *)
Definition eligible (tcbs : tcb_table_t) (part : Z) (sc : sched_context_t) : Prop :=
  sc_bound sc = true /\ sc_partition_id sc = part /\ sc_remaining_us sc <> 0 /\
  exists tcb, (threads tcbs).[sc_tcb_id sc] = Some tcb /\ tcb_is_runnable (Some tcb) = true.

(** Every context bound to the partition names a thread of the table. *)
Definition threads_exist (tcbs : tcb_table_t) (part : Z) (l : list sched_context_t) : Prop :=
  forall sc, sc ∈ l -> sc_bound sc = true -> sc_partition_id sc = part ->
    is_Some (threads tcbs).[sc_tcb_id sc].

Lemma pick_prio_spec tcbs part prio l : threads_exist tcbs part l ->
  exists r, pick_prio tcbs part prio l = Some r /\
  match r with
  | Some t => exists sc, sc ∈ l /\ eligible tcbs part sc /\ sc_priority sc = prio /\ sc_tcb_id sc = t
  | None => forall sc, sc ∈ l -> eligible tcbs part sc -> sc_priority sc <> prio
  end.
Proof.
  induction l as [|sc l IH]; intros Hex; cbn [pick_prio].
  { exists None. split; [done|]. intros sc H. by apply not_elem_of_nil in H. }
  assert (exists r, pick_prio tcbs part prio l = Some r /\
    match r with
    | Some t => exists sc0, sc0 ∈ sc :: l /\ eligible tcbs part sc0 /\ sc_priority sc0 = prio /\
                  sc_tcb_id sc0 = t
    | None => ~ (eligible tcbs part sc /\ sc_priority sc = prio) ->
              forall sc0, sc0 ∈ sc :: l -> eligible tcbs part sc0 -> sc_priority sc0 <> prio
    end) as (r & Hr & Hs).
  { destruct IH as (r & Hr & Hs); [intros x Hx; apply Hex; by right|]. exists r. split; [done|].
    destruct r as [t|].
    - destruct Hs as (x & Hx & ?). exists x. split; [by right|done].
    - intros Hn x [->|Hx]%elem_of_cons He; [|by apply Hs]. intros Hp. by apply Hn. }
  assert (~ (eligible tcbs part sc /\ sc_priority sc = prio) ->
    exists r, pick_prio tcbs part prio l = Some r /\
    match r with
    | Some t => exists sc0, sc0 ∈ sc :: l /\ eligible tcbs part sc0 /\ sc_priority sc0 = prio /\
                  sc_tcb_id sc0 = t
    | None => forall sc0, sc0 ∈ sc :: l -> eligible tcbs part sc0 -> sc_priority sc0 <> prio
    end) as Hskip.
  { intros Hn. exists r. split; [done|]. destruct r; [done|by apply Hs]. }
  unfold eligible in Hskip at 1.
  destruct (sc_bound sc) eqn:Eb; cbn [negb]; [|apply Hskip; intuition congruence].
  destruct (Z.eqb_spec (sc_partition_id sc) part) as [Ep|Ep]; cbn [negb]; [|apply Hskip; intuition].
  destruct (Z.eqb_spec (sc_priority sc) prio) as [Eq|Eq]; cbn [negb]; [|apply Hskip; intuition].
  destruct (Z.eqb_spec (sc_remaining_us sc) 0) as [Er|Er]; [apply Hskip; intuition|].
  destruct (Hex sc ltac:(left) Eb Ep) as [tcb Ht]. rewrite Ht. cbn [mbind option_bind].
  destruct (tcb_is_runnable (Some tcb)) eqn:Eu; cbn [negb].
  - exists (Some (sc_tcb_id sc)). split; [done|]. exists sc.
    split; [left|]. split; [|done]. split_and!; [done..|]. by exists tcb.
  - apply Hskip. intros [(_ & _ & _ & tcb' & Ht' & Hrun) _]. congruence.
Qed.

Lemma pick_loop_spec tcbs part l n prio : threads_exist tcbs part l ->
  exists r, pick_loop tcbs part l prio n = Some r /\
  match r with
  | Some t => exists sc, sc ∈ l /\ eligible tcbs part sc /\ sc_tcb_id sc = t /\
      prio <= sc_priority sc < prio + Z.of_nat n /\
      forall sc', sc' ∈ l -> eligible tcbs part sc' -> prio <= sc_priority sc' ->
        sc_priority sc <= sc_priority sc'
  | None => forall sc, sc ∈ l -> eligible tcbs part sc ->
      ~ (prio <= sc_priority sc < prio + Z.of_nat n)
  end.
Proof.
  revert prio. induction n as [|n IH]; intros prio Hex; cbn [pick_loop].
  { exists None. split; [done|]. intros. lia. }
  destruct (pick_prio_spec tcbs part prio l Hex) as (r & -> & Hr). cbn [mbind option_bind].
  destruct r as [t|].
  - exists (Some t). split; [done|]. destruct Hr as (sc & Hin & He & Hp & Ht).
    exists sc. split_and!; try done; try lia; auto.
  - destruct (IH (prio + 1) Hex) as (r & -> & Hs). exists r. split; [done|]. destruct r as [t|].
    + destruct Hs as (sc & Hin & He & Ht & Hp & Hmin). exists sc. split_and!; try done; try lia.
      intros sc' Hin' He' Hp'. apply Hmin; try done.
      specialize (Hr sc' Hin' He'). lia.
    + intros sc Hin He Hp. specialize (Hr sc Hin He). apply (Hs sc Hin He). lia.
Qed.

(** ** Admission *)

(** The utilization of a partition in percent, exactly and rounded the way the code
    rounds it, and its number of contexts. *)
Definition in_part (p : Z) (c : sched_context_t) : bool := sc_bound c && (sc_partition_id c =? p).

Fixpoint utilization (p : Z) (l : list sched_context_t) : Q :=
  match l with
  | [] => 0
  | c :: l' =>
      (if in_part p c then inject_Z (sc_budget_us c * 100) / inject_Z (sc_period_us c) else 0)
      + utilization p l'
  end%Q.

Fixpoint floor_sum (p : Z) (l : list sched_context_t) : Z :=
  match l with
  | [] => 0
  | c :: l' => (if in_part p c then sc_budget_us c * 100 / sc_period_us c else 0) + floor_sum p l'
  end.

Definition contexts_ok (l : list sched_context_t) : Prop :=
  Forall (fun c => sc_bound c = true -> context_ok c) l.

Lemma percent_range c : context_ok c -> 0 <= sc_budget_us c * 100 / sc_period_us c <= 100.
Proof.
  intros (_ & Hb & _). split; [apply Z.div_pos; lia|]. apply Z.div_le_upper_bound; nia.
Qed.

Lemma utilization_sum_floor p l acc : contexts_ok l ->
  0 <= acc -> acc + 100 * Z.of_nat (length l) < 2 ^ 64 ->
  utilization_sum p l acc = Some (acc + floor_sum p l).
Proof.
  revert acc. induction l as [|c l IH]; intros acc Hok Hacc Hlen; cbn [utilization_sum floor_sum].
  { f_equal. lia. }
  apply Forall_cons_1 in Hok as [Hc Hok]. cbn [length] in Hlen. unfold in_part.
  destruct (sc_bound c); cbn [negb andb]; [|rewrite IH by (done || lia); f_equal; lia].
  destruct (sc_partition_id c =? p); cbn [negb]; [|rewrite IH by (done || lia); f_equal; lia].
  specialize (Hc eq_refl). pose proof (percent_range c Hc) as Hpc.
  destruct Hc as (_ & Hb & Hbm & _). unfold MAJOR_FRAME_US in Hbm.
  destruct (Z.eqb_spec (sc_period_us c) 0); [lia|].
  rewrite (u64_small (_ * 100)) by (unfold fits; lia). rewrite u64_small by (unfold fits; lia).
  rewrite IH by (done || lia). f_equal. lia.
Qed.

Lemma floor_div_bounds b q : 0 < q ->
  (inject_Z (b / q) <= inject_Z b / inject_Z q)%Q /\
  (inject_Z b / inject_Z q <= inject_Z (b / q) + 1)%Q.
Proof.
  intros Hq. destruct q as [|q|q]; try lia.
  pose proof (Z.mul_div_le b (Z.pos q) ltac:(lia)).
  pose proof (Z.mul_succ_div_gt b (Z.pos q) ltac:(lia)).
  unfold Qle, inject_Z, Qdiv, Qinv, Qmult, Qplus; cbn [Qnum Qden]. nia.
Qed.

(** One more share in a sum of rounded shares. *)
Lemma share_step b q s u n : 0 < q -> (inject_Z s <= u)%Q -> (u <= inject_Z (s + n))%Q ->
  (inject_Z (b / q + s) <= inject_Z b / inject_Z q + u)%Q /\
  (inject_Z b / inject_Z q + u <= inject_Z (b / q + s + (1 + n)))%Q.
Proof.
  intros Hq Hlo Hhi. destruct (floor_div_bounds b q Hq) as [H1 H2]. rewrite !inject_Z_plus in *. split.
  - by apply Qplus_le_compat.
  - eapply Qle_trans; [by apply Qplus_le_compat|]. apply Qle_lteq. right. change (inject_Z 1) with 1%Q. ring.
Qed.

Lemma utilization_bounds p l : contexts_ok l ->
  (inject_Z (floor_sum p l) <= utilization p l)%Q /\
  (utilization p l <= inject_Z (floor_sum p l + count_if (in_part p) l))%Q.
Proof.
  induction l as [|c l IH]; intros Hok; [split; discriminate|].
  apply Forall_cons_1 in Hok as [Hc Hok]. destruct (IH Hok) as [IH1 IH2].
  cbn [utilization floor_sum]. rewrite count_if_cons. destruct (in_part p c) eqn:E.
  - apply andb_true_iff in E as [Hb _]. destruct (Hc Hb) as (_ & Hbu & _). apply share_step; [lia|done..].
  - rewrite !Z.add_0_l, Qplus_0_l. done.
Qed.

Lemma schedulable_loop_spec l p n : contexts_ok l -> 100 * Z.of_nat (length l) < 2 ^ 64 ->
  exists r, schedulable_loop l p n = Some r /\
  (r = true <-> forall k, p <= k < p + Z.of_nat n -> floor_sum k l <= 99).
Proof.
  revert p. induction n as [|n IH]; intros p Hok Hlen; cbn [schedulable_loop].
  { exists true. split; [done|]. split; [|done]. intros _ k. lia. }
  rewrite utilization_sum_floor by (done || lia). cbn [mbind option_bind].
  destruct (Z.ltb_spec 99 (0 + floor_sum p l)).
  - exists false. split; [done|]. split; [done|]. intros Hk. specialize (Hk p ltac:(lia)). lia.
  - destruct (IH (p + 1) Hok Hlen) as (r & -> & Hr). exists r. split; [done|]. rewrite Hr.
    split; intros Hk k Hkr; [|apply Hk; lia].
    destruct (decide (k = p)) as [->|]; [lia|]. apply Hk. lia.
Qed.

Lemma sched_contexts_ok s : sched_wf s -> contexts_ok (contexts s).
Proof.
  intros Hwf. apply Forall_lookup_2. intros i c Hc Hb. rewrite <- arr_get_nat in Hc.
  by apply (sw_bound _ Hwf (Z.of_nat i)).
Qed.

(** ** Properties *)

(** C15. The cyclic schedule stays conflict free: from the initial scheduler any
    sequence of partition creations, context bindings and ticks with arguments of
    their C types, where the end of a slot asked for does not pass 2^64 (the test on it
    wraps around), runs to the end and keeps the invariant; in particular no instant of the major frame belongs to the slots
    of two partitions, every slot ends within the frame, and every bound context
    has [0 < budget <= period] and no more budget left than it was given. *)
Theorem sched_run_invariant l :
  Forall sched_op_ok l ->
  exists s, sched_run sched_init l = Some s /\ sched_wf s /\
    forall t i j p q, (partitions s).[i] = Some p -> (partitions s).[j] = Some q ->
      in_slot t p = true -> in_slot t q = true -> i = j /\ t < MAJOR_FRAME_US.
Proof.
  intros Hok. destruct (sched_run_wf l sched_init sched_init_wf Hok) as (s & Hs & Hwf).
  exists s. split_and!; [done..|]. intros t i j p q Hp Hq.
  pose proof (sw_slots _ Hwf i p Hp) as Hsp. pose proof (sw_slots _ Hwf j q Hq) as Hsq.
  rewrite !in_slot_iff by done. intros Hit Hjt. split; [by apply (slot_unique s t i j p q)|].
  destruct Hsp as (_ & _ & ?). lia.
Qed.

(** Two partitions of half a frame, a context in each and a tick in the second half. *)
Definition demo_sched_ops : list sched_op :=
  [SCreate 0 0 5000 1; SCreate 1 5000 5000 3; SBind 0 0 0 1000 10000 5;
   SBind 1 1 1 2000 10000 7; SBind 2 2 1 2000 10000 3; STick 7000].

Lemma demo_sched_ops_ok : Forall sched_op_ok demo_sched_ops.
Proof. repeat constructor; vm_compute; congruence. Qed.

Lemma sched_run_invariant_witness :
  exists s, sched_run sched_init demo_sched_ops = Some s /\ sched_wf s /\ current_partition s = 1.
Proof.
  destruct (sched_run_invariant demo_sched_ops) as (s & Hs & Hwf & _).
  - apply demo_sched_ops_ok.
  - exists s. split_and!; [exact Hs|exact Hwf|].
    assert (option_map current_partition (sched_run sched_init demo_sched_ops) = Some 1) as H
      by (vm_compute; reflexivity).
    rewrite Hs in H. injection H as H. exact H.
Defined.

(** C9. Temporal isolation: after a tick, the current partition is the one whose slot
    contains the instant, and the previous one when no slot contains it; provided every
    bound context names a thread of the table, which binding does not check,
    [sched_pick_next] then returns either the thread of a context that is bound to that partition, has
    budget left and a runnable thread, with no eligible context of a better
    priority; or, exactly when no context of the partition is eligible, the idle
    value. *)
Theorem sched_temporal_isolation tcbs s now :
  sched_wf s -> fits 64 now ->
  (forall part, threads_exist tcbs part (contexts s)) ->
  let t := u64 (now - major_frame_start s) mod MAJOR_FRAME_US in
  exists s' r, sched_tick s now = Some s' /\ sched_pick_next tcbs s' now = Some r /\
    sched_wf s' /\
    (forall i p, (partitions s).[i] = Some p -> in_slot t p = true -> current_partition s' = i) /\
    ((forall i p, (partitions s).[i] = Some p -> in_slot t p = false) ->
       current_partition s' = current_partition s) /\
    ((r = IDLE /\ forall sc, sc ∈ contexts s' -> ~ eligible tcbs (current_partition s') sc) \/
     exists sc, sc ∈ contexts s' /\ eligible tcbs (current_partition s') sc /\
       sc_tcb_id sc = r /\
       forall sc', sc' ∈ contexts s' -> eligible tcbs (current_partition s') sc' ->
         sc_priority sc <= sc_priority sc').
Proof.
  intros Hwf Hnow Hex t.
  destruct (sched_tick_cases s now Hwf Hnow) as (s' & Hs' & Hwf' & Hp & Hc & Hsel).
  fold t in Hsel.
  assert (threads_exist tcbs (current_partition s') (contexts s')) as Hex'.
  { intros sc. rewrite Hc. intros (c & -> & Hin)%list_elem_of_fmap.
    unfold replenish.
    branches; intros Hb Hpt; exact (Hex _ c Hin Hb Hpt). }
  assert (forall sc, sc ∈ contexts s' -> eligible tcbs (current_partition s') sc ->
            0 <= sc_priority sc < 256) as Hprio.
  { intros sc (i & Hi)%list_elem_of_lookup (Hb & _). rewrite <- arr_get_nat in Hi.
    by destruct (sw_bound _ Hwf' _ _ Hi Hb) as (_ & _ & _ & _ & ? & _). }
  destruct (pick_loop_spec tcbs (current_partition s') (contexts s') 256 0 Hex') as (r & Hr & Hpick).
  exists s', (default IDLE r). unfold sched_pick_next. rewrite Hr. split_and!; [done..| | |].
  - intros i p Hi Hin. destruct Hsel as [(q & Hq & Hq')|[_ Hno]].
    + pose proof (sw_slots _ Hwf i p Hi). pose proof (sw_slots _ Hwf _ q Hq).
      rewrite in_slot_iff in Hin by done. rewrite in_slot_iff in Hq' by done.
      by apply (slot_unique s t _ i q p).
    + rewrite (Hno i p Hi) in Hin. done.
  - intros Hno. destruct Hsel as [(q & Hq & Hq')|[? _]]; [|done].
    by rewrite (Hno _ q Hq) in Hq'.
  - destruct r as [tid|]; cbn [default].
    + right. destruct Hpick as (sc & Hin & He & Ht & _ & Hmin). exists sc.
      split_and!; try done. intros sc' Hin' He'. apply Hmin; try done. by apply Hprio.
    + left. split; [done|]. intros sc Hin He. apply (Hpick sc Hin He). by apply Hprio.
Qed.

Definition demo_tcbs : tcb_table_t :=
  tcb_table_zero <| threads ::= map (fun t => t <| state := TCB_RUNNABLE |>) |>.

Lemma sched_temporal_isolation_witness :
  exists s s', sched_run sched_init demo_sched_ops = Some s /\
    sched_tick s 18000 = Some s' /\ current_partition s' = 1 /\
    sched_pick_next demo_tcbs s' 18000 = Some 2.
Proof.
  destruct (sched_run_wf demo_sched_ops sched_init sched_init_wf demo_sched_ops_ok) as (s & Hs & Hwf).
  destruct (sched_temporal_isolation demo_tcbs s 18000) as (s' & r & Ht & Hp & _ & Hcur & _).
  - exact Hwf.
  - fits_now.
  - intros part sc Hin _ _. apply arr_get_is_Some.
    vm_compute in Hs. injection Hs as <-. apply list_elem_of_In in Hin.
    repeat (destruct Hin as [<-|Hin]; [vm_compute; split; congruence|]). destruct Hin.
  - exists s, s'. split; [exact Hs|]. split; [exact Ht|].
    vm_compute in Hs. injection Hs as <-. vm_compute in Ht. injection Ht as <-.
    split; [|vm_compute; reflexivity].
    apply (Hcur 1 _ eq_refl). vm_compute. reflexivity.
Defined.

(** C16. The admission test is exact up to rounding: it always has a result; it
    accepts whenever every partition's utilization is at most 99%, and what it
    accepts exceeds 99% by at most one point for each context of the partition,
    because every context's share is rounded down. *)
Theorem sched_is_schedulable_bounds s :
  sched_wf s ->
  exists r, sched_is_schedulable s = Some r /\
    ((forall p, 0 <= p < num_partitions s -> (utilization p (contexts s) <= 99)%Q) -> r = true) /\
    (r = true -> forall p, 0 <= p < num_partitions s ->
       (utilization p (contexts s) <= inject_Z (99 + count_if (in_part p) (contexts s)))%Q).
Proof.
  intros Hwf. pose proof (sched_contexts_ok s Hwf) as Hok. pose proof (sw_num _ Hwf).
  destruct (schedulable_loop_spec (contexts s) 0 (Z.to_nat (num_partitions s)) Hok) as (r & Hr & Hiff).
  { rewrite (sw_contexts _ Hwf). done. }
  exists r. split; [done|]. rewrite Hiff. split.
  - intros Hu k Hk. destruct (utilization_bounds k (contexts s) Hok) as [Hlo _].
    rewrite Zle_Qle. eapply Qle_trans; [exact Hlo|]. apply Hu. lia.
  - intros Hf p Hp. destruct (utilization_bounds p (contexts s) Hok) as [_ Hhi].
    eapply Qle_trans; [exact Hhi|]. rewrite <- Zle_Qle. specialize (Hf p ltac:(lia)). lia.
Qed.

Lemma sched_is_schedulable_bounds_witness :
  exists s r, sched_run sched_init demo_sched_ops = Some s /\ num_partitions s = 2 /\
    sched_is_schedulable s = Some r /\ r = true.
Proof.
  destruct (sched_run_wf demo_sched_ops sched_init sched_init_wf demo_sched_ops_ok) as (s & Hs & Hwf).
  destruct (sched_is_schedulable_bounds s Hwf) as (r & Hr & Hacc & _).
  exists s, r. split; [exact Hs|]. vm_compute in Hs. injection Hs as <-. split; [reflexivity|].
  split; [exact Hr|]. apply Hacc. intros p Hp. cbn in Hp.
  assert (p = 0 \/ p = 1) as [-> | ->] by lia; vm_compute; discriminate.
Defined.

(** Sixty-four contexts of 199 us every 10 ms in one partition of a whole frame. *)
Definition overload_ops : list sched_op :=
  SCreate 0 0 10000 0 :: map (fun i => SBind (Z.of_nat i) (Z.of_nat i) 0 199 10000 1) (seq 0 64).

(** The rounding admits an overloaded partition: 64 contexts that need 127.36% of
    the processor pass the test, each counted as 1%. *)
Theorem sched_admits_overload :
  exists s, sched_run sched_init overload_ops = Some s /\
    Forall sched_op_ok overload_ops /\ sched_is_schedulable s = Some true /\
    (100 < utilization 0 (contexts s))%Q.
Proof.
  eexists. split; [vm_compute; reflexivity|]. split_and!.
  - repeat constructor; vm_compute; congruence.
  - vm_compute. reflexivity.
  - vm_compute. reflexivity.
Qed.

(** The slot test wraps around: in an empty schedule a partition with a budget of
    almost 2^64 us is accepted, although the slot ends far outside the frame. *)
Theorem sched_partition_create_wraps :
  exists offset budget s', fits 64 offset /\ fits 64 budget /\ MAJOR_FRAME_US < budget /\
    sched_partition_create (Some sched_init) 0 offset budget 0 = Some (ERR_OK, Some s') /\
    ~ sched_wf s'.
Proof.
  exists 5000, (2 ^ 64 - 1000). eexists.
  split; [fits_now|]. split; [fits_now|]. split; [reflexivity|].
  split; [vm_compute; reflexivity|]. intros Hwf.
  destruct (sw_slots _ Hwf 0 _ eq_refl) as (_ & _ & H). revert H. vm_compute. congruence.
Qed.
