(* ===== verification/Mdb.v ===== *)
(** * revoke.h, revoke.c: the mapping database

    The derivation tree of capabilities as an array of nodes with parent, first
    child and next sibling links, and revocation of whole subtrees. *)

From S2P Require Import Prelude Types Cheri Cap.

Definition MAX_MDB_NODES : Z := 1024.
Definition NIL : Z := 0xFFFF.

Record mdb_node_t := mk_mdb_node {
  mn_valid : bool;
  mn_cptr : Z;
  mn_cnode_id : Z;
  mn_slot : Z;
  mn_parent : Z;
  mn_first_child : Z;
  mn_next_sibling : Z;
  mn_cap : cap_t;
  mn_revocable : bool
}.
#[export] Instance mdb_node_eta : Eta mdb_node_t := fun n =>
  mk_mdb_node (mn_valid n) (mn_cptr n) (mn_cnode_id n) (mn_slot n) (mn_parent n)
    (mn_first_child n) (mn_next_sibling n) (mn_cap n) (mn_revocable n).

Definition mdb_node_zero : mdb_node_t := mk_mdb_node false 0 0 0 0 0 0 cap_zero false.

Record mdb_tree_t := mk_mdb_tree { mdb_nodes : list mdb_node_t; mdb_count : Z; mdb_free_head : Z }.
#[export] Instance mdb_tree_eta : Eta mdb_tree_t := fun m =>
  mk_mdb_tree (mdb_nodes m) (mdb_count m) (mdb_free_head m).

Definition mdb_init : mdb_tree_t :=
  mk_mdb_tree (replicate (Z.to_nat MAX_MDB_NODES) (mdb_node_zero <| mn_parent := NIL |>)) 0 0.

(** [while (idx < MAX_MDB_NODES && nodes[idx].valid) idx++;] over the nodes from
    [idx] on. *)
Fixpoint first_free (l : list mdb_node_t) (idx : Z) : Z :=
  match l with
  | [] => idx
  | n :: l' => if mn_valid n then first_free l' (idx + 1) else idx
  end.

(** The result carries [*out_idx]. *)
Definition mdb_insert (mdb : option mdb_tree_t) (parent_idx cptr : Z) (cap : cap_t) (out_idx : option Z)
    : option (kerror_t * option mdb_tree_t * option Z) :=
  match mdb, out_idx with
  | Some m, Some _ =>
      retif MAX_MDB_NODES <=? mdb_count m with Some (ERR_NO_MEM, mdb, out_idx);;
      let idx := first_free (drop (Z.to_nat (mdb_free_head m)) (mdb_nodes m)) (mdb_free_head m) in
      retif MAX_MDB_NODES <=? idx with Some (ERR_NO_MEM, mdb, out_idx);;
      let n := mdb_node_zero <| mn_valid := true |> <| mn_cptr := cptr |> <| mn_cap := cap |>
                 <| mn_parent := parent_idx |> <| mn_first_child := NIL |>
                 <| mn_next_sibling := NIL |> <| mn_revocable := true |> in
      l1 ← (mdb_nodes m).[idx := n];
      l2 ← (if negb (parent_idx =? NIL) && (parent_idx <? MAX_MDB_NODES) then
              p ← l1.[parent_idx];
              if mn_valid p then
                n1 ← l1.[idx];
                l ← l1.[idx := n1 <| mn_next_sibling := mn_first_child p |>];
                p1 ← l.[parent_idx];
                l.[parent_idx := p1 <| mn_first_child := idx |>]
              else Some l1
            else Some l1);
      let m1 := m <| mdb_nodes := l2 |> <| mdb_count ::= fun c => u32 (c + 1) |> in
      let m2 := if idx =? mdb_free_head m1 then m1 <| mdb_free_head := u32 (idx + 1) |> else m1 in
      Some (ERR_OK, Some m2, Some idx)
  | _, _ => Some (ERR_INVALID_ARG, mdb, out_idx)
  end.

(** The end of [mdb_revoke_recursive]: the node itself; its links are left. *)
Definition free_node (m : mdb_tree_t) (idx : Z) : option mdb_tree_t :=
  n ← (mdb_nodes m).[idx];
  l ← (mdb_nodes m).[idx := n <| mn_cap := cap_zero |> <| mn_valid := false |>];
  let m1 := m <| mdb_nodes := l |> in
  let m2 := if idx <? mdb_free_head m1 then m1 <| mdb_free_head := idx |> else m1 in
  Some (m2 <| mdb_count ::= fun c => u32 (c - 1) |>).

(** [mdb_revoke_recursive] and the loop over a child list, with bounded depth. *)
Fixpoint mdb_revoke_recursive (fuel : nat) (m : mdb_tree_t) (idx : Z) : option mdb_tree_t :=
  match fuel with
  | O => None
  | S fuel' =>
      n ← (mdb_nodes m).[idx];
      m1 ← revoke_chain fuel' m (mn_first_child n);
      free_node m1 idx
  end
with revoke_chain (fuel : nat) (m : mdb_tree_t) (child : Z) : option mdb_tree_t :=
  match fuel with
  | O => None
  | S fuel' =>
      if child =? NIL then Some m
      else
        c ← (mdb_nodes m).[child];
        let next := mn_next_sibling c in
        m1 ← mdb_revoke_recursive fuel' m child;
        revoke_chain fuel' m1 next
  end.

Definition revoke_fuel : nat := 2 * Z.to_nat MAX_MDB_NODES + 2.

Definition mdb_revoke (mdb : option mdb_tree_t) (idx : Z) : option (kerror_t * option mdb_tree_t) :=
  match mdb with
  | None => Some (ERR_INVALID_ARG, mdb)
  | Some m =>
      retif MAX_MDB_NODES <=? idx with Some (ERR_INVALID_ARG, mdb);;
      n ← (mdb_nodes m).[idx];
      retif negb (mn_valid n) with Some (ERR_INVALID_CAP, mdb);;
      m1 ← revoke_chain revoke_fuel m (mn_first_child n);
      n1 ← (mdb_nodes m1).[idx];
      l ← (mdb_nodes m1).[idx := n1 <| mn_first_child := NIL |>];
      Some (ERR_OK, Some (m1 <| mdb_nodes := l |>))
  end.

(** The pointer [p] of [mdb_delete] into a link field of a node. *)
Inductive link_ref := FirstChild (i : Z) | NextSibling (i : Z).

Definition read_link (l : list mdb_node_t) (r : link_ref) : option Z :=
  match r with
  | FirstChild i => n ← l.[i]; Some (mn_first_child n)
  | NextSibling i => n ← l.[i]; Some (mn_next_sibling n)
  end.

Definition write_link (l : list mdb_node_t) (r : link_ref) (v : Z) : option (list mdb_node_t) :=
  match r with
  | FirstChild i => n ← l.[i]; l.[i := n <| mn_first_child := v |>]
  | NextSibling i => n ← l.[i]; l.[i := n <| mn_next_sibling := v |>]
  end.

(** [while (p refers to a node) { if it is idx, unlink and stop; go on }]. *)
Fixpoint unlink (fuel : nat) (l : list mdb_node_t) (p : link_ref) (idx : Z)
    : option (list mdb_node_t) :=
  match fuel with
  | O => None
  | S fuel' =>
      v ← read_link l p;
      if v =? NIL then Some l
      else if v =? idx then
        n ← l.[idx];
        write_link l p (mn_next_sibling n)
      else unlink fuel' l (NextSibling v) idx
  end.

Definition mdb_delete (mdb : option mdb_tree_t) (idx : Z) : option (kerror_t * option mdb_tree_t) :=
  match mdb with
  | None => Some (ERR_INVALID_ARG, mdb)
  | Some m =>
      retif MAX_MDB_NODES <=? idx with Some (ERR_INVALID_ARG, mdb);;
      n ← (mdb_nodes m).[idx];
      retif negb (mn_valid n) with Some (ERR_INVALID_CAP, mdb);;
      retif negb (mn_first_child n =? NIL) with Some (ERR_REVOKE_NEEDED, mdb);;
      let parent := mn_parent n in
      l1 ← (if negb (parent =? NIL)
            then unlink (Z.to_nat MAX_MDB_NODES + 1) (mdb_nodes m) (FirstChild parent) idx
            else Some (mdb_nodes m));
      l2 ← l1.[idx := mdb_node_zero <| mn_parent := NIL |> <| mn_first_child := NIL |>
                        <| mn_next_sibling := NIL |>];
      let m1 := m <| mdb_nodes := l2 |> in
      let m2 := if idx <? mdb_free_head m1 then m1 <| mdb_free_head := idx |> else m1 in
      Some (ERR_OK, Some (m2 <| mdb_count ::= fun c => u32 (c - 1) |>))
  end.

Definition lookup_match (cnode_id slot : Z) (n : mdb_node_t) : bool :=
  mn_valid n &&
  (((mn_cnode_id n =? cnode_id) && (mn_slot n =? slot)) ||
   ((mn_cptr n =? slot) && (cnode_id =? 0)) ||
   (mn_cptr n =? Z.lor (u32 (Z.shiftl cnode_id 8)) slot)).

Definition mdb_lookup (m : mdb_tree_t) (cnode_id slot : Z) : Z :=
  default NIL (find_idx (lookup_match cnode_id slot) (mdb_nodes m)).

Fixpoint descendant_loop (fuel : nat) (l : list mdb_node_t) (ancestor cur : Z) : option bool :=
  match fuel with
  | O => None
  | S fuel' =>
      if negb (cur =? NIL) && (cur <? MAX_MDB_NODES) then
        if cur =? ancestor then Some true
        else n ← l.[cur]; descendant_loop fuel' l ancestor (mn_parent n)
      else Some false
  end.

Definition mdb_is_descendant (m : mdb_tree_t) (ancestor descendant : Z) : option bool :=
  descendant_loop (Z.to_nat MAX_MDB_NODES + 2) (mdb_nodes m) ancestor descendant.

(** ** The forest the links represent

    Child lists in left-child right-sibling form: [Node i ks ss] is the node [i]
    with children [ks], followed by its siblings [ss]. *)

Inductive forest := Leaf | Node (i : Z) (ks ss : forest).

Fixpoint flat (f : forest) : list Z :=
  match f with Leaf => [] | Node i ks ss => i :: flat ks ++ flat ss end.

(** [rep l p v f]: the links of [l], starting from the link value [v], spell the
    child list [f] of [p]. *)
Fixpoint rep (l : list mdb_node_t) (p v : Z) (f : forest) : Prop :=
  match f with
  | Leaf => v = NIL
  | Node i ks ss => v = i /\ exists n, l.[i] = Some n /\ mn_valid n = true /\ mn_parent n = p /\
      rep l i (mn_first_child n) ks /\ rep l p (mn_next_sibling n) ss
  end.

(** The children of a node, and the forest with them replaced. *)
Fixpoint kids_of (i : Z) (f : forest) : option forest :=
  match f with
  | Leaf => None
  | Node j ks ss =>
      if j =? i then Some ks
      else match kids_of i ks with Some k => Some k | None => kids_of i ss end
  end.

Fixpoint set_kids (i : Z) (k f : forest) : forest :=
  match f with
  | Leaf => Leaf
  | Node j ks ss => if j =? i then Node j k ss else Node j (set_kids i k ks) (set_kids i k ss)
  end.

(** A tree of the database: a root without siblings. *)
Definition root_ok (l : list mdb_node_t) (f : forest) : Prop :=
  exists r ks, f = Node r ks Leaf /\ rep l NIL r f.

Definition all_flat (fs : list forest) : list Z := concat (map flat fs).

(** The node is live. *)
Definition live (l : list mdb_node_t) (i : Z) : Prop := exists n, l.[i] = Some n /\ mn_valid n = true.

Record mdb_wf (m : mdb_tree_t) (fs : list forest) : Prop := {
  mw_length : length (mdb_nodes m) = Z.to_nat MAX_MDB_NODES;
  mw_count : mdb_count m = count_if mn_valid (mdb_nodes m);
  mw_head : 0 <= mdb_free_head m <= MAX_MDB_NODES;
  mw_below : forall i, 0 <= i < mdb_free_head m -> live (mdb_nodes m) i;
  mw_roots : Forall (root_ok (mdb_nodes m)) fs;
  mw_nodup : NoDup (all_flat fs);
  mw_live : forall i, live (mdb_nodes m) i <-> i ∈ all_flat fs
}.

(** The database represents some forest. *)
Definition mdb_inv (m : mdb_tree_t) : Prop := exists fs, mdb_wf m fs.

(** [descends l a j]: a chain of parent links leads from the live node [j] to [a]. *)
Inductive descends (l : list mdb_node_t) (a : Z) : Z -> Prop :=
| desc_child j n : l.[j] = Some n -> mn_valid n = true -> mn_parent n = a -> descends l a j
| desc_step j n : l.[j] = Some n -> mn_valid n = true -> descends l a (mn_parent n) ->
    descends l a j.

(** ** Lemmas on forests *)

Lemma rep_frame l l' f : (forall i, i ∈ flat f -> l'.[i] = l.[i]) ->
  forall p v, rep l p v f -> rep l' p v f.
Proof.
  induction f as [|i ks IHk ss IHs]; intros Hf p v; cbn in *; [done|].
  intros (-> & n & Hn & Hv & Hp & Hk & Hs). split; [done|]. exists n.
  split_and!; [rewrite Hf by set_solver; done|done..| |].
  - apply IHk; [intros j Hj; apply Hf; set_solver|done].
  - apply IHs; [intros j Hj; apply Hf; set_solver|done].
Qed.

Lemma rep_live l f : forall p v, rep l p v f -> forall i, i ∈ flat f -> live l i.
Proof.
  induction f as [|i ks IHk ss IHs]; intros p v; cbn; [set_solver|].
  intros (_ & n & Hn & Hv & _ & Hk & Hs) j [->|[Hj|Hj]%elem_of_app]%elem_of_cons.
  - by exists n.
  - by eapply IHk.
  - by eapply IHs.
Qed.

Lemma kids_of_in i f k : kids_of i f = Some k -> i ∈ flat f /\ forall j, j ∈ flat k -> j ∈ flat f.
Proof.
  revert k. induction f as [|j ks IHk ss IHs]; intros k; cbn; [done|].
  destruct (Z.eqb_spec j i) as [->|].
  - intros [= ->]. set_solver.
  - destruct (kids_of i ks) as [k'|] eqn:E.
    + intros [= ->]. destruct (IHk k eq_refl). set_solver.
    + intros H. destruct (IHs k H). set_solver.
Qed.

Lemma kids_of_mem i f k : kids_of i f = Some k -> i ∈ flat f.
Proof. by intros [? _]%kids_of_in. Qed.

Lemma kids_of_notin i f : i ∉ flat f -> kids_of i f = None.
Proof. intros Hi. destruct (kids_of i f) eqn:E; [|done]. by apply kids_of_in in E as [? _]. Qed.

Lemma kids_of_Some i f : i ∈ flat f -> is_Some (kids_of i f).
Proof.
  induction f as [|j ks IHk ss IHs]; cbn; [set_solver|]. destruct (Z.eqb_spec j i); [by eexists|].
  intros [->|[Hi|Hi]%elem_of_app]%elem_of_cons; [done| |].
  - destruct (IHk Hi) as [k ->]. by eexists.
  - destruct (kids_of i ks); [by eexists|auto].
Qed.

Lemma set_kids_notin i k f : i ∉ flat f -> set_kids i k f = f.
Proof.
  induction f as [|j ks IHk ss IHs]; cbn; [done|]. intros Hi.
  destruct (Z.eqb_spec j i); [set_solver|]. rewrite IHk, IHs by set_solver. done.
Qed.

(** Case analysis of where a node of a tree lies, and what the other parts are. *)
Lemma nodup_node i ks ss : NoDup (flat (Node i ks ss)) ->
  i ∉ flat ks /\ i ∉ flat ss /\ NoDup (flat ks) /\ NoDup (flat ss) /\
  forall j, j ∈ flat ks -> j ∉ flat ss.
Proof.
  cbn. intros [Hi [Hk [Hd Hs]]%list.NoDup_app]%list.NoDup_cons. set_solver.
Qed.

(** Replacing the children of a node replaces their nodes in the listing. *)
Lemma flat_set_kids i f k k' : NoDup (flat f) -> kids_of i f = Some k ->
  exists rest, i ∈ rest /\ flat f ≡ₚ rest ++ flat k /\ flat (set_kids i k' f) ≡ₚ rest ++ flat k'.
Proof.
  induction f as [|j ks IHk ss IHs]; intros Hnd H; [done|].
  destruct (nodup_node _ _ _ Hnd) as (Hjk & Hjs & Hk & Hs & Hd). cbn in H |- *.
  destruct (Z.eqb_spec j i) as [->|Hne].
  { injection H as ->. exists (i :: flat ss). split; [set_solver|]. cbn. split; f_equiv; solve_Permutation. }
  destruct (kids_of i ks) as [k0|] eqn:E.
  - injection H as ->. destruct (IHk Hk eq_refl) as (rest & Hi & H1 & H2).
    apply kids_of_in in E as [Hik _]. rewrite (set_kids_notin i k' ss) by auto.
    exists (j :: rest ++ flat ss). split; [set_solver|]. cbn. rewrite H1, H2.
    split; f_equiv; solve_Permutation.
  - destruct (IHs Hs H) as (rest & Hi & H1 & H2).
    assert (i ∉ flat ks) as Hik by (intros Hin; apply kids_of_Some in Hin as [? ?]; congruence).
    rewrite (set_kids_notin i k' ks Hik).
    exists (j :: flat ks ++ rest). split; [set_solver|]. cbn. rewrite H1, H2.
    split; f_equiv; solve_Permutation.
Qed.

(** The link structure when one node's child list is replaced: everything outside
    the node and its old subtree is untouched. *)
Lemma rep_set_kids l l' par n v' k k' f : NoDup (flat f) -> kids_of par f = Some k ->
  l.[par] = Some n -> l'.[par] = Some (n <| mn_first_child := v' |>) ->
  rep l' par v' k' ->
  (forall i, i ∈ flat f -> i <> par -> i ∉ flat k -> l'.[i] = l.[i]) ->
  forall p v, rep l p v f -> rep l' p v (set_kids par k' f).
Proof.
  intros Hnd Hk Hn Hn' Hk'. revert Hnd Hk. induction f as [|j ks IHk ss IHs]; intros Hnd Hk Hfr p v; [done|].
  destruct (nodup_node _ _ _ Hnd) as (Hjk & Hjs & Hndk & Hnds & Hd). cbn in Hk |- *.
  intros (-> & nj & Hj & Hv & Hp & Hrk & Hrs).
  destruct (Z.eqb_spec j par) as [->|Hne].
  { injection Hk as ->. split; [done|]. rewrite Hn in Hj. injection Hj as <-.
    exists (n <| mn_first_child := v' |>). split_and!; try done.
    eapply rep_frame; [|exact Hrs]. intros i Hi. apply Hfr; cbn; set_solver. }
  assert (par ∈ flat ks \/ par ∈ flat ss) as Hin.
  { destruct (kids_of par ks) eqn:E; [left; by destruct (kids_of_in _ _ _ E)|
      right; by destruct (kids_of_in _ _ _ Hk)]. }
  assert (j ∉ flat k) as Hjk'.
  { destruct (kids_of par ks) eqn:E; [injection Hk as ->; apply kids_of_in in E as [_ Ek]|
      apply kids_of_in in Hk as [_ Ek]]; set_solver. }
  split; [done|]. exists nj. split; [rewrite Hfr; [done|cbn; set_solver..]|]. split_and!; [done..| |].
  - destruct (kids_of par ks) as [k0|] eqn:E.
    + injection Hk as ->. apply IHk; try done. intros i Hi. apply Hfr. cbn. set_solver.
    + assert (par ∉ flat ks) as Hp' by (intros Hx; apply kids_of_Some in Hx as [? ?]; congruence).
      rewrite set_kids_notin by done. eapply rep_frame; [|exact Hrk].
      apply kids_of_in in Hk as [_ Hks]. intros i Hi. apply Hfr; cbn; set_solver.
  - destruct (kids_of par ks) as [k0|] eqn:E.
    + injection Hk as ->. apply kids_of_in in E as [Hpk Hks]. rewrite set_kids_notin by auto.
      eapply rep_frame; [|exact Hrs]. intros i Hi. apply Hfr; cbn; set_solver.
    + apply IHs; try done. intros i Hi. apply Hfr. cbn. set_solver.
Qed.

(** The children of a node are spelled from its [first_child] link. *)
Lemma rep_kids l f : forall p v i k, rep l p v f -> kids_of i f = Some k ->
  exists n, l.[i] = Some n /\ mn_valid n = true /\ rep l i (mn_first_child n) k.
Proof.
  induction f as [|j ks IHk ss IHs]; intros p v i k; cbn; [done|].
  intros (_ & n & Hn & Hv & _ & Hk & Hs). destruct (Z.eqb_spec j i) as [->|].
  - intros [= ->]. by exists n.
  - destruct (kids_of i ks) eqn:E; [intros [= ->]; by eapply IHk|by eapply IHs].
Qed.

(** ** The node counter and the free hint *)

Record counters_ok (m : mdb_tree_t) : Prop := {
  co_length : length (mdb_nodes m) = Z.to_nat MAX_MDB_NODES;
  co_count : mdb_count m = count_if mn_valid (mdb_nodes m);
  co_head : 0 <= mdb_free_head m <= MAX_MDB_NODES;
  co_below : forall i, 0 <= i < mdb_free_head m -> live (mdb_nodes m) i
}.

Lemma mdb_wf_counters m fs : mdb_wf m fs -> counters_ok m.
Proof. intros [? ? ? ? _ _ _]. by constructor. Qed.

Lemma counters_ext m m' : counters_ok m -> mdb_nodes m' = mdb_nodes m ->
  mdb_count m' = mdb_count m -> mdb_free_head m' = mdb_free_head m -> counters_ok m'.
Proof. intros [? ? ? ?] E1 E2 E3. constructor; rewrite ?E1, ?E2, ?E3; done. Qed.

Lemma node_range m i n : length (mdb_nodes m) = Z.to_nat MAX_MDB_NODES ->
  (mdb_nodes m).[i] = Some n -> 0 <= i < MAX_MDB_NODES /\ i <> NIL.
Proof.
  intros Hl [Hi _]%arr_get_Some. rewrite Hl in Hi. unfold MAX_MDB_NODES, NIL in *. lia.
Qed.

Lemma count_fits m : length (mdb_nodes m) = Z.to_nat MAX_MDB_NODES ->
  0 <= count_if mn_valid (mdb_nodes m) <= MAX_MDB_NODES.
Proof.
  intros Hl. pose proof (count_if_le mn_valid (mdb_nodes m)) as H. rewrite Hl in H.
  pose proof (count_if_nonneg mn_valid (mdb_nodes m)). unfold MAX_MDB_NODES in *. lia.
Qed.

Lemma live_insert l i n j : 0 <= i < Z.of_nat (length l) ->
  live (<[Z.to_nat i := n]> l) j <-> if j =? i then mn_valid n = true else live l j.
Proof.
  intros Hi. unfold live. rewrite arr_get_insert by done. destruct (j =? i); [|done].
  split; [by intros (x & [= ->] & ?)|]. intros. by exists n.
Qed.

(** Storing a dead node over a live one and lowering the hint and the count. *)
Lemma kill_counters m i n n' m' : counters_ok m -> (mdb_nodes m).[i] = Some n ->
  mn_valid n = true -> mn_valid n' = false ->
  mdb_nodes m' = <[Z.to_nat i := n']> (mdb_nodes m) ->
  mdb_free_head m' = (if i <? mdb_free_head m then i else mdb_free_head m) ->
  mdb_count m' = u32 (mdb_count m - 1) -> counters_ok m'.
Proof.
  intros [Hl Hc Hh Hb] Hn Hv Hv' Hnodes Hhead Hcount.
  apply arr_get_Some in Hn as Hi. destruct Hi as [Hi Hn'].
  pose proof (count_fits m Hl). pose proof (node_range m i n Hl Hn) as [Hr _].
  constructor.
  - by rewrite Hnodes, length_insert.
  - assert (count_if mn_valid (mdb_nodes m') = mdb_count m - 1) as E.
    { rewrite Hnodes, (count_if_insert _ _ _ _ _ Hn'), Hv, Hv'. lia. }
    pose proof (count_if_nonneg mn_valid (mdb_nodes m')).
    rewrite Hcount, E, u32_small; [done|]. unfold fits, MAX_MDB_NODES in *. lia.
  - rewrite Hhead. destruct (i <? mdb_free_head m); lia.
  - intros j Hj. rewrite Hnodes. apply live_insert; [done|]. rewrite Hhead in Hj.
    destruct (Z.ltb_spec i (mdb_free_head m)), (Z.eqb_spec j i); try lia; apply Hb; lia.
Qed.

Definition dead (n : mdb_node_t) : mdb_node_t := n <| mn_cap := cap_zero |> <| mn_valid := false |>.

Lemma free_node_spec m i n : counters_ok m -> (mdb_nodes m).[i] = Some n -> mn_valid n = true ->
  exists m', free_node m i = Some m' /\ counters_ok m' /\
    mdb_nodes m' = <[Z.to_nat i := dead n]> (mdb_nodes m).
Proof.
  intros Hco Hn Hv. unfold free_node. rewrite Hn. cbn [mbind option_bind].
  apply arr_get_Some in Hn as Hi. rewrite arr_set_in by apply Hi. cbn [mbind option_bind].
  eexists. split; [reflexivity|]. split.
  - apply (kill_counters m i n (dead n)); try done; cbn; by destruct (i <? mdb_free_head m).
  - cbn. by destruct (i <? mdb_free_head m).
Qed.

(** Revoking a child list: it terminates, kills exactly its nodes and leaves every
    other node as it is. *)
Lemma revoke_chain_spec f : forall fuel m p v, counters_ok m -> rep (mdb_nodes m) p v f ->
  NoDup (flat f) -> (2 * length (flat f) < fuel)%nat ->
  exists m', revoke_chain fuel m v = Some m' /\ counters_ok m' /\
    (forall i, i ∉ flat f -> (mdb_nodes m').[i] = (mdb_nodes m).[i]) /\
    (forall i, i ∈ flat f -> (mdb_nodes m').[i] = dead <$> (mdb_nodes m).[i]).
Proof.
  induction f as [|j ks IHk ss IHs]; intros fuel m p v Hco Hrep Hnd Hfuel.
  { destruct fuel as [|fuel]; [cbn in Hfuel; lia|]. cbn in Hrep. subst v. cbn [revoke_chain].
    rewrite Z.eqb_refl. exists m. split_and!; [done..|]. intros i Hi. cbn in Hi. set_solver. }
  destruct (nodup_node _ _ _ Hnd) as (Hjk & Hjs & Hndk & Hnds & Hd).
  cbn in Hrep. destruct Hrep as (-> & n & Hn & Hv & Hp & Hrk & Hrs).
  cbn [flat length] in Hfuel. rewrite length_app in Hfuel.
  destruct fuel as [|[|fuel]]; [lia..|].
  pose proof (node_range m j n (co_length _ Hco) Hn) as [_ Hnil].
  change (revoke_chain (S (S fuel)) m j) with
    (if j =? NIL then Some m else
       c ← (mdb_nodes m).[j]; m1 ← mdb_revoke_recursive (S fuel) m j;
       revoke_chain (S fuel) m1 (mn_next_sibling c)).
  rewrite (proj2 (Z.eqb_neq _ _) Hnil), Hn. cbn [mbind option_bind].
  change (mdb_revoke_recursive (S fuel) m j) with
    (n ← (mdb_nodes m).[j]; m1 ← revoke_chain fuel m (mn_first_child n); free_node m1 j).
  rewrite Hn. cbn [mbind option_bind].
  destruct (IHk fuel m j (mn_first_child n)) as (m1 & -> & Hco1 & Hout1 & Hin1); [done..|lia|].
  cbn [mbind option_bind].
  assert ((mdb_nodes m1).[j] = Some n) as Hn1 by (rewrite Hout1; done).
  destruct (free_node_spec m1 j n Hco1 Hn1 Hv) as (m2 & -> & Hco2 & Hm2).
  cbn [mbind option_bind]. apply arr_get_Some in Hn1 as [Hj1 _].
  assert (forall i, (mdb_nodes m2).[i] =
    if i =? j then Some (dead n) else (mdb_nodes m1).[i]) as Hget2
    by (intros i; rewrite Hm2; by apply arr_get_insert).
  destruct (IHs (S fuel) m2 p (mn_next_sibling n)) as (m3 & -> & Hco3 & Hout3 & Hin3);
    [done| |done|lia|].
  { eapply rep_frame; [|exact Hrs]. intros i Hi. rewrite Hget2.
    destruct (Z.eqb_spec i j); [set_solver|]. apply Hout1. set_solver. }
  exists m3. split_and!; [done..| |]; intros i Hi; cbn in Hi.
  - rewrite Hout3, Hget2 by set_solver. destruct (Z.eqb_spec i j); [set_solver|].
    apply Hout1. set_solver.
  - apply elem_of_cons in Hi as [->|[Hi|Hi]%elem_of_app].
    + rewrite Hout3, Hget2, Z.eqb_refl, Hn by done. done.
    + rewrite Hout3, Hget2 by auto. destruct (Z.eqb_spec i j); [set_solver|]. by apply Hin1.
    + rewrite Hin3, Hget2 by done. destruct (Z.eqb_spec i j); [set_solver|].
      rewrite Hout1; [done|]. set_solver.
Qed.

(** ** The whole database *)

Lemma all_flat_in fs i : i ∈ all_flat fs <-> exists f, f ∈ fs /\ i ∈ flat f.
Proof.
  unfold all_flat. induction fs as [|f fs IH]; cbn; [set_solver|].
  rewrite elem_of_app, IH. set_solver.
Qed.

Lemma tree_unique fs f g i : NoDup (all_flat fs) -> f ∈ fs -> g ∈ fs ->
  i ∈ flat f -> i ∈ flat g -> f = g.
Proof.
  unfold all_flat. induction fs as [|h fs IH]; cbn; [set_solver|].
  intros [Hh [Hd Hfs]]%list.NoDup_app [->|Hf]%elem_of_cons [->|Hg]%elem_of_cons Hi Hj; [done| | |auto].
  - exfalso. apply (Hd i Hi), all_flat_in. by exists g.
  - exfalso. apply (Hd i Hj), all_flat_in. by exists f.
Qed.

Lemma tree_nodup fs f : NoDup (all_flat fs) -> f ∈ fs -> NoDup (flat f).
Proof.
  unfold all_flat. induction fs as [|h fs IH]; cbn; [set_solver|].
  intros [Hh [_ Hfs]]%list.NoDup_app [->|Hf]%elem_of_cons; auto.
Qed.

(** Replacing one node's children in the whole database. *)
Lemma all_flat_set_kids fs f par k k' : NoDup (all_flat fs) -> f ∈ fs -> kids_of par f = Some k ->
  exists rest, par ∈ rest /\ all_flat fs ≡ₚ rest ++ flat k /\
    all_flat (map (set_kids par k') fs) ≡ₚ rest ++ flat k'.
Proof.
  intros Hnd Hf Hk. pose proof (kids_of_in _ _ _ Hk) as [Hpar _].
  revert Hnd Hf. unfold all_flat. induction fs as [|h fs IH]; cbn; [set_solver|].
  intros [Hh [Hd Hfs]]%list.NoDup_app [->|Hf]%elem_of_cons.
  - destruct (flat_set_kids par h k k' Hh Hk) as (rest & Hin & H1 & H2).
    assert (map (set_kids par k') fs = fs) as ->.
    { rewrite <- (map_id fs) at 2. apply map_ext_in. intros g Hg%list_elem_of_In.
      apply set_kids_notin. intros Hx. apply (Hd par Hpar), all_flat_in. by exists g. }
    exists (rest ++ concat (map flat fs)). split; [set_solver|]. rewrite H1, H2.
    split; solve_Permutation.
  - destruct (IH Hfs Hf) as (rest & Hin & H1 & H2).
    rewrite set_kids_notin.
    2: { intros Hx. apply (Hd par Hx), all_flat_in. by exists f. }
    exists (flat h ++ rest). split; [set_solver|]. rewrite H1, H2. split; solve_Permutation.
Qed.

Lemma roots_set_kids l l' fs f par n v' k k' : Forall (root_ok l) fs -> NoDup (all_flat fs) ->
  f ∈ fs -> kids_of par f = Some k ->
  l.[par] = Some n -> l'.[par] = Some (n <| mn_first_child := v' |>) -> rep l' par v' k' ->
  (forall i, i ∈ all_flat fs -> i <> par -> i ∉ flat k -> l'.[i] = l.[i]) ->
  Forall (root_ok l') (map (set_kids par k') fs).
Proof.
  intros Hok Hnd Hf Hk Hn Hn' Hk' Hfr. apply Forall_fmap, list.Forall_forall. intros g Hg.
  pose proof (proj1 (list.Forall_forall _ _) Hok g Hg) as (r & ks & -> & Hrep).
  pose proof (kids_of_in _ _ _ Hk) as [Hpar Hsub].
  destruct (decide (par ∈ flat (Node r ks Leaf))) as [Hin|Hin].
  - assert (Node r ks Leaf = f) as <- by (by apply (tree_unique fs _ _ par)).
    assert (rep l' NIL r (set_kids par k' (Node r ks Leaf))) as Hrep'.
    { apply (rep_set_kids l l' par n v' k k'); try done; [by eapply tree_nodup|]. intros i Hi. apply Hfr.
      apply all_flat_in. by exists (Node r ks Leaf). }
    cbn in Hrep' |- *. destruct (r =? par); by eexists _, _.
  - cbn [compose]. rewrite set_kids_notin by done. exists r, ks. split; [done|].
    eapply rep_frame; [|exact Hrep]. intros i Hi. apply Hfr.
    + apply all_flat_in. by exists (Node r ks Leaf).
    + by intros ->.
    + intros Hik. apply Hin. rewrite (tree_unique fs (Node r ks Leaf) f i); auto.
Qed.

(** A live node, its tree and its children. *)
Lemma wf_find m fs i : mdb_wf m fs -> live (mdb_nodes m) i ->
  exists f k n, f ∈ fs /\ kids_of i f = Some k /\ (mdb_nodes m).[i] = Some n /\
    mn_valid n = true /\ rep (mdb_nodes m) i (mn_first_child n) k /\ NoDup (flat k) /\ i ∉ flat k.
Proof.
  intros Hwf Hi. apply (mw_live _ _ Hwf), all_flat_in in Hi as (f & Hf & Hi).
  destruct (kids_of_Some i f Hi) as [k Hk].
  pose proof (proj1 (list.Forall_forall _ _) (mw_roots _ _ Hwf) f Hf) as (r & ks & Ef & Hrep).
  destruct (rep_kids _ _ _ _ _ _ Hrep Hk) as (n & Hn & Hv & Hrk).
  pose proof (tree_nodup _ _ (mw_nodup _ _ Hwf) Hf) as Hnd.
  destruct (flat_set_kids i f k Leaf Hnd Hk) as (rest & Hin & Hp & _).
  rewrite Hp in Hnd. apply list.NoDup_app in Hnd as (_ & Hd & Hndk).
  exists f, k, n. split_and!; try done. by apply Hd.
Qed.

Lemma nodup_length (l : list Z) N : NoDup l -> (forall i, i ∈ l -> 0 <= i < Z.of_nat N) ->
  (length l <= N)%nat.
Proof.
  intros Hnd Hr. rewrite <- (length_seq N 0), <- (length_map Z.of_nat). apply submseteq_length.
  apply NoDup_submseteq; [done|]. intros i Hi. apply list_elem_of_In, in_map_iff.
  exists (Z.to_nat i). specialize (Hr i Hi). split; [lia|]. apply in_seq. lia.
Qed.

Lemma live_range l i : live l i -> 0 <= i < Z.of_nat (length l).
Proof. intros (n & Hn & _). by apply arr_get_Some in Hn as [? _]. Qed.

(** A node rewritten without changing its validity. *)
Lemma counters_same m i n n' : counters_ok m -> (mdb_nodes m).[i] = Some n ->
  mn_valid n' = mn_valid n ->
  counters_ok (m <| mdb_nodes := <[Z.to_nat i := n']> (mdb_nodes m) |>).
Proof.
  intros [Hl Hc Hh Hb] Hn Hv. apply arr_get_Some in Hn as [Hi Hn'].
  constructor; cbn; [by rewrite length_insert| |done|].
  - rewrite (count_if_insert _ _ _ _ _ Hn'), Hv. lia.
  - intros j Hj. apply live_insert; [done|]. destruct (Z.eqb_spec j i) as [->|]; [|by apply Hb].
    destruct (Hb i Hj) as (n0 & Hn0 & ?). rewrite arr_get_lookup in Hn0 by lia. congruence.
Qed.

(** [mdb_revoke] on a live node. *)
Lemma mdb_revoke_spec m fs idx : mdb_wf m fs -> live (mdb_nodes m) idx ->
  exists f k m', f ∈ fs /\ kids_of idx f = Some k /\
    mdb_revoke (Some m) idx = Some (ERR_OK, Some m') /\
    mdb_wf m' (map (set_kids idx Leaf) fs) /\
    (forall i, i ∉ flat k -> i <> idx -> (mdb_nodes m').[i] = (mdb_nodes m).[i]) /\
    (forall i, i ∈ flat k -> (mdb_nodes m').[i] = dead <$> (mdb_nodes m).[i]) /\
    (mdb_nodes m').[idx] = (fun n => n <| mn_first_child := NIL |>) <$> (mdb_nodes m).[idx].
Proof.
  intros Hwf Hi. destruct (wf_find m fs idx Hwf Hi) as (f & k & n & Hf & Hk & Hn & Hv & Hrep & Hnd & Hni).
  pose proof (mdb_wf_counters _ _ Hwf) as Hco. pose proof (co_length _ Hco) as Hl.
  destruct (node_range m idx n Hl Hn) as [Hr _].
  destruct (revoke_chain_spec k revoke_fuel m idx (mn_first_child n) Hco Hrep Hnd)
    as (m1 & Hm1 & Hco1 & Hout & Hin).
  { assert (length (flat k) <= Z.to_nat MAX_MDB_NODES)%nat; [|unfold revoke_fuel; lia].
    apply nodup_length; [done|]. intros i Hik. rewrite <- Hl. apply live_range.
    by eapply rep_live. }
  assert ((mdb_nodes m1).[idx] = Some n) as Hn1 by (rewrite Hout; done).
  exists f, k. unfold mdb_revoke, guard_ret. destruct (Z.leb_spec MAX_MDB_NODES idx); [lia|].
  rewrite Hn. cbn [mbind option_bind]. rewrite Hv. cbn [negb]. rewrite Hm1. cbn [mbind option_bind].
  rewrite Hn1. cbn [mbind option_bind]. apply arr_get_Some in Hn1 as Hi1.
  rewrite arr_set_in by apply Hi1. cbn [mbind option_bind].
  eexists. split_and!; [done|done|reflexivity|..]; cbn [modify_field mdb_nodes].
  2-4: intros; rewrite ?arr_get_insert by apply Hi1.
  2: { destruct (Z.eqb_spec i idx); [done|]. by apply Hout. }
  2: { destruct (Z.eqb_spec i idx) as [->|]; [done|]. by apply Hin. }
  2: { by rewrite Z.eqb_refl. }
  destruct (all_flat_set_kids fs f idx k Leaf (mw_nodup _ _ Hwf) Hf Hk) as (rest & Hir & Hp1 & Hp2).
  assert (counters_ok (m1 <| mdb_nodes := <[Z.to_nat idx := n <| mn_first_child := NIL |>]> (mdb_nodes m1) |>))
    as Hco2 by (by eapply counters_same).
  pose proof (mw_nodup _ _ Hwf) as Hnd0. rewrite Hp1 in Hnd0.
  apply list.NoDup_app in Hnd0 as (Hndr & Hdr & _).
  constructor; try apply Hco2; cbn [modify_field mdb_nodes].
  - apply (roots_set_kids (mdb_nodes m) _ fs f idx n NIL k Leaf); try done; try apply Hwf.
    + rewrite arr_get_insert, Z.eqb_refl by apply Hi1. done.
    + intros i Hia Hne Hik. rewrite arr_get_insert by apply Hi1.
      destruct (Z.eqb_spec i idx); [done|]. by apply Hout.
  - rewrite Hp2. cbn. by rewrite app_nil_r.
  - intros i. rewrite Hp2, live_insert by apply Hi1. cbn [flat]. rewrite app_nil_r.
    destruct (Z.eqb_spec i idx) as [->|Hne]; [by split|].
    assert (live (mdb_nodes m) i <-> i ∈ rest ++ flat k) as Hlv by (by rewrite (mw_live _ _ Hwf), Hp1).
    rewrite elem_of_app in Hlv.
    destruct (decide (i ∈ flat k)) as [Hik|Hik].
    + split; [|intros Hx; exfalso; by apply (Hdr i)].
      intros (x & Hx & Hxv). rewrite Hin in Hx by done.
      apply fmap_Some in Hx as (y & _ & ->). done.
    + unfold live in *. rewrite Hout by done. tauto.
Qed.

(** ** Insertion *)

Lemma first_free_spec l k : k <= first_free l k <= k + Z.of_nat (length l) /\
  (forall i n, l !! i = Some n -> k + Z.of_nat i < first_free l k -> mn_valid n = true) /\
  (first_free l k < k + Z.of_nat (length l) ->
     exists n, l !! Z.to_nat (first_free l k - k) = Some n /\ mn_valid n = false).
Proof.
  revert k. induction l as [|x l IH]; intros k; cbn [first_free length].
  { split_and!; [lia|lia| |lia]. intros i n H. by rewrite lookup_nil in H. }
  destruct (mn_valid x) eqn:E.
  - destruct (IH (k + 1)) as (H1 & H2 & H3). split_and!; [lia|lia| |].
    + intros [|i] n Hi Hlt; cbn in Hi; [by injection Hi as <-|]. apply (H2 i); [done|lia].
    + intros Hlt. destruct H3 as (n & Hn & Hv); [lia|]. exists n. split; [|done].
      replace (Z.to_nat (first_free l (k + 1) - k))
        with (S (Z.to_nat (first_free l (k + 1) - (k + 1)))) by lia. done.
  - split_and!; [lia|lia| |].
    + intros i n _ Hlt. lia.
    + intros _. exists x. by rewrite Z.sub_diag.
Qed.

(** The slot [mdb_insert] takes: the first dead node. *)
Definition free_slot (m : mdb_tree_t) : Z :=
  first_free (drop (Z.to_nat (mdb_free_head m)) (mdb_nodes m)) (mdb_free_head m).

Lemma free_slot_spec m : counters_ok m -> mdb_count m < MAX_MDB_NODES ->
  mdb_free_head m <= free_slot m < MAX_MDB_NODES /\
  (exists n, (mdb_nodes m).[free_slot m] = Some n /\ mn_valid n = false) /\
  forall i, 0 <= i < free_slot m -> live (mdb_nodes m) i.
Proof.
  intros [Hl Hc Hh Hb] Hlt. unfold free_slot. set (d := drop _ _).
  destruct (first_free_spec d (mdb_free_head m)) as (H1 & H2 & H3).
  assert (Z.of_nat (length d) = MAX_MDB_NODES - mdb_free_head m) as Hd.
  { subst d. rewrite length_drop, Hl. unfold MAX_MDB_NODES in *. lia. }
  assert (forall i, 0 <= i < first_free d (mdb_free_head m) -> live (mdb_nodes m) i) as Hall.
  { intros i Hi. destruct (Z.lt_ge_cases i (mdb_free_head m)); [apply Hb; lia|].
    destruct (lookup_lt_is_Some_2 d (Z.to_nat (i - mdb_free_head m))) as [n Hn]; [lia|].
    exists n. split; [|apply (H2 _ n Hn); lia]. subst d. rewrite lookup_drop in Hn.
    rewrite arr_get_lookup by lia. rewrite <- Hn. f_equal. lia. }
  assert (first_free d (mdb_free_head m) < MAX_MDB_NODES) as Hff.
  { destruct (Z.lt_ge_cases (first_free d (mdb_free_head m)) MAX_MDB_NODES); [done|exfalso].
    assert (count_if mn_valid (mdb_nodes m) = Z.of_nat (length (mdb_nodes m))) as E.
    { apply count_if_full, Forall_lookup_2. intros i n Hn.
      destruct (Hall (Z.of_nat i)) as (n' & Hn' & Hv).
      - apply lookup_lt_Some in Hn. rewrite Hl in Hn. lia.
      - rewrite arr_get_nat in Hn'. congruence. }
    rewrite Hl in E. unfold MAX_MDB_NODES in *. lia. }
  split_and!; [lia|lia| |done].
  destruct H3 as (n & Hn & Hv); [lia|]. exists n. split; [|done].
  subst d. rewrite lookup_drop in Hn. rewrite arr_get_lookup by lia. rewrite <- Hn. f_equal. lia.
Qed.

(** Storing a live node over the dead one at the free slot. *)
Lemma revive_counters m n' m' : counters_ok m -> mdb_count m < MAX_MDB_NODES ->
  mn_valid n' = true ->
  mdb_nodes m' = <[Z.to_nat (free_slot m) := n']> (mdb_nodes m) ->
  mdb_free_head m' = (if free_slot m =? mdb_free_head m then u32 (free_slot m + 1)
                      else mdb_free_head m) ->
  mdb_count m' = u32 (mdb_count m + 1) -> counters_ok m'.
Proof.
  intros Hco Hlt Hv' Hnodes Hhead Hcount.
  destruct (free_slot_spec m Hco Hlt) as (Hs & (n & Hn & Hv) & Hall). destruct Hco as [Hl Hc Hh Hb].
  apply arr_get_Some in Hn as [Hi Hn']. pose proof (count_fits m Hl).
  assert (mdb_free_head m' = if free_slot m =? mdb_free_head m then free_slot m + 1
          else mdb_free_head m) as Hhead'.
  { rewrite Hhead. destruct (_ =? _); [|done]. apply u32_small. unfold fits, MAX_MDB_NODES in *. lia. }
  constructor.
  - by rewrite Hnodes, length_insert.
  - rewrite Hnodes, (count_if_insert _ _ _ _ _ Hn'), Hv, Hv', Hcount, u32_small; [lia|].
    unfold fits, MAX_MDB_NODES in *. lia.
  - rewrite Hhead'. destruct (Z.eqb_spec (free_slot m) (mdb_free_head m)); lia.
  - intros j Hj. rewrite Hnodes. apply live_insert; [done|]. rewrite Hhead' in Hj.
    destruct (Z.eqb_spec j (free_slot m)); [done|]. apply Hall.
    destruct (Z.eqb_spec (free_slot m) (mdb_free_head m)); lia.
Qed.

Definition fresh_node (parent_idx cptr : Z) (cap : cap_t) (sib : Z) : mdb_node_t :=
  mk_mdb_node true cptr 0 0 parent_idx NIL sib cap true.

(** The database after inserting at [idx]: a new root, or a new first child. *)
Definition forest_insert (fs : list forest) (parent_idx idx : Z) : list forest :=
  if parent_idx =? NIL then Node idx Leaf Leaf :: fs
  else map (fun f => match kids_of parent_idx f with
                     | Some k => set_kids parent_idx (Node idx Leaf k) f
                     | None => f
                     end) fs.

Lemma forest_insert_child fs f parent idx k : NoDup (all_flat fs) -> f ∈ fs ->
  kids_of parent f = Some k -> parent <> NIL ->
  forest_insert fs parent idx = map (set_kids parent (Node idx Leaf k)) fs.
Proof.
  intros Hnd Hf Hk Hne. unfold forest_insert. rewrite (proj2 (Z.eqb_neq _ _) Hne).
  apply map_ext_in. intros g Hg%list_elem_of_In. destruct (kids_of parent g) as [k'|] eqn:E.
  - assert (g = f) as ->; [|congruence]. apply (tree_unique fs _ _ parent); try done;
      by eapply kids_of_mem.
  - rewrite set_kids_notin; [done|]. intros [? ?]%kids_of_Some. congruence.
Qed.

Lemma wf_insert_root m fs n' m' : mdb_wf m fs -> mdb_count m < MAX_MDB_NODES ->
  mn_valid n' = true -> mn_parent n' = NIL -> mn_first_child n' = NIL -> mn_next_sibling n' = NIL ->
  mdb_nodes m' = <[Z.to_nat (free_slot m) := n']> (mdb_nodes m) -> counters_ok m' ->
  mdb_wf m' (Node (free_slot m) Leaf Leaf :: fs).
Proof.
  intros Hwf Hlt Hv Hp Hfc Hns Hnodes Hco'. pose proof (mdb_wf_counters _ _ Hwf) as Hco.
  destruct (free_slot_spec m Hco Hlt) as (Hs & (n & Hn & Hnv) & _).
  apply arr_get_Some in Hn as Hi. destruct Hi as [Hi _].
  assert (free_slot m ∉ all_flat fs) as Hfresh.
  { rewrite <- (mw_live _ _ Hwf). intros (x & Hx & Hxv). congruence. }
  constructor; try apply Hco'; rewrite ?Hnodes.
  - constructor.
    + eexists _, _. split; [reflexivity|]. split; [done|]. exists n'.
      rewrite arr_get_insert, Z.eqb_refl by done. done.
    + eapply List.Forall_impl; [|apply (mw_roots _ _ Hwf)]. intros f Hf.
      pose proof Hf as (r & ks & -> & Hrep). exists r, ks. split; [done|].
      eapply rep_frame; [|exact Hrep]. intros i Hif. apply arr_get_insert_ne; [lia|]. intros E.
      apply Hfresh. rewrite <- (mw_live _ _ Hwf), E. by eapply rep_live.
  - cbn. apply list.NoDup_cons. split; [done|apply Hwf].
  - intros i. rewrite live_insert by done. cbn. rewrite elem_of_cons.
    pose proof (mw_live _ _ Hwf i). unfold all_flat in *.
    destruct (Z.eqb_spec i (free_slot m)); tauto.
Qed.

Lemma wf_insert_child m fs par p n' m' : mdb_wf m fs -> mdb_count m < MAX_MDB_NODES ->
  (mdb_nodes m).[par] = Some p -> mn_valid p = true ->
  mn_valid n' = true -> mn_parent n' = par -> mn_first_child n' = NIL ->
  mn_next_sibling n' = mn_first_child p ->
  mdb_nodes m' = <[Z.to_nat par := p <| mn_first_child := free_slot m |>]>
                   (<[Z.to_nat (free_slot m) := n']> (mdb_nodes m)) ->
  counters_ok m' -> mdb_wf m' (forest_insert fs par (free_slot m)).
Proof.
  intros Hwf Hlt Hpar Hpv Hv Hp Hfc Hns Hnodes Hco'. pose proof (mdb_wf_counters _ _ Hwf) as Hco.
  destruct (free_slot_spec m Hco Hlt) as (Hs & (n & Hn & Hnv) & _).
  assert (live (mdb_nodes m) par) as Hlp by (by exists p).
  destruct (wf_find m fs par Hwf Hlp) as (f & k & p0 & Hf & Hk & Hp0 & _ & Hrk & Hndk & Hpk).
  rewrite Hpar in Hp0. injection Hp0 as <-.
  apply arr_get_Some in Hn as Hi. destruct Hi as [Hi _].
  apply arr_get_Some in Hpar as Hip. destruct Hip as [Hip _].
  destruct (node_range m par p (mw_length _ _ Hwf) Hpar) as [_ Hnil].
  assert (free_slot m ∉ all_flat fs) as Hfresh.
  { rewrite <- (mw_live _ _ Hwf). intros (x & Hx & Hxv). congruence. }
  assert (free_slot m <> par) as Hne by congruence.
  assert (forall i, (mdb_nodes m').[i] = if i =? par then Some (p <| mn_first_child := free_slot m |>)
            else if i =? free_slot m then Some n' else (mdb_nodes m).[i]) as Hget.
  { intros i. rewrite Hnodes, arr_get_insert by (rewrite length_insert; done).
    destruct (i =? par); [done|]. by apply arr_get_insert. }
  rewrite (forest_insert_child fs f par (free_slot m) k) by (done || apply Hwf).
  destruct (all_flat_set_kids fs f par k (Node (free_slot m) Leaf k) (mw_nodup _ _ Hwf) Hf Hk)
    as (rest & Hir & Hp1 & Hp2).
  assert (all_flat (map (set_kids par (Node (free_slot m) Leaf k)) fs) ≡ₚ free_slot m :: all_flat fs)
    as Hperm by (rewrite Hp2, Hp1; cbn; solve_Permutation).
  assert (forall i, i ∈ flat k -> i ∈ all_flat fs) as Hksub
    by (intros i Hik; rewrite Hp1; set_solver).
  constructor; try apply Hco'.
  - apply (roots_set_kids (mdb_nodes m) _ fs f par p (free_slot m) k); try done; try apply Hwf.
    + by rewrite Hget, Z.eqb_refl.
    + cbn. split; [done|]. exists n'. rewrite Hget, Z.eqb_refl.
      destruct (Z.eqb_spec (free_slot m) par); [done|]. split_and!; [done..|]. rewrite Hns.
      eapply rep_frame; [|exact Hrk]. intros i Hik. rewrite Hget.
      destruct (Z.eqb_spec i par) as [->|]; [done|].
      destruct (Z.eqb_spec i (free_slot m)) as [->|]; [|done]. exfalso. auto.
    + intros i Hia Hip' _. rewrite Hget. destruct (Z.eqb_spec i par); [done|].
      destruct (Z.eqb_spec i (free_slot m)) as [->|]; [done|done].
  - rewrite Hperm. apply list.NoDup_cons. split; [done|apply Hwf].
  - intros i. rewrite Hperm, elem_of_cons, <- (mw_live _ _ Hwf). unfold live at 1. rewrite Hget.
    destruct (Z.eqb_spec i par) as [->|].
    + split; [auto|]. intros _. eexists. split; [reflexivity|done].
    + destruct (Z.eqb_spec i (free_slot m)) as [->|].
      * split; [auto|]. intros _. by exists n'.
      * unfold live. split; [auto|]. by intros [?|?].
Qed.

Lemma mdb_insert_full m parent cptr cap out : MAX_MDB_NODES <= mdb_count m ->
  mdb_insert (Some m) parent cptr cap (Some out) = Some (ERR_NO_MEM, Some m, Some out).
Proof. intros H. unfold mdb_insert, guard_ret. by destruct (Z.leb_spec MAX_MDB_NODES (mdb_count m)); [|lia]. Qed.

Lemma mdb_insert_spec m fs parent cptr cap out : mdb_wf m fs -> mdb_count m < MAX_MDB_NODES ->
  parent = NIL \/ live (mdb_nodes m) parent ->
  exists m' sib, mdb_insert (Some m) parent cptr cap (Some out) = Some (ERR_OK, Some m', Some (free_slot m)) /\
    mdb_wf m' (forest_insert fs parent (free_slot m)) /\
    (mdb_nodes m').[free_slot m] = Some (fresh_node parent cptr cap sib) /\
    forall i, i <> free_slot m -> i <> parent -> (mdb_nodes m').[i] = (mdb_nodes m).[i].
Proof.
  intros Hwf Hlt Hpar. pose proof (mdb_wf_counters _ _ Hwf) as Hco.
  destruct (free_slot_spec m Hco Hlt) as (Hs & (n & Hn & Hnv) & _).
  apply arr_get_Some in Hn as Hi. destruct Hi as [Hi _].
  unfold mdb_insert, guard_ret. fold (free_slot m).
  destruct (Z.leb_spec MAX_MDB_NODES (mdb_count m)); [lia|].
  destruct (Z.leb_spec MAX_MDB_NODES (free_slot m)); [lia|].
  rewrite arr_set_in by done. cbn [mbind option_bind].
  destruct Hpar as [->|Hlp].
  - rewrite Z.eqb_refl. cbn [negb andb mbind option_bind].
    eexists _, NIL. split; [reflexivity|]. split_and!.
    + unfold forest_insert. rewrite Z.eqb_refl.
      apply (wf_insert_root m fs (fresh_node NIL cptr cap NIL)); try done.
      * cbn. by destruct (_ =? _).
      * apply (revive_counters m (fresh_node NIL cptr cap NIL)); try done; cbn; by destruct (_ =? _).
    + cbn. destruct (_ =? _); cbn; by rewrite arr_get_insert, Z.eqb_refl.
    + intros i Hne _. cbn. destruct (_ =? _); cbn; by rewrite arr_get_insert_ne by lia.
  - pose proof Hlp as (p & Hp & Hpv). destruct (node_range m parent p (mw_length _ _ Hwf) Hp) as [Hpr Hnil].
    apply arr_get_Some in Hp as Hip. destruct Hip as [Hip _].
    rewrite (proj2 (Z.eqb_neq _ _) Hnil), (proj2 (Z.ltb_lt _ _) (proj2 Hpr)).
    cbn [negb andb mbind option_bind]. assert (free_slot m <> parent) as Hne by congruence.
    rewrite (arr_get_insert_ne _ (free_slot m) parent), Hp by lia. cbn [mbind option_bind]. rewrite Hpv.
    rewrite arr_get_insert_eq by done. cbn [mbind option_bind].
    rewrite arr_set_in by (rewrite length_insert; done). cbn [mbind option_bind].
    rewrite list_insert_insert_eq, (arr_get_insert_ne _ (free_slot m) parent), Hp by lia. cbn [mbind option_bind].
    rewrite arr_set_in by (rewrite length_insert; done). cbn [mbind option_bind].
    eexists _, (mn_first_child p). split; [reflexivity|]. split_and!.
    + eapply (wf_insert_child m fs parent p (fresh_node parent cptr cap (mn_first_child p))); try done.
      * cbn. by destruct (_ =? _).
      * set (m1 := m <| mdb_nodes := <[Z.to_nat (free_slot m) := fresh_node parent cptr cap (mn_first_child p)]> (mdb_nodes m) |>
          <| mdb_count ::= fun c => u32 (c + 1) |>
          <| mdb_free_head ::= fun h => if free_slot m =? h then u32 (free_slot m + 1) else h |>).
        assert (counters_ok m1) as Hco1
          by (by apply (revive_counters m (fresh_node parent cptr cap (mn_first_child p)))).
        assert ((mdb_nodes m1).[parent] = Some p) as Hp1 by (cbn; by rewrite arr_get_insert_ne by lia).
        assert (mn_valid (p <| mn_first_child := free_slot m |>) = mn_valid p) as Ev by done.
        pose proof (counters_same m1 parent p _ Hco1 Hp1 Ev) as Hco2.
        subst m1. apply (counters_ext _ _ Hco2); cbn; by destruct (free_slot m =? mdb_free_head m).
    + cbn. destruct (_ =? _); cbn; rewrite arr_get_insert_ne by lia; by rewrite arr_get_insert_eq.
    + intros i Hi1 Hi2. cbn. destruct (_ =? _); cbn; by rewrite !arr_get_insert_ne by lia.
Qed.

(** ** Deletion *)

Fixpoint tops (f : forest) : list Z :=
  match f with Leaf => [] | Node i _ ss => i :: tops ss end.

Fixpoint remove_top (i : Z) (f : forest) : forest :=
  match f with
  | Leaf => Leaf
  | Node j ks ss => if j =? i then ss else Node j ks (remove_top i ss)
  end.

Lemma tops_flat f i : i ∈ tops f -> i ∈ flat f.
Proof. induction f as [|j ks _ ss IH]; cbn; [done|]. set_solver. Qed.

Lemma tops_length f : (length (tops f) <= length (flat f))%nat.
Proof. induction f as [|j ks _ ss IH]; cbn; [done|]. rewrite length_app. lia. Qed.

Lemma flat_remove_top i f : NoDup (flat f) -> i ∈ tops f -> kids_of i f = Some Leaf ->
  flat f ≡ₚ i :: flat (remove_top i f).
Proof.
  induction f as [|j ks _ ss IH]; cbn; [set_solver|]. intros Hnd.
  destruct (nodup_node j ks ss Hnd) as (Hjk & Hjs & Hk & Hs & Hd).
  destruct (Z.eqb_spec j i) as [->|Hne]; [intros _ [= ->]; done|].
  intros [->|Hi]%elem_of_cons Hkids; [done|].
  rewrite kids_of_notin in Hkids by (intros Hx; apply (Hd i Hx); by apply tops_flat).
  cbn. rewrite (IH Hs Hi Hkids). solve_Permutation.
Qed.

(** Where the parent link of a node of the forest points. *)
Lemma rep_parent l f : forall p v j n, rep l p v f -> NoDup (flat f) -> j ∈ flat f ->
  l.[j] = Some n ->
  (mn_parent n = p /\ j ∈ tops f) \/ exists k, kids_of (mn_parent n) f = Some k /\ j ∈ tops k.
Proof.
  induction f as [|i ks IHk ss IHs]; intros p v j n Hrep Hnd Hj Hn; [cbn in Hj; set_solver|].
  destruct (nodup_node i ks ss Hnd) as (Hik & His & Hk & Hs & Hd).
  cbn in Hrep, Hj |- *. destruct Hrep as (_ & ni & Hni & _ & Hp & Hrk & Hrs).
  apply elem_of_cons in Hj as [->|[Hj|Hj]%elem_of_app].
  - rewrite Hni in Hn. injection Hn as <-. left. split; [done|]. left.
  - right. destruct (IHk i _ j n Hrk Hk Hj Hn) as [[Ei Ht]|(k & Hkk & Ht)].
    + rewrite Ei, Z.eqb_refl. by exists ks.
    + pose proof (kids_of_mem _ _ _ Hkk). destruct (Z.eqb_spec i (mn_parent n)) as [E|]; [congruence|].
      rewrite Hkk. by exists k.
  - destruct (IHs p _ j n Hrs Hs Hj Hn) as [[Ei Ht]|(k & Hkk & Ht)].
    + left. split; [done|]. by right.
    + right. pose proof (kids_of_mem _ _ _ Hkk) as Hm.
      destruct (Z.eqb_spec i (mn_parent n)) as [E|]; [congruence|].
      rewrite (kids_of_notin _ ks) by (intros Hx; by apply (Hd _ Hx)).
      by exists k.
Qed.

Definition ref_owner (r : link_ref) : Z := match r with FirstChild i | NextSibling i => i end.

Definition set_link (r : link_ref) (v : Z) (n : mdb_node_t) : mdb_node_t :=
  match r with
  | FirstChild _ => n <| mn_first_child := v |>
  | NextSibling _ => n <| mn_next_sibling := v |>
  end.

Definition get_link (r : link_ref) (n : mdb_node_t) : Z :=
  match r with FirstChild _ => mn_first_child n | NextSibling _ => mn_next_sibling n end.

Lemma read_link_get l r n : l.[ref_owner r] = Some n -> read_link l r = Some (get_link r n).
Proof. destruct r; cbn; intros ->; done. Qed.

Lemma write_link_set l r n v : l.[ref_owner r] = Some n ->
  write_link l r v = Some (<[Z.to_nat (ref_owner r) := set_link r v n]> l).
Proof.
  intros Hn. apply arr_get_Some in Hn as Hi. destruct Hi as [Hi _].
  destruct r; cbn in *; rewrite Hn; cbn; by rewrite arr_set_in.
Qed.

Lemma set_link_id r n : set_link r (get_link r n) n = n.
Proof. by destruct r, n. Qed.

Lemma map_insert_same {A B} (g : A -> B) (l : list A) i x y :
  l.[i] = Some y -> g x = g y -> map g (<[Z.to_nat i := x]> l) = map g l.
Proof.
  intros [_ Hi]%arr_get_Some Hg. change (g <$> <[Z.to_nat i := x]> l = g <$> l).
  rewrite list_fmap_insert, list_insert_id; [done|]. rewrite list_lookup_fmap, Hi, Hg. done.
Qed.

(** Everything of a node but its child and sibling links. *)
Definition core (n : mdb_node_t) : bool * Z * Z * Z * Z * cap_t * bool :=
  (mn_valid n, mn_cptr n, mn_cnode_id n, mn_slot n, mn_parent n, mn_cap n, mn_revocable n).

(** Unlinking a node from the child list that starts at [r]. *)
Lemma unlink_spec f : forall fuel l r n p idx,
  l.[ref_owner r] = Some n -> rep l p (get_link r n) f ->
  ref_owner r ∉ flat f -> NoDup (flat f) -> idx ∈ tops f -> (length (tops f) <= fuel)%nat ->
  (forall i, i ∈ flat f -> i <> NIL) ->
  exists l' v', unlink fuel l r idx = Some l' /\
    l'.[ref_owner r] = Some (set_link r v' n) /\ rep l' p v' (remove_top idx f) /\
    (forall i, i <> ref_owner r -> i ∉ flat f -> l'.[i] = l.[i]) /\
    map core l' = map core l.
Proof.
  induction f as [|j ks _ ss IH]; intros fuel l r n p idx Hn Hrep Hown Hnd Hidx Hfuel Hnil;
    [cbn in Hidx; set_solver|].
  destruct (nodup_node j ks ss Hnd) as (Hjk & Hjs & Hk & Hs & Hd).
  destruct fuel as [|fuel]; [cbn in Hfuel; lia|]. cbn [flat] in Hown, Hnil.
  cbn in Hrep. destruct Hrep as (Hv & nj & Hnj & Hvj & Hpj & Hrk & Hrs).
  cbn [unlink]. rewrite (read_link_get l r n Hn). cbn [mbind option_bind]. rewrite Hv.
  rewrite (proj2 (Z.eqb_neq j NIL)) by (apply Hnil; left). cbn [remove_top].
  apply arr_get_Some in Hn as Hi. destruct Hi as [Hi _].
  destruct (Z.eqb_spec j idx) as [<-|Hne].
  - rewrite Hnj. cbn [mbind option_bind]. rewrite (write_link_set l r n _ Hn).
    eexists _, _. split; [reflexivity|]. split_and!.
    + by rewrite arr_get_insert_eq.
    + eapply rep_frame; [|exact Hrs]. intros i Hi'. apply arr_get_insert_ne; [lia|]. set_solver.
    + intros i Hi1 _. apply arr_get_insert_ne; [lia|done].
    + eapply map_insert_same; [exact Hn|]. by destruct r.
  - cbn [tops] in Hidx, Hfuel. apply elem_of_cons in Hidx as [->|Hidx]; [done|].
    destruct (IH fuel l (NextSibling j) nj p idx) as (l' & v' & -> & Hj' & Hrep' & Hfr & Hval);
      try done; [cbn in Hfuel; lia|intros i Hi'; apply Hnil; set_solver|].
    cbn [ref_owner set_link] in *.
    exists l', j. split_and!; [done| | | |done].
    + rewrite Hfr by set_solver. by rewrite <- Hv, set_link_id.
    + cbn. split; [done|]. eexists. split; [exact Hj'|]. split_and!; try done.
      eapply rep_frame; [|exact Hrk]. intros i Hi'. apply Hfr; set_solver.
    + intros i Hi1 Hi2. cbn in Hi2. apply Hfr; set_solver.
Qed.

Lemma core_live l l' i : map core l' = map core l -> live l' i -> live l i.
Proof.
  intros E (n & Hn & Hv). assert ((map core l').[i] = Some (core n)) as H.
  { unfold arr_get in *. destruct (0 <=? i); [|done]. by rewrite list_lookup_fmap, Hn. }
  rewrite E in H. unfold arr_get in H. destruct (0 <=? i) eqn:Ei; [|done].
  rewrite list_lookup_fmap in H. apply fmap_Some in H as (n' & Hn' & Hc).
  exists n'. split; [by unfold arr_get; rewrite Ei|]. injection Hc. congruence.
Qed.

Lemma core_counters m l : counters_ok m -> map core l = map core (mdb_nodes m) ->
  counters_ok (m <| mdb_nodes := l |>).
Proof.
  intros [Hl Hc Hh Hb] E. assert (length l = length (mdb_nodes m)) as El
    by (rewrite <- (length_map core l), E; apply length_map).
  constructor; cbn; [by rewrite El| |done|].
  - rewrite Hc. revert E El. generalize (mdb_nodes m). clear.
    induction l as [|x l IH]; intros [|y l'] E El; try done. injection E as E1 _ _ _ _ _ _ E2.
    rewrite !count_if_cons. injection El as El. rewrite (IH l' E2 El), E1. done.
  - intros i Hi. eapply core_live; [symmetry; exact E|]. by apply Hb.
Qed.

Lemma rep_nil_leaf m p f : length (mdb_nodes m) = Z.to_nat MAX_MDB_NODES ->
  rep (mdb_nodes m) p NIL f -> f = Leaf.
Proof.
  intros Hl. destruct f as [|i ks ss]; [done|]. cbn. intros (E & n & Hn & _).
  apply (node_range m i n Hl) in Hn. by destruct Hn as [_ ?].
Qed.

Definition empty_node : mdb_node_t :=
  mdb_node_zero <| mn_parent := NIL |> <| mn_first_child := NIL |> <| mn_next_sibling := NIL |>.

(** Deleting a childless root. *)
Lemma wf_delete_root m fs idx n m' : mdb_wf m fs -> (mdb_nodes m).[idx] = Some n ->
  mn_valid n = true -> mn_first_child n = NIL -> mn_parent n = NIL ->
  mdb_nodes m' = <[Z.to_nat idx := empty_node]> (mdb_nodes m) -> counters_ok m' ->
  exists fs', mdb_wf m' fs' /\ all_flat fs ≡ₚ idx :: all_flat fs'.
Proof.
  intros Hwf Hn Hv Hfc Hp Hnodes Hco'. assert (live (mdb_nodes m) idx) as Hlv by (by exists n).
  destruct (wf_find m fs idx Hwf Hlv) as (f & k & n0 & Hf & Hk & Hn0 & _ & Hrk & _ & _).
  rewrite Hn in Hn0. injection Hn0 as <-. rewrite Hfc in Hrk.
  apply (rep_nil_leaf m) in Hrk as ->; [|apply Hwf].
  pose proof (proj1 (list.Forall_forall _ _) (mw_roots _ _ Hwf) f Hf) as (r & ks & Ef & Hrep).
  pose proof (tree_nodup _ _ (mw_nodup _ _ Hwf) Hf) as Hnd.
  apply arr_get_Some in Hn as Hi. destruct Hi as [Hi _].
  assert (f = Node idx Leaf Leaf) as E.
  { destruct (rep_parent _ _ _ _ idx n Hrep Hnd (kids_of_mem _ _ _ Hk) Hn) as [[_ Ht]|(k & Hkk & _)].
    - subst f. cbn in Ht. apply list_elem_of_singleton in Ht as <-. cbn in Hk.
      rewrite Z.eqb_refl in Hk. by injection Hk as ->.
    - exfalso. rewrite Hp in Hkk. apply kids_of_mem in Hkk.
      destruct (rep_live _ _ _ _ Hrep NIL Hkk) as (x & Hx & _).
      apply (node_range m _ _ (mw_length _ _ Hwf)) in Hx. by destruct Hx. }
  clear Ef Hrep. subst f. apply list_elem_of_split in Hf as (fs1 & fs2 & ->).
  assert (all_flat (fs1 ++ Node idx Leaf Leaf :: fs2) ≡ₚ idx :: all_flat (fs1 ++ fs2)) as Hperm.
  { unfold all_flat. rewrite !map_app, !concat_app. cbn. solve_Permutation. }
  pose proof (mw_nodup _ _ Hwf) as Hnd'. rewrite Hperm in Hnd'. apply list.NoDup_cons in Hnd' as [Hni Hnd'].
  assert (forall i, live (mdb_nodes m') i <-> i ∈ all_flat (fs1 ++ fs2)) as Hlive.
  { intros i. rewrite Hnodes, live_insert by done.
    pose proof (mw_live _ _ Hwf i) as Hl. rewrite Hperm, elem_of_cons in Hl.
    destruct (Z.eqb_spec i idx) as [->|]; [by split|]. tauto. }
  exists (fs1 ++ fs2). split; [|done]. constructor; try apply Hco'; try done.
  apply list.Forall_forall. intros g Hg.
  assert (root_ok (mdb_nodes m) g) as (r' & ks' & -> & Hrep).
  { apply (proj1 (list.Forall_forall _ _) (mw_roots _ _ Hwf)). set_solver. }
  exists r', ks'. split; [done|]. eapply rep_frame; [|exact Hrep]. intros i Hig.
  rewrite Hnodes. apply arr_get_insert_ne; [lia|]. intros <-. apply Hni, all_flat_in. eauto.
Qed.

(** A node without children has an empty subtree. *)
Lemma childless_leaf m p v k idx n : length (mdb_nodes m) = Z.to_nat MAX_MDB_NODES -> rep (mdb_nodes m) p v k ->
  idx ∈ flat k -> (mdb_nodes m).[idx] = Some n -> mn_first_child n = NIL -> kids_of idx k = Some Leaf.
Proof.
  intros Hlen Hrk Hin Hn Hfc. destruct (kids_of_Some idx k Hin) as [k1 Hk1].
  destruct (rep_kids _ _ _ _ _ _ Hrk Hk1) as (x & Hx & _ & Hrx). rewrite Hn in Hx.
  injection Hx as <-. rewrite Hfc in Hrx. by apply (rep_nil_leaf m) in Hrx as ->.
Qed.

(** A tree of live nodes is no larger than the table. *)
Lemma live_bound m k : length (mdb_nodes m) = Z.to_nat MAX_MDB_NODES -> NoDup (flat k) ->
  (forall i, i ∈ flat k -> live (mdb_nodes m) i) -> (length (flat k) <= Z.to_nat MAX_MDB_NODES)%nat.
Proof. intros Hlen Hnd Hl. apply nodup_length; [done|]. intros i Hi. rewrite <- Hlen. by apply live_range, Hl. Qed.

(** Deleting a childless child. *)
Lemma wf_delete_child m fs idx n : mdb_wf m fs -> (mdb_nodes m).[idx] = Some n ->
  mn_valid n = true -> mn_first_child n = NIL -> mn_parent n <> NIL ->
  exists l, unlink (Z.to_nat MAX_MDB_NODES + 1) (mdb_nodes m) (FirstChild (mn_parent n)) idx = Some l /\
    map core l = map core (mdb_nodes m) /\
    forall m', mdb_nodes m' = <[Z.to_nat idx := empty_node]> l -> counters_ok m' ->
    exists fs', mdb_wf m' fs' /\ all_flat fs ≡ₚ idx :: all_flat fs'.
Proof.
  intros Hwf Hn Hv Hfc Hp. assert (live (mdb_nodes m) idx) as Hlv by (by exists n).
  destruct (wf_find m fs idx Hwf Hlv) as (f & k0 & n0 & Hf & Hk0 & Hn0 & _ & Hrk0 & _ & _).
  rewrite Hn in Hn0. injection Hn0 as <-. rewrite Hfc in Hrk0.
  apply (rep_nil_leaf m) in Hrk0 as ->; [|apply Hwf].
  pose proof (proj1 (list.Forall_forall _ _) (mw_roots _ _ Hwf) f Hf) as (r & ks & Ef & Hrep).
  pose proof (tree_nodup _ _ (mw_nodup _ _ Hwf) Hf) as Hnd.
  destruct (rep_parent _ _ _ _ idx n Hrep Hnd (kids_of_mem _ _ _ Hk0) Hn) as [[? _]|(k & Hk & Ht)]; [done|].
  set (par := mn_parent n) in *.
  destruct (rep_kids _ _ _ _ _ _ Hrep Hk) as (np & Hnp & Hvp & Hrk).
  destruct (flat_set_kids par f k Leaf Hnd Hk) as (rest & Hir & Hp1 & _).
  rewrite Hp1 in Hnd. apply list.NoDup_app in Hnd as (_ & Hd & Hndk).
  assert (forall i, i ∈ flat k -> live (mdb_nodes m) i) as Hlk by (by eapply rep_live).
  destruct (unlink_spec k (Z.to_nat MAX_MDB_NODES + 1) (mdb_nodes m) (FirstChild par) np par idx)
    as (l & v' & Hl & Hpar' & Hrep' & Hfr & Hcore); try done; [by apply Hd| | |].
  { pose proof (tops_length k). pose proof (live_bound m k (mw_length _ _ Hwf) Hndk Hlk). lia. }
  { intros i Hik. destruct (Hlk i Hik) as (x & Hx & _).
    by apply (node_range m _ _ (mw_length _ _ Hwf)) in Hx as [_ ?]. }
  exists l. split_and!; [done..|]. cbn [ref_owner set_link] in *. intros m' Hnodes Hco'.
  pose proof (childless_leaf m _ _ _ idx n (mw_length _ _ Hwf) Hrk (tops_flat _ _ Ht) Hn Hfc) as Hkk.
  pose proof (flat_remove_top idx k Hndk Ht Hkk) as Hprem.
  assert (idx ∉ flat (remove_top idx k)) as Hnidx.
  { rewrite Hprem in Hndk. by apply list.NoDup_cons in Hndk as [? _]. }
  assert (length l = length (mdb_nodes m)) as Hlen
    by (rewrite <- (length_map core l), Hcore; apply length_map).
  apply arr_get_Some in Hn as Hi. destruct Hi as [Hi _]. rewrite <- Hlen in Hi.
  assert (par <> idx) as Hpi by (intros E; apply (Hd par Hir); rewrite E; by apply tops_flat).
  destruct (all_flat_set_kids fs f par k (remove_top idx k) (mw_nodup _ _ Hwf) Hf Hk)
    as (rest2 & _ & Hq1 & Hq2).
  assert (all_flat fs ≡ₚ idx :: all_flat (map (set_kids par (remove_top idx k)) fs)) as Hperm
    by (rewrite Hq1, Hq2, Hprem; solve_Permutation).
  exists (map (set_kids par (remove_top idx k)) fs). split; [|done].
  pose proof (mw_nodup _ _ Hwf) as Hnd'. rewrite Hperm in Hnd'. apply list.NoDup_cons in Hnd' as [Hni Hnd'].
  constructor; try apply Hco'; try done.
  - apply (roots_set_kids (mdb_nodes m) _ fs f par np v' k); try done; try apply Hwf.
    + rewrite Hnodes, arr_get_insert_ne by lia. done.
    + eapply rep_frame; [|exact Hrep']. intros i Hik. rewrite Hnodes.
      apply arr_get_insert_ne; [lia|]. by intros <-.
    + intros i Hia Hip Hik. rewrite Hnodes, arr_get_insert_ne; [by apply Hfr|lia|].
      intros <-. apply Hik. by apply tops_flat.
  - intros i. rewrite Hnodes, live_insert by done.
    pose proof (mw_live _ _ Hwf i) as Hl'. rewrite Hperm, elem_of_cons in Hl'.
    assert (live l i <-> live (mdb_nodes m) i) as Hc by (split; by apply core_live).
    destruct (Z.eqb_spec i idx) as [->|]; [by split|]. tauto.
Qed.

Lemma core_get l l' i : map core l' = map core l -> core <$> l'.[i] = core <$> l.[i].
Proof.
  intros E. unfold arr_get. destruct (0 <=? i); [|done].
  rewrite <- !list_lookup_fmap. change (core <$> l') with (map core l'). by rewrite E.
Qed.

Lemma mdb_delete_spec m fs idx n : mdb_wf m fs -> (mdb_nodes m).[idx] = Some n ->
  mn_valid n = true -> mn_first_child n = NIL ->
  exists m' fs', mdb_delete (Some m) idx = Some (ERR_OK, Some m') /\ mdb_wf m' fs' /\
    all_flat fs ≡ₚ idx :: all_flat fs' /\
    forall i, i <> idx -> core <$> (mdb_nodes m').[i] = core <$> (mdb_nodes m).[i].
Proof.
  intros Hwf Hn Hv Hfc. pose proof (mdb_wf_counters _ _ Hwf) as Hco.
  destruct (node_range m idx n (mw_length _ _ Hwf) Hn) as [Hr _].
  assert (exists l, (if negb (mn_parent n =? NIL)
            then unlink (Z.to_nat MAX_MDB_NODES + 1) (mdb_nodes m) (FirstChild (mn_parent n)) idx
            else Some (mdb_nodes m)) = Some l /\ map core l = map core (mdb_nodes m) /\
          forall m', mdb_nodes m' = <[Z.to_nat idx := empty_node]> l -> counters_ok m' ->
          exists fs', mdb_wf m' fs' /\ all_flat fs ≡ₚ idx :: all_flat fs') as (l & Hl & Hcore & Hwf').
  { destruct (Z.eqb_spec (mn_parent n) NIL) as [E|E]; cbn [negb].
    - exists (mdb_nodes m). split_and!; [done..|]. intros m' Hm' Hco'. by eapply wf_delete_root.
    - by apply wf_delete_child. }
  assert (length l = length (mdb_nodes m)) as Hlen
    by (rewrite <- (length_map core l), Hcore; apply length_map).
  apply arr_get_Some in Hn as Hi. destruct Hi as [Hi _].
  assert (exists n1, l.[idx] = Some n1 /\ mn_valid n1 = true) as (n1 & Hn1 & Hv1).
  { eapply core_live; [symmetry; exact Hcore|]. by exists n. }
  unfold mdb_delete, guard_ret. destruct (Z.leb_spec MAX_MDB_NODES idx); [lia|].
  rewrite Hn. cbn [mbind option_bind]. rewrite Hv, Hfc. cbn [negb]. rewrite Z.eqb_refl. cbn [negb].
  cbn zeta. rewrite Hl. cbn [mbind option_bind]. rewrite arr_set_in by lia. cbn [mbind option_bind].
  match goal with |- context [Some (ERR_OK, Some ?x)] => set (m' := x) end.
  assert (mdb_nodes m' = <[Z.to_nat idx := empty_node]> l) as Hm'
    by (subst m'; cbn; by destruct (idx <? mdb_free_head m)).
  destruct (Hwf' m' Hm') as (fs' & Hfs' & Hperm).
  { apply (kill_counters (m <| mdb_nodes := l |>) idx n1 empty_node); try done.
    - by apply core_counters.
    - subst m'. cbn. by destruct (idx <? mdb_free_head m).
    - subst m'. cbn. by destruct (idx <? mdb_free_head m). }
  exists m', fs'. split_and!; [done..|]. intros i Hne. rewrite Hm', arr_get_insert_ne by lia.
  by apply core_get.
Qed.

(** ** Descendants *)

Lemma descends_trans l a b c : descends l a b -> descends l b c -> descends l a c.
Proof.
  intros Hab Hbc. induction Hbc as [c n Hn Hv Hp|c n Hn Hv _ IH].
  - eapply desc_step; [done..|]. by rewrite Hp.
  - by eapply desc_step.
Qed.

Lemma rep_descends l f : forall p v j, rep l p v f -> j ∈ flat f -> descends l p j.
Proof.
  induction f as [|i ks IHk ss IHs]; intros p v j; cbn; [set_solver|].
  intros (_ & n & Hn & Hv & Hp & Hk & Hs) [->|[Hj|Hj]%elem_of_app]%elem_of_cons.
  - by eapply desc_child.
  - eapply descends_trans; [by eapply desc_child|]. by eapply IHk.
  - by eapply IHs.
Qed.

Lemma kids_nested f a b ka kb : NoDup (flat f) -> kids_of a f = Some ka -> b ∈ flat ka ->
  kids_of b f = Some kb -> forall j, j ∈ flat kb -> j ∈ flat ka.
Proof.
  intros Hnd Ha Hb Hkb. assert (kids_of b ka = Some kb) as H; [|by apply kids_of_in in H as [_ ?]].
  revert Hnd Ha Hb Hkb. induction f as [|i ks IHk ss IHs]; intros Hnd Ha Hb Hkb; [done|].
  destruct (nodup_node i ks ss Hnd) as (Hik & His & Hk & Hs & Hd). cbn in Ha, Hkb.
  destruct (Z.eqb_spec i a) as [Ei|Ei].
  - injection Ha as ->. destruct (Z.eqb_spec i b) as [Eb|]; [congruence|].
    destruct (kids_of_Some b ka Hb) as [x Hx]. rewrite Hx in *. done.
  - destruct (kids_of a ks) as [k0|] eqn:E.
    + injection Ha as ->. apply kids_of_in in E as [_ Hsub].
      destruct (Z.eqb_spec i b) as [Eb|]; [specialize (Hsub b Hb); congruence|].
      destruct (kids_of_Some b ks (Hsub b Hb)) as [x Hx]. rewrite Hx in Hkb. injection Hkb as ->. auto.
    + pose proof Ha as Ha'. apply kids_of_in in Ha' as [_ Hsub].
      destruct (Z.eqb_spec i b) as [Eb|]; [specialize (Hsub b Hb); congruence|].
      rewrite (kids_of_notin b ks) in Hkb by (intros Hx; by apply (Hd b Hx), Hsub). auto.
Qed.

(** The descendants of a live node are exactly the nodes below it in its tree. *)
Lemma descends_iff m fs a f k j : mdb_wf m fs -> f ∈ fs -> kids_of a f = Some k ->
  descends (mdb_nodes m) a j <-> j ∈ flat k.
Proof.
  intros Hwf Hf Hk.
  pose proof (proj1 (list.Forall_forall _ _) (mw_roots _ _ Hwf) f Hf) as (r & ks & Ef & Hrep).
  destruct (rep_kids _ _ _ _ _ _ Hrep Hk) as (n & Hn & Hv & Hrk).
  assert (a <> NIL) as Hnil by (by apply (node_range m a n (mw_length _ _ Hwf)) in Hn as [_ ?]).
  assert (forall j nj, (mdb_nodes m).[j] = Some nj -> mn_valid nj = true -> mn_parent nj ∈ flat f ->
    exists kp, kids_of (mn_parent nj) f = Some kp /\ j ∈ flat kp) as Hpar.
  { clear j. intros j nj Hj Hvj Hpf. assert (live (mdb_nodes m) j) as Hlj by (by exists nj).
    apply (mw_live _ _ Hwf), all_flat_in in Hlj as (g & Hg & Hjg).
    pose proof (proj1 (list.Forall_forall _ _) (mw_roots _ _ Hwf) g Hg) as (r' & ks' & Eg & Hrepg).
    pose proof (tree_nodup _ _ (mw_nodup _ _ Hwf) Hg) as Hndg.
    destruct (rep_parent _ _ _ _ j nj Hrepg Hndg Hjg Hj) as [[Hp _]|(kp & Hkp & Ht)].
    - rewrite Hp in Hpf. destruct (rep_live _ _ _ _ Hrep NIL Hpf) as (x & Hx & _).
      by apply (node_range m _ _ (mw_length _ _ Hwf)) in Hx as [_ ?].
    - rewrite (tree_unique fs f g (mn_parent nj)); try done; [|apply Hwf|by eapply kids_of_mem].
      exists kp. split; [done|]. by apply tops_flat. }
  split.
  - intros Hd. induction Hd as [j nj Hj Hvj Hp|j nj Hj Hvj _ IH].
    + destruct (Hpar j nj Hj Hvj) as (kp & Hkp & Hjk); [rewrite Hp; by eapply kids_of_mem|].
      rewrite Hp, Hk in Hkp. by injection Hkp as <-.
    + destruct (Hpar j nj Hj Hvj) as (kp & Hkp & Hjk); [by eapply kids_of_in|].
      eapply (kids_nested f a (mn_parent nj)); try done. by apply (tree_nodup fs f); [apply Hwf|].
  - intros Hj. by eapply rep_descends.
Qed.

(** [up l j d p]: [d] parent links lead from [j] to [p] through live nodes. *)
Inductive up (l : list mdb_node_t) : Z -> nat -> Z -> Prop :=
| up_here p : up l p 0 p
| up_step j n d p : l.[j] = Some n -> mn_valid n = true -> up l (mn_parent n) d p -> up l j (S d) p.

Lemma up_snoc l j d i n : up l j d i -> l.[i] = Some n -> mn_valid n = true ->
  up l j (S d) (mn_parent n).
Proof.
  intros H Hn Hv. induction H as [i|j nj d i Hj Hvj _ IH].
  - by eapply up_step; [..|constructor].
  - eapply up_step; [done..|]. by apply IH.
Qed.

Lemma rep_up l f : forall p v j, rep l p v f -> j ∈ flat f ->
  exists d, (d <= length (flat f))%nat /\ up l j d p.
Proof.
  induction f as [|i ks IHk ss IHs]; intros p v j; cbn; [set_solver|].
  intros (_ & n & Hn & Hv & Hp & Hk & Hs) [->|[Hj|Hj]%elem_of_app]%elem_of_cons.
  - exists 1%nat. split; [lia|]. eapply up_step; [done..|]. rewrite Hp. constructor.
  - destruct (IHk i _ j Hk Hj) as (d & Hd & Hup). exists (S d). rewrite length_app. split; [lia|].
    rewrite <- Hp. by eapply up_snoc.
  - destruct (IHs p _ j Hs Hj) as (d & Hd & Hup). exists d. rewrite length_app. split; [lia|done].
Qed.

Lemma descendant_loop_spec m a j d fuel : length (mdb_nodes m) = Z.to_nat MAX_MDB_NODES ->
  a <> NIL -> up (mdb_nodes m) j d NIL -> (d < fuel)%nat ->
  exists b, descendant_loop fuel (mdb_nodes m) a j = Some b /\
    (b = true <-> j = a \/ descends (mdb_nodes m) a j).
Proof.
  intros Hl Ha Hup. revert fuel. remember NIL as p eqn:Ep.
  induction Hup as [p|j n d p Hn Hv Hup IH]; intros [|fuel] Hf; try lia; cbn [descendant_loop].
  - subst p. rewrite Z.eqb_refl. exists false. split; [done|]. split; [done|].
    intros [?|H]; [congruence|]. exfalso. inversion H as [? n Hn|? n Hn]; subst;
      by apply (node_range m _ _ Hl) in Hn as [_ ?].
  - destruct (node_range m j n Hl Hn) as [Hr Hnil]. subst p.
    rewrite (proj2 (Z.eqb_neq _ _) Hnil), (proj2 (Z.ltb_lt _ _) (proj2 Hr)). cbn [negb andb].
    destruct (Z.eqb_spec j a) as [->|Hne]; [exists true; split; [done|]; by split; [left|]|].
    rewrite Hn. cbn [mbind option_bind]. destruct (IH eq_refl Ha fuel) as (b & -> & Hb); [lia|].
    exists b. split; [done|]. rewrite Hb. split.
    + intros [E|Hd]; right; [by eapply desc_child|by eapply desc_step].
    + intros [?|Hd]; [done|]. inversion Hd as [? n' Hn' _ Hp'|? n' Hn' _ Hd']; subst;
        rewrite Hn in Hn'; injection Hn' as <-; auto.
Qed.

(** ** Histories *)

(** One call on the database; a node is inserted at the root or under a live node. *)
Inductive mdb_step (m m' : mdb_tree_t) : Prop :=
| step_insert parent cptr cap e out out' : parent = NIL \/ live (mdb_nodes m) parent ->
    mdb_insert (Some m) parent cptr cap (Some out) = Some (e, Some m', Some out') -> mdb_step m m'
| step_revoke idx e : 0 <= idx -> mdb_revoke (Some m) idx = Some (e, Some m') -> mdb_step m m'
| step_delete idx e : 0 <= idx -> mdb_delete (Some m) idx = Some (e, Some m') -> mdb_step m m'.

Lemma mdb_init_wf : mdb_wf mdb_init [].
Proof.
  assert (forall i, ~ live (mdb_nodes mdb_init) i) as Hdead.
  { intros i (n & Hn & Hv). apply arr_get_replicate in Hn as ->. done. }
  constructor; try done.
  - intros i Hi. cbn in Hi. lia.
  - constructor.
  - intros i. split; [intros H; by destruct (Hdead i)|]. intros H. cbn in H. set_solver.
Qed.

Lemma dead_or_live m idx : length (mdb_nodes m) = Z.to_nat MAX_MDB_NODES -> 0 <= idx ->
  MAX_MDB_NODES <= idx \/
  exists n, (mdb_nodes m).[idx] = Some n /\ idx < MAX_MDB_NODES /\
    (live (mdb_nodes m) idx <-> mn_valid n = true).
Proof.
  intros Hl Hi. destruct (Z.lt_ge_cases idx MAX_MDB_NODES); [right|by left].
  destruct (arr_get_is_Some (mdb_nodes m) idx) as [n Hn]; [unfold MAX_MDB_NODES in *; lia|].
  exists n. split_and!; [done..|]. unfold live. rewrite Hn. split; [by intros (? & [= <-] & ?)|by exists n].
Qed.

Lemma mdb_revoke_cases m idx : mdb_inv m -> 0 <= idx ->
  exists e m', mdb_revoke (Some m) idx = Some (e, Some m') /\ mdb_inv m' /\
    (e = ERR_OK <-> live (mdb_nodes m) idx) /\ (e <> ERR_OK -> m' = m).
Proof.
  intros [fs Hwf] Hi. destruct (dead_or_live m idx (mw_length _ _ Hwf) Hi) as [Hge|(n & Hn & Hlt & Hlv)].
  - exists ERR_INVALID_ARG, m. unfold mdb_revoke, guard_ret. rewrite (proj2 (Z.leb_le _ _) Hge).
    split_and!; [done|by exists fs| |done]. split; [done|]. intros H%live_range.
    rewrite (mw_length _ _ Hwf) in H. unfold MAX_MDB_NODES in *. lia.
  - destruct (mn_valid n) eqn:Ev.
    + assert (live (mdb_nodes m) idx) as Hl by (by apply Hlv).
      destruct (mdb_revoke_spec m fs idx Hwf Hl) as (f & k & m' & _ & _ & H & Hwf' & _).
      exists ERR_OK, m'. split_and!; [done|by eexists|by split|done].
    + exists ERR_INVALID_CAP, m. unfold mdb_revoke, guard_ret. rewrite (proj2 (Z.leb_gt _ _) Hlt), Hn.
      cbn. rewrite Ev. cbn. split_and!; [done|by exists fs| |done]. rewrite Hlv. done.
Qed.

(** Revocation on every branch. *)
Lemma mdb_revoke_full m idx :
  mdb_inv m -> 0 <= idx ->
  exists e m', mdb_revoke (Some m) idx = Some (e, Some m') /\ mdb_inv m' /\
    (e = ERR_OK <-> live (mdb_nodes m) idx) /\ (e <> ERR_OK -> m' = m) /\
    (e = ERR_OK -> forall j,
       (live (mdb_nodes m') j <-> live (mdb_nodes m) j /\ ~ descends (mdb_nodes m) idx j) /\
       (descends (mdb_nodes m) idx j -> exists n, (mdb_nodes m').[j] = Some n /\ mn_cap n = cap_zero) /\
       (~ descends (mdb_nodes m) idx j -> j <> idx -> (mdb_nodes m').[j] = (mdb_nodes m).[j])).
Proof.
  intros Hinv Hi. destruct (mdb_revoke_cases m idx Hinv Hi) as (e & m' & H & Hinv' & He & Herr).
  exists e, m'. split_and!; try done; [apply He..|]. intros -> j.
  assert (live (mdb_nodes m) idx) as Hlv by (by apply He). destruct Hinv as [fs Hwf].
  destruct (mdb_revoke_spec m fs idx Hwf Hlv) as (f & k & m1 & Hf & Hk & H1 & _ & Hout & Hin & Hself).
  rewrite H in H1. injection H1 as <-.
  pose proof (descends_iff m fs idx f k j Hwf Hf Hk) as Hd. rewrite !Hd.
  assert (idx ∉ flat k) as Hni.
  { destruct (wf_find m fs idx Hwf Hlv) as (f' & k' & _ & Hf' & Hk' & _ & _ & _ & _ & Hn).
    rewrite (tree_unique fs f' f idx) in Hk'; try done; [congruence|apply Hwf|by eapply kids_of_mem..]. }
  split_and!.
  - destruct (decide (j ∈ flat k)) as [Hjk|Hjk].
    + split; [|by intros [_ ?]]. intros (n & Hn & Hv). rewrite Hin in Hn by done.
      by apply fmap_Some in Hn as (y & _ & ->).
    + unfold live. destruct (decide (j = idx)) as [->|Hne]; [|rewrite Hout by done; tauto].
      split; [done|]. intros [(n & Hn & Hv) _]. rewrite Hself, Hn. by eexists.
  - intros Hjk. destruct (proj2 Hd Hjk) as [? n Hn _ _|? n Hn _ _]; exists (dead n);
      rewrite Hin, Hn by done; done.
  - intros Hjk Hne. by apply Hout.
Qed.

(** Insertion on every branch. *)
Lemma mdb_insert_cases m parent cptr cap out :
  mdb_inv m -> parent = NIL \/ live (mdb_nodes m) parent ->
  exists e m' idx, mdb_insert (Some m) parent cptr cap (Some out) = Some (e, Some m', Some idx) /\
    mdb_inv m' /\
    (e = ERR_OK <-> count_if mn_valid (mdb_nodes m) < MAX_MDB_NODES) /\
    (e <> ERR_OK -> e = ERR_NO_MEM /\ m' = m) /\
    (e = ERR_OK ->
       ~ live (mdb_nodes m) idx /\ (forall i, 0 <= i < idx -> live (mdb_nodes m) i) /\
       (forall j, live (mdb_nodes m') j <-> j = idx \/ live (mdb_nodes m) j) /\
       exists n, (mdb_nodes m').[idx] = Some n /\ mn_cap n = cap /\ mn_cptr n = cptr /\
         mn_parent n = parent).
Proof.
  intros [fs Hwf] Hp. pose proof (mw_count _ _ Hwf) as Hcnt.
  destruct (Z.lt_ge_cases (mdb_count m) MAX_MDB_NODES) as [Hlt|Hge].
  - destruct (mdb_insert_spec m fs parent cptr cap out Hwf Hlt Hp) as (m1 & sib & H1 & Hwf1 & Hnew & Hold).
    destruct (free_slot_spec m (mdb_wf_counters _ _ Hwf) Hlt) as (_ & (n & Hn & Hv) & Hbelow).
    exists ERR_OK, m1, (free_slot m). rewrite Hcnt in Hlt. split_and!; try done; [by eexists|].
    intros _. split_and!; [|done| |by eexists].
    + intros (x & Hx & Hxv). congruence.
    + intros j. destruct (decide (j = free_slot m)) as [->|Hne].
      { split; [auto|]. intros _. by eexists. }
      destruct Hp as [->|Hlp].
      { unfold live. destruct (decide (j = NIL)) as [->|]; [|rewrite Hold by done; tauto].
        split; [|intros [?|H]]; try done.
        - intros (x & Hx & _). by apply (node_range m1 _ _ (mw_length _ _ Hwf1)) in Hx as [_ ?].
        - destruct H as (x & Hx & _). by apply (node_range m _ _ (mw_length _ _ Hwf)) in Hx as [_ ?]. }
      destruct (decide (j = parent)) as [->|]; [|unfold live; rewrite Hold by done; tauto].
      split; [auto|]. intros _. apply (mw_live _ _ Hwf1).
      destruct (wf_find m fs parent Hwf Hlp) as (f & k & n0 & Hf & Hk & Hn0 & _).
      destruct (node_range m parent n0 (mw_length _ _ Hwf) Hn0) as [_ Hnil].
      rewrite (forest_insert_child fs f parent _ k) by (done || apply Hwf).
      destruct (all_flat_set_kids fs f parent k (Node (free_slot m) Leaf k) (mw_nodup _ _ Hwf) Hf Hk)
        as (rest & Hir & _ & Hq). rewrite Hq. set_solver.
  - rewrite mdb_insert_full by done. exists ERR_NO_MEM, m, out.
    split_and!; try done; [by eexists|]. split; [done|]. lia.
Qed.

Lemma mdb_delete_cases m idx : mdb_inv m -> 0 <= idx ->
  exists e m', mdb_delete (Some m) idx = Some (e, Some m') /\ mdb_inv m' /\
    (e = ERR_OK <-> live (mdb_nodes m) idx /\ forall j, ~ descends (mdb_nodes m) idx j) /\
    (e <> ERR_OK -> m' = m) /\
    (e = ERR_OK -> forall j, (live (mdb_nodes m') j <-> live (mdb_nodes m) j /\ j <> idx) /\
       (j <> idx -> core <$> (mdb_nodes m').[j] = core <$> (mdb_nodes m).[j])).
Proof.
  intros [fs Hwf] Hi. destruct (dead_or_live m idx (mw_length _ _ Hwf) Hi) as [Hge|(n & Hn & Hlt & Hlv)].
  - exists ERR_INVALID_ARG, m. unfold mdb_delete, guard_ret. rewrite (proj2 (Z.leb_le _ _) Hge).
    split_and!; [done|by exists fs| |done|done]. split; [done|]. intros [H%live_range _].
    rewrite (mw_length _ _ Hwf) in H. unfold MAX_MDB_NODES in *. lia.
  - destruct (mn_valid n) eqn:Ev.
    2: { exists ERR_INVALID_CAP, m. unfold mdb_delete, guard_ret. rewrite (proj2 (Z.leb_gt _ _) Hlt), Hn.
         cbn. rewrite Ev. cbn. split_and!; [done|by exists fs| |done|done]. rewrite Hlv. by split; [|intros [? _]]. }
    assert (live (mdb_nodes m) idx) as Hl by (by apply Hlv).
    destruct (wf_find m fs idx Hwf Hl) as (f & k & n0 & Hf & Hk & Hn0 & _ & Hrk & _ & _).
    rewrite Hn in Hn0. injection Hn0 as <-.
    destruct (Z.eqb_spec (mn_first_child n) NIL) as [Efc|Efc].
    + rewrite Efc in Hrk. apply (rep_nil_leaf m) in Hrk as ->; [|apply Hwf].
      destruct (mdb_delete_spec m fs idx n Hwf Hn Ev Efc) as (m' & fs' & H & Hwf' & Hperm & Hcore).
      exists ERR_OK, m'. split_and!; [done|by exists fs'| |done|].
      * split; [|done]. intros _. split; [done|]. intros j Hj.
        apply (descends_iff m fs idx f Leaf j Hwf Hf Hk) in Hj. by apply not_elem_of_nil in Hj.
      * intros _ j. split; [|by apply Hcore].
        pose proof (mw_nodup _ _ Hwf) as Hnd. rewrite Hperm in Hnd. apply list.NoDup_cons in Hnd as [Hni _].
        rewrite (mw_live _ _ Hwf'), (mw_live _ _ Hwf), Hperm, elem_of_cons.
        destruct (decide (j = idx)) as [->|]; tauto.
    + exists ERR_REVOKE_NEEDED, m. unfold mdb_delete, guard_ret.
      rewrite (proj2 (Z.leb_gt _ _) Hlt), Hn. cbn [mbind option_bind]. rewrite Ev. cbn [negb].
      rewrite (proj2 (Z.eqb_neq _ _) Efc). cbn [negb].
      split_and!; [done|by exists fs| |done|done]. split; [done|]. intros [_ Hno]. exfalso.
      destruct k as [|i ks ss]; [done|]. apply (Hno i), (descends_iff m fs idx f _ i Hwf Hf Hk). left.
Qed.

Lemma kids_of_set_kids i k f k0 : kids_of i f = Some k0 -> kids_of i (set_kids i k f) = Some k.
Proof.
  revert k0. induction f as [|j ks IHk ss IHs]; intros k0 H; [done|]. cbn in *.
  destruct (j =? i) eqn:E; cbn; rewrite E; [done|].
  destruct (kids_of i ks) as [k1|] eqn:E1; [by rewrite (IHk k1 eq_refl)|].
  rewrite set_kids_notin, E1 by (intros [? ?]%kids_of_Some; congruence). by eapply IHs.
Qed.

(** Revoking a node and then deleting it removes exactly its tree. *)
Lemma mdb_remove_tree m idx : mdb_inv m -> live (mdb_nodes m) idx ->
  exists m1 m2, mdb_revoke (Some m) idx = Some (ERR_OK, Some m1) /\
    mdb_delete (Some m1) idx = Some (ERR_OK, Some m2) /\ mdb_inv m2 /\
    forall j, live (mdb_nodes m2) j <->
      live (mdb_nodes m) j /\ j <> idx /\ ~ descends (mdb_nodes m) idx j.
Proof.
  intros Hinv Hlv. pose proof (live_range _ _ Hlv) as [Hi _].
  destruct (mdb_revoke_full m idx Hinv Hi) as (e & m1 & H & Hinv1 & He & _ & Hfull).
  assert (e = ERR_OK) as -> by (by apply He). destruct Hinv as [fs Hwf].
  destruct (mdb_revoke_spec m fs idx Hwf Hlv) as (f & k & m1' & Hf & Hk & H1 & Hwf1 & _ & _ & Hself).
  rewrite H in H1. injection H1 as <-.
  assert (~ descends (mdb_nodes m) idx idx) as Hirr.
  { destruct (wf_find m fs idx Hwf Hlv) as (f' & k' & _ & Hf' & Hk' & _ & _ & _ & _ & Hn).
    rewrite (descends_iff m fs idx f' k' idx Hwf Hf' Hk'). exact Hn. }
  assert (forall j, ~ descends (mdb_nodes m1) idx j) as Hno.
  { intros j Hd. rewrite (descends_iff m1 _ idx (set_kids idx Leaf f) Leaf j Hwf1) in Hd.
    - by apply not_elem_of_nil in Hd.
    - apply list_elem_of_fmap. by exists f.
    - by eapply kids_of_set_kids. }
  assert (live (mdb_nodes m1) idx) as Hlv1 by (by apply (Hfull eq_refl idx)).
  destruct (mdb_delete_cases m1 idx Hinv1 Hi) as (e & m2 & H2 & Hinv2 & He2 & _ & Hdel).
  assert (e = ERR_OK) as -> by (by apply He2). exists m1, m2. do 3 (split; [done|]).
  intros j. destruct (Hdel eq_refl j) as [-> _]. destruct (Hfull eq_refl j) as [-> _]. tauto.
Qed.

Lemma mdb_step_inv m m' : mdb_inv m -> mdb_step m m' -> mdb_inv m'.
Proof.
  intros Hinv Hstep. destruct Hstep as [parent cptr cap e out out' Hp H|idx e Hi H|idx e Hi H].
  - destruct Hinv as [fs Hwf]. destruct (Z.lt_ge_cases (mdb_count m) MAX_MDB_NODES) as [Hlt|Hge].
    + destruct (mdb_insert_spec m fs parent cptr cap out Hwf Hlt Hp) as (m1 & sib & H1 & Hwf1 & _).
      rewrite H in H1. injection H1 as _ -> _. by eexists.
    + rewrite mdb_insert_full in H by done. injection H as _ <- _. by exists fs.
  - destruct (mdb_revoke_cases m idx Hinv Hi) as (e1 & m1 & H1 & Hinv1 & _).
    rewrite H in H1. by injection H1 as _ ->.
  - destruct (mdb_delete_cases m idx Hinv Hi) as (e1 & m1 & H1 & Hinv1 & _).
    rewrite H in H1. by injection H1 as _ ->.
Qed.

(** ** Properties *)

(** A root, two children, and a child of the first child. *)
Definition insert_or_keep (m : mdb_tree_t) (parent cptr : Z) : mdb_tree_t :=
  match mdb_insert (Some m) parent cptr (cap_zero <| type := CAP_FRAME |>) (Some 0) with
  | Some (_, Some m', _) => m'
  | _ => m
  end.
Definition demo_mdb : mdb_tree_t :=
  insert_or_keep (insert_or_keep (insert_or_keep (insert_or_keep mdb_init NIL 10) 0 11) 1 12) 0 13.

Lemma insert_or_keep_step m p c : mdb_inv m -> p = NIL \/ live (mdb_nodes m) p ->
  mdb_step m (insert_or_keep m p c).
Proof.
  intros [fs Hwf] Hp. unfold insert_or_keep.
  destruct (Z.lt_ge_cases (mdb_count m) MAX_MDB_NODES) as [Hlt|Hge].
  - destruct (mdb_insert_spec m fs p c (cap_zero <| type := CAP_FRAME |>) 0 Hwf Hlt Hp) as (m1 & sib & H1 & _).
    rewrite H1. by eapply (step_insert _ _ p c _ _ 0).
  - rewrite mdb_insert_full by done.
    by eapply (step_insert _ _ p c cap_zero ERR_NO_MEM 0); [|apply mdb_insert_full].
Qed.

Lemma mdb_steps_inv m m' : rtc mdb_step m m' -> mdb_inv m -> mdb_inv m'.
Proof. induction 1; eauto using mdb_step_inv. Qed.

Lemma mdb_init_inv : mdb_inv mdb_init.
Proof. exists []. apply mdb_init_wf. Qed.

Lemma demo_mdb_steps : rtc mdb_step mdb_init demo_mdb.
Proof.
  assert (forall m p c, rtc mdb_step mdb_init m -> p = NIL \/ live (mdb_nodes m) p ->
    rtc mdb_step mdb_init (insert_or_keep m p c)) as H.
  { intros m p c Hm Hp. eapply rtc_r; [exact Hm|]. apply insert_or_keep_step; [|done].
    eapply mdb_steps_inv; [exact Hm|apply mdb_init_inv]. }
  unfold demo_mdb. repeat apply H; [apply rtc_refl|by left|right..];
    eexists; (split; [vm_compute; reflexivity|reflexivity]).
Qed.

Lemma demo_mdb_inv : mdb_inv demo_mdb.
Proof. eapply mdb_steps_inv; [apply demo_mdb_steps|apply mdb_init_inv]. Qed.

Lemma demo_mdb_live i : In i [0; 1; 2; 3] -> live (mdb_nodes demo_mdb) i.
Proof.
  intros H. repeat (destruct H as [<-|H]; [eexists; split; vm_compute; reflexivity|]). destruct H.
Qed.

(** C10. The database is a forest at all times: whatever sequence of insertions at the
    root or under a node in use (insertion accepts its own free slot as parent too),
    revocations and deletions runs from the initial database, its links spell a forest whose nodes are exactly the live ones, its
    counter is exact, everything below the free hint is in use, and each further
    such call has a result: no index leaves the array and the recursion of
    [mdb_revoke] ends within the bound. *)
Theorem mdb_always_forest m :
  rtc mdb_step mdb_init m ->
  mdb_inv m /\
  (forall parent cptr cap out, parent = NIL \/ live (mdb_nodes m) parent ->
     is_Some (mdb_insert (Some m) parent cptr cap (Some out))) /\
  (forall idx, 0 <= idx -> is_Some (mdb_revoke (Some m) idx) /\ is_Some (mdb_delete (Some m) idx)).
Proof.
  intros Hm. assert (mdb_inv m) as Hinv by (eapply mdb_steps_inv; [exact Hm|apply mdb_init_inv]).
  split_and!; [done| |].
  - intros parent cptr cap out Hp. pose proof Hinv as [fs Hwf].
    destruct (Z.lt_ge_cases (mdb_count m) MAX_MDB_NODES) as [Hlt|Hge].
    + destruct (mdb_insert_spec m fs parent cptr cap out Hwf Hlt Hp) as (m1 & sib & -> & _). by eexists.
    + rewrite mdb_insert_full by done. by eexists.
  - intros idx Hi. split.
    + destruct (mdb_revoke_cases m idx Hinv Hi) as (e & m1 & -> & _). by eexists.
    + destruct (mdb_delete_cases m idx Hinv Hi) as (e & m1 & -> & _). by eexists.
Qed.

Lemma mdb_always_forest_witness :
  rtc mdb_step mdb_init demo_mdb /\ mdb_count demo_mdb = 4 /\
  is_Some (mdb_revoke (Some demo_mdb) 0).
Proof.
  split; [exact demo_mdb_steps|]. split; [vm_compute; reflexivity|].
  destruct (mdb_always_forest demo_mdb demo_mdb_steps) as (_ & _ & H).
  assert (0 <= 0) as H0 by lia. destruct (H 0 H0) as [Hr _]. exact Hr.
Defined.

(** C8. Revocation is complete and precise: on a live node [mdb_revoke] ends and
    frees exactly the nodes derived from it, at any depth, with their capability
    erased; the node itself and every node that is not derived from it survive,
    the others unchanged. Anything but a live node is an error that changes
    nothing. *)
Theorem mdb_revoke_exact m idx :
  mdb_inv m -> 0 <= idx ->
  exists e m', mdb_revoke (Some m) idx = Some (e, Some m') /\ mdb_inv m' /\
    (e = ERR_OK <-> live (mdb_nodes m) idx) /\ (e <> ERR_OK -> m' = m) /\
    (e = ERR_OK -> forall j,
       (live (mdb_nodes m') j <-> live (mdb_nodes m) j /\ ~ descends (mdb_nodes m) idx j) /\
       (descends (mdb_nodes m) idx j -> exists n, (mdb_nodes m').[j] = Some n /\ mn_cap n = cap_zero) /\
       (~ descends (mdb_nodes m) idx j -> j <> idx -> (mdb_nodes m').[j] = (mdb_nodes m).[j])).
Proof. apply mdb_revoke_full. Qed.

Lemma mdb_revoke_exact_witness :
  exists m', mdb_revoke (Some demo_mdb) 1 = Some (ERR_OK, Some m') /\
    ~ live (mdb_nodes m') 2 /\ mdb_inv m'.
Proof.
  destruct (mdb_revoke_exact demo_mdb 1) as (e & m' & H & Hinv & He & _ & Hx).
  - exact demo_mdb_inv.
  - lia.
  - assert (e = ERR_OK) as -> by (apply He, demo_mdb_live; cbn; auto).
    exists m'. split_and!; [exact H| |exact Hinv].
    destruct (Hx eq_refl 2) as [Hl _]. rewrite Hl. intros [_ Hno]. apply Hno.
    eapply desc_child; vm_compute; reflexivity.
Defined.

(** Insertion: under a live node or at the root, [mdb_insert] succeeds exactly
    when fewer than 1024 nodes are live; it then takes the first dead node, which
    becomes the only additional live one and carries the given capability,
    pointer and parent. *)
Theorem mdb_insert_exact m parent cptr cap out :
  mdb_inv m -> parent = NIL \/ live (mdb_nodes m) parent ->
  exists e m' idx, mdb_insert (Some m) parent cptr cap (Some out) = Some (e, Some m', Some idx) /\
    mdb_inv m' /\
    (e = ERR_OK <-> count_if mn_valid (mdb_nodes m) < MAX_MDB_NODES) /\
    (e <> ERR_OK -> e = ERR_NO_MEM /\ m' = m) /\
    (e = ERR_OK ->
       ~ live (mdb_nodes m) idx /\ (forall i, 0 <= i < idx -> live (mdb_nodes m) i) /\
       (forall j, live (mdb_nodes m') j <-> j = idx \/ live (mdb_nodes m) j) /\
       exists n, (mdb_nodes m').[idx] = Some n /\ mn_cap n = cap /\ mn_cptr n = cptr /\
         mn_parent n = parent).
Proof. apply mdb_insert_cases. Qed.

Lemma mdb_insert_exact_witness :
  exists e m' idx, mdb_insert (Some demo_mdb) 2 77 cap_zero (Some 0) = Some (e, Some m', Some idx) /\
    e = ERR_OK /\ mdb_inv m'.
Proof.
  destruct (mdb_insert_exact demo_mdb 2 77 cap_zero 0) as (e & m' & idx & H & Hinv & He & _).
  - exact demo_mdb_inv.
  - right. apply demo_mdb_live. cbn. auto.
  - exists e, m', idx. split_and!; [exact H| |exact Hinv]. apply He. vm_compute. reflexivity.
Defined.

(** Deletion: [mdb_delete] succeeds exactly on a live node from which nothing live
    is derived, and then removes that node alone: all others stay live with their
    capability, pointer and parent. *)
Theorem mdb_delete_exact m idx :
  mdb_inv m -> 0 <= idx ->
  exists e m', mdb_delete (Some m) idx = Some (e, Some m') /\ mdb_inv m' /\
    (e = ERR_OK <-> live (mdb_nodes m) idx /\ forall j, ~ descends (mdb_nodes m) idx j) /\
    (e <> ERR_OK -> m' = m) /\
    (e = ERR_OK -> forall j, (live (mdb_nodes m') j <-> live (mdb_nodes m) j /\ j <> idx) /\
       (j <> idx -> core <$> (mdb_nodes m').[j] = core <$> (mdb_nodes m).[j])).
Proof. apply mdb_delete_cases. Qed.

Lemma mdb_delete_exact_witness :
  exists e m', mdb_delete (Some demo_mdb) 1 = Some (e, Some m') /\ e <> ERR_OK /\ m' = demo_mdb.
Proof.
  destruct (mdb_delete_exact demo_mdb 1) as (e & m' & H & _ & He & Herr & _).
  - exact demo_mdb_inv.
  - lia.
  - assert (e <> ERR_OK) as Hne.
    { intros ->. destruct (proj1 He eq_refl) as [_ Hno]. apply (Hno 2).
      eapply desc_child; vm_compute; reflexivity. }
    exists e, m'. split_and!; [exact H|exact Hne|exact (Herr Hne)].
Defined.

(** [mdb_is_descendant] decides derivation: for a live node the walk up the parent
    links ends, and it answers whether the node is the given one or derived from
    it. *)
Theorem mdb_is_descendant_correct m ancestor j :
  mdb_inv m -> live (mdb_nodes m) j -> ancestor <> NIL ->
  exists b, mdb_is_descendant m ancestor j = Some b /\
    (b = true <-> j = ancestor \/ descends (mdb_nodes m) ancestor j).
Proof.
  intros [fs Hwf] Hj Ha. pose proof Hj as Hj'.
  apply (mw_live _ _ Hwf), all_flat_in in Hj' as (f & Hf & Hjf).
  pose proof (proj1 (list.Forall_forall _ _) (mw_roots _ _ Hwf) f Hf) as (r & ks & _ & Hrep).
  destruct (rep_up _ _ _ _ j Hrep Hjf) as (d & Hd & Hup).
  apply (descendant_loop_spec m ancestor j d); try done; [apply Hwf|].
  assert (length (flat f) <= Z.to_nat MAX_MDB_NODES)%nat; [|lia].
  apply nodup_length; [by apply (tree_nodup fs f); [apply Hwf|]|].
  intros i Hif. rewrite <- (mw_length _ _ Hwf). apply live_range. by eapply rep_live.
Qed.

Lemma mdb_is_descendant_correct_witness :
  exists b, mdb_is_descendant demo_mdb 0 2 = Some b /\ b = true.
Proof.
  destruct (mdb_is_descendant_correct demo_mdb 0 2) as (b & Hb & Hiff).
  - exact demo_mdb_inv.
  - apply demo_mdb_live. cbn. auto.
  - discriminate.
  - exists b. split; [exact Hb|]. apply Hiff. right.
    eapply desc_step; [vm_compute; reflexivity..|].
    eapply desc_child; vm_compute; reflexivity.
Defined.

(** A node can become its own child: naming as parent the dead node that the
    insertion is about to take (0 in an empty database) is accepted, and revoking
    that node then never ends, whatever depth is allowed. *)
Theorem mdb_insert_self_parent_diverges cap :
  exists m, mdb_insert (Some mdb_init) 0 7 cap (Some 0) = Some (ERR_OK, Some m, Some 0) /\
    forall fuel, revoke_chain fuel m 0 = None /\ mdb_revoke_recursive fuel m 0 = None.
Proof.
  set (n := mk_mdb_node true 7 0 0 0 0 NIL cap true).
  assert (exists l, mdb_insert (Some mdb_init) 0 7 cap (Some 0)
            = Some (ERR_OK, Some (mk_mdb_tree (n :: l) 1 1), Some 0)) as [l Hl].
  { eexists. vm_compute. reflexivity. }
  exists (mk_mdb_tree (n :: l) 1 1). split; [exact Hl|]. clear Hl.
  intros fuel. induction fuel as [|fuel [IH1 IH2]]; [done|].
  cbn [revoke_chain mdb_revoke_recursive mdb_nodes].
  change ((n :: l).[0]) with (Some n). cbn [mbind option_bind]. split.
  - rewrite IH2. done.
  - change (mn_first_child n) with 0. rewrite IH1. done.
Qed.

(** Lookups of slot 0 of node 0 do not look at the capability pointer: the explicit
    [cnode_id] and [slot] fields are zero in every inserted node, so the first
    live node matches, whatever pointer it was inserted for. *)
Theorem mdb_lookup_zero_matches_any cptr cap :
  exists m, mdb_insert (Some mdb_init) NIL cptr cap (Some 0) = Some (ERR_OK, Some m, Some 0) /\
    mdb_lookup m 0 0 = 0.
Proof.
  assert (exists l, mdb_insert (Some mdb_init) NIL cptr cap (Some 0)
    = Some (ERR_OK, Some (mk_mdb_tree (mk_mdb_node true cptr 0 0 NIL NIL NIL cap true :: l) 1 1), Some 0))
    as [l Hl] by (eexists; vm_compute; reflexivity).
  eexists. split; [exact Hl|]. reflexivity.
Qed.
