(* ===== verification/VSpace.v ===== *)
(** * vspace.h, vspace.c: Sv39 address spaces

    Three-level page tables in physical memory, the pages for them taken from a
    frame allocator or from the static fallback pool. *)

From S2P Require Import Prelude Types Cheri Cap Alloc.

Definition PT_ENTRIES : Z := 512.
Definition MAX_PT_PAGES : Z := 64.
Definition PTE_V : Z := Z.shiftl 1 0.
Definition PTE_R : Z := Z.shiftl 1 1.
Definition PTE_W : Z := Z.shiftl 1 2.
Definition PTE_X : Z := Z.shiftl 1 3.
Definition PTE_U : Z := Z.shiftl 1 4.
Definition PTE_G : Z := Z.shiftl 1 5.
Definition PTE_A : Z := Z.shiftl 1 6.
Definition PTE_D : Z := Z.shiftl 1 7.

(** [vs_root] and [vs_alloc] are addresses. *)
Record vspace_t := mk_vspace {
  vs_root : Z;
  vs_asid : Z;
  vs_partition_id : Z;
  vs_base : Z;
  vs_length : Z;
  vs_pt_pages_used : Z;
  vs_alloc : Z;
  vs_pt_caps : list cap_t;
  vs_pt_caps_count : Z
}.
#[export] Instance vspace_eta : Eta vspace_t := fun v =>
  mk_vspace (vs_root v) (vs_asid v) (vs_partition_id v) (vs_base v) (vs_length v)
    (vs_pt_pages_used v) (vs_alloc v) (vs_pt_caps v) (vs_pt_caps_count v).

Definition vspace_zero : vspace_t :=
  mk_vspace 0 0 0 0 0 0 0 (replicate (Z.to_nat MAX_PT_PAGES) cap_zero) 0.

(** What the address spaces share: the page-table pages by address, the frame
    allocators by address, the address of the static [fallback_pool] and how many
    of its 64 pages are taken. *)
Record pt_world := mk_pt_world {
  pt_mem : gmap Z (list Z);
  allocators : gmap Z frame_alloc_t;
  fallback_pool : Z;
  fallback_next : Z
}.
#[export] Instance pt_world_eta : Eta pt_world := fun w =>
  mk_pt_world (pt_mem w) (allocators w) (fallback_pool w) (fallback_next w).

(** [memset(p, 0, PAGE_SIZE)] on a page of entries. *)
Definition zero_page : list Z := replicate (Z.to_nat PT_ENTRIES) 0.
Definition clear_page (w : pt_world) (p : Z) : pt_world := w <| pt_mem ::= insert p zero_page |>.

Definition read_pte (w : pt_world) (table i : Z) : option Z := l ← pt_mem w !! table; l.[i].
Definition write_pte (w : pt_world) (table i v : Z) : option pt_world :=
  l ← pt_mem w !! table;
  l' ← l.[i := v];
  Some (w <| pt_mem ::= insert table l' |>).

(** The capability recorded for a page of the fallback pool. *)
Definition dummy_cap (p color' : Z) : cap_t :=
  cap_zero <| type := CAP_FRAME |> <| is_valid := true |> <| is_sealed := true |>
    <| color := color' |> <| u ::= set_frame_paddr p |> <| u ::= set_frame_color color' |>
    <| hw_cap := mk_sim_cap p (u64 (p + PAGE_SIZE)) p 0 0 true true |>.

(** Returns the address of the page, [NULL] when there is none. *)
Definition alloc_pt_page (w : pt_world) (vs : vspace_t) : option (Z * vspace_t * pt_world) :=
  retif MAX_PT_PAGES <=? vs_pt_caps_count vs with Some (NULL, vs, w);;
  retif MAX_PT_PAGES <=? vs_pt_pages_used vs with Some (NULL, vs, w);;
  if negb (vs_alloc vs =? NULL) then
    a ← allocators w !! vs_alloc vs;
    '(e, a', out) ← alloc_frame (Some a) (vs_partition_id vs) PAGE_SIZE (Some cap_zero);
    a' ← a'; c ← out;
    let w1 := w <| allocators ::= insert (vs_alloc vs) a' |> in
    retif negb (is_ok e) with Some (NULL, vs, w1);;
    caps ← (vs_pt_caps vs).[vs_pt_caps_count vs := c];
    let vs1 := vs <| vs_pt_caps := caps |> <| vs_pt_caps_count ::= fun n => u32 (n + 1) |>
                  <| vs_pt_pages_used ::= fun n => u32 (n + 1) |> in
    let p := frame_paddr (u c) in
    Some (p, vs1, clear_page w1 p)
  else
    retif 64 <=? fallback_next w with Some (NULL, vs, w);;
    let p := fallback_pool w + fallback_next w * PAGE_SIZE in
    let w1 := (clear_page w p) <| fallback_next ::= fun n => u32 (n + 1) |> in
    let vs1 := vs <| vs_pt_pages_used ::= fun n => u32 (n + 1) |> in
    if vs_pt_caps_count vs1 <? 64 then
      caps ← (vs_pt_caps vs1).[vs_pt_caps_count vs1 :=
                dummy_cap p (alloc_color_for_partition (vs_partition_id vs1))];
      Some (p, vs1 <| vs_pt_caps := caps |> <| vs_pt_caps_count ::= fun n => u32 (n + 1) |>, w1)
    else Some (p, vs1, w1).

Definition pte_encode (ppn flags : Z) : Z := Z.lor (u64 (Z.shiftl ppn 10)) flags.
Definition pte_ppn (pte : Z) : Z := Z.shiftr pte 10.

(** [(pte_t * )(pte_ppn(pte) << 12)]. *)
Definition pte_table (pte : Z) : Z := u64 (Z.shiftl (pte_ppn pte) 12).

(** [pte & PTE_V]. *)
Definition pte_valid (pte : Z) : bool := has_any pte PTE_V.

Definition vspace_init_with_alloc (w : pt_world) (vs : option vspace_t) (asid part_id alloc : Z)
    : option (kerror_t * option vspace_t * pt_world) :=
  match vs with
  | None => Some (ERR_INVALID_ARG, vs, w)
  | Some _ =>
      let vs1 := vspace_zero <| vs_asid := asid |> <| vs_partition_id := part_id |>
                   <| vs_alloc := alloc |> <| vs_base := 0 |> <| vs_length := 0 |>
                   <| vs_pt_pages_used := 0 |> <| vs_pt_caps_count := 0 |> in
      '(root, vs2, w2) ← alloc_pt_page w vs1;
      let vs3 := vs2 <| vs_root := root |> in
      retif vs_root vs3 =? NULL with Some (ERR_NO_MEM, Some vs3, w2);;
      Some (ERR_OK, Some vs3, w2)
  end.

Definition vspace_init (w : pt_world) (vs : option vspace_t) (asid part_id : Z)
    : option (kerror_t * option vspace_t * pt_world) :=
  vspace_init_with_alloc w vs asid part_id NULL.

Definition vpn2 (va : Z) : Z := Z.land (Z.shiftr va 30) 0x1FF.
Definition vpn1 (va : Z) : Z := Z.land (Z.shiftr va 21) 0x1FF.
Definition vpn0 (va : Z) : Z := Z.land (Z.shiftr va 12) 0x1FF.

(** One level of the walk in [vspace_map]: the entry's table, allocated when the
    entry is not valid; [None] inside the result is the [ERR_NO_MEM] exit. *)
Definition next_table (w : pt_world) (vs : vspace_t) (table i : Z)
    : option (option Z * vspace_t * pt_world) :=
  e ← read_pte w table i;
  '(ok, vs1, w1) ←
     (if negb (pte_valid e) then
        '(n, vs1, w1) ← alloc_pt_page w vs;
        if n =? NULL then Some (false, vs1, w1)
        else w2 ← write_pte w1 table i (pte_encode (Z.shiftr n 12) PTE_V);
             Some (true, vs1, w2)
      else Some (true, vs, w));
  if (ok : bool) then
    e1 ← read_pte w1 table i;
    Some (Some (pte_table e1), vs1, w1)
  else Some (None, vs1, w1).

(** The body of the loop of [vspace_map]; [None] is falling through to the next
    iteration. *)
Definition map_page (w : pt_world) (vs : vspace_t) (va pa flags : Z)
    : option (option kerror_t * vspace_t * pt_world) :=
  '(l1, vs1, w1) ← next_table w vs (vs_root vs) (vpn2 va);
  match l1 with
  | None => Some (Some ERR_NO_MEM, vs1, w1)
  | Some l1 =>
      '(l0, vs2, w2) ← next_table w1 vs1 l1 (vpn1 va);
      match l0 with
      | None => Some (Some ERR_NO_MEM, vs2, w2)
      | Some l0 =>
          e ← read_pte w2 l0 (vpn0 va);
          retif pte_valid e with Some (Some ERR_INVALID_ARG, vs2, w2);;
          w3 ← write_pte w2 l0 (vpn0 va) (pte_encode (Z.shiftr pa 12) flags);
          Some (None, vs2, w3)
      end
  end.

Fixpoint map_loop (fuel : nat) (w : pt_world) (vs : vspace_t) (vaddr paddr size flags off : Z)
    : option (kerror_t * vspace_t * pt_world) :=
  if off <? size then
    match fuel with
    | O => None
    | S fuel' =>
        '(r, vs1, w1) ← map_page w vs (u64 (vaddr + off)) (u64 (paddr + off)) flags;
        match r with
        | Some e => Some (e, vs1, w1)
        | None => map_loop fuel' w1 vs1 vaddr paddr size flags (u64 (off + PAGE_SIZE))
        end
    end
  else Some (ERR_OK, vs, w).

Definition page_count (size : Z) : nat := Z.to_nat (size / PAGE_SIZE).

(** The leaf flags [vspace_map] computes. *)
Definition map_flags (vs : vspace_t) (perms : Z) : Z :=
  let flags := Z.lor (Z.lor PTE_V PTE_A) PTE_D in
  let flags := if has_any perms 0x1 then Z.lor flags PTE_R else flags in
  let flags := if has_any perms 0x2 then Z.lor flags PTE_W else flags in
  let flags := if has_any perms 0x4 then Z.lor flags PTE_X else flags in
  let is_kernel := (vs_partition_id vs =? 0) && has_any perms 0x4 in
  if negb is_kernel && negb (vs_partition_id vs =? 0) then Z.lor flags PTE_U else flags.

Definition vspace_map (w : pt_world) (vs : option vspace_t) (vaddr paddr size perms color' : Z)
    : option (kerror_t * option vspace_t * pt_world) :=
  match vs with
  | None => Some (ERR_INVALID_ARG, vs, w)
  | Some v =>
      retif vs_root v =? NULL with Some (ERR_INVALID_ARG, vs, w);;
      retif negb (vaddr mod PAGE_SIZE =? 0) || negb (paddr mod PAGE_SIZE =? 0) ||
            negb (size mod PAGE_SIZE =? 0) with Some (ERR_INVALID_ARG, vs, w);;
      retif negb (color' mod 2 =? 0) with Some (ERR_INVALID_ARG, vs, w);;
      let vcolor := u16 (Z.shiftr vaddr 12 mod 16) in
      retif negb (vcolor =? color') && negb (color' =? 0) with Some (ERR_PARTITION_DENIED, vs, w);;
      '(e, v', w') ← map_loop (page_count size) w v vaddr paddr size (map_flags v perms) 0;
      Some (e, Some v', w')
  end.

(** The body of the loop of [vspace_unmap]; a table that is missing is skipped. *)
Definition unmap_page (w : pt_world) (vs : vspace_t) (va : Z) : option pt_world :=
  e2 ← read_pte w (vs_root vs) (vpn2 va);
  if negb (pte_valid e2) then Some w
  else
    let l1 := pte_table e2 in
    e1 ← read_pte w l1 (vpn1 va);
    if negb (pte_valid e1) then Some w
    else
      let l0 := pte_table e1 in
      write_pte w l0 (vpn0 va) 0.

Fixpoint unmap_loop (fuel : nat) (w : pt_world) (vs : vspace_t) (vaddr size off : Z)
    : option pt_world :=
  if off <? size then
    match fuel with
    | O => None
    | S fuel' =>
        w1 ← unmap_page w vs (u64 (vaddr + off));
        unmap_loop fuel' w1 vs vaddr size (u64 (off + PAGE_SIZE))
    end
  else Some w.

Definition vspace_unmap (w : pt_world) (vs : option vspace_t) (vaddr size : Z)
    : option (kerror_t * pt_world) :=
  match vs with
  | None => Some (ERR_INVALID_ARG, w)
  | Some v =>
      retif vs_root v =? NULL with Some (ERR_INVALID_ARG, w);;
      retif negb (vaddr mod PAGE_SIZE =? 0) || negb (size mod PAGE_SIZE =? 0)
        with Some (ERR_INVALID_ARG, w);;
      w' ← unmap_loop (page_count size) w v vaddr size 0;
      Some (ERR_OK, w')
  end.

(** The result is what is returned and the content of [*paddr_out]. *)
Definition vspace_resolve (w : pt_world) (vs : option vspace_t) (vaddr : Z) (paddr_out : option Z)
    : option (bool * option Z) :=
  match vs, paddr_out with
  | Some v, Some _ =>
      retif vs_root v =? NULL with Some (false, paddr_out);;
      e2 ← read_pte w (vs_root v) (vpn2 vaddr);
      retif negb (pte_valid e2) with Some (false, paddr_out);;
      let l1 := pte_table e2 in
      e1 ← read_pte w l1 (vpn1 vaddr);
      retif negb (pte_valid e1) with Some (false, paddr_out);;
      let l0 := pte_table e1 in
      e0 ← read_pte w l0 (vpn0 vaddr);
      retif negb (pte_valid e0) with Some (false, paddr_out);;
      Some (true, Some (Z.lor (pte_table e0) (Z.land vaddr 0xFFF)))
  | _, _ => Some (false, paddr_out)
  end.

(** The value [vspace_switch] writes to [satp]. *)
Definition vspace_satp (vs : option vspace_t) : Z :=
  match vs with
  | None => 0
  | Some v =>
      retif vs_root v =? NULL with 0;;
      Z.lor (Z.lor (u64 (Z.shiftl 8 60)) (u64 (Z.shiftl (vs_asid v) 44))) (Z.shiftr (vs_root v) 12)
  end.

(** ** Where pages come from

    What the page-table code needs of a source of pages: it hands out pages beyond
    a frontier that only moves up, so that a page is never handed out twice. Both
    sources, the frame allocator and the fallback pool, implement it. *)

(** A usable page-table page: page aligned, not the null address. *)
Definition page_ok (p : Z) : Prop := 0 < p /\ fits 64 p /\ p mod PAGE_SIZE = 0.

Class PageSource (S : Type) := {
  ps_ok : S -> Prop;
  ps_front : S -> Z;
  ps_take : S -> option (option Z * S)
}.

Class PageSourceLaws (S : Type) `{PageSource S} :=
  ps_take_fresh : forall s, ps_ok s ->
    exists r s', ps_take s = Some (r, s') /\ ps_ok s' /\
      match r with
      | None => ps_front s' = ps_front s
      | Some p => page_ok p /\ ps_front s <= p /\ p < ps_front s'
      end.

(** The frame allocator, serving one partition. *)
Record alloc_src := mk_alloc_src { as_part : Z; as_alloc : frame_alloc_t }.

#[export] Instance alloc_source : PageSource alloc_src := {
  ps_ok s := alloc_wf (as_alloc s) /\ size_ok (as_alloc s) PAGE_SIZE /\
             0 < al_base (as_alloc s) /\ 0 <= as_part s;
  ps_front s := al_next (as_alloc s);
  ps_take s :=
    '(e, a', out) ← alloc_frame (Some (as_alloc s)) (as_part s) PAGE_SIZE (Some cap_zero);
    a' ← a'; c ← out;
    Some (if is_ok e then Some (frame_paddr (u c)) else None, mk_alloc_src (as_part s) a')
}.

#[export] Instance alloc_source_laws : PageSourceLaws alloc_src.
Proof.
  intros [p a] (Hwf & Hs & Hb & Hp). cbn in *.
  destruct (alloc_frame_cases a p PAGE_SIZE cap_zero Hwf Hs Hp) as (e & a' & out & -> & Hc).
  cbn [mbind option_bind].
  destruct Hc as [(-> & _ & -> & _)|[(_ & _ & -> & _ & -> & _)|
                  (_ & Hp8 & -> & Ht & -> & Hb' & Ht' & Hn' & Hwf')]]; cbn.
  1-2: by eexists _, _.
  pose proof (next_frame_spec a p Hwf ltac:(lia)) as (Hn & Hpage & _).
  pose proof (aw_next _ Hwf). pose proof (aw_top _ Hwf).
  change (frame_paddr (u (frame_cap (next_frame a p) PAGE_SIZE (2 * p)))) with (next_frame a p).
  eexists _, _. split; [reflexivity|]. unfold size_ok, page_ok, fits, NUM_COLORS, PAGE_SIZE in *. cbn.
  rewrite Ht', Hb', Hn'. change (is_ok ERR_OK) with true. cbn iota. split_and!; try done; lia.
Qed.

(** The fallback pool. *)
Record pool_src := mk_pool_src { pl_base : Z; pl_next : Z }.

#[export] Instance pool_source : PageSource pool_src := {
  ps_ok s := 0 < pl_base s /\ pl_base s mod PAGE_SIZE = 0 /\ pl_base s + 64 * PAGE_SIZE <= 2 ^ 64 /\
             0 <= pl_next s <= 64;
  ps_front s := pl_base s + pl_next s * PAGE_SIZE;
  ps_take s :=
    if 64 <=? pl_next s then Some (None, s)
    else Some (Some (pl_base s + pl_next s * PAGE_SIZE), mk_pool_src (pl_base s) (u32 (pl_next s + 1)))
}.

#[export] Instance pool_source_laws : PageSourceLaws pool_src.
Proof.
  intros [b n] (Hb & Hm & Ht & Hn). cbn in *. destruct (Z.leb_spec 64 n); [by eexists _, _|].
  eexists _, _. split; [reflexivity|]. cbn. rewrite u32_small by (unfold fits; lia).
  unfold page_ok, fits, PAGE_SIZE in *. rewrite Z.mod_add by lia. split_and!; try done; lia.
Qed.

(** The source an address space draws from. *)
Definition vs_source_ok (w : pt_world) (vs : vspace_t) : Prop :=
  if vs_alloc vs =? NULL then ps_ok (mk_pool_src (fallback_pool w) (fallback_next w))
  else exists a, allocators w !! vs_alloc vs = Some a /\ ps_ok (mk_alloc_src (vs_partition_id vs) a).

Definition vs_front (w : pt_world) (vs : vspace_t) : Z :=
  if vs_alloc vs =? NULL then ps_front (mk_pool_src (fallback_pool w) (fallback_next w))
  else match allocators w !! vs_alloc vs with
       | Some a => ps_front (mk_alloc_src (vs_partition_id vs) a)
       | None => 0
       end.

(** The bookkeeping of the pages an address space has taken. *)
Definition vs_caps_ok (vs : vspace_t) : Prop :=
  length (vs_pt_caps vs) = Z.to_nat MAX_PT_PAGES /\ 0 <= vs_pt_caps_count vs <= MAX_PT_PAGES /\
  0 <= vs_pt_pages_used vs <= MAX_PT_PAGES.

(** Everything but the bookkeeping. *)
Definition vs_same (vs vs' : vspace_t) : Prop :=
  vs_root vs' = vs_root vs /\ vs_asid vs' = vs_asid vs /\
  vs_partition_id vs' = vs_partition_id vs /\ vs_alloc vs' = vs_alloc vs.

#[export] Instance vs_same_preorder : PreOrder vs_same.
Proof. split; [done|]. unfold vs_same. intros a b c. intuition congruence. Qed.

Lemma caps_ok_bump vs vs' i c : vs_caps_ok vs ->
  vs_pt_caps_count vs < MAX_PT_PAGES -> vs_pt_pages_used vs < MAX_PT_PAGES ->
  vs_pt_caps vs' = <[i := c]> (vs_pt_caps vs) ->
  vs_pt_caps_count vs' = u32 (vs_pt_caps_count vs + 1) ->
  vs_pt_pages_used vs' = u32 (vs_pt_pages_used vs + 1) -> vs_caps_ok vs'.
Proof.
  intros (Hlen & Hcnt & Hused) Hc Hu E1 E2 E3. unfold vs_caps_ok, MAX_PT_PAGES in *.
  rewrite E1, E2, E3, length_insert, !u32_small by (unfold fits; lia). split_and!; done || lia.
Qed.

(** A new page: fresh, zeroed, and nothing else of the memory changes. *)
Lemma alloc_pt_page_spec w vs : vs_source_ok w vs -> vs_caps_ok vs ->
  exists p vs' w', alloc_pt_page w vs = Some (p, vs', w') /\ vs_same vs vs' /\
    vs_caps_ok vs' /\ vs_source_ok w' vs' /\
    ((p = NULL /\ pt_mem w' = pt_mem w /\ vs_front w' vs' = vs_front w vs) \/
     (page_ok p /\ vs_front w vs <= p /\ p < vs_front w' vs' /\
      pt_mem w' = <[p := zero_page]> (pt_mem w))).
Proof.
  intros Hsrc Hcaps. pose proof Hcaps as (Hlen & Hcnt & Hused). unfold alloc_pt_page, guard_ret, vs_source_ok, vs_front in *.
  destruct (Z.leb_spec MAX_PT_PAGES (vs_pt_caps_count vs)).
  { exists NULL, vs, w. split_and!; try done. left. done. }
  destruct (Z.leb_spec MAX_PT_PAGES (vs_pt_pages_used vs)).
  { exists NULL, vs, w. split_and!; try done. left. done. }
  unfold MAX_PT_PAGES in Hlen, Hcnt, Hused, H, H0. destruct (Z.eqb_spec (vs_alloc vs) NULL) as [E|E]; cbn [negb].
  - destruct (ps_take_fresh _ Hsrc) as (r & s' & Ht & Hok & Hr). cbn in Ht.
    destruct (Z.leb_spec 64 (fallback_next w)).
    { exists NULL, vs, w. rewrite E. cbn [Z.eqb]. split_and!; try done. left. done. }
    injection Ht as <- <-. destruct (Z.ltb_spec (vs_pt_caps_count vs) 64); [|lia].
    cbn [modify_field vs_pt_caps_count vs_pt_caps].
    destruct (Z.ltb_spec (vs_pt_caps_count vs) 64); [|lia].
    rewrite arr_set_in by lia. cbn [mbind option_bind].
    eexists _, _, _. split; [reflexivity|]. cbn -[ps_ok ps_front]. rewrite E. cbn [Z.eqb].
    split_and!; try done.
    + by eapply (caps_ok_bump vs).
    + right. destruct Hr as (Hpk & Hf1 & Hf2). split_and!; done.
  - destruct Hsrc as (a & Ha & Hok). rewrite Ha. cbn [mbind option_bind].
    destruct (ps_take_fresh _ Hok) as (r & s' & Ht & Hok' & Hr). cbn in Ht.
    destruct (alloc_frame _ _ _ _) as [[[e [a'|]] [c|]]|]; cbn in Ht; try done.
    injection Ht as <- <-. cbn [mbind option_bind]. destruct (is_ok e); cbn [negb].
    + rewrite arr_set_in by lia. cbn [mbind option_bind].
      eexists _, _, _. split; [reflexivity|]. cbn -[ps_ok ps_front frame_paddr].
      rewrite (proj2 (Z.eqb_neq _ _) E), lookup_insert_eq.
      split_and!; try done.
      * by eapply (caps_ok_bump vs).
      * by exists a'.
      * right. destruct Hr as (Hpk & Hf1 & Hf2). split_and!; done.
    + eexists _, _, _. split; [reflexivity|]. cbn -[ps_ok ps_front].
      rewrite (proj2 (Z.eqb_neq _ _) E), lookup_insert_eq. split_and!; try done; [by exists a'|].
      left. split_and!; done.
Qed.

(** ** Page-table entries *)

Lemma land_0x1FF_range z : 0 <= Z.land z 0x1FF < 512.
Proof. change 0x1FF with (Z.ones 9). rewrite Z.land_ones by lia. apply Z.mod_pos_bound. lia. Qed.

Lemma pte_valid_testbit e : pte_valid e = Z.testbit e 0.
Proof.
  unfold pte_valid, has_any, PTE_V. change (Z.shiftl 1 0) with (Z.ones 1).
  rewrite Z.land_ones, <- Z.bit0_mod by lia. by destruct (Z.testbit e 0).
Qed.

Lemma encode_testbit q fl n : 0 <= q < 2 ^ 54 -> 0 <= n ->
  Z.testbit (pte_encode q fl) n = (if n <? 10 then false else Z.testbit q (n - 10)) || Z.testbit fl n.
Proof.
  intros Hq Hn. unfold pte_encode. rewrite Z.lor_spec. f_equal.
  rewrite u64_small.
  - rewrite Z.shiftl_spec by lia. destruct (Z.ltb_spec n 10); [|done]. apply Z.testbit_neg_r. lia.
  - unfold fits. rewrite Z.shiftl_mul_pow2 by lia. lia.
Qed.

Lemma pte_ppn_encode q fl : 0 <= q < 2 ^ 54 -> fits 10 fl -> pte_ppn (pte_encode q fl) = q.
Proof.
  intros Hq Hfl. apply Z.bits_inj'. intros n Hn. unfold pte_ppn.
  rewrite Z.shiftr_spec, encode_testbit by lia. destruct (Z.ltb_spec (n + 10) 10); [lia|].
  rewrite (testbit_high 10 fl) by (done || lia). rewrite orb_false_r. f_equal. lia.
Qed.

Lemma pte_valid_encode q fl : 0 <= q < 2 ^ 54 -> Z.testbit fl 0 = true ->
  pte_valid (pte_encode q fl) = true.
Proof. intros Hq Hfl. by rewrite pte_valid_testbit, encode_testbit, Hfl by lia. Qed.

(** An entry for a page leads to that page. *)
Lemma pte_table_encode p fl : fits 64 p -> p mod PAGE_SIZE = 0 -> fits 10 fl ->
  pte_table (pte_encode (Z.shiftr p 12) fl) = p.
Proof.
  intros Hp Hm Hfl. unfold fits in Hp. unfold pte_table.
  assert (0 <= Z.shiftr p 12 < 2 ^ 52) as Hq.
  { rewrite Z.shiftr_div_pow2 by lia. split; [apply Z.div_pos; lia|].
    apply Z.div_lt_upper_bound; lia. }
  rewrite pte_ppn_encode by (done || lia).
  rewrite Z.shiftl_mul_pow2, Z.shiftr_div_pow2 by lia. unfold PAGE_SIZE in Hm.
  change (2 ^ 12) with 4096. apply Z.div_exact in Hm; [|lia].
  rewrite u64_small; [lia|]. unfold fits. lia.
Qed.

Lemma page_ok_entry p : page_ok p ->
  pte_table (pte_encode (Z.shiftr p 12) PTE_V) = p /\
  pte_valid (pte_encode (Z.shiftr p 12) PTE_V) = true.
Proof.
  intros (H0 & Hf & Hm). split; [by apply pte_table_encode; [..|fits_now]|].
  apply pte_valid_encode; [|done]. unfold fits in Hf. rewrite Z.shiftr_div_pow2 by lia.
  split; [apply Z.div_pos; lia|]. apply Z.div_lt_upper_bound; lia.
Qed.

(** ** The table invariant

    Every page of the tables has a label that says which part of the address space
    it serves; a valid entry leads to the page with the label below. *)

Inductive label := LRoot | L1 (i : Z) | L0 (i j : Z).

#[export] Instance label_eq_dec : EqDecision label.
Proof. solve_decision. Defined.

Definition child (lb : label) (i : Z) : option label :=
  match lb with LRoot => Some (L1 i) | L1 j => Some (L0 j i) | L0 _ _ => None end.

Abbreviation labels := (gmap Z label).

Record vspace_wf (w : pt_world) (vs : vspace_t) (lab : labels) : Prop := {
  vw_root : lab !! vs_root vs = Some LRoot;
  vw_pages : forall p lb, lab !! p = Some lb -> page_ok p /\ p < vs_front w vs /\
    exists l, pt_mem w !! p = Some l /\ length l = Z.to_nat PT_ENTRIES;
  vw_links : forall p lb i e c, lab !! p = Some lb -> read_pte w p i = Some e ->
    pte_valid e = true -> child lb i = Some c -> lab !! pte_table e = Some c;
  vw_source : vs_source_ok w vs;
  vw_caps : vs_caps_ok vs
}.

(** The translation the tables spell: the valid leaf entry for an address. *)
Definition step (w : pt_world) (p i : Z) : option Z :=
  e ← read_pte w p i; if pte_valid e then Some (pte_table e) else None.
Definition leaf (w : pt_world) (p i : Z) : option Z :=
  e ← read_pte w p i; if pte_valid e then Some e else None.
Definition xlate (w : pt_world) (root va : Z) : option Z :=
  p1 ← step w root (vpn2 va); p0 ← step w p1 (vpn1 va); leaf w p0 (vpn0 va).

(** Two addresses in the same virtual page, as far as the tables see. *)
Definition same_page (va va' : Z) : bool :=
  (vpn2 va' =? vpn2 va) && (vpn1 va' =? vpn1 va) && (vpn0 va' =? vpn0 va).

(** Pages handed out earlier that are not part of these tables are left alone. *)
Definition others_kept (w : pt_world) (vs : vspace_t) (lab : labels) (w' : pt_world) : Prop :=
  forall p, p < vs_front w vs -> lab !! p = None -> pt_mem w' !! p = pt_mem w !! p.

Lemma read_pte_defined w vs lab p lb i : vspace_wf w vs lab -> lab !! p = Some lb ->
  0 <= i < 512 -> is_Some (read_pte w p i).
Proof.
  intros Hwf Hp Hi. destruct (vw_pages _ _ _ Hwf p lb Hp) as (_ & _ & l & Hl & Hlen).
  unfold read_pte. rewrite Hl. cbn. apply arr_get_is_Some. rewrite Hlen. unfold PT_ENTRIES. lia.
Qed.

Lemma step_label w vs lab p lb i q c : vspace_wf w vs lab -> lab !! p = Some lb ->
  child lb i = Some c -> step w p i = Some q -> lab !! q = Some c.
Proof.
  intros Hwf Hp Hc. unfold step. destruct (read_pte w p i) as [e|] eqn:E; [|done]. cbn.
  destruct (pte_valid e) eqn:Ev; [|done]. intros [= <-]. by eapply (vw_links _ _ _ Hwf).
Qed.

(** The walk to the leaf table of an address stays on labelled pages. *)
Lemma walk_label w vs lab va p1 p0 : vspace_wf w vs lab ->
  step w (vs_root vs) (vpn2 va) = Some p1 -> step w p1 (vpn1 va) = Some p0 ->
  lab !! p1 = Some (L1 (vpn2 va)) /\ lab !! p0 = Some (L0 (vpn2 va) (vpn1 va)).
Proof.
  intros Hwf H1 H0. assert (lab !! p1 = Some (L1 (vpn2 va))) as Hl1.
  { eapply step_label; [done|apply (vw_root _ _ _ Hwf)|done|done]. }
  split; [done|]. by eapply (step_label w vs lab p1).
Qed.

Lemma step_ext w w' p i : read_pte w' p i = read_pte w p i -> step w' p i = step w p i.
Proof. unfold step. by intros ->. Qed.

Lemma leaf_ext w w' p i : read_pte w' p i = read_pte w p i -> leaf w' p i = leaf w p i.
Proof. unfold leaf. by intros ->. Qed.

(** Linking a zeroed page at an invalid entry changes no translation. *)
Lemma link_xlate w vs lab w' t lb i n e : vspace_wf w vs lab -> lab !! t = Some lb ->
  is_Some (child lb i) -> read_pte w t i = Some e -> pte_valid e = false ->
  (forall p j, lab !! p <> None -> (p <> t \/ j <> i) -> read_pte w' p j = read_pte w p j) ->
  step w' t i = Some n -> (forall j, 0 <= j < 512 -> read_pte w' n j = Some 0) ->
  forall va, xlate w' (vs_root vs) va = xlate w (vs_root vs) va.
Proof.
  intros Hwf Ht [c Hc] He Hinv Hrd Hn Hz va. pose proof (vw_root _ _ _ Hwf) as Hroot. unfold xlate.
  assert (forall j, 0 <= j < 512 -> step w' n j = None /\ leaf w' n j = None) as Hdead.
  { intros j Hj. unfold step, leaf. rewrite (Hz j Hj). done. }
  assert (step w t i = None) as Hst by (unfold step; rewrite He; cbn; by rewrite Hinv).
  destruct (decide (vs_root vs = t /\ vpn2 va = i)) as [[<- <-]|Hnot].
  { rewrite Hst, Hn. cbn. rewrite (proj1 (Hdead (vpn1 va) (land_0x1FF_range _))). done. }
  rewrite (step_ext w w' (vs_root vs) (vpn2 va)).
  2: { apply Hrd; [congruence|]. destruct (decide (vs_root vs = t)); [right|left]; tauto. }
  destruct (step w (vs_root vs) (vpn2 va)) as [p1|] eqn:E1; [cbn|done].
  assert (lab !! p1 = Some (L1 (vpn2 va))) as Hl1 by (by eapply step_label).
  destruct (decide (p1 = t /\ vpn1 va = i)) as [[-> <-]|Hnot1].
  { rewrite Hst, Hn. cbn. apply Hdead, land_0x1FF_range. }
  rewrite (step_ext w w' p1 (vpn1 va)).
  2: { apply Hrd; [congruence|]. destruct (decide (p1 = t)); [right|left]; tauto. }
  destruct (step w p1 (vpn1 va)) as [p0|] eqn:E0; [cbn|done].
  assert (lab !! p0 = Some (L0 (vpn2 va) (vpn1 va))) as Hl0 by (by eapply (step_label w vs lab p1)).
  apply leaf_ext, Hrd; [congruence|]. left. intros ->. rewrite Ht in Hl0. injection Hl0 as ->. done.
Qed.

(** What every operation on the tables of an address space guarantees. *)
Record tables_step (w : pt_world) (vs : vspace_t) (lab : labels)
    (w' : pt_world) (vs' : vspace_t) (lab' : labels) : Prop := {
  ts_same : vs_same vs vs';
  ts_wf : vspace_wf w' vs' lab';
  ts_grow : lab ⊆ lab';
  ts_front : vs_front w vs <= vs_front w' vs';
  ts_others : others_kept w vs lab w'
}.

Lemma tables_step_refl w vs lab : vspace_wf w vs lab -> tables_step w vs lab w vs lab.
Proof. intros Hwf. by constructor. Qed.

Lemma tables_step_trans w vs lab w1 vs1 lab1 w2 vs2 lab2 :
  (forall p lb, lab !! p = None -> lab1 !! p = Some lb -> vs_front w vs <= p) ->
  tables_step w vs lab w1 vs1 lab1 -> tables_step w1 vs1 lab1 w2 vs2 lab2 ->
  tables_step w vs lab w2 vs2 lab2.
Proof.
  intros Hnew [Hs1 _ Hg1 Hf1 Ho1] [Hs2 Hwf2 Hg2 Hf2 Ho2].
  constructor; [by etransitivity|done|by etransitivity|lia|].
  intros p Hp Hn. rewrite <- Ho1 by done. apply Ho2; [lia|].
  destruct (lab1 !! p) as [lb|] eqn:E; [|done]. specialize (Hnew p lb Hn E). lia.
Qed.

(** New labels are on pages beyond the old frontier. *)
Definition labels_fresh (w : pt_world) (vs : vspace_t) (lab lab' : labels) : Prop :=
  forall p lb, lab !! p = None -> lab' !! p = Some lb -> vs_front w vs <= p.

Lemma labels_fresh_refl w vs lab : labels_fresh w vs lab lab.
Proof. intros p lb. congruence. Qed.

Lemma labels_fresh_trans w vs lab w1 vs1 lab1 lab2 : vs_front w vs <= vs_front w1 vs1 ->
  labels_fresh w vs lab lab1 -> labels_fresh w1 vs1 lab1 lab2 -> labels_fresh w vs lab lab2.
Proof.
  intros Hf H1 H2 p lb Hn Hp. destruct (lab1 !! p) as [lb1|] eqn:E; [by eapply H1|].
  specialize (H2 p lb E Hp). lia.
Qed.

(** Changing page contents changes neither source nor frontier. *)
Lemma front_mem w f vs : vs_front (w <| pt_mem ::= f |>) vs = vs_front w vs.
Proof. done. Qed.
Lemma source_mem w f vs : vs_source_ok w vs -> vs_source_ok (w <| pt_mem ::= f |>) vs.
Proof. done. Qed.

Lemma read_insert w t l p j : pt_mem w !! t = Some l ->
  forall i v, 0 <= i < Z.of_nat (length l) ->
  read_pte (w <| pt_mem ::= insert t (<[Z.to_nat i := v]> l) |>) p j =
  if (p =? t) && (j =? i) then Some v else read_pte w p j.
Proof.
  intros Hl i v Hi. unfold read_pte. cbn.
  destruct (Z.eqb_spec p t) as [->|Hne]; cbn [andb].
  - rewrite lookup_insert_eq, Hl. cbn. by rewrite arr_get_insert.
  - by rewrite lookup_insert_ne by done.
Qed.

(** [w2] is [w] with the zeroed page [n] linked at entry [i] of the table [t]. *)
Definition link_pte (n : Z) : Z := pte_encode (Z.shiftr n 12) PTE_V.
Definition linked (w : pt_world) (t i n : Z) (w2 : pt_world) : Prop :=
  exists l, pt_mem w !! t = Some l /\ 0 <= i < Z.of_nat (length l) /\
    pt_mem w2 = <[t := <[Z.to_nat i := link_pte n]> l]> (<[n := zero_page]> (pt_mem w)).

Lemma linked_read w t i n w2 p j : linked w t i n w2 -> n <> t ->
  read_pte w2 p j = if (p =? t) && (j =? i) then Some (link_pte n)
                    else if p =? n then zero_page.[j] else read_pte w p j.
Proof.
  intros (l & Hl & Hi & Hm) Hn. unfold read_pte. rewrite Hm.
  destruct (Z.eqb_spec p t) as [->|Hpt]; cbn [andb].
  - rewrite lookup_insert_eq, (proj2 (Z.eqb_neq t n)) by done. rewrite Hl. cbn. by rewrite arr_get_insert.
  - rewrite lookup_insert_ne by done. destruct (Z.eqb_spec p n) as [->|];
      [by rewrite lookup_insert_eq|by rewrite lookup_insert_ne by done].
Qed.

Lemma zero_page_get j : 0 <= j < 512 -> zero_page.[j] = Some 0.
Proof.
  intros Hj. unfold zero_page. rewrite arr_get_lookup by lia. apply lookup_replicate. split; [done|].
  unfold PT_ENTRIES. lia.
Qed.

Section Link.
Context (w : pt_world) (vs : vspace_t) (lab : labels) (t i n : Z) (w2 : pt_world) (lb c : label).
Context (Hwf : vspace_wf w vs lab) (Ht : lab !! t = Some lb) (Hc : child lb i = Some c) (Hl : linked w t i n w2)
  (Hpage : page_ok n) (Hge : vs_front w vs <= n).

Lemma link_fresh : lab !! n = None.
Proof using Hwf Hge.
  apply eq_None_not_Some. intros [x Hx]. destruct (vw_pages _ _ _ Hwf n x Hx) as (_ & Hlt & _).
  exact (proj1 (Z.lt_nge _ _) Hlt Hge).
Qed.

Lemma link_other : n <> t.
Proof using Hwf Ht Hge. intros E. pose proof link_fresh as Hf. rewrite E, Ht in Hf. discriminate. Qed.

Lemma link_step : step w2 t i = Some n.
Proof using Hwf Ht Hge Hl Hpage.
  unfold step. rewrite (linked_read _ _ _ _ _ _ _ Hl link_other), !Z.eqb_refl. cbn.
  unfold link_pte. destruct (page_ok_entry n Hpage) as [-> ->]. done.
Qed.

Lemma link_keeps p j : lab !! p <> None -> p <> t \/ j <> i -> read_pte w2 p j = read_pte w p j.
Proof using Hwf Ht Hge Hl.
  intros Hp Hor. rewrite (linked_read _ _ _ _ _ _ _ Hl link_other).
  destruct (Z.eqb_spec p n) as [->|]; [by rewrite link_fresh in Hp|].
  destruct (Z.eqb_spec p t), (Z.eqb_spec j i); cbn; try done. tauto.
Qed.

Lemma link_zero j : 0 <= j < 512 -> read_pte w2 n j = Some 0.
Proof using Hwf Ht Hge Hl.
  intros Hj. rewrite (linked_read _ _ _ _ _ _ _ Hl link_other), (proj2 (Z.eqb_neq _ _) link_other), Z.eqb_refl.
  cbn [andb]. by apply zero_page_get.
Qed.

(** The pages of the new tables. *)
Lemma link_pages vs1 p lb' : vs_front w vs <= vs_front w2 vs1 -> n < vs_front w2 vs1 ->
  <[n := c]> lab !! p = Some lb' -> page_ok p /\ p < vs_front w2 vs1 /\
    exists l, pt_mem w2 !! p = Some l /\ length l = Z.to_nat PT_ENTRIES.
Proof using Hwf Ht Hge Hl Hpage.
  intros Hfr Hlt Hp. destruct Hl as (l & Hlt' & Hi & Hm). rewrite Hm. destruct (decide (p = n)) as [->|Hne].
  { split; [done|]. split; [done|]. exists zero_page. split; [|done].
    by rewrite lookup_insert_ne, lookup_insert_eq by (apply not_eq_sym, link_other). }
  rewrite lookup_insert_ne in Hp by done.
  destruct (vw_pages _ _ _ Hwf p lb' Hp) as (Hpo & Hpf & l' & Hl' & Hlen').
  split; [done|]. split; [lia|]. destruct (decide (p = t)) as [->|].
  { rewrite lookup_insert_eq. eexists. split; [done|]. rewrite length_insert. congruence. }
  rewrite !lookup_insert_ne by done. by exists l'.
Qed.

(** The entries of the new tables lead where the labels say. *)
Lemma link_links p lb' j e' c' : <[n := c]> lab !! p = Some lb' -> read_pte w2 p j = Some e' ->
  pte_valid e' = true -> child lb' j = Some c' -> <[n := c]> lab !! pte_table e' = Some c'.
Proof using Hwf Ht Hc Hge Hl Hpage.
  intros Hp He' Hv' Hc'. pose proof link_other as Hnt. pose proof link_fresh as Hfresh.
  destruct (decide (p = n)) as [->|Hne].
  { rewrite (linked_read _ _ _ _ _ _ _ Hl Hnt), (proj2 (Z.eqb_neq _ _) Hnt), Z.eqb_refl in He'. cbn in He'.
    apply arr_get_replicate in He' as ->. done. }
  rewrite lookup_insert_ne in Hp by done.
  destruct (decide (p = t /\ j = i)) as [[-> ->]|Hnot].
  { rewrite (linked_read _ _ _ _ _ _ _ Hl Hnt), !Z.eqb_refl in He'. cbn in He'. injection He' as <-.
    unfold link_pte. destruct (page_ok_entry n Hpage) as [-> _]. rewrite lookup_insert_eq. congruence. }
  rewrite link_keeps in He' by (congruence || (destruct (decide (p = t)); [right|left]; tauto)).
  pose proof (vw_links _ _ _ Hwf p lb' j e' c' Hp He' Hv' Hc') as Hx.
  rewrite lookup_insert_ne; [done|]. congruence.
Qed.

(** Linking a fresh page is a step of the tables that changes no translation. *)
Lemma link_tables vs1 e : vs_same vs vs1 -> vs_source_ok w2 vs1 -> vs_caps_ok vs1 ->
  vs_front w vs <= vs_front w2 vs1 -> n < vs_front w2 vs1 ->
  read_pte w t i = Some e -> pte_valid e = false ->
  tables_step w vs lab w2 vs1 (<[n := c]> lab) /\ labels_fresh w vs lab (<[n := c]> lab) /\
  (forall va, xlate w2 (vs_root vs) va = xlate w (vs_root vs) va) /\
  (forall q j p', lab !! q <> None -> step w q j = Some p' -> step w2 q j = Some p').
Proof using Hwf Ht Hc Hge Hl Hpage.
  intros Hs Hsrc Hcaps Hfr Hlt He Ev. pose proof link_fresh as Hfresh. pose proof Hs as (Hr1 & _). split_and!.
  - constructor; [done| |by apply insert_subseteq|done|].
    + constructor; [|intros; by eapply link_pages|intros; by eapply link_links|done|done].
      rewrite Hr1, lookup_insert_ne; [apply Hwf|]. pose proof (vw_root _ _ _ Hwf). congruence.
    + intros p Hp Hn. destruct Hl as (l & _ & _ & ->). rewrite !lookup_insert_ne by (congruence || lia). done.
  - intros p lb' Hn Hp. destruct (decide (p = n)) as [->|]; [done|]. rewrite lookup_insert_ne in Hp by done. congruence.
  - eapply (link_xlate w vs lab w2 t lb i n e); eauto using link_keeps, link_step, link_zero.
  - intros q j p' Hq Hst. destruct (decide (q = t /\ j = i)) as [[-> ->]|Hnot].
    { unfold step in Hst. rewrite He in Hst. cbn in Hst. by rewrite Ev in Hst. }
    rewrite (step_ext w w2 q j); [done|]. apply link_keeps; [done|]. destruct (decide (q = t)); [right|left]; tauto.
Qed.
End Link.

(** Running out of pages changes no table. *)
Lemma no_page_tables w vs lab w1 vs1 : vspace_wf w vs lab -> vs_same vs vs1 -> vs_source_ok w1 vs1 ->
  vs_caps_ok vs1 -> pt_mem w1 = pt_mem w -> vs_front w1 vs1 = vs_front w vs -> tables_step w vs lab w1 vs1 lab.
Proof.
  intros [V1 V2 V3 V4 V5] Hs Hsrc Hcaps Hmem Hfr. pose proof Hs as (Hr1 & _).
  constructor; try done; [|lia|by intros p _ _; rewrite Hmem].
  constructor; try done; [by rewrite Hr1|by rewrite Hfr, Hmem|].
  intros p lb' j e' c' Hp He'. unfold read_pte in He'. rewrite Hmem in He'. by eapply V3.
Qed.

Lemma next_table_spec w vs lab t lb i c : vspace_wf w vs lab -> lab !! t = Some lb ->
  child lb i = Some c -> 0 <= i < 512 ->
  exists r vs' w' lab', next_table w vs t i = Some (r, vs', w') /\
    tables_step w vs lab w' vs' lab' /\ labels_fresh w vs lab lab' /\
    (forall va, xlate w' (vs_root vs) va = xlate w (vs_root vs) va) /\
    match r with
    | None => lab' = lab
    | Some p => step w' t i = Some p /\ lab' !! p = Some c /\
        (forall q j p', lab !! q <> None -> step w q j = Some p' -> step w' q j = Some p')
    end.
Proof.
  intros Hwf Ht Hc Hi. destruct (read_pte_defined w vs lab t lb i Hwf Ht Hi) as [e He].
  unfold next_table. rewrite He. cbn [mbind option_bind].
  destruct (pte_valid e) eqn:Ev; cbn [negb].
  { cbn [mbind option_bind]. rewrite He. cbn [mbind option_bind].
    eexists _, vs, w, lab. split; [reflexivity|].
    assert (step w t i = Some (pte_table e)) as Hst by (unfold step; rewrite He; cbn; by rewrite Ev).
    split_and!; auto using tables_step_refl, labels_fresh_refl. by eapply step_label. }
  destruct (alloc_pt_page_spec w vs) as (n & vs1 & w1 & -> & Hs1 & Hcaps1 & Hsrc1 & Hcase);
    [apply Hwf|apply Hwf|]. cbn [mbind option_bind].
  destruct Hcase as [(-> & Hmem & Hfr)|(Hpage & Hge & Hlt & Hmem)].
  { cbn. exists None, vs1, w1, lab. split; [done|].
    split_and!; auto using labels_fresh_refl, no_page_tables.
    intros va. unfold xlate, step, leaf, read_pte. by rewrite Hmem. }
  destruct (vw_pages _ _ _ Hwf t lb Ht) as (_ & Htf & l & Hl & Hlen).
  rewrite (proj2 (Z.eqb_neq n NULL)) by (destruct Hpage; unfold NULL; lia).
  assert (pt_mem w1 !! t = Some l) as Hl1 by (rewrite Hmem, lookup_insert_ne by lia; done).
  assert (0 <= i < Z.of_nat (length l)) as Hil by (rewrite Hlen; unfold PT_ENTRIES; lia).
  unfold write_pte. rewrite Hl1. cbn [mbind option_bind]. rewrite arr_set_in by done. cbn [mbind option_bind].
  fold (link_pte n). set (w2 := w1 <| pt_mem ::= insert t (<[Z.to_nat i:=link_pte n]> l) |>).
  assert (linked w t i n w2) as Hlk by (exists l; split_and!; [done|lia..|]; subst w2; cbn; by rewrite Hmem).
  rewrite (linked_read w t i n w2) by (done || lia). rewrite !Z.eqb_refl. cbn [andb mbind option_bind].
  exists (Some n), vs1, w2, (<[n := c]> lab). split.
  { unfold link_pte. by destruct (page_ok_entry n Hpage) as [-> _]. }
  destruct (link_tables w vs lab t i n w2 lb c Hwf Ht Hc Hlk Hpage Hge vs1 e) as (H1 & H2 & H3 & H4);
    try done; [change (vs_front w2 vs1) with (vs_front w1 vs1); lia|].
  split_and!; try done; [by eapply (link_step w vs lab)|apply lookup_insert_eq].
Qed.

Lemma same_page_iff va va' : same_page va va' = true <->
  vpn2 va' = vpn2 va /\ vpn1 va' = vpn1 va /\ vpn0 va' = vpn0 va.
Proof. unfold same_page. rewrite !andb_true_iff, !Z.eqb_eq. tauto. Qed.

(** Writing the leaf entry of an address. *)
Lemma write_leaf w vs lab va p1 p0 v : vspace_wf w vs lab ->
  step w (vs_root vs) (vpn2 va) = Some p1 -> step w p1 (vpn1 va) = Some p0 ->
  exists w', write_pte w p0 (vpn0 va) v = Some w' /\ tables_step w vs lab w' vs lab /\
    forall va', xlate w' (vs_root vs) va' =
      if same_page va va' then (if pte_valid v then Some v else None)
      else xlate w (vs_root vs) va'.
Proof.
  intros Hwf H1 H0. destruct (walk_label w vs lab va p1 p0 Hwf H1 H0) as [Hl1 Hl0].
  destruct (vw_pages _ _ _ Hwf p0 _ Hl0) as (_ & _ & l & Hl & Hlen).
  pose proof (land_0x1FF_range (Z.shiftr va 12)) as Hi. fold (vpn0 va) in Hi.
  assert (0 <= vpn0 va < Z.of_nat (length l)) as Hil by (rewrite Hlen; unfold PT_ENTRIES; lia).
  unfold write_pte. rewrite Hl. cbn [mbind option_bind]. rewrite arr_set_in by done.
  cbn [mbind option_bind].
  set (w' := w <| pt_mem ::= insert p0 (<[Z.to_nat (vpn0 va):=v]> l) |>).
  assert (forall p j, read_pte w' p j = if (p =? p0) && (j =? vpn0 va) then Some v else read_pte w p j)
    as Hrd by (intros p j; by apply read_insert).
  exists w'. split; [done|]. split.
  - constructor; [done| |done|done|].
    + destruct Hwf as [V1 V2 V3 V4 V5]. constructor; try done.
      * intros p lb Hp. destruct (V2 p lb Hp) as (Hpo & Hpf & l' & Hl' & Hlen').
        split_and!; [apply Hpo..|done|]. subst w'. cbn. destruct (decide (p = p0)) as [->|].
        { rewrite lookup_insert_eq. eexists. split; [done|]. by rewrite length_insert. }
        rewrite lookup_insert_ne by done. by exists l'.
      * intros p lb j e c Hp He Hv Hc. rewrite Hrd in He.
        destruct (Z.eqb_spec p p0) as [->|]; cbn [andb] in He; [|by eapply (V3 p lb j e c)].
        rewrite Hl0 in Hp. injection Hp as <-. done.
    + intros p _ Hn. subst w'. cbn. rewrite lookup_insert_ne; [done|]. congruence.
  - intros va'. unfold xlate.
    assert (forall p j, lab !! p <> Some (L0 (vpn2 va) (vpn1 va)) -> step w' p j = step w p j) as Hst.
    { intros p j Hp. apply step_ext. rewrite Hrd. destruct (Z.eqb_spec p p0) as [->|]; [done|done]. }
    rewrite (Hst (vs_root vs)) by (rewrite (vw_root _ _ _ Hwf); done).
    destruct (step w (vs_root vs) (vpn2 va')) as [q1|] eqn:E1; cbn.
    2: { destruct (same_page va va') eqn:E; [|done]. apply same_page_iff in E as (E2 & _). congruence. }
    assert (lab !! q1 = Some (L1 (vpn2 va'))) as Hq1 by (eapply step_label; [done|apply Hwf|done|done]).
    rewrite (Hst q1) by (rewrite Hq1; done).
    destruct (step w q1 (vpn1 va')) as [q0|] eqn:E0; cbn.
    2: { destruct (same_page va va') eqn:E; [|done]. apply same_page_iff in E as (E2 & E3 & _). congruence. }
    assert (lab !! q0 = Some (L0 (vpn2 va') (vpn1 va'))) as Hq0 by (by eapply (step_label w vs lab q1)).
    unfold leaf. rewrite Hrd. destruct (same_page va va') eqn:E.
    + apply same_page_iff in E as (E2 & E3 & E4). assert (q0 = p0) as -> by congruence.
      by rewrite E4, !Z.eqb_refl.
    + destruct (Z.eqb_spec q0 p0) as [->|]; [|done]. destruct (Z.eqb_spec (vpn0 va') (vpn0 va)); [|done].
      exfalso. assert (same_page va va' = true); [|congruence]. apply same_page_iff.
      rewrite Hl0 in Hq0. injection Hq0. auto.
Qed.

Lemma xlate_walk w root va p1 p0 : step w root (vpn2 va) = Some p1 -> step w p1 (vpn1 va) = Some p0 ->
  xlate w root va = leaf w p0 (vpn0 va).
Proof. intros H1 H0. unfold xlate. rewrite H1. cbn. by rewrite H0. Qed.

(** The outcome of mapping one page, as a change of the translation. *)
Definition page_outcome (w : pt_world) (root va v : Z) (r : option kerror_t) (w' : pt_world) : Prop :=
  match r with
  | None => xlate w root va = None /\
      forall va', xlate w' root va' = if same_page va va' then Some v else xlate w root va'
  | Some e =>
      (e = ERR_NO_MEM \/ e = ERR_INVALID_ARG /\ xlate w root va <> None) /\
      forall va', xlate w' root va' = xlate w root va'
  end.

Lemma map_page_spec w vs lab va pa flags : vspace_wf w vs lab ->
  pte_valid (pte_encode (Z.shiftr pa 12) flags) = true ->
  exists r vs' w' lab', map_page w vs va pa flags = Some (r, vs', w') /\
    tables_step w vs lab w' vs' lab' /\ labels_fresh w vs lab lab' /\
    page_outcome w (vs_root vs) va (pte_encode (Z.shiftr pa 12) flags) r w'.
Proof.
  intros Hwf Hv. unfold map_page.
  destruct (next_table_spec w vs lab (vs_root vs) LRoot (vpn2 va) (L1 (vpn2 va)) Hwf)
    as (r1 & vs1 & w1 & lab1 & -> & Hst1 & Hf1 & Hx1 & Hr1);
    [apply Hwf|done|apply land_0x1FF_range|]. cbn [mbind option_bind].
  pose proof (ts_wf _ _ _ _ _ _ Hst1) as Hwf1.
  pose proof (ts_same _ _ _ _ _ _ Hst1) as (Hroot1 & _).
  destruct r1 as [l1|].
  2: { exists (Some ERR_NO_MEM), vs1, w1, lab1. split_and!; try done. split; [by left|done]. }
  destruct Hr1 as (Hstep1 & Hlab1 & _).
  destruct (next_table_spec w1 vs1 lab1 l1 (L1 (vpn2 va)) (vpn1 va) (L0 (vpn2 va) (vpn1 va)) Hwf1 Hlab1)
    as (r2 & vs2 & w2 & lab2 & -> & Hst2 & Hf2 & Hx2 & Hr2);
    [done|apply land_0x1FF_range|]. cbn [mbind option_bind].
  pose proof (ts_wf _ _ _ _ _ _ Hst2) as Hwf2.
  pose proof (ts_same _ _ _ _ _ _ Hst2) as (Hroot2 & _).
  assert (tables_step w vs lab w2 vs2 lab2) as Hst12 by (by eapply tables_step_trans).
  assert (labels_fresh w vs lab lab2) as Hf12
    by (eapply labels_fresh_trans; [apply (ts_front _ _ _ _ _ _ Hst1)|done|done]).
  assert (forall va', xlate w2 (vs_root vs) va' = xlate w (vs_root vs) va') as Hx12.
  { intros va'. rewrite <- Hx1, <- Hroot1. apply Hx2. }
  destruct r2 as [l0|].
  2: { exists (Some ERR_NO_MEM), vs2, w2, lab2. split_and!; try done. split; [by left|done]. }
  destruct Hr2 as (Hstep2 & Hlab2 & Hkeep).
  assert (step w2 (vs_root vs2) (vpn2 va) = Some l1) as Hs1.
  { rewrite Hroot2, Hroot1. apply Hkeep; [|done]. rewrite <- Hroot1, (vw_root _ _ _ Hwf1). done. }
  destruct (read_pte_defined w2 vs2 lab2 l0 _ (vpn0 va) Hwf2 Hlab2 (land_0x1FF_range _)) as [e He].
  rewrite He. cbn [mbind option_bind]. unfold guard_ret.
  assert (xlate w (vs_root vs) va = if pte_valid e then Some e else None) as Hxva.
  { rewrite <- Hx12, <- Hroot1, <- Hroot2, (xlate_walk _ _ _ _ _ Hs1 Hstep2).
    unfold leaf. by rewrite He. }
  destruct (pte_valid e) eqn:Ev.
  { exists (Some ERR_INVALID_ARG), vs2, w2, lab2. split_and!; try done.
    split; [|done]. right. by rewrite Hxva. }
  destruct (write_leaf w2 vs2 lab2 va l1 l0 (pte_encode (Z.shiftr pa 12) flags) Hwf2 Hs1 Hstep2)
    as (w3 & -> & Hst3 & Hx3). cbn [mbind option_bind].
  exists None, vs2, w3, lab2. split_and!; try done.
  - by eapply tables_step_trans.
  - split; [done|]. intros va'. specialize (Hx3 va'). rewrite Hroot2, Hroot1, Hv in Hx3. by rewrite Hx3, Hx12.
Qed.

(** ** Ranges *)

Lemma xlate_same_page w root va va' : same_page va va' = true -> xlate w root va' = xlate w root va.
Proof. intros (E2 & E1 & E0)%same_page_iff. unfold xlate. by rewrite E2, E1, E0. Qed.

Lemma same_page_sym va va' : same_page va va' = same_page va' va.
Proof. unfold same_page. by rewrite (Z.eqb_sym (vpn2 va')), (Z.eqb_sym (vpn1 va')), (Z.eqb_sym (vpn0 va')). Qed.

Lemma same_page_trans a b c : same_page a b = true -> same_page b c = true -> same_page a c = true.
Proof. rewrite !same_page_iff. intuition congruence. Qed.

(** The address of the [j]th page of a range, and its leaf entry. *)
Definition page_at (vaddr j : Z) : Z := u64 (vaddr + PAGE_SIZE * j).
Definition pte_at (paddr flags j : Z) : Z := pte_encode (Z.shiftr (page_at paddr j) 12) flags.

Lemma page_at_fits a j : 0 <= Z.shiftr (page_at a j) 12 < 2 ^ 54.
Proof.
  unfold page_at. pose proof (wrap_range 64 (a + PAGE_SIZE * j) ltac:(lia)) as H.
  fold (u64 (a + PAGE_SIZE * j)) in H. rewrite Z.shiftr_div_pow2 by lia.
  split; [apply Z.div_pos; lia|]. apply Z.div_lt_upper_bound; lia.
Qed.

(** The pages [j0, k) of a range were unmapped before and are mapped now, and
    nothing else changed. *)
Definition range_mapped (w w' : pt_world) (root vaddr paddr flags j0 k : Z) : Prop :=
  (forall j, j0 <= j < k -> xlate w root (page_at vaddr j) = None) /\
  (forall va j, j0 <= j < k -> same_page (page_at vaddr j) va = true ->
     xlate w' root va = Some (pte_at paddr flags j)) /\
  (forall va, (forall j, j0 <= j < k -> same_page (page_at vaddr j) va = false) ->
     xlate w' root va = xlate w root va).

Lemma range_mapped_cons w w1 w' root vaddr paddr flags j k : j < k ->
  page_outcome w root (page_at vaddr j) (pte_at paddr flags j) None w1 ->
  range_mapped w1 w' root vaddr paddr flags (j + 1) k ->
  range_mapped w w' root vaddr paddr flags j k.
Proof.
  intros Hjk [Hnone Hone] (Hn1 & Hm1 & Ho1).
  assert (forall i, j + 1 <= i < k -> same_page (page_at vaddr j) (page_at vaddr i) = false) as Hdis.
  { intros i Hi. destruct (same_page _ _) eqn:E; [|done]. specialize (Hn1 i Hi).
    rewrite Hone, E in Hn1. done. }
  split_and!.
  - intros i Hi. destruct (decide (i = j)) as [->|]; [done|]. rewrite <- (Hn1 i) by lia.
    rewrite Hone, Hdis by lia. done.
  - intros va i Hi Hs. destruct (decide (i = j)) as [->|]; [|apply Hm1; [lia|done]].
    rewrite Ho1; [by rewrite Hone, Hs|]. intros i Hi'.
    destruct (same_page (page_at vaddr i) va) eqn:E; [|done].
    rewrite <- (Hdis i Hi'). symmetry. eapply same_page_trans; [exact Hs|]. by rewrite same_page_sym.
  - intros va Hall. rewrite Ho1; [rewrite Hone, Hall by lia; done|]. intros i Hi. apply Hall. lia.
Qed.

Lemma map_loop_spec n : forall w vs lab vaddr paddr size flags j0,
  vspace_wf w vs lab -> Z.testbit flags 0 = true -> 0 <= j0 ->
  size = PAGE_SIZE * (j0 + Z.of_nat n) -> fits 64 size ->
  exists e vs' w' lab' k,
    map_loop n w vs vaddr paddr size flags (PAGE_SIZE * j0) = Some (e, vs', w') /\
    tables_step w vs lab w' vs' lab' /\ labels_fresh w vs lab lab' /\
    j0 <= k <= j0 + Z.of_nat n /\ (e = ERR_OK <-> k = j0 + Z.of_nat n) /\
    range_mapped w w' (vs_root vs) vaddr paddr flags j0 k.
Proof.
  induction n as [|n IH]; intros w vs lab vaddr paddr size flags j0 Hwf Hfl Hj Hsize Hfit; cbn [map_loop].
  { rewrite Z.add_0_r in Hsize. rewrite <- Hsize, Z.ltb_irrefl. exists ERR_OK, vs, w, lab, j0.
    split_and!; auto using tables_step_refl, labels_fresh_refl; try lia; [split; [lia|done]|].
    split_and!; try done; intros; lia. }
  unfold PAGE_SIZE, fits in *. destruct (Z.ltb_spec (4096 * j0) size); [|lia].
  change (u64 (vaddr + 4096 * j0)) with (page_at vaddr j0).
  change (u64 (paddr + 4096 * j0)) with (page_at paddr j0).
  destruct (map_page_spec w vs lab (page_at vaddr j0) (page_at paddr j0) flags Hwf)
    as (r & vs1 & w1 & lab1 & -> & Hst & Hf & Hout).
  { apply pte_valid_encode; [apply page_at_fits|done]. }
  cbn [mbind option_bind]. pose proof (ts_wf _ _ _ _ _ _ Hst) as Hwf1.
  pose proof (ts_same _ _ _ _ _ _ Hst) as (Hroot & _). destruct r as [e|].
  - destruct Hout as [He Hx]. exists e, vs1, w1, lab1, j0. split_and!; try done; try lia.
    + destruct He as [->|[-> _]]; split; try done; lia.
    + split_and!; try done; intros; lia.
  - rewrite u64_small by (unfold fits; lia).
    replace (4096 * j0 + 4096) with (4096 * (j0 + 1)) by lia.
    destruct (IH w1 vs1 lab1 vaddr paddr size flags (j0 + 1)) as (e & vs2 & w2 & lab2 & k & Hrun & Hst2 & Hf2 & Hk & He & Hrng);
      try done; [lia|lia|]. unfold PAGE_SIZE in Hrun. rewrite Hrun.
    exists e, vs2, w2, lab2, k. split_and!; try done; try lia.
    + by eapply tables_step_trans.
    + eapply labels_fresh_trans; [apply (ts_front _ _ _ _ _ _ Hst)|done|done].
    + rewrite He. lia.
    + rewrite Hroot in Hrng. by eapply range_mapped_cons; [lia|..].
Qed.

Lemma step_read w p i e : read_pte w p i = Some e ->
  step w p i = if pte_valid e then Some (pte_table e) else None.
Proof. unfold step. by intros ->. Qed.

(** [vspace_resolve] reads the translation. *)
Lemma vspace_resolve_xlate w vs lab va out : vspace_wf w vs lab ->
  vspace_resolve w (Some vs) va (Some out) =
  Some match xlate w (vs_root vs) va with
       | Some e => (true, Some (Z.lor (pte_table e) (Z.land va 0xFFF)))
       | None => (false, Some out)
       end.
Proof.
  intros Hwf. unfold vspace_resolve, guard_ret, xlate. pose proof (vw_root _ _ _ Hwf) as Hroot.
  destruct (vw_pages _ _ _ Hwf _ _ Hroot) as ((Hpos & _) & _).
  rewrite (proj2 (Z.eqb_neq (vs_root vs) NULL)) by (unfold NULL; lia).
  destruct (read_pte_defined w vs lab _ _ (vpn2 va) Hwf Hroot (land_0x1FF_range _)) as [e2 He2].
  rewrite He2, (step_read _ _ _ _ He2). cbn [mbind option_bind].
  destruct (pte_valid e2) eqn:E2; cbn [negb mbind option_bind]; [|done].
  assert (lab !! pte_table e2 = Some (L1 (vpn2 va))) as Hl1 by (by eapply (vw_links _ _ _ Hwf)).
  destruct (read_pte_defined w vs lab _ _ (vpn1 va) Hwf Hl1 (land_0x1FF_range _)) as [e1 He1].
  rewrite He1, (step_read _ _ _ _ He1). cbn [mbind option_bind].
  destruct (pte_valid e1) eqn:E1; cbn [negb mbind option_bind]; [|done].
  assert (lab !! pte_table e1 = Some (L0 (vpn2 va) (vpn1 va))) as Hl0
    by (by eapply (vw_links _ _ _ Hwf (pte_table e2))).
  destruct (read_pte_defined w vs lab _ _ (vpn0 va) Hwf Hl0 (land_0x1FF_range _)) as [e0 He0].
  unfold leaf. rewrite He0. cbn [mbind option_bind].
  by destruct (pte_valid e0).
Qed.

Lemma unmap_page_spec w vs lab va : vspace_wf w vs lab ->
  exists w', unmap_page w vs va = Some w' /\ tables_step w vs lab w' vs lab /\
    forall va', xlate w' (vs_root vs) va' =
      if same_page va va' then None else xlate w (vs_root vs) va'.
Proof.
  intros Hwf. pose proof (vw_root _ _ _ Hwf) as Hroot. unfold unmap_page.
  assert (xlate w (vs_root vs) va = None ->
    tables_step w vs lab w vs lab /\ forall va', xlate w (vs_root vs) va' =
      if same_page va va' then None else xlate w (vs_root vs) va') as Hskip.
  { intros Hn. split; [by apply tables_step_refl|]. intros va'.
    destruct (same_page va va') eqn:E; [|done]. by rewrite (xlate_same_page _ _ _ _ E). }
  destruct (read_pte_defined w vs lab _ _ (vpn2 va) Hwf Hroot (land_0x1FF_range _)) as [e2 He2].
  rewrite He2. cbn [mbind option_bind]. pose proof (step_read _ _ _ _ He2) as Hs2.
  destruct (pte_valid e2) eqn:E2; cbn [negb].
  2: { exists w. split; [done|]. apply Hskip. unfold xlate. by rewrite Hs2. }
  assert (lab !! pte_table e2 = Some (L1 (vpn2 va))) as Hl1 by (by eapply (vw_links _ _ _ Hwf)).
  destruct (read_pte_defined w vs lab _ _ (vpn1 va) Hwf Hl1 (land_0x1FF_range _)) as [e1 He1].
  rewrite He1. cbn [mbind option_bind]. pose proof (step_read _ _ _ _ He1) as Hs1.
  destruct (pte_valid e1) eqn:E1; cbn [negb].
  2: { exists w. split; [done|]. apply Hskip. unfold xlate. rewrite Hs2. cbn. by rewrite Hs1. }
  destruct (write_leaf w vs lab va _ _ 0 Hwf Hs2 Hs1) as (w' & -> & Hst & Hx). by exists w'.
Qed.

Lemma unmap_loop_spec n : forall w vs lab vaddr size j0, vspace_wf w vs lab -> 0 <= j0 ->
  size = PAGE_SIZE * (j0 + Z.of_nat n) -> fits 64 size ->
  exists w', unmap_loop n w vs vaddr size (PAGE_SIZE * j0) = Some w' /\
    tables_step w vs lab w' vs lab /\
    (forall va j, j0 <= j < j0 + Z.of_nat n -> same_page (page_at vaddr j) va = true ->
       xlate w' (vs_root vs) va = None) /\
    (forall va, (forall j, j0 <= j < j0 + Z.of_nat n -> same_page (page_at vaddr j) va = false) ->
       xlate w' (vs_root vs) va = xlate w (vs_root vs) va).
Proof.
  induction n as [|n IH]; intros w vs lab vaddr size j0 Hwf Hj Hsize Hfit; cbn [unmap_loop].
  { rewrite Z.add_0_r in Hsize. rewrite <- Hsize, Z.ltb_irrefl. exists w.
    split_and!; auto using tables_step_refl; intros; lia. }
  unfold PAGE_SIZE, fits in *. destruct (Z.ltb_spec (4096 * j0) size); [|lia].
  change (u64 (vaddr + 4096 * j0)) with (page_at vaddr j0).
  destruct (unmap_page_spec w vs lab (page_at vaddr j0) Hwf) as (w1 & -> & Hst & Hx1).
  cbn [mbind option_bind]. rewrite u64_small by (unfold fits; lia).
  replace (4096 * j0 + 4096) with (4096 * (j0 + 1)) by lia.
  destruct (IH w1 vs lab vaddr size (j0 + 1)) as (w2 & Hrun & Hst2 & Hnone & Hkeep);
    [apply Hst|lia|lia|lia|]. unfold PAGE_SIZE in Hrun. rewrite Hrun.
  exists w2. split_and!; [done| | |].
  - by eapply tables_step_trans; [apply labels_fresh_refl|..].
  - intros va j Hjr Hs. destruct (decide (j = j0)) as [->|Hne]; [|apply (Hnone va j); [lia|done]].
    destruct (xlate w2 (vs_root vs) va) as [e|] eqn:E; [|done]. exfalso.
    rewrite Hkeep in E; [by rewrite Hx1, Hs in E|]. intros i Hi.
    destruct (same_page (page_at vaddr i) va) eqn:Ei; [|done].
    rewrite (Hnone va i) in E; [done|lia|done].
  - intros va Hall. rewrite Hkeep; [rewrite Hx1, Hall by lia; done|]. intros i Hi. apply Hall. lia.
Qed.

(** ** Addresses *)

Lemma vpn_page va va' : Z.shiftr va' 12 = Z.shiftr va 12 -> same_page va va' = true.
Proof.
  intros E. apply same_page_iff. unfold vpn2, vpn1, vpn0. rewrite E.
  change 30 with (12 + 18). change 21 with (12 + 9).
  rewrite <- !Z.shiftr_shiftr, E by lia. done.
Qed.

(** Every address of a page-aligned range lies in one of its pages. *)
Lemma range_page vaddr size va : 0 <= vaddr -> vaddr mod PAGE_SIZE = 0 -> vaddr + size <= 2 ^ 64 ->
  vaddr <= va < vaddr + size ->
  let j := (va - vaddr) / PAGE_SIZE in
  0 <= j /\ PAGE_SIZE * j < size /\ page_at vaddr j = vaddr + PAGE_SIZE * j /\
  same_page (page_at vaddr j) va = true /\ va = page_at vaddr j + Z.land va 0xFFF.
Proof.
  intros H0 Hm Ht Hva j. unfold PAGE_SIZE in *. subst j.
  assert (0 <= (va - vaddr) / 4096 /\ 4096 * ((va - vaddr) / 4096) <= va - vaddr) as [Hj1 Hj2].
  { split; [apply Z.div_pos; lia|]. apply Z.mul_div_le. lia. }
  assert (page_at vaddr ((va - vaddr) / 4096) = vaddr + 4096 * ((va - vaddr) / 4096)) as Hp.
  { unfold page_at, PAGE_SIZE. apply u64_small. unfold fits. lia. }
  change 0xFFF with (Z.ones 12). rewrite Z.land_ones by lia. change (2 ^ 12) with 4096.
  split_and!; try done; try lia.
  - apply vpn_page. rewrite Hp, !Z.shiftr_div_pow2 by lia. change (2 ^ 12) with 4096.
    Z.div_mod_to_equations. lia.
  - rewrite Hp. Z.div_mod_to_equations. lia.
Qed.

Lemma lor_low p x : p mod 4096 = 0 -> 0 <= x < 4096 -> Z.lor p x = p + x.
Proof.
  intros Hp Hx. assert (Z.land p x = 0) as Hl.
  { apply Z.bits_inj'. intros n Hn. rewrite Z.land_spec, Z.testbit_0_l.
    destruct (Z.lt_ge_cases n 12).
    - apply Z.div_exact in Hp; [|lia]. change 4096 with (2 ^ 12) in Hp.
      rewrite Hp, Z.mul_comm, Z.mul_pow2_bits_low by lia. done.
    - rewrite (testbit_high 12 x n) by (done || lia). apply andb_false_r. }
  rewrite <- Z.lxor_lor by done. symmetry. by apply Z.add_nocarry_lxor.
Qed.

(** The flags of a leaf: valid, readable, writable and executable as asked, a user
    page exactly outside partition 0. *)
Lemma map_flags_bits vs perms : fits 10 (map_flags vs perms) /\
  Z.testbit (map_flags vs perms) 0 = true /\
  Z.testbit (map_flags vs perms) 1 = has_any perms 1 /\
  Z.testbit (map_flags vs perms) 2 = has_any perms 2 /\
  Z.testbit (map_flags vs perms) 3 = has_any perms 4 /\
  Z.testbit (map_flags vs perms) 4 = negb (vs_partition_id vs =? 0).
Proof.
  unfold map_flags. cbn zeta. destruct (has_any perms 1), (has_any perms 2), (has_any perms 4),
    (vs_partition_id vs =? 0); cbn [negb andb]; (split; [fits_now|]); split_and!; reflexivity.
Qed.

(** A new address space: either no page was left for its root, or it is well formed
    with nothing mapped. *)
Lemma vspace_init_spec w vs asid part alloc :
  vs_source_ok w (vspace_zero <| vs_partition_id := part |> <| vs_alloc := alloc |>) ->
  exists e v w', vspace_init_with_alloc w (Some vs) asid part alloc = Some (e, Some v, w') /\
    ((e = ERR_NO_MEM /\ vs_root v = NULL) \/
     (e = ERR_OK /\ vspace_wf w' v {[vs_root v := LRoot]} /\
      vs_asid v = asid /\ vs_partition_id v = part /\ vs_alloc v = alloc /\
      vs_front w v <= vs_root v /\
      (forall p, p < vs_front w v -> pt_mem w' !! p = pt_mem w !! p) /\
      forall va, xlate w' (vs_root v) va = None)).
Proof.
  intros Hsrc. unfold vspace_init_with_alloc, guard_ret. cbn zeta.
  set (v0 := vspace_zero <| vs_asid := asid |> <| vs_partition_id := part |> <| vs_alloc := alloc |>
               <| vs_base := 0 |> <| vs_length := 0 |> <| vs_pt_pages_used := 0 |>
               <| vs_pt_caps_count := 0 |>).
  destruct (alloc_pt_page_spec w v0) as (p & v1 & w1 & -> & Hsame & Hcaps & Hsrc1 & Hcase).
  { exact Hsrc. } { split_and!; done. }
  cbn [mbind option_bind modify_field vs_root]. destruct Hsame as (_ & Ha & Hp & Hal).
  destruct Hcase as [(-> & _ & _)|(Hpage & Hge & Hlt & Hmem)].
  { eexists _, _, _. split; [reflexivity|]. left. done. }
  destruct Hpage as (Hp0 & Hpf & Hpm). rewrite (proj2 (Z.eqb_neq p NULL)) by (unfold NULL; lia).
  eexists _, _, _. split; [reflexivity|]. right. cbn [vs_root].
  assert (forall j e, read_pte w1 p j = Some e -> e = 0) as Hz.
  { intros j e. unfold read_pte. rewrite Hmem, lookup_insert_eq. cbn. apply arr_get_replicate. }
  assert (forall f, vs_front f (v1 <| vs_root := p |>) = vs_front f v1) as Hfr by done.
  assert (forall f, vs_front f (v1 <| vs_root := p |>) = vs_front f v0) as Hfr0.
  { intros f. unfold vs_front. cbn. rewrite Hal. done. }
  split_and!; try done.
  - constructor.
    + apply lookup_singleton_eq.
    + intros q lb [<- _]%lookup_singleton_Some. split_and!; try done.
      exists zero_page. rewrite Hmem, lookup_insert_eq. done.
    + intros q lb i e c [<- _]%lookup_singleton_Some He Hv _. rewrite (Hz _ _ He) in Hv. done.
    + exact Hsrc1.
    + exact Hcaps.
  - rewrite Hfr0. done.
  - intros q Hq. rewrite Hmem, lookup_insert_ne; [done|]. rewrite Hfr0 in Hq. lia.
  - intros va. unfold xlate, step. cbn [modify_field vs_root].
    destruct (read_pte w1 p (vpn2 va)) as [e|] eqn:E; [|done].
    cbn. by rewrite (Hz _ _ E).
Qed.

(** Another address space on the same source is not affected. *)
Lemma other_space w v1 lab1 w' v1' lab1' v2 lab2 :
  tables_step w v1 lab1 w' v1' lab1' -> labels_fresh w v1 lab1 lab1' ->
  vspace_wf w v2 lab2 -> vs_alloc v2 = vs_alloc v1 -> lab1 ##ₘ lab2 ->
  vspace_wf w' v2 lab2 /\ lab1' ##ₘ lab2 /\
  forall va, xlate w' (vs_root v2) va = xlate w (vs_root v2) va.
Proof.
  intros [(_ & _ & Hpart & Hal) Hwf1' _ Hfront Hkeep] Hfresh Hwf2 Hsame Hdis.
  assert (forall f, vs_front f v2 = vs_front f v1) as Hf21.
  { intros f. unfold vs_front. rewrite Hsame. destruct (vs_alloc v1 =? NULL); [done|].
    by destruct (allocators f !! vs_alloc v1). }
  assert (forall f, vs_front f v2 = vs_front f v1') as Hf21'.
  { intros f. unfold vs_front. rewrite Hsame, <- Hal. destruct (vs_alloc v1' =? NULL); [done|].
    by destruct (allocators f !! vs_alloc v1'). }
  assert (forall p, lab2 !! p <> None -> pt_mem w' !! p = pt_mem w !! p) as Hmem.
  { intros p Hp. destruct (lab2 !! p) as [lb|] eqn:E; [|done].
    destruct (vw_pages _ _ _ Hwf2 p lb E) as (_ & Hpf & _).
    apply Hkeep; [rewrite <- Hf21; done|]. eapply map_disjoint_Some_r; done. }
  assert (forall p i, lab2 !! p <> None -> read_pte w' p i = read_pte w p i) as Hrd
    by (intros p i Hp; unfold read_pte; by rewrite Hmem).
  split_and!.
  - destruct Hwf2 as [V1 V2 V3 V4 V5]. constructor; try done.
    + intros p lb Hp. destruct (V2 p lb Hp) as (Hpo & Hpf & Hl). rewrite Hmem by congruence.
      split_and!; [apply Hpo..| |done]. rewrite Hf21 in Hpf. rewrite Hf21'. lia.
    + intros p lb i e c Hp He. rewrite Hrd in He by congruence. by eapply V3.
    + pose proof (vw_source _ _ _ Hwf1') as Hs1. unfold vs_source_ok in *. rewrite Hal in Hs1. rewrite Hsame in *.
      destruct (vs_alloc v1 =? NULL); [done|]. destruct Hs1 as (a & Ha & Hok1 & Hok2 & Hok3 & _).
      destruct V4 as (a0 & _ & _ & _ & _ & Hp2). by exists a.
  - apply map_disjoint_spec. intros p x y Hx Hy.
    destruct (lab1 !! p) as [lb|] eqn:E.
    + by eapply (map_disjoint_spec lab1 lab2).
    + specialize (Hfresh p x E Hx). destruct (vw_pages _ _ _ Hwf2 p y Hy) as (_ & Hpf & _).
      rewrite Hf21 in Hpf. lia.
  - intros va. unfold xlate. pose proof (vw_root _ _ _ Hwf2) as Hroot.
    rewrite (step_ext w w' (vs_root v2)) by (apply Hrd; congruence).
    destruct (step w (vs_root v2) (vpn2 va)) as [q1|] eqn:E1; [cbn|done].
    assert (lab2 !! q1 = Some (L1 (vpn2 va))) as Hq1 by (by eapply step_label).
    rewrite (step_ext w w' q1) by (apply Hrd; congruence).
    destruct (step w q1 (vpn1 va)) as [q0|] eqn:E0; [cbn|done].
    assert (lab2 !! q0 = Some (L0 (vpn2 va) (vpn1 va))) as Hq0 by (by eapply (step_label w v2 lab2 q1)).
    apply leaf_ext, Hrd. congruence.
Qed.

(** Both operations on a range, as [vspace_map] and [vspace_unmap] run them. *)
Lemma size_pages size : 0 <= size -> size mod PAGE_SIZE = 0 ->
  size = PAGE_SIZE * (0 + Z.of_nat (page_count size)).
Proof.
  intros H0 Hm. unfold page_count, PAGE_SIZE in *. rewrite Z.add_0_l, Z2Nat.id by (apply Z.div_pos; lia).
  by apply Z.div_exact.
Qed.

Lemma vspace_map_cases w v lab vaddr paddr size perms color' :
  vspace_wf w v lab -> fits 64 size ->
  exists e v' w' lab' k,
    vspace_map w (Some v) vaddr paddr size perms color' = Some (e, Some v', w') /\
    tables_step w v lab w' v' lab' /\ labels_fresh w v lab lab' /\
    0 <= k <= size / PAGE_SIZE /\
    range_mapped w w' (vs_root v) vaddr paddr (map_flags v perms) 0 k /\
    (e = ERR_OK -> vaddr mod PAGE_SIZE = 0 /\ paddr mod PAGE_SIZE = 0 /\
       size = PAGE_SIZE * k).
Proof.
  intros Hwf Hsize. pose proof (vw_root _ _ _ Hwf) as Hroot.
  destruct (vw_pages _ _ _ Hwf _ _ Hroot) as ((Hpos & _) & _). unfold vspace_map, guard_ret.
  rewrite (proj2 (Z.eqb_neq (vs_root v) NULL)) by (unfold NULL; lia).
  assert (forall e, e <> ERR_OK -> exists e' v' w' lab' k,
    Some (e, Some v, w) = Some (e', Some v', w') /\
    tables_step w v lab w' v' lab' /\ labels_fresh w v lab lab' /\ 0 <= k <= size / PAGE_SIZE /\
    range_mapped w w' (vs_root v) vaddr paddr (map_flags v perms) 0 k /\
    (e' = ERR_OK -> vaddr mod PAGE_SIZE = 0 /\ paddr mod PAGE_SIZE = 0 /\ size = PAGE_SIZE * k)) as Herr.
  { intros e He. exists e, v, w, lab, 0. unfold fits in Hsize.
    pose proof (Z.div_pos size PAGE_SIZE ltac:(lia) ltac:(unfold PAGE_SIZE; lia)).
    split_and!; auto using tables_step_refl, labels_fresh_refl; try lia; try done.
    split_and!; try done; intros; lia. }
  branches; try by apply Herr. bools.
  destruct (map_flags_bits v perms) as (_ & Hfl & _).
  pose proof (size_pages size ltac:(unfold fits in Hsize; lia) ltac:(done)) as Hpg.
  destruct (map_loop_spec (page_count size) w v lab vaddr paddr size (map_flags v perms) 0 Hwf Hfl
    ltac:(lia) Hpg Hsize) as (e & v' & w' & lab' & k & Hrun & Hst & Hfr & Hk & He & Hrng).
  change (PAGE_SIZE * 0) with 0 in Hrun. rewrite Hrun. cbn [mbind option_bind].
  exists e, v', w', lab', k.
  assert (Z.of_nat (page_count size) = size / PAGE_SIZE) as Ecount.
  { unfold page_count. rewrite Z2Nat.id; [done|]. apply Z.div_pos; unfold fits, PAGE_SIZE in *; lia. }
  split_and!; try done; try lia.
  - intros ->. split_and!; try done. rewrite (proj1 He eq_refl). exact Hpg.
Qed.

Lemma resolve_frame w v lab w' v' lab' va out : vspace_wf w v lab -> tables_step w v lab w' v' lab' ->
  xlate w' (vs_root v) va = xlate w (vs_root v) va ->
  vspace_resolve w' (Some v') va (Some out) = vspace_resolve w (Some v) va (Some out).
Proof.
  intros Hwf Hst Hx. pose proof (ts_same _ _ _ _ _ _ Hst) as (Hroot & _).
  rewrite (vspace_resolve_xlate w' v' lab') by apply Hst.
  rewrite (vspace_resolve_xlate w v lab) by done. by rewrite Hroot, Hx.
Qed.

(** What [vspace_map] does to a well-formed address space, in terms of addresses: the
    range is mapped, the rest is not affected, and what was mapped stays mapped. *)
Lemma vspace_map_full w v lab vaddr paddr size perms color' :
  vspace_wf w v lab -> 0 <= vaddr -> 0 <= paddr -> fits 64 size ->
  vaddr + size <= 2 ^ 64 -> paddr + size <= 2 ^ 64 ->
  exists e v' w' lab',
    vspace_map w (Some v) vaddr paddr size perms color' = Some (e, Some v', w') /\
    tables_step w v lab w' v' lab' /\ labels_fresh w v lab lab' /\
    (e = ERR_OK -> forall va out, vaddr <= va < vaddr + size ->
       vspace_resolve w' (Some v') va (Some out) = Some (true, Some (paddr + (va - vaddr))) /\
       exists pte, xlate w' (vs_root v') va = Some pte /\
         Z.testbit pte 1 = has_any perms 1 /\ Z.testbit pte 2 = has_any perms 2 /\
         Z.testbit pte 3 = has_any perms 4 /\
         Z.testbit pte 4 = negb (vs_partition_id v =? 0)) /\
    (forall va out, (forall j, 0 <= j < size / PAGE_SIZE -> same_page (page_at vaddr j) va = false) ->
       vspace_resolve w' (Some v') va (Some out) = vspace_resolve w (Some v) va (Some out)) /\
    (forall va pa out, vspace_resolve w (Some v) va (Some out) = Some (true, pa) ->
       vspace_resolve w' (Some v') va (Some out) = Some (true, pa)).
Proof.
  intros Hwf Hv0 Hp0 Hsize Hvt Hpt.
  destruct (vspace_map_cases w v lab vaddr paddr size perms color' Hwf Hsize)
    as (e & v' & w' & lab' & k & Hrun & Hst & Hfr & Hk & (Hnone & Hmapped & Hkept) & Hok).
  exists e, v', w', lab'. pose proof (ts_same _ _ _ _ _ _ Hst) as Hsame.
  destruct (map_flags_bits v perms) as (Hfit & _ & Hb1 & Hb2 & Hb3 & Hb4).
  split; [done|]. split; [done|]. split; [done|]. split_and!.
  - intros E va out Hva. destruct (Hok E) as (Hvm & Hpm & Hsz).
    destruct (range_page vaddr size va Hv0 Hvm Hvt Hva) as (Hj0 & Hj1 & Hpa & Hsp & Hlow).
    set (j := (va - vaddr) / PAGE_SIZE) in *.
    assert (xlate w' (vs_root v') va = Some (pte_at paddr (map_flags v perms) j)) as Hx.
    { destruct Hsame as (-> & _). apply Hmapped; [unfold PAGE_SIZE in *; lia|done]. }
    assert (page_at paddr j = paddr + PAGE_SIZE * j) as Hpj.
    { apply u64_small. unfold fits, PAGE_SIZE in *. lia. }
    split.
    + rewrite (vspace_resolve_xlate w' v' lab') by apply Hst. rewrite Hx. do 2 f_equal.
      unfold pte_at. rewrite pte_table_encode; [|unfold fits, PAGE_SIZE in *; lia| |done].
      * rewrite Hpj, lor_low.
        -- f_equal. lia.
        -- unfold PAGE_SIZE in *. rewrite Z.mul_comm, Z.mod_add by lia. done.
        -- change 0xFFF with (Z.ones 12). rewrite Z.land_ones by lia. apply Z.mod_pos_bound. lia.
      * rewrite Hpj. unfold PAGE_SIZE in *. rewrite Z.mul_comm, Z.mod_add by lia. done.
    + exists (pte_at paddr (map_flags v perms) j). split; [done|]. unfold pte_at.
      rewrite !encode_testbit by (apply page_at_fits || lia). cbn [Z.ltb Z.compare Pos.compare Pos.compare_cont].
      by rewrite Hb1, Hb2, Hb3, Hb4.
  - intros va out Hall. apply (resolve_frame w v lab w' v' lab'); try done.
    apply Hkept. intros j Hj. apply Hall. lia.
  - intros va pa out Hr. rewrite <- Hr. apply (resolve_frame w v lab w' v' lab'); try done.
    destruct (xlate w (vs_root v) va) as [pte|] eqn:Hx.
    2:{ rewrite (vspace_resolve_xlate w v lab), Hx in Hr by done. discriminate Hr. }
    rewrite <- Hx. apply Hkept. intros j Hj. destruct (same_page _ _) eqn:E; [|done].
    rewrite (xlate_same_page _ _ _ _ E), Hnone in Hx by done. discriminate Hx.
Qed.

(** ** Properties *)

(** A world with one allocator at address 1, and an address space of partition 2 in
    it. *)
Definition demo_world : pt_world := mk_pt_world ∅ {[ 1 := demo_alloc ]} 0x90000000 0.

Lemma demo_world_source : vs_source_ok demo_world (vspace_zero <| vs_partition_id := 2 |> <| vs_alloc := 1 |>).
Proof.
  exists demo_alloc. split; [reflexivity|]. split; [apply demo_alloc_wf|].
  split; [split; vm_compute; congruence|]. split; vm_compute; congruence.
Qed.

Lemma demo_space : exists v w lab,
  vspace_init_with_alloc demo_world (Some vspace_zero) 7 2 1 = Some (ERR_OK, Some v, w) /\
  vspace_wf w v lab.
Proof.
  destruct (vspace_init_spec demo_world vspace_zero 7 2 1 demo_world_source) as (e & v & w & H & Hc).
  destruct Hc as [(-> & Hr)|(-> & Hwf & _)]; [|by eexists _, _, _].
  exfalso. assert (option_map (fun x => x.1.1) (vspace_init_with_alloc demo_world (Some vspace_zero) 7 2 1)
    = Some ERR_OK) as Hok by (vm_compute; reflexivity).
  rewrite H in Hok. discriminate Hok.
Qed.

(** C11. Mapping is correct: on a well-formed address space [vspace_map] has a result
    and keeps the tables well formed, whatever its arguments; when it returns
    [ERR_OK], every address of the range resolves to the corresponding physical
    address through an entry that is readable, writable and executable exactly
    as asked and a user page exactly outside partition 0; and, success or error,
    every address in no page of the range resolves as before. *)
Theorem vspace_map_correct w v lab vaddr paddr size perms color' :
  vspace_wf w v lab -> 0 <= vaddr -> 0 <= paddr -> fits 64 size ->
  vaddr + size <= 2 ^ 64 -> paddr + size <= 2 ^ 64 ->
  exists e v' w' lab',
    vspace_map w (Some v) vaddr paddr size perms color' = Some (e, Some v', w') /\
    vspace_wf w' v' lab' /\ vs_same v v' /\
    (e = ERR_OK -> forall va out, vaddr <= va < vaddr + size ->
       vspace_resolve w' (Some v') va (Some out) = Some (true, Some (paddr + (va - vaddr))) /\
       exists pte, xlate w' (vs_root v') va = Some pte /\
         Z.testbit pte 1 = has_any perms 1 /\ Z.testbit pte 2 = has_any perms 2 /\
         Z.testbit pte 3 = has_any perms 4 /\
         Z.testbit pte 4 = negb (vs_partition_id v =? 0)) /\
    (forall va out, (forall j, 0 <= j < size / PAGE_SIZE -> same_page (page_at vaddr j) va = false) ->
       vspace_resolve w' (Some v') va (Some out) = vspace_resolve w (Some v) va (Some out)).
Proof.
  intros Hwf Hv0 Hp0 Hsize Hvt Hpt.
  destruct (vspace_map_full w v lab vaddr paddr size perms color')
    as (e & v' & w' & lab' & Hrun & Hst & _ & Hok & Hkept & _); try done.
  exists e, v', w', lab'. split; [done|]. split; [apply Hst|]. split; [apply Hst|]. by split.
Qed.

Lemma vspace_map_correct_witness :
  exists v w v' w', vspace_map w (Some v) 0x400000 0x80500000 0x2000 5 0 = Some (ERR_OK, Some v', w') /\
    vspace_resolve w' (Some v') 0x401234 (Some 0) = Some (true, Some 0x80501234).
Proof.
  destruct demo_space as (v & w & lab & Hinit & Hwf).
  destruct (vspace_map_correct w v lab 0x400000 0x80500000 0x2000 5 0)
    as (e & v' & w' & lab' & Hrun & _ & _ & Hok & _); [exact Hwf|lia|lia|fits_now|lia|lia|].
  assert (e = ERR_OK) as ->.
  { assert (option_map (fun x => x.1.1)
      ('(_, v, w) ← vspace_init_with_alloc demo_world (Some vspace_zero) 7 2 1;
       vspace_map w v 0x400000 0x80500000 0x2000 5 0) = Some ERR_OK) as H by (vm_compute; reflexivity).
    rewrite Hinit in H. cbn [mbind option_bind] in H. rewrite Hrun in H. injection H as H. exact H. }
  exists v, w, v', w'. split; [exact Hrun|].
  destruct (Hok eq_refl 0x401234 0) as [Hr _]; [lia|]. exact Hr.
Defined.

(** C17. Unmapping: on a well-formed address space a page-aligned [vspace_unmap]
    succeeds, afterwards no address of the range resolves, every address in no
    page of the range resolves as before, and the tables stay well formed. *)
Theorem vspace_unmap_correct w v lab vaddr size :
  vspace_wf w v lab -> 0 <= vaddr -> fits 64 size -> vaddr + size <= 2 ^ 64 ->
  vaddr mod PAGE_SIZE = 0 -> size mod PAGE_SIZE = 0 ->
  exists w', vspace_unmap w (Some v) vaddr size = Some (ERR_OK, w') /\ vspace_wf w' v lab /\
    (forall va out, vaddr <= va < vaddr + size ->
       vspace_resolve w' (Some v) va (Some out) = Some (false, Some out)) /\
    (forall va out, (forall j, 0 <= j < size / PAGE_SIZE -> same_page (page_at vaddr j) va = false) ->
       vspace_resolve w' (Some v) va (Some out) = vspace_resolve w (Some v) va (Some out)).
Proof.
  intros Hwf Hv0 Hsize Hvt Hvm Hsm. pose proof (vw_root _ _ _ Hwf) as Hroot.
  destruct (vw_pages _ _ _ Hwf _ _ Hroot) as ((Hpos & _) & _).
  pose proof (size_pages size ltac:(unfold fits in Hsize; lia) Hsm) as Hpg.
  destruct (unmap_loop_spec (page_count size) w v lab vaddr size 0 Hwf ltac:(lia) Hpg Hsize)
    as (w' & Hrun & Hst & Hnone & Hkept). change (PAGE_SIZE * 0) with 0 in Hrun.
  assert (Z.of_nat (page_count size) = size / PAGE_SIZE) as Ecount.
  { unfold page_count. rewrite Z2Nat.id; [done|]. apply Z.div_pos; unfold fits, PAGE_SIZE in *; lia. }
  exists w'. unfold vspace_unmap, guard_ret.
  rewrite (proj2 (Z.eqb_neq (vs_root v) NULL)), Hvm, Hsm by (unfold NULL; lia). cbn [Z.eqb negb orb].
  rewrite Hrun. split_and!; [done|apply Hst| |].
  - intros va out Hva. rewrite (vspace_resolve_xlate w' v lab) by apply Hst.
    destruct (range_page vaddr size va Hv0 Hvm Hvt Hva) as (Hj0 & Hj1 & _ & Hsp & _).
    rewrite (Hnone va ((va - vaddr) / PAGE_SIZE)); [done| |done].
    split; [done|]. rewrite Z.add_0_l. unfold PAGE_SIZE in *. lia.
  - intros va out Hall. apply (resolve_frame w v lab w' v lab); try done.
    apply Hkept. intros j Hj. apply Hall. lia.
Qed.

Lemma vspace_unmap_step w v lab vaddr size e w' : vspace_wf w v lab -> fits 64 size ->
  vspace_unmap w (Some v) vaddr size = Some (e, w') -> tables_step w v lab w' v lab.
Proof.
  intros Hwf Hsize. unfold vspace_unmap, guard_ret.
  destruct (vs_root v =? NULL); [intros [= _ <-]; by apply tables_step_refl|].
  destruct (_ || _) eqn:E; [intros [= _ <-]; by apply tables_step_refl|]. bools.
  destruct (unmap_loop_spec (page_count size) w v lab vaddr size 0 Hwf) as (w1 & Hrun & Hst & _);
    [lia|apply size_pages; [unfold fits in Hsize; lia|done]|done|].
  change (PAGE_SIZE * 0) with 0 in Hrun. rewrite Hrun. by intros [= _ <-].
Qed.

Lemma vspace_unmap_correct_witness :
  exists v w w', vspace_unmap w (Some v) 0x400000 0x2000 = Some (ERR_OK, w') /\
    vspace_resolve w' (Some v) 0x401234 (Some 9) = Some (false, Some 9).
Proof.
  destruct demo_space as (v & w & lab & _ & Hwf).
  destruct (vspace_unmap_correct w v lab 0x400000 0x2000) as (w' & Hrun & _ & Hno & _);
    [exact Hwf|lia|fits_now|lia|reflexivity|reflexivity|].
  exists v, w, w'. split; [exact Hrun|]. apply Hno. lia.
Defined.

(** C12. Address spaces are isolated from each other: when two well-formed spaces with
    disjoint tables draw their pages from the same allocator, a mapping in one,
    with any arguments and any outcome, leaves every translation of the other as
    it was, leaves the other well formed, and keeps the tables disjoint. *)
Theorem vspace_spaces_isolated w v1 lab1 v2 lab2 vaddr paddr size perms color' :
  vspace_wf w v1 lab1 -> vspace_wf w v2 lab2 -> vs_alloc v2 = vs_alloc v1 -> lab1 ##ₘ lab2 ->
  fits 64 size ->
  exists e v1' w' lab1',
    vspace_map w (Some v1) vaddr paddr size perms color' = Some (e, Some v1', w') /\
    vspace_wf w' v1' lab1' /\ vspace_wf w' v2 lab2 /\ lab1' ##ₘ lab2 /\
    forall va out, vspace_resolve w' (Some v2) va (Some out) = vspace_resolve w (Some v2) va (Some out).
Proof.
  intros Hwf1 Hwf2 Hsame Hdis Hsize.
  destruct (vspace_map_cases w v1 lab1 vaddr paddr size perms color' Hwf1 Hsize)
    as (e & v1' & w' & lab1' & k & Hrun & Hst & Hfr & _).
  destruct (other_space _ _ _ _ _ _ v2 lab2 Hst Hfr Hwf2 Hsame Hdis) as (Hwf2' & Hdis' & Hx).
  exists e, v1', w', lab1'. split_and!; try done; [apply Hst|].
  intros va out. rewrite (vspace_resolve_xlate w' v2 lab2), (vspace_resolve_xlate w v2 lab2) by done.
  by rewrite Hx.
Qed.

(** Creating a space is a step that starts from no tables at all. *)
Lemma vspace_init_step w v w' : vspace_wf w' v {[vs_root v := LRoot]} ->
  vs_front w v <= vs_root v ->
  (forall p, p < vs_front w v -> pt_mem w' !! p = pt_mem w !! p) ->
  tables_step w v ∅ w' v {[vs_root v := LRoot]} /\ labels_fresh w v ∅ {[vs_root v := LRoot]}.
Proof.
  intros Hwf Hge Hmem. destruct (vw_pages _ _ _ Hwf (vs_root v) LRoot) as (_ & Hlt & _);
    [apply lookup_singleton_eq|].
  split.
  - constructor; try done; [apply map_empty_subseteq|lia|]. intros p Hp _. by apply Hmem.
  - intros p lb _ [<- _]%lookup_singleton_Some. done.
Qed.

(** Two spaces made one after the other on the allocator of the demo world. *)
Lemma demo_two_spaces : exists w v1 lab1 v2 lab2,
  vspace_wf w v1 lab1 /\ vspace_wf w v2 lab2 /\ vs_alloc v2 = vs_alloc v1 /\ lab1 ##ₘ lab2.
Proof.
  destruct (vspace_init_spec demo_world vspace_zero 7 2 1 demo_world_source)
    as (e & v1 & w1 & H1 & [(-> & _)|(-> & Hwf1 & _ & Hp1 & Hal1 & _)]).
  { exfalso. assert (option_map (fun x => x.1.1) (vspace_init_with_alloc demo_world (Some vspace_zero) 7 2 1)
      = Some ERR_OK) as Hok by (vm_compute; reflexivity). rewrite H1 in Hok. discriminate Hok. }
  destruct (vspace_init_spec w1 vspace_zero 8 2 1)
    as (e & v2 & w2 & H2 & [(-> & _)|(-> & Hwf2 & _ & _ & Hal2 & Hge & Hmem & _)]).
  { pose proof (vw_source _ _ _ Hwf1) as Hs. unfold vs_source_ok in *. rewrite Hal1, Hp1 in Hs. exact Hs. }
  { exfalso. assert (option_map (fun x => x.1.1)
      ('(_, _, w) ← vspace_init_with_alloc demo_world (Some vspace_zero) 7 2 1;
       vspace_init_with_alloc w (Some vspace_zero) 8 2 1) = Some ERR_OK) as Hok by (vm_compute; reflexivity).
    rewrite H1 in Hok. cbn [mbind option_bind] in Hok. rewrite H2 in Hok. discriminate Hok. }
  destruct (vspace_init_step w1 v2 w2 Hwf2 Hge Hmem) as [Hst Hfr].
  destruct (other_space _ _ _ _ _ _ v1 _ Hst Hfr Hwf1) as (Hwf1' & Hdis & _);
    [congruence|apply map_disjoint_empty_l|].
  exists w2, v2, {[vs_root v2 := LRoot]}, v1, {[vs_root v1 := LRoot]}.
  split_and!; [done..|congruence|done].
Qed.

Lemma vspace_spaces_isolated_witness :
  exists w v1 v2 e v1' w', vs_alloc v2 = vs_alloc v1 /\
    vspace_map w (Some v1) 0x400000 0x80500000 0x2000 5 0 = Some (e, Some v1', w') /\
    forall va out, vspace_resolve w' (Some v2) va (Some out) = vspace_resolve w (Some v2) va (Some out).
Proof.
  destruct demo_two_spaces as (w & v1 & lab1 & v2 & lab2 & Hwf1 & Hwf2 & Hal & Hdis).
  destruct (vspace_spaces_isolated w v1 lab1 v2 lab2 0x400000 0x80500000 0x2000 5 0)
    as (e & v1' & w' & lab1' & Hrun & _ & _ & _ & Hr); [exact Hwf1|exact Hwf2|exact Hal|exact Hdis|fits_now|].
  exists w, v1, v2, e, v1', w'. split; [exact Hal|]. split; [exact Hrun|exact Hr].
Defined.

(** Creating an address space on a well-formed source: [vspace_init_with_alloc]
    either reports [ERR_NO_MEM] or gives a well-formed space in which no address
    resolves; every existing well-formed space on the same source stays well
    formed, shares no table page with the new one and keeps its translations. *)
Theorem vspace_init_correct w vs asid part alloc :
  vs_source_ok w (vspace_zero <| vs_partition_id := part |> <| vs_alloc := alloc |>) ->
  exists e v w', vspace_init_with_alloc w (Some vs) asid part alloc = Some (e, Some v, w') /\
    ((e = ERR_NO_MEM /\ vs_root v = NULL) \/
     (e = ERR_OK /\ vspace_wf w' v {[vs_root v := LRoot]} /\
      (forall va out, vspace_resolve w' (Some v) va (Some out) = Some (false, Some out)) /\
      forall v2 lab2, vspace_wf w v2 lab2 -> vs_alloc v2 = alloc ->
        vspace_wf w' v2 lab2 /\ {[vs_root v := LRoot]} ##ₘ lab2 /\
        forall va out, vspace_resolve w' (Some v2) va (Some out) =
                       vspace_resolve w (Some v2) va (Some out))).
Proof.
  intros Hsrc. destruct (vspace_init_spec w vs asid part alloc Hsrc) as (e & v & w' & H & Hc).
  exists e, v, w'. split; [done|].
  destruct Hc as [?|(-> & Hwf & _ & _ & Hal & Hge & Hmem & Hx)]; [by left|right].
  destruct (vspace_init_step w v w' Hwf Hge Hmem) as [Hst Hfr].
  split_and!; try done.
  - intros va out. rewrite (vspace_resolve_xlate w' v _ va out Hwf), Hx. done.
  - intros v2 lab2 Hwf2 Hal2.
    destruct (other_space _ _ _ _ _ _ v2 lab2 Hst Hfr Hwf2) as (Hwf2' & Hdis & Hx2);
      [congruence|apply map_disjoint_empty_l|].
    split_and!; try done. intros va out.
    rewrite (vspace_resolve_xlate w' v2 lab2), (vspace_resolve_xlate w v2 lab2) by done. by rewrite Hx2.
Qed.

Lemma vspace_init_correct_witness :
  exists v w', vspace_init_with_alloc demo_world (Some vspace_zero) 7 2 1 = Some (ERR_OK, Some v, w') /\
    vspace_resolve w' (Some v) 0x1000 (Some 3) = Some (false, Some 3).
Proof.
  destruct (vspace_init_correct demo_world vspace_zero 7 2 1 demo_world_source) as (e & v & w' & H & Hc).
  destruct Hc as [(-> & _)|(-> & _ & Hr & _)].
  - exfalso. assert (option_map (fun x => x.1.1) (vspace_init_with_alloc demo_world (Some vspace_zero) 7 2 1)
      = Some ERR_OK) as Hok by (vm_compute; reflexivity).
    rewrite H in Hok. discriminate Hok.
  - exists v, w'. split; [exact H|]. apply Hr.
Defined.
