(* ===== verification/Io.v ===== *)
(** * Device registers and the serial line

    What the kernel does to devices is the list of its accesses to their
    registers, the newest first. What a device answers is not the program's: a
    read is a function of the accesses so far, a parameter of the definitions that
    read. The drivers of the serial line in boot.c, vga.c and flush.c are writes of
    bytes to [UART0]. A C string is the list of its characters without the
    terminator. *)

From Stdlib Require Import Ascii.
From stdpp Require Import strings.
From S2P Require Import Prelude Types.

Inductive io_event :=
| IoRead (width addr value : Z)
| IoWrite (width addr value : Z).

Abbreviation trace := (list io_event).

(** The value a device returns for a read of [width] bits at an address. *)
Abbreviation device := (trace -> Z -> Z -> Z).

Definition io_write (width addr v : Z) (t : trace) : trace := IoWrite width addr (wrap width v) :: t.
Definition io_read (dev : device) (width addr : Z) (t : trace) : Z * trace :=
  let v := wrap width (dev t width addr) in (v, IoRead width addr v :: t).

Definition UART0 : Z := 0x10000000.

Definition char_code (c : ascii) : Z := Z.of_N (N_of_ascii c).
Definition chars (s : string) : list Z := map char_code (String.list_ascii_of_string s).
(** A text and the newline that ends it. *)
Definition line (s : string) : list Z := chars s ++ [10].

Definition uart_putc (c : Z) (t : trace) : trace := io_write 8 UART0 c t.

(** The loop over the characters up to the terminator. *)
Definition uart_puts (s : list Z) (t : trace) : trace := fold_left (fun t c => uart_putc c t) s t.

(** [n<10 ? '0'+n : 'a'+n-10]. *)
Definition hex_digit (n : Z) : Z := if n <? 10 then 48 + n else 97 + n - 10.

(** The [k] low digits of [v], the highest first: [for(i=4*(k-1);i>=0;i-=4)]. *)
Fixpoint hex_digits (k : nat) (v : Z) : list Z :=
  match k with
  | O => []
  | S k' => hex_digit (Z.land (Z.shiftr v (4 * Z.of_nat k')) 0xF) :: hex_digits k' v
  end.

Definition uart_hex (v : Z) (t : trace) : trace := uart_putc 10 (uart_puts (hex_digits 16 v) t).
Definition uart_hex32 (v : Z) (t : trace) : trace := uart_puts (hex_digits 8 v) t.

(** flush.c. *)
Definition print_flush (t : trace) : trace := uart_puts (line "[FLUSH] microarch ok - done") t.
Definition print_boot_spawning (t : trace) : trace := uart_puts (line "[BOOT] ALL OK - spawning userspace") t.

(** ** What was sent *)

Definition sent (t : trace) : list Z :=
  rev (omap (fun e => match e with IoWrite 8 a v => if a =? UART0 then Some v else None | _ => None end) t).

Lemma uart_puts_app s1 s2 t : uart_puts (s1 ++ s2) t = uart_puts s2 (uart_puts s1 t).
Proof. apply fold_left_app. Qed.

Lemma sent_puts s : forall t, Forall (fits 8) s -> sent (uart_puts s t) = sent t ++ s.
Proof.
  induction s as [|c s IH]; intros t Hs; [by rewrite app_nil_r|].
  apply list.Forall_cons in Hs as [Hc Hs].
  change (uart_puts (c :: s) t) with (uart_puts s (uart_putc c t)). rewrite (IH (uart_putc c t) Hs).
  unfold sent. cbn -[wrap UART0]. rewrite Z.eqb_refl. cbn -[wrap]. rewrite wrap_small by done.
  by rewrite <- app_assoc.
Qed.

Lemma chars_fit s : Forall (fits 8) (chars s).
Proof.
  unfold chars. induction (String.list_ascii_of_string s) as [|a l IH]; constructor; [|done].
  unfold char_code, fits. pose proof (N_ascii_bounded a). lia.
Qed.

Lemma line_fits s : Forall (fits 8) (line s).
Proof. apply Forall_app. split; [apply chars_fit|]. constructor; [fits_now|constructor]. Qed.

(** The value of a number from its digits. *)
Definition digit_value (c : Z) : Z := if c <? 97 then c - 48 else c - 97 + 10.
Definition hex_value (l : list Z) : Z := fold_left (fun v c => 16 * v + digit_value c) l 0.

Lemma hex_digit_value n : 0 <= n < 16 -> digit_value (hex_digit n) = n.
Proof. intros. unfold digit_value, hex_digit. branches; lia. Qed.

Lemma hex_digits_value k : forall v a, 0 <= v ->
  fold_left (fun v c => 16 * v + digit_value c) (hex_digits k v) a = 16 ^ Z.of_nat k * a + v mod 16 ^ Z.of_nat k.
Proof.
  induction k as [|k IH]; intros v a Hv.
  { cbn. rewrite Z.mod_1_r. lia. }
  cbn [hex_digits fold_left]. rewrite hex_digit_value.
  2:{ change 0xF with (Z.ones 4). rewrite Z.land_ones by lia. apply Z.mod_pos_bound. lia. }
  rewrite IH by done. change 0xF with (Z.ones 4). rewrite Z.land_ones, Z.shiftr_div_pow2 by lia.
  replace (2 ^ (4 * Z.of_nat k)) with (16 ^ Z.of_nat k) by (change 16 with (2 ^ 4); rewrite <- Z.pow_mul_r by lia; done).
  change (2 ^ 4) with 16. rewrite (Nat2Z.inj_succ k), Z.pow_succ_r by lia.
  set (b := 16 ^ Z.of_nat k). assert (0 < b) by (apply Z.pow_pos_nonneg; lia).
  rewrite (Z.mul_comm 16 b), Z.rem_mul_r by lia. lia.
Qed.

Lemma hex_digits_fit k v : Forall (fits 8) (hex_digits k v).
Proof.
  induction k as [|k IH]; [constructor|]. constructor; [|done]. change 0xF with (Z.ones 4).
  rewrite Z.land_ones by lia. pose proof (Z.mod_pos_bound (Z.shiftr v (4 * Z.of_nat k)) (2 ^ 4)).
  unfold hex_digit, fits. branches; lia.
Qed.

(** ** Confined access

    A trace that grows only by events of a kind. *)

Definition extends (P : io_event -> Prop) (t t' : trace) : Prop := exists l, t' = l ++ t /\ Forall P l.

#[export] Instance extends_preorder P : PreOrder (extends P).
Proof.
  split.
  - intros t. by exists [].
  - intros t1 t2 t3 (l & -> & Hl) (l' & -> & Hl'). exists (l' ++ l). rewrite app_assoc.
    split; [done|]. by apply Forall_app.
Qed.

Section Extends.
Context (P : io_event -> Prop).

Lemma extends_write t0 t w a v : P (IoWrite w a (wrap w v)) -> extends P t0 t -> extends P t0 (io_write w a v t).
Proof. intros HP H. etransitivity; [exact H|]. by exists [IoWrite w a (wrap w v)]; split; [|constructor]. Qed.

Lemma extends_read dev t0 t w a v t' : io_read dev w a t = (v, t') -> P (IoRead w a v) ->
  extends P t0 t -> extends P t0 t'.
Proof.
  intros [= <- <-] HP H. etransitivity; [exact H|].
  by exists [IoRead w a (wrap w (dev t w a))]; split; [|constructor].
Qed.

Hypothesis Huart : forall v, P (IoWrite 8 UART0 v).

Lemma extends_putc t0 t c : extends P t0 t -> extends P t0 (uart_putc c t).
Proof. apply extends_write, Huart. Qed.

Lemma extends_puts t0 s : forall t, extends P t0 t -> extends P t0 (uart_puts s t).
Proof.
  induction s as [|c s IH]; intros t H; [done|]. change (extends P t0 (uart_puts s (uart_putc c t))).
  by apply IH, extends_putc.
Qed.

Lemma extends_hex t0 t v : extends P t0 t -> extends P t0 (uart_hex v t).
Proof. intros H. by apply extends_putc, extends_puts. Qed.

Lemma extends_hex32 t0 t v : extends P t0 t -> extends P t0 (uart_hex32 v t).
Proof. apply extends_puts. Qed.
End Extends.

Create HintDb io discriminated.
#[export] Hint Resolve extends_putc extends_puts extends_hex extends_hex32 : io.
#[export] Hint Extern 1 (extends _ ?t ?t) => reflexivity : io.

(** ** Property *)

(** Numbers printed on the serial line can be read back: [uart_hex] of a 64-bit value
    sends exactly sixteen hexadecimal digits that denote the value, and a newline. *)
Theorem uart_hex_roundtrip v t : fits 64 v ->
  exists l, sent (uart_hex v t) = sent t ++ l ++ [10] /\ length l = 16%nat /\ hex_value l = v.
Proof.
  intros Hv. exists (hex_digits 16 v). unfold uart_hex.
  change (uart_putc 10 ?x) with (uart_puts [10] x). rewrite <- uart_puts_app, sent_puts.
  - split; [done|]. split; [done|]. unfold hex_value. rewrite hex_digits_value by apply Hv.
    change (16 ^ Z.of_nat 16) with (2 ^ 64). rewrite Z.mod_small by exact Hv. lia.
  - apply Forall_app. split; [apply hex_digits_fit|]. constructor; [fits_now|constructor].
Qed.

Lemma uart_hex_roundtrip_witness :
  exists l, sent (uart_hex 0xDEADBEEF []) = [] ++ l ++ [10] /\ hex_value l = 0xDEADBEEF.
Proof.
  destruct (uart_hex_roundtrip 0xDEADBEEF []) as (l & H & _ & Hv); [fits_now|].
  exists l. split; [exact H|exact Hv].
Defined.
