(* ===== verification/Vga.v ===== *)
(** * vga.h, vga.c: the framebuffer console

    The framebuffer is a map from pixel numbers to colours; a store outside the
    [VGA_WIDTH * VGA_HEIGHT] pixels of the screen has no defined result. [vga_init]
    finds the display on the PCI bus through its registers: their accesses are
    recorded in the trace, and what the bus answers is the parameter [dev]. *)

From stdpp Require Import strings.
From S2P Require Import Prelude Types Cheri Cap Alloc VSpace Io.

Definition VGA_FB_BASE : Z := 0x40000000.
Definition VGA_WIDTH : Z := 800.
Definition VGA_HEIGHT : Z := 600.
Definition VGA_BPP : Z := 32.
Definition CONSOLE_COLS : Z := VGA_WIDTH / 8.
Definition CONSOLE_ROWS : Z := VGA_HEIGHT / 16.

Definition VBE_DISPI_INDEX_ID : Z := 0x0.
Definition VBE_DISPI_INDEX_XRES : Z := 0x1.
Definition VBE_DISPI_INDEX_YRES : Z := 0x2.
Definition VBE_DISPI_INDEX_BPP : Z := 0x3.
Definition VBE_DISPI_INDEX_ENABLE : Z := 0x4.
Definition VBE_DISPI_ID5 : Z := 0xB0C5.
Definition VBE_DISPI_ENABLED : Z := 0x01.
Definition VBE_DISPI_LFB_ENABLED : Z := 0x40.
Definition VGA_BAR2_BASE : Z := 0x41000000.
Definition VGA_BAR2_SIZE : Z := PAGE_SIZE.

Definition font8x8 : list (list Z) :=
  [[0x00; 0x00; 0x00; 0x00; 0x00; 0x00; 0x00; 0x00];
   [0x00; 0x00; 0x00; 0x00; 0x00; 0x00; 0x00; 0x00];
   [0x00; 0x00; 0x00; 0x00; 0x00; 0x00; 0x00; 0x00];
   [0x00; 0x00; 0x00; 0x00; 0x00; 0x00; 0x00; 0x00];
   [0x00; 0x00; 0x00; 0x00; 0x00; 0x00; 0x00; 0x00];
   [0x00; 0x00; 0x00; 0x00; 0x00; 0x00; 0x00; 0x00];
   [0x00; 0x00; 0x00; 0x00; 0x00; 0x00; 0x00; 0x00];
   [0x00; 0x00; 0x00; 0x00; 0x00; 0x00; 0x00; 0x00];
   [0x00; 0x00; 0x00; 0x00; 0x00; 0x00; 0x00; 0x00];
   [0x00; 0x00; 0x00; 0x00; 0x00; 0x00; 0x00; 0x00];
   [0x00; 0x00; 0x00; 0x00; 0x00; 0x00; 0x00; 0x00];
   [0x00; 0x00; 0x00; 0x00; 0x00; 0x00; 0x00; 0x00];
   [0x00; 0x00; 0x00; 0x00; 0x00; 0x00; 0x00; 0x00];
   [0x00; 0x00; 0x00; 0x00; 0x00; 0x00; 0x00; 0x00];
   [0x00; 0x00; 0x00; 0x00; 0x00; 0x00; 0x00; 0x00];
   [0x00; 0x00; 0x00; 0x00; 0x00; 0x00; 0x00; 0x00];
   [0x00; 0x00; 0x00; 0x00; 0x00; 0x00; 0x00; 0x00];
   [0x00; 0x00; 0x00; 0x00; 0x00; 0x00; 0x00; 0x00];
   [0x00; 0x00; 0x00; 0x00; 0x00; 0x00; 0x00; 0x00];
   [0x00; 0x00; 0x00; 0x00; 0x00; 0x00; 0x00; 0x00];
   [0x00; 0x00; 0x00; 0x00; 0x00; 0x00; 0x00; 0x00];
   [0x00; 0x00; 0x00; 0x00; 0x00; 0x00; 0x00; 0x00];
   [0x00; 0x00; 0x00; 0x00; 0x00; 0x00; 0x00; 0x00];
   [0x00; 0x00; 0x00; 0x00; 0x00; 0x00; 0x00; 0x00];
   [0x00; 0x00; 0x00; 0x00; 0x00; 0x00; 0x00; 0x00];
   [0x00; 0x00; 0x00; 0x00; 0x00; 0x00; 0x00; 0x00];
   [0x00; 0x00; 0x00; 0x00; 0x00; 0x00; 0x00; 0x00];
   [0x00; 0x00; 0x00; 0x00; 0x00; 0x00; 0x00; 0x00];
   [0x00; 0x00; 0x00; 0x00; 0x00; 0x00; 0x00; 0x00];
   [0x00; 0x00; 0x00; 0x00; 0x00; 0x00; 0x00; 0x00];
   [0x00; 0x00; 0x00; 0x00; 0x00; 0x00; 0x00; 0x00];
   [0x00; 0x00; 0x00; 0x00; 0x00; 0x00; 0x00; 0x00];
   [0x00; 0x00; 0x00; 0x00; 0x00; 0x00; 0x00; 0x00];
   [0x18; 0x3C; 0x3C; 0x18; 0x18; 0x00; 0x18; 0x00];
   [0x36; 0x36; 0x00; 0x00; 0x00; 0x00; 0x00; 0x00];
   [0x36; 0x36; 0x7F; 0x36; 0x7F; 0x36; 0x36; 0x00];
   [0x0C; 0x3E; 0x03; 0x1E; 0x30; 0x1F; 0x0C; 0x00];
   [0x00; 0x63; 0x33; 0x18; 0x0C; 0x66; 0x63; 0x00];
   [0x1C; 0x36; 0x1C; 0x6E; 0x3B; 0x33; 0x6E; 0x00];
   [0x06; 0x06; 0x03; 0x00; 0x00; 0x00; 0x00; 0x00];
   [0x18; 0x0C; 0x06; 0x06; 0x06; 0x0C; 0x18; 0x00];
   [0x06; 0x0C; 0x18; 0x18; 0x18; 0x0C; 0x06; 0x00];
   [0x00; 0x66; 0x3C; 0xFF; 0x3C; 0x66; 0x00; 0x00];
   [0x00; 0x0C; 0x0C; 0x3F; 0x0C; 0x0C; 0x00; 0x00];
   [0x00; 0x00; 0x00; 0x00; 0x00; 0x0C; 0x0C; 0x06];
   [0x00; 0x00; 0x00; 0x3F; 0x00; 0x00; 0x00; 0x00];
   [0x00; 0x00; 0x00; 0x00; 0x00; 0x0C; 0x0C; 0x00];
   [0x60; 0x30; 0x18; 0x0C; 0x06; 0x03; 0x01; 0x00];
   [0x3E; 0x63; 0x73; 0x7B; 0x6F; 0x67; 0x3E; 0x00];
   [0x0C; 0x0E; 0x0C; 0x0C; 0x0C; 0x0C; 0x3F; 0x00];
   [0x1E; 0x33; 0x30; 0x1C; 0x06; 0x33; 0x3F; 0x00];
   [0x1E; 0x33; 0x30; 0x1C; 0x30; 0x33; 0x1E; 0x00];
   [0x38; 0x3C; 0x36; 0x33; 0x7F; 0x30; 0x78; 0x00];
   [0x3F; 0x03; 0x1F; 0x30; 0x30; 0x33; 0x1E; 0x00];
   [0x1C; 0x06; 0x03; 0x1F; 0x33; 0x33; 0x1E; 0x00];
   [0x3F; 0x33; 0x30; 0x18; 0x0C; 0x0C; 0x0C; 0x00];
   [0x1E; 0x33; 0x33; 0x1E; 0x33; 0x33; 0x1E; 0x00];
   [0x1E; 0x33; 0x33; 0x3E; 0x30; 0x18; 0x0E; 0x00];
   [0x00; 0x0C; 0x0C; 0x00; 0x00; 0x0C; 0x0C; 0x00];
   [0x00; 0x0C; 0x0C; 0x00; 0x00; 0x0C; 0x0C; 0x06];
   [0x18; 0x0C; 0x06; 0x03; 0x06; 0x0C; 0x18; 0x00];
   [0x00; 0x00; 0x3F; 0x00; 0x00; 0x3F; 0x00; 0x00];
   [0x06; 0x0C; 0x18; 0x30; 0x18; 0x0C; 0x06; 0x00];
   [0x1E; 0x33; 0x30; 0x18; 0x0C; 0x00; 0x0C; 0x00];
   [0x3E; 0x63; 0x7B; 0x7B; 0x7B; 0x03; 0x1E; 0x00];
   [0x0C; 0x1E; 0x33; 0x33; 0x3F; 0x33; 0x33; 0x00];
   [0x3F; 0x66; 0x66; 0x3E; 0x66; 0x66; 0x3F; 0x00];
   [0x3C; 0x66; 0x03; 0x03; 0x03; 0x66; 0x3C; 0x00];
   [0x1F; 0x36; 0x66; 0x66; 0x66; 0x36; 0x1F; 0x00];
   [0x7F; 0x46; 0x16; 0x1E; 0x16; 0x46; 0x7F; 0x00];
   [0x7F; 0x46; 0x16; 0x1E; 0x16; 0x06; 0x0F; 0x00];
   [0x3C; 0x66; 0x03; 0x03; 0x73; 0x66; 0x7C; 0x00];
   [0x33; 0x33; 0x33; 0x3F; 0x33; 0x33; 0x33; 0x00];
   [0x1E; 0x0C; 0x0C; 0x0C; 0x0C; 0x0C; 0x1E; 0x00];
   [0x78; 0x30; 0x30; 0x30; 0x33; 0x33; 0x1E; 0x00];
   [0x67; 0x66; 0x36; 0x1E; 0x36; 0x66; 0x67; 0x00];
   [0x0F; 0x06; 0x06; 0x06; 0x46; 0x66; 0x7F; 0x00];
   [0x63; 0x77; 0x7F; 0x7F; 0x6B; 0x63; 0x63; 0x00];
   [0x63; 0x67; 0x6F; 0x7B; 0x73; 0x63; 0x63; 0x00];
   [0x1C; 0x36; 0x63; 0x63; 0x63; 0x36; 0x1C; 0x00];
   [0x3F; 0x66; 0x66; 0x3E; 0x06; 0x06; 0x0F; 0x00];
   [0x1E; 0x33; 0x33; 0x33; 0x3B; 0x1E; 0x38; 0x00];
   [0x3F; 0x66; 0x66; 0x3E; 0x36; 0x66; 0x67; 0x00];
   [0x1E; 0x33; 0x07; 0x0E; 0x38; 0x33; 0x1E; 0x00];
   [0x3F; 0x2D; 0x0C; 0x0C; 0x0C; 0x0C; 0x1E; 0x00];
   [0x33; 0x33; 0x33; 0x33; 0x33; 0x33; 0x3F; 0x00];
   [0x33; 0x33; 0x33; 0x33; 0x33; 0x1E; 0x0C; 0x00];
   [0x63; 0x63; 0x63; 0x6B; 0x7F; 0x77; 0x63; 0x00];
   [0x63; 0x63; 0x36; 0x1C; 0x1C; 0x36; 0x63; 0x00];
   [0x33; 0x33; 0x33; 0x1E; 0x0C; 0x0C; 0x1E; 0x00];
   [0x7F; 0x63; 0x31; 0x18; 0x4C; 0x66; 0x7F; 0x00];
   [0x1E; 0x06; 0x06; 0x06; 0x06; 0x06; 0x1E; 0x00];
   [0x03; 0x06; 0x0C; 0x18; 0x30; 0x60; 0x40; 0x00];
   [0x1E; 0x18; 0x18; 0x18; 0x18; 0x18; 0x1E; 0x00];
   [0x08; 0x1C; 0x36; 0x63; 0x00; 0x00; 0x00; 0x00];
   [0x00; 0x00; 0x00; 0x00; 0x00; 0x00; 0x00; 0xFF];
   [0x0C; 0x0C; 0x18; 0x00; 0x00; 0x00; 0x00; 0x00];
   [0x00; 0x00; 0x1E; 0x30; 0x3E; 0x33; 0x6E; 0x00];
   [0x07; 0x06; 0x06; 0x3E; 0x66; 0x66; 0x3B; 0x00];
   [0x00; 0x00; 0x1E; 0x33; 0x03; 0x33; 0x1E; 0x00];
   [0x38; 0x30; 0x30; 0x3e; 0x33; 0x33; 0x6E; 0x00];
   [0x00; 0x00; 0x1E; 0x33; 0x3f; 0x03; 0x1E; 0x00];
   [0x1C; 0x36; 0x06; 0x0f; 0x06; 0x06; 0x0F; 0x00];
   [0x00; 0x00; 0x6E; 0x33; 0x33; 0x3E; 0x30; 0x1F];
   [0x07; 0x06; 0x36; 0x6E; 0x66; 0x66; 0x67; 0x00];
   [0x0C; 0x00; 0x0E; 0x0C; 0x0C; 0x0C; 0x1E; 0x00];
   [0x30; 0x00; 0x30; 0x30; 0x30; 0x33; 0x33; 0x1E];
   [0x07; 0x06; 0x66; 0x36; 0x1E; 0x36; 0x67; 0x00];
   [0x0E; 0x0C; 0x0C; 0x0C; 0x0C; 0x0C; 0x1E; 0x00];
   [0x00; 0x00; 0x33; 0x7F; 0x7F; 0x6B; 0x63; 0x00];
   [0x00; 0x00; 0x1F; 0x33; 0x33; 0x33; 0x33; 0x00];
   [0x00; 0x00; 0x1E; 0x33; 0x33; 0x33; 0x1E; 0x00];
   [0x00; 0x00; 0x3B; 0x66; 0x66; 0x3E; 0x06; 0x0F];
   [0x00; 0x00; 0x6E; 0x33; 0x33; 0x3E; 0x30; 0x78];
   [0x00; 0x00; 0x3B; 0x6E; 0x66; 0x06; 0x0F; 0x00];
   [0x00; 0x00; 0x3E; 0x03; 0x1E; 0x30; 0x1F; 0x00];
   [0x08; 0x0C; 0x3E; 0x0C; 0x0C; 0x2C; 0x18; 0x00];
   [0x00; 0x00; 0x33; 0x33; 0x33; 0x33; 0x6E; 0x00];
   [0x00; 0x00; 0x33; 0x33; 0x33; 0x1E; 0x0C; 0x00];
   [0x00; 0x00; 0x63; 0x6B; 0x7F; 0x7F; 0x36; 0x00];
   [0x00; 0x00; 0x63; 0x36; 0x1C; 0x36; 0x63; 0x00];
   [0x00; 0x00; 0x33; 0x33; 0x33; 0x3E; 0x30; 0x1F];
   [0x00; 0x00; 0x3F; 0x19; 0x0C; 0x26; 0x3F; 0x00];
   [0x38; 0x0C; 0x0C; 0x07; 0x0C; 0x0C; 0x38; 0x00];
   [0x18; 0x18; 0x18; 0x00; 0x18; 0x18; 0x18; 0x00];
   [0x07; 0x0C; 0x0C; 0x38; 0x0C; 0x0C; 0x07; 0x00];
   [0x6E; 0x3B; 0x00; 0x00; 0x00; 0x00; 0x00; 0x00];
   [0x00; 0x00; 0x00; 0x00; 0x00; 0x00; 0x00; 0x00]].

(** The static variables of vga.c. *)
Record vga_t := mk_vga {
  fb : gmap Z Z;
  fb_init_done : bool;
  console_cx : Z;
  console_cy : Z
}.
#[export] Instance vga_eta : Eta vga_t := fun v =>
  mk_vga (fb v) (fb_init_done v) (console_cx v) (console_cy v).

Definition vga_zero : vga_t := mk_vga ∅ false 0 0.

Definition PIXELS : Z := VGA_WIDTH * VGA_HEIGHT.

(** [fb[i] = c]. *)
Definition fb_write (v : vga_t) (i c : Z) : option vga_t :=
  if (0 <=? i) && (i <? PIXELS) then Some (v <| fb ::= insert i c |>) else None.

(** A value of type [int]; an operation that leaves the range is undefined. *)
Definition sint (z : Z) : option Z := if (- 2 ^ 31 <=? z) && (z <? 2 ^ 31) then Some z else None.

(** The body of the two loops of [draw_char] and [vga_console_putc]. *)
Definition draw_pixel (x y fg bg bits row col : Z) (v : vga_t) : option vga_t :=
  px ← sint (x * 8 + col);
  py ← sint (y * 16 + row * 2);
  if (VGA_WIDTH <=? px) || (VGA_HEIGHT <=? py) then Some v
  else
    let colr := if has_any bits (Z.shiftl 1 col) then fg else bg in
    v1 ← fb_write v (py * VGA_WIDTH + px) colr;
    if py + 1 <? VGA_HEIGHT then fb_write v1 ((py + 1) * VGA_WIDTH + px) colr else Some v1.

(** Characters without a glyph are shown as a question mark. *)
Definition printable (c : Z) : Z := if (c <? 0x20) || (0x7E <? c) then 63 else c.

Definition draw_char (x y c fg bg : Z) (v : vga_t) : option vga_t :=
  g ← font8x8.[printable c];
  for_loop 8 0 (fun row v =>
    bits ← g.[row];
    for_loop 8 0 (fun col v => draw_pixel x y fg bg bits row col v) v) v.

Definition vga_is_initialized (v : vga_t) : bool := fb_init_done v.

Definition vga_console_clear (v : vga_t) : vga_t :=
  retif negb (fb_init_done v) with v;;
  v <| console_cx := 0 |> <| console_cy := 0 |>.

(** [for(i = 0; i < VGA_WIDTH*VGA_HEIGHT; i++) fb[i] = color;] *)
Definition fill_screen (color' : Z) (v : vga_t) : option vga_t :=
  for_loop (Z.to_nat PIXELS) 0 (fun i v => fb_write v i color') v.

Definition vga_console_scroll (v : vga_t) : option vga_t :=
  retif negb (fb_init_done v) with Some v;;
  v1 ← fill_screen 0 v;
  Some (v1 <| console_cy := 0 |> <| console_cx := 0 |>).

(** [console_cx=0; console_cy++;] and the scroll at the bottom. *)
Definition console_newline (v : vga_t) : option vga_t :=
  let v1 := v <| console_cx := 0 |> <| console_cy ::= fun y => y + 1 |> in
  if CONSOLE_ROWS <=? console_cy v1 then
    v2 ← vga_console_scroll v1;
    Some (v2 <| console_cy := CONSOLE_ROWS - 1 |>)
  else Some v1.

Definition vga_console_putc (c : Z) (v : vga_t) : option vga_t :=
  retif negb (fb_init_done v) with Some v;;
  retif c =? 13 with Some (v <| console_cx := 0 |>);;
  retif c =? 10 with console_newline v;;
  v1 ← draw_char (console_cx v) (console_cy v) c 0x00FFFFFF 0x00000000 v;
  let v2 := v1 <| console_cx ::= fun x => x + 1 |> in
  if CONSOLE_COLS <=? console_cx v2 then console_newline v2 else Some v2.

(** The loops over the characters of a string. *)
Fixpoint vga_console_puts (s : list Z) (v : vga_t) : option vga_t :=
  match s with
  | [] => Some v
  | c :: s' => v1 ← vga_console_putc c v; vga_console_puts s' v1
  end.

Definition vga_clear (color' : Z) (v : vga_t) : option vga_t :=
  retif negb (fb_init_done v) with Some v;;
  fill_screen color' v.

Fixpoint puts_loop (s : list Z) (x y : Z) (v : vga_t) : option vga_t :=
  match s with
  | [] => Some v
  | c :: s' =>
      if c =? 10 then y' ← sint (y + 1); puts_loop s' 0 y' v
      else
        v1 ← draw_char x y c 0x00FFFFFF 0x00000000 v;
        x' ← sint (x + 1);
        if VGA_WIDTH / 8 <=? x' then y' ← sint (y + 1); puts_loop s' 0 y' v1
        else puts_loop s' x' y v1
  end.

Definition vga_puts (s : list Z) (v : vga_t) : option vga_t :=
  retif negb (fb_init_done v) with Some v;;
  puts_loop s 0 0 v.

(** The loop of [vga_puts_at], which never wraps a line, and of [vga_render_text],
    which does. *)
Fixpoint text_loop (wraps : bool) (s : list Z) (x cx cy fg bg : Z) (v : vga_t) : option vga_t :=
  match s with
  | [] => Some v
  | c :: s' =>
      if c =? 10 then cy' ← sint (cy + 1); text_loop wraps s' x x cy' fg bg v
      else
        v1 ← draw_char cx cy c fg bg v;
        cx' ← sint (cx + 1);
        if wraps && (VGA_WIDTH / 8 <=? cx') then cy' ← sint (cy + 1); text_loop wraps s' x x cy' fg bg v1
        else text_loop wraps s' x cx' cy fg bg v1
  end.

Definition vga_puts_at (s : list Z) (x y fg bg : Z) (v : vga_t) : option vga_t :=
  retif negb (fb_init_done v) with Some v;;
  text_loop false s x x y fg bg v.

Definition vga_render_text (text : option (list Z)) (x y fg bg : Z) (v : vga_t) : option vga_t :=
  match text with
  | None => Some v
  | Some s => retif negb (fb_init_done v) with Some v;; text_loop true s x x y fg bg v
  end.

Definition vga_draw_hello (v : vga_t) : option vga_t :=
  retif negb (fb_init_done v) with Some v;;
  vga_console_puts (line "Hello world") (vga_console_clear v).

(** ** Finding the display *)

(** What [vga_init] knows about the display when it has found it: the values read back
    from the two base registers and the address of its configuration space. *)
Record display_t := mk_display { found_bar0 : Z; found_bar2 : Z; found_ecam : Z }.

Section Init.
Context (dev : device).

(** Configure the display whose configuration space is at [ecam]. *)
Definition setup_display (devno ecam : Z) (t : trace) : display_t * trace :=
  let t := uart_putc 10 (uart_hex32 devno (uart_puts (chars "[VGA] bochs-display found at dev ") t)) in
  let bar0 := ecam + 0x10 in
  let bar1 := ecam + 0x14 in
  let bar2 := ecam + 0x18 in
  let bar3 := ecam + 0x1C in
  let cmd := ecam + 0x04 in
  let '(orig_bar0, t) := io_read dev 32 bar0 t in
  let '(orig_bar2, t) := io_read dev 32 bar2 t in
  let t := uart_hex32 orig_bar0 (uart_puts (chars "[VGA] orig BAR0 ") t) in
  let t := uart_putc 10 (uart_hex32 orig_bar2 (uart_puts (chars " BAR2 ") t)) in
  let bar0_64 := Z.land orig_bar0 0x6 =? 0x4 in
  let bar2_64 := Z.land orig_bar2 0x6 =? 0x4 in
  let t := uart_hex32 (Z.b2z bar0_64) (uart_puts (chars "[VGA] BAR0 64-bit? ") t) in
  let t := uart_putc 10 (uart_hex32 (Z.b2z bar2_64) (uart_puts (chars " BAR2 64-bit? ") t)) in
  let t := io_write 32 bar0 VGA_FB_BASE t in
  let t := if bar0_64 then io_write 32 bar1 0 t else t in
  let t := io_write 32 bar2 VGA_BAR2_BASE t in
  let t := if bar2_64 then io_write 32 bar3 0 t else t in
  let '(read_bar0, t) := io_read dev 32 bar0 t in
  let '(read_bar2, t) := io_read dev 32 bar2 t in
  let t := uart_hex32 read_bar0 (uart_puts (chars "[VGA] programmed BAR0 ") t) in
  let t := uart_putc 10 (uart_hex32 read_bar2 (uart_puts (chars " BAR2 ") t)) in
  let '(c, t) := io_read dev 32 cmd t in
  let c := Z.lor c 0x07 in
  let t := io_write 32 cmd c t in
  let t := uart_putc 10 (uart_hex32 c (uart_puts (chars "[VGA] PCI CMD ") t)) in
  let vbe := VGA_BAR2_BASE + 0x500 in
  let t := uart_hex vbe (uart_puts (chars "[VGA] VBE via BAR2 MMIO ") t) in
  let t := io_write 16 (vbe + 2 * VBE_DISPI_INDEX_ID) VBE_DISPI_ID5 t in
  let t := io_write 16 (vbe + 2 * VBE_DISPI_INDEX_XRES) VGA_WIDTH t in
  let t := io_write 16 (vbe + 2 * VBE_DISPI_INDEX_YRES) VGA_HEIGHT t in
  let t := io_write 16 (vbe + 2 * VBE_DISPI_INDEX_BPP) 32 t in
  let t := io_write 16 (vbe + 2 * VBE_DISPI_INDEX_ENABLE) (Z.lor VBE_DISPI_ENABLED VBE_DISPI_LFB_ENABLED) t in
  let t := uart_putc 120 (uart_hex32 VGA_WIDTH (uart_puts (chars "[VGA] VBE set ") t)) in
  let t := uart_puts (line "x32 enable 0x41") (uart_hex32 VGA_HEIGHT t) in
  let '(id_read, t) := io_read dev 16 (vbe + 2 * VBE_DISPI_INDEX_ID) t in
  let t := uart_putc 10 (uart_hex32 id_read (uart_puts (chars "[VGA] VBE ID readback ") t)) in
  (mk_display read_bar0 read_bar2 ecam, t).

(** [for(dev=0; dev<32; dev++)]: [n] devices from number [devno] on. *)
Fixpoint pci_scan (n : nat) (devno : Z) (t : trace) : option display_t * trace :=
  match n with
  | O => (None, t)
  | S n' =>
      let ecam := Z.lor 0x30000000 (Z.shiftl devno 15) in
      let '(id, t) := io_read dev 32 ecam t in
      if id =? 0xffffffff then pci_scan n' (devno + 1) t
      else
        let ven := Z.land id 0xFFFF in
        let did := Z.land (Z.shiftr id 16) 0xFFFF in
        let t := uart_hex32 devno (uart_puts (chars "[VGA] PCI dev ") t) in
        let t := uart_putc 10 (uart_hex32 id (uart_puts (chars " vendor/device ") t)) in
        if (ven =? 0x1234) && (did =? 0x1111)
        then let '(d, t) := setup_display devno ecam t in (Some d, t)
        else pci_scan n' (devno + 1) t
  end.

(** The part after the three mappings. *)
Definition vga_start (v : vga_t) (t : trace) : option (kerror_t * vga_t * trace) :=
  let t := uart_puts (line "[VGA] PCI scan ECAM 0x30000000") t in
  let '(found, t) := pci_scan 32 0 t in
  match found with
  | None => Some (ERR_NO_MEM, v, uart_puts (line "[VGA] FAIL bochs-display not found (0x1234:0x1111)") t)
  | Some d =>
      let v := v <| fb_init_done := true |> in
      let t := uart_hex (found_bar0 d) (uart_puts (chars "[VGA] BAR0=") t) in
      let t := uart_hex (found_bar2 d) (uart_puts (chars "[VGA] BAR2=") t) in
      let t := uart_hex (found_ecam d) (uart_puts (chars "[VGA] ECAM ") t) in
      let t := uart_puts (line "[VGA] init done, clearing FB") t in
      v ← for_loop 100 0 (fun i v => fb_write v i 0) v;
      let t := uart_puts (line "[VGA] FB clear done") t in
      Some (ERR_OK, v <| console_cx := 0 |> <| console_cy := 0 |>, t)
  end.

(** [(x + PAGE_SIZE-1) & ~(PAGE_SIZE-1)] in 64 bits. *)
Definition page_round_up (x : Z) : Z := Z.land (u64 (x + PAGE_SIZE - 1)) (bnot 64 (PAGE_SIZE - 1)).

Definition vga_init (w : pt_world) (vs : option vspace_t) (v : vga_t) (t : trace)
    : option (kerror_t * option vspace_t * pt_world * vga_t * trace) :=
  let fb_size := page_round_up (VGA_WIDTH * VGA_HEIGHT * (VGA_BPP / 8)) in
  '(e, vs, w) ← vspace_map w vs VGA_FB_BASE VGA_FB_BASE fb_size 0x7 0;
  retif negb (is_ok e) with Some (e, vs, w, v, t);;
  '(e, vs, w) ← vspace_map w vs VGA_BAR2_BASE VGA_BAR2_BASE VGA_BAR2_SIZE 0x7 0;
  retif negb (is_ok e) with Some (e, vs, w, v, t);;
  '(e, vs, w) ← vspace_map w vs 0x30000000 0x30000000 0x1000000 0x7 0;
  retif negb (is_ok e) with Some (e, vs, w, v, t);;
  '(e, v, t) ← vga_start v t;
  Some (e, vs, w, v, t).
End Init.

(** ** The screen

    The pixel at column [px] of line [py], and the colour the font gives it as part of
    the character cell it lies in. *)

Definition pixel (v : vga_t) (px py : Z) : option Z := fb v !! (py * VGA_WIDTH + px).
Definition on_screen (px py : Z) : Prop := 0 <= px < VGA_WIDTH /\ 0 <= py < VGA_HEIGHT.

Definition font_bits (c row : Z) : Z := default 0 (g ← font8x8.[c]; g.[row]).
Definition glyph (c px py fg bg : Z) : Z :=
  if has_any (font_bits c (py mod 16 / 2)) (Z.shiftl 1 (px mod 8)) then fg else bg.

Definition in_cell (x y px py : Z) : bool := (px / 8 =? x) && (py / 16 =? y).

(** Everything but the framebuffer. *)
Definition same_cursor (v v' : vga_t) : Prop :=
  fb_init_done v' = fb_init_done v /\ console_cx v' = console_cx v /\ console_cy v' = console_cy v.

#[export] Instance same_cursor_preorder : PreOrder same_cursor.
Proof. split; [done|]. unfold same_cursor. intros a b c. intuition congruence. Qed.

Lemma fb_write_pixel v px py c : on_screen px py ->
  exists v', fb_write v (py * VGA_WIDTH + px) c = Some v' /\ same_cursor v v' /\
    forall qx qy, on_screen qx qy ->
      pixel v' qx qy = if (qx =? px) && (qy =? py) then Some c else pixel v qx qy.
Proof.
  unfold on_screen, fb_write, PIXELS, VGA_WIDTH, VGA_HEIGHT. intros Hp.
  rewrite (proj2 (Z.leb_le 0 _)), (proj2 (Z.ltb_lt _ _)) by lia. eexists. split; [reflexivity|]. split; [done|].
  intros qx qy Hq. unfold pixel, VGA_WIDTH. cbn.
  destruct (Z.eqb_spec qx px) as [->|Hx], (Z.eqb_spec qy py) as [->|Hy]; cbn [andb];
    [apply lookup_insert_eq|apply lookup_insert_ne; lia..].
Qed.

Lemma sint_ok z : - 2 ^ 31 <= z < 2 ^ 31 -> sint z = Some z.
Proof. intros. unfold sint. branches; [done|lia]. Qed.

(** The pixels of a cell that the loops have drawn up to column [col] of [row]. *)
Definition drawn (x y row col px py : Z) : bool :=
  in_cell x y px py && ((py mod 16 / 2 <? row) || ((py mod 16 / 2 =? row) && (px mod 8 <? col))).

Lemma drawn_step x y row col px py : 0 <= row < 8 -> 0 <= col < 8 ->
  drawn x y row (col + 1) px py =
  drawn x y row col px py || ((px =? x * 8 + col) && ((py =? y * 16 + row * 2) || (py =? y * 16 + row * 2 + 1))).
Proof.
  intros Hr Hc. unfold drawn, in_cell.
  pose proof (Z.div_mod px 8). pose proof (Z.mod_pos_bound px 8).
  pose proof (Z.div_mod py 16). pose proof (Z.mod_pos_bound py 16).
  pose proof (Z.div_mod (py mod 16) 2). pose proof (Z.mod_pos_bound (py mod 16) 2).
  repeat match goal with |- context [?a =? ?b] => destruct (Z.eqb_spec a b)
                       | |- context [?a <? ?b] => destruct (Z.ltb_spec a b) end; cbn [andb orb]; done || lia.
Qed.

Section Draw.
Context (x y c fg bg : Z).
Hypothesis Hx : 0 <= x /\ x * 8 + 7 < 2 ^ 31.
Hypothesis Hy : 0 <= y /\ y * 16 + 14 < 2 ^ 31.

(** The state of the screen [v'] after part of a character was drawn on [v]. *)
Definition partial (v : vga_t) (row col : Z) (v' : vga_t) : Prop :=
  same_cursor v v' /\ forall px py, on_screen px py ->
    pixel v' px py = if drawn x y row col px py then Some (glyph c px py fg bg) else pixel v px py.

Lemma draw_pixel_step v v0 row col bits : 0 <= row < 8 -> 0 <= col < 8 -> bits = font_bits c row ->
  partial v row col v0 ->
  exists v1, draw_pixel x y fg bg bits row col v0 = Some v1 /\ partial v row (col + 1) v1.
Proof using Hx Hy.
  intros Hr Hc Hb [Hcur Hpix]. unfold draw_pixel. rewrite !sint_ok by lia. cbn [mbind option_bind].
  set (px0 := x * 8 + col). set (py0 := y * 16 + row * 2). set (colr := if has_any _ _ then _ else _).
  assert (forall px py, px = px0 -> py = py0 \/ py = py0 + 1 -> glyph c px py fg bg = colr) as Hcolr.
  { intros px py -> Hpy. unfold glyph, colr. subst bits px0 py0.
    replace ((x * 8 + col) mod 8) with col by (rewrite Z.add_comm, Z.mod_add by lia; rewrite Z.mod_small; lia).
    replace (py mod 16 / 2) with row; [done|].
    apply (Z.div_unique _ 2 _ (py mod 16 - 2 * row)); [left|lia].
    replace (py mod 16) with (py - y * 16); [lia|]. apply (Z.mod_unique _ 16 y); lia. }
  destruct (Z.leb_spec VGA_WIDTH px0) as [Hw|Hw]; [|destruct (Z.leb_spec VGA_HEIGHT py0) as [Hh|Hh]]; cbn [orb].
  1-2: exists v0; split; [done|]; split; [done|]; intros px py Hs; rewrite Hpix, drawn_step by done;
    fold px0 py0; unfold on_screen in Hs;
    destruct (Z.eqb_spec px px0), (Z.eqb_spec py py0), (Z.eqb_spec py (py0 + 1)); cbn [andb orb];
    rewrite ?orb_false_r; try done; unfold VGA_HEIGHT in *; lia.
  destruct (fb_write_pixel v0 px0 py0 colr) as (v1 & -> & Hc1 & Hp1).
  { unfold on_screen, px0, py0 in *. lia. }
  cbn [mbind option_bind].
  assert (py0 + 1 < VGA_HEIGHT) as Hh' by (unfold py0, VGA_HEIGHT in *; lia).
  rewrite (proj2 (Z.ltb_lt _ _) Hh').
  destruct (fb_write_pixel v1 px0 (py0 + 1) colr) as (v2 & -> & Hc2 & Hp2).
  { unfold on_screen, px0, py0 in *. lia. }
  exists v2. split; [done|]. split; [by etransitivity; [|etransitivity]|].
  intros px py Hs. rewrite Hp2, Hp1, Hpix, drawn_step by done. fold px0 py0.
  destruct (Z.eqb_spec px px0), (Z.eqb_spec py py0), (Z.eqb_spec py (py0 + 1)); cbn [andb orb];
    rewrite ?orb_false_r, ?orb_true_r; try done; f_equal; symmetry; apply Hcolr; auto.
Qed.
End Draw.

Lemma printable_range c : 0x20 <= printable c <= 0x7E.
Proof. unfold printable. branches; lia. Qed.

Lemma font_row c row : 0 <= c < 128 -> 0 <= row < 8 ->
  exists g, font8x8.[c] = Some g /\ g.[row] = Some (font_bits c row).
Proof.
  intros Hc Hr. destruct (arr_get_is_Some font8x8 c) as [g Hg]; [exact Hc|]. exists g. split; [done|].
  assert (length g = 8%nat) as Hl.
  { assert (Forall (fun g => length g = 8%nat) font8x8) as Hall by (repeat constructor).
    apply arr_get_Some in Hg as [_ Hg]. by apply (proj1 (list.Forall_forall _ _) Hall), (list_elem_of_lookup_2 _ (Z.to_nat c)). }
  unfold font_bits. rewrite Hg. cbn [mbind option_bind].
  destruct (arr_get_is_Some g row) as [b Hb]; [lia|]. by rewrite Hb.
Qed.

Lemma mod_half y : 0 <= y mod 16 / 2 < 8.
Proof.
  pose proof (Z.mod_pos_bound y 16). split; [apply Z.div_pos; lia|apply Z.div_lt_upper_bound; lia].
Qed.

(** A character fills its cell with its glyph and nothing else; what lies beyond the edge
    of the screen is cut off. *)
Lemma draw_char_spec x y c fg bg v : 0 <= x /\ x * 8 + 7 < 2 ^ 31 -> 0 <= y /\ y * 16 + 14 < 2 ^ 31 ->
  exists v', draw_char x y c fg bg v = Some v' /\ same_cursor v v' /\
    forall px py, on_screen px py ->
      pixel v' px py = if in_cell x y px py then Some (glyph (printable c) px py fg bg) else pixel v px py.
Proof.
  intros Hx Hy. unfold draw_char. pose proof (printable_range c) as Hc.
  destruct (font_row (printable c) 0) as (g & Hg & _); [lia|lia|]. rewrite Hg. cbn [mbind option_bind].
  set (P := fun row => partial x y (printable c) fg bg v row 0).
  destruct (for_loop_inv P (fun row v => bits ← g.[row];
      for_loop 8 0 (fun col v => draw_pixel x y fg bg bits row col v) v) 8 0 v) as (v' & -> & Hcur & Hpix).
  - split; [done|]. intros px py _. unfold drawn. pose proof (mod_half py). pose proof (Z.mod_pos_bound px 8).
    replace (py mod 16 / 2 <? 0) with false by lia. replace (px mod 8 <? 0) with false by lia.
    by rewrite !andb_false_r.
  - intros row s Hrow HP. destruct (font_row (printable c) row) as (g' & Hg' & Hbits); [lia|lia|].
    rewrite Hg in Hg'. injection Hg' as <-. rewrite Hbits. cbn [mbind option_bind].
    destruct (for_loop_inv (fun col => partial x y (printable c) fg bg v row col)
      (fun col v => draw_pixel x y fg bg (font_bits (printable c) row) row col v) 8 0 s HP) as (s' & -> & Hc' & Hp').
    + intros col s1 Hcol Hs1. apply draw_pixel_step; [done|done|lia|lia|done|done].
    + exists s'. split; [done|]. split; [done|]. intros px py Hs. rewrite Hp' by done. unfold drawn.
      pose proof (mod_half py). pose proof (Z.mod_pos_bound px 8 eq_refl).
      change (0 + Z.of_nat 8) with 8. replace (px mod 8 <? 8) with true by lia. replace (px mod 8 <? 0) with false by lia.
      rewrite andb_true_r, andb_false_r, orb_false_r. replace (py mod 16 / 2 <? row + 1) with
        ((py mod 16 / 2 <? row) || (py mod 16 / 2 =? row)) by lia. done.
  - exists v'. split; [done|]. split; [done|]. intros px py Hs. rewrite Hpix by done. unfold drawn.
    pose proof (mod_half py). change (0 + Z.of_nat 8) with 8.
    replace (py mod 16 / 2 <? 8) with true by lia. by rewrite orb_true_l, andb_true_r.
Qed.

Lemma fill_screen_spec color' v : exists v', fill_screen color' v = Some v' /\ same_cursor v v' /\
  forall px py, on_screen px py -> pixel v' px py = Some color'.
Proof.
  unfold fill_screen.
  destruct (for_loop_inv (fun n s => same_cursor v s /\ forall i, 0 <= i < n -> fb s !! i = Some color')
    (fun i v => fb_write v i color') (Z.to_nat PIXELS) 0 v) as (v' & -> & Hc & Hp).
  - split; [done|]. intros i Hi. lia.
  - intros i s Hi [Hc Hs]. rewrite Z2Nat.id in Hi by done. unfold fb_write.
    rewrite (proj2 (Z.leb_le 0 i)), (proj2 (Z.ltb_lt i PIXELS)) by lia.
    eexists. split; [reflexivity|]. split; [done|]. intros j Hj. cbn.
    destruct (decide (j = i)) as [->|]; [apply lookup_insert_eq|]. rewrite lookup_insert_ne by done. apply Hs. lia.
  - exists v'. split; [done|]. split; [done|]. intros px py [Hx Hy]. apply Hp.
    rewrite Z2Nat.id by done. unfold PIXELS, VGA_WIDTH, VGA_HEIGHT in *. lia.
Qed.

(** ** The console as a grid of characters

    What the console promises: a screen of 37 lines of 100 characters with a cursor. *)

Record text := mk_text {
  tx_cell : Z -> Z -> option Z;
  tx_cx : Z;
  tx_cy : Z
}.

(** At the bottom the screen is cleared and the cursor stays on the last line. *)
Definition text_newline (a : text) : text :=
  if tx_cy a + 1 <? CONSOLE_ROWS then mk_text (tx_cell a) 0 (tx_cy a + 1)
  else mk_text (fun _ _ => Some 32) 0 (CONSOLE_ROWS - 1).

Definition text_put (a : text) (c : Z) : text :=
  if c =? 13 then mk_text (tx_cell a) 0 (tx_cy a)
  else if c =? 10 then text_newline a
  else
    let a1 := mk_text (fun x y => if (x =? tx_cx a) && (y =? tx_cy a) then Some (printable c) else tx_cell a x y)
                (tx_cx a + 1) (tx_cy a) in
    if tx_cx a1 <? CONSOLE_COLS then a1 else text_newline a1.

Definition cursor_ok (a : text) : Prop := 0 <= tx_cx a < CONSOLE_COLS /\ 0 <= tx_cy a < CONSOLE_ROWS.

(** The framebuffer shows the text: white on black, every pixel of every known cell. *)
Record shows (v : vga_t) (a : text) : Prop := {
  sh_init : fb_init_done v = true;
  sh_cx : console_cx v = tx_cx a;
  sh_cy : console_cy v = tx_cy a;
  sh_cells : forall px py c, on_screen px py -> tx_cell a (px / 8) (py / 16) = Some c ->
    pixel v px py = Some (glyph c px py 0x00FFFFFF 0x00000000)
}.

Lemma glyph_blank px py fg bg : glyph 32 px py fg bg = bg.
Proof.
  unfold glyph. pose proof (mod_half py). replace (font_bits 32 (py mod 16 / 2)) with 0; [done|].
  assert (forall r, 0 <= r < 8 -> font_bits 32 r = 0) as Hr; [|symmetry; by apply Hr].
  intros r Hr'. assert (In r (map Z.of_nat (seq 0 8))) as Hin
    by (rewrite in_map_iff; exists (Z.to_nat r); rewrite in_seq; lia).
  repeat (destruct Hin as [<-|Hin]; [reflexivity|]). destruct Hin.
Qed.

Lemma newline_shows v a : shows v a -> 0 <= tx_cy a ->
  exists v', console_newline v = Some v' /\ shows v' (text_newline a).
Proof.
  intros [Hi Hx Hy Hc] H0. unfold console_newline, text_newline. cbv zeta.
  set (v1 := v <| console_cx := 0 |> <| console_cy ::= fun y => y + 1 |>).
  assert (console_cy v1 = tx_cy a + 1) as Hy1 by (cbn; by rewrite Hy).
  assert (fb_init_done v1 = true) as Hi1 by exact Hi.
  rewrite Hy1, Z.leb_antisym. destruct (Z.ltb_spec (tx_cy a + 1) CONSOLE_ROWS); cbn [negb].
  { exists v1. split; [done|]. by constructor. }
  unfold vga_console_scroll, guard_ret. rewrite Hi1. cbn [negb].
  destruct (fill_screen_spec 0 v1) as (v' & -> & (Hi' & _) & Hp).
  cbn [mbind option_bind]. eexists. split; [reflexivity|]. constructor; cbn; [by rewrite Hi'|done|done|].
  intros px py c Hs [= <-]. rewrite glyph_blank. by apply Hp.
Qed.

Lemma text_newline_ok a : 0 <= tx_cy a -> cursor_ok (text_newline a).
Proof. intros H. unfold cursor_ok, text_newline. branches; cbn; split; try done; lia. Qed.

Lemma putc_shows v a c : shows v a -> cursor_ok a ->
  exists v', vga_console_putc c v = Some v' /\ shows v' (text_put a c) /\ cursor_ok (text_put a c).
Proof.
  intros Hsh Hcur. pose proof Hsh as [Hi Hx Hy Hc]. pose proof Hcur as [Hcx Hcy].
  unfold vga_console_putc, text_put, guard_ret. rewrite Hi. cbn [negb].
  destruct (c =? 13).
  { eexists. split; [reflexivity|]. split; [by constructor|]. split; [done|exact Hcy]. }
  destruct (c =? 10).
  { destruct (newline_shows v a Hsh) as (v' & -> & Hs); [lia|]. exists v'. split; [done|]. split; [done|].
    apply text_newline_ok. lia. }
  change CONSOLE_COLS with 100 in Hcx. change CONSOLE_ROWS with 37 in Hcy.
  destruct (draw_char_spec (console_cx v) (console_cy v) c 0x00FFFFFF 0x00000000 v) as (v1 & -> & (Hi1 & Hx1 & Hy1) & Hp1);
    [lia|lia|]. cbn [mbind option_bind].
  set (v2 := v1 <| console_cx ::= fun x => x + 1 |>).
  set (a2 := mk_text (fun x y => if (x =? tx_cx a) && (y =? tx_cy a) then Some (printable c) else tx_cell a x y)
               (tx_cx a + 1) (tx_cy a)).
  assert (shows v2 a2) as H2.
  { constructor; cbn; [by rewrite Hi1|by rewrite Hx1, Hx|by rewrite Hy1|].
    intros px py d Hs Hd. change (pixel v2 px py) with (pixel v1 px py). rewrite (Hp1 px py Hs), Hx, Hy.
    unfold in_cell. destruct ((_ =? _) && (_ =? _)); [by injection Hd as <-|by apply Hc]. }
  change (tx_cx a2) with (tx_cx a + 1).
  assert (console_cx v2 = tx_cx a + 1) as -> by (by rewrite (sh_cx _ _ H2)).
  rewrite Z.leb_antisym. destruct (Z.ltb_spec (tx_cx a + 1) CONSOLE_COLS); cbn [negb].
  - exists v2. split; [done|]. split; [done|]. split; [cbn; lia|exact (proj2 Hcur)].
  - destruct (newline_shows v2 a2 H2) as (v' & -> & Hs); [cbn; lia|]. exists v'. split; [done|]. split; [done|].
    apply text_newline_ok. cbn. lia.
Qed.

(** ** Free text

    Positions and lengths up to 2^26 keep the [int] arithmetic in range. *)

Lemma text_loop_safe wraps s fg bg : forall x cx cy v, 0 <= x -> 0 <= cx -> 0 <= cy ->
  x + Z.of_nat (length s) <= 2 ^ 27 -> cx + Z.of_nat (length s) <= 2 ^ 27 -> cy + Z.of_nat (length s) <= 2 ^ 27 ->
  exists v', text_loop wraps s x cx cy fg bg v = Some v' /\ same_cursor v v'.
Proof.
  induction s as [|c s IH]; intros x cx cy v Hx Hcx Hcy Bx Bcx Bcy; [by exists v|]. cbn [text_loop length] in *.
  destruct (c =? 10).
  { rewrite sint_ok by lia. cbn [mbind option_bind]. apply IH; lia. }
  destruct (draw_char_spec cx cy c fg bg v) as (v1 & -> & Hc & _); [lia|lia|]. cbn [mbind option_bind].
  rewrite (sint_ok (cx + 1)) by lia. cbn [mbind option_bind].
  match goal with |- context [if ?b then _ else _] => destruct b end;
    [rewrite sint_ok by lia; cbn [mbind option_bind]|];
    (edestruct IH as (v' & -> & Hc'); [..|exists v'; split; [done|by etransitivity]]; lia).
Qed.

Lemma puts_loop_safe s : forall x y v, 0 <= x -> 0 <= y ->
  x + Z.of_nat (length s) <= 2 ^ 27 -> y + Z.of_nat (length s) <= 2 ^ 27 ->
  exists v', puts_loop s x y v = Some v' /\ same_cursor v v'.
Proof.
  induction s as [|c s IH]; intros x y v Hx Hy Bx By; [by exists v|]. cbn [puts_loop length] in *.
  destruct (c =? 10).
  { rewrite sint_ok by lia. cbn [mbind option_bind]. apply IH; lia. }
  destruct (draw_char_spec x y c 0x00FFFFFF 0 v) as (v1 & -> & Hc & _); [lia|lia|]. cbn [mbind option_bind].
  rewrite (sint_ok (x + 1)) by lia. cbn [mbind option_bind].
  match goal with |- context [if ?b then _ else _] => destruct b end;
    [rewrite sint_ok by lia; cbn [mbind option_bind]|];
    (edestruct IH as (v' & -> & Hc'); [..|exists v'; split; [done|by etransitivity]]; lia).
Qed.

(** Text at any position on or beyond the screen is cut off at its edges and never
    written outside the framebuffer; the console's cursor is not moved. *)
Theorem vga_text_safe s x y fg bg v : 0 <= x <= 2 ^ 26 -> 0 <= y <= 2 ^ 26 -> Z.of_nat (length s) <= 2 ^ 26 ->
  (exists v', vga_puts s v = Some v' /\ same_cursor v v') /\
  (exists v', vga_puts_at s x y fg bg v = Some v' /\ same_cursor v v') /\
  (exists v', vga_render_text (Some s) x y fg bg v = Some v' /\ same_cursor v v').
Proof.
  intros Hx Hy Hs. unfold vga_puts, vga_puts_at, vga_render_text, guard_ret.
  destruct (fb_init_done v); cbn [negb]; [|by split_and!; exists v].
  split_and!; [apply puts_loop_safe|apply text_loop_safe..]; lia.
Qed.

(** ** Initialisation *)

(** The windows of physical addresses that [vga_init] maps and the serial port. *)
Definition window_event (e : io_event) : Prop :=
  match e with
  | IoRead w a _ | IoWrite w a _ =>
      a = UART0 \/ (0x30000000 <= a /\ a + w / 8 <= 0x31000000) \/
      (VGA_BAR2_BASE <= a /\ a + w / 8 <= VGA_BAR2_BASE + VGA_BAR2_SIZE)
  end.

Lemma window_uart v : window_event (IoWrite 8 UART0 v).
Proof. by left. Qed.
#[local] Hint Resolve window_uart : io.

Ltac in_window :=
  cbn; change (16 / 8) with 2; change (32 / 8) with 4; unfold VGA_BAR2_BASE, VGA_BAR2_SIZE, PAGE_SIZE, VBE_DISPI_INDEX_ID, VBE_DISPI_INDEX_XRES,
    VBE_DISPI_INDEX_YRES, VBE_DISPI_INDEX_BPP, VBE_DISPI_INDEX_ENABLE; lia.

(** Peel the assignments of a straight-line body off a trace. *)
Ltac io_steps :=
  repeat first
    [ reflexivity
    | assumption
    | match goal with |- extends _ _ (if ?b then _ else _) => destruct b end
    | apply extends_puts; [exact window_uart|]
    | apply extends_putc; [exact window_uart|]
    | apply extends_hex32; [exact window_uart|]
    | apply extends_hex; [exact window_uart|]
    | apply extends_write; [in_window|]
    | eapply extends_read; [eassumption|in_window|] ].

Lemma setup_display_confined dev devno ecam t0 t : 0x30000000 <= ecam <= 0x30FFFFE0 ->
  extends window_event t0 t -> extends window_event t0 (setup_display dev devno ecam t).2.
Proof.
  intros He H. unfold setup_display.
  repeat match goal with |- context [let '(_, _) := io_read ?d ?w ?a ?t in _] =>
    let E := fresh "E" in destruct (io_read d w a t) eqn:E end.
  cbn [snd]. io_steps.
Qed.

Lemma ecam_addr devno : 0 <= devno < 32 -> Z.lor 0x30000000 (Z.shiftl devno 15) = 0x30000000 + 0x8000 * devno.
Proof.
  intros H. assert (In devno (map Z.of_nat (seq 0 32))) as Hin
    by (rewrite in_map_iff; exists (Z.to_nat devno); rewrite in_seq; lia).
  repeat (destruct Hin as [<-|Hin]; [reflexivity|]). destruct Hin.
Qed.

Lemma pci_scan_confined dev n : forall devno t0 t, 0 <= devno -> devno + Z.of_nat n <= 32 ->
  extends window_event t0 t -> extends window_event t0 (pci_scan dev n devno t).2.
Proof.
  induction n as [|n IH]; intros devno t0 t H0 Hn H; [done|]. cbn [pci_scan].
  rewrite ecam_addr by lia. destruct (io_read _ _ _ t) as [ident t1] eqn:E.
  assert (extends window_event t0 t1) as H1 by io_steps.
  destruct (ident =? 0xffffffff); [apply IH; [lia|lia|done]|].
  match goal with |- context [uart_putc 10 ?x] => set (t2 := uart_putc 10 x) end.
  assert (extends window_event t0 t2) as H2 by (unfold t2; io_steps).
  destruct (_ && _); [|apply IH; [lia|lia|done]].
  destruct (setup_display _ _ _ t2) as [d t3] eqn:Es. cbn [snd].
  change t3 with ((d, t3).2). rewrite <- Es. apply setup_display_confined; [lia|done].
Qed.

(** The console after initialisation. *)
Definition console_ready (v : vga_t) : Prop :=
  fb_init_done v = true /\ console_cx v = 0 /\ console_cy v = 0.

Lemma vga_start_spec dev v t : exists e v' t', vga_start dev v t = Some (e, v', t') /\
  extends window_event t t' /\ ((e = ERR_OK /\ console_ready v') \/ (e = ERR_NO_MEM /\ v' = v)).
Proof.
  unfold vga_start. match goal with |- context [pci_scan dev 32 0 ?x] => set (t1 := x) end.
  assert (extends window_event t (pci_scan dev 32 0 t1).2) as H1
    by (apply pci_scan_confined; [lia|lia|unfold t1; io_steps]).
  destruct (pci_scan dev 32 0 t1) as [[d|] t2]; cbn [snd] in H1.
  2:{ eexists _, _, _. split; [reflexivity|]. split; [io_steps|]. by right. }
  set (v1 := v <| fb_init_done := true |>).
  destruct (for_loop_inv (fun _ s => fb_init_done s = true) (fun i v => fb_write v i 0) 100 0 v1) as (v2 & -> & Hi); [done| |].
  { intros j s Hj Hs. unfold fb_write.
    rewrite (proj2 (Z.leb_le 0 j)), (proj2 (Z.ltb_lt j PIXELS)) by (unfold PIXELS, VGA_WIDTH, VGA_HEIGHT; lia).
    eexists. split; [reflexivity|done]. }
  cbn [mbind option_bind]. eexists _, _, _. split; [reflexivity|]. split; [io_steps|]. left. by split_and!.
Qed.

(** A range of addresses that an address space maps to themselves. *)
Definition identity_mapped (w : pt_world) (v : vspace_t) (lo size : Z) : Prop :=
  forall va out, lo <= va < lo + size -> vspace_resolve w (Some v) va (Some out) = Some (true, Some va).

(** What the identity mappings of the boot code have in common. *)
Record space_step (w : pt_world) (v : vspace_t) (lab : labels)
    (w' : pt_world) (v' : vspace_t) (lab' : labels) : Prop := {
  ss_step : tables_step w v lab w' v' lab';
  ss_fresh : labels_fresh w v lab lab';
  ss_keep : forall a n, identity_mapped w v a n -> identity_mapped w' v' a n
}.

Lemma space_step_refl w v lab : vspace_wf w v lab -> space_step w v lab w v lab.
Proof. intros H. constructor; [by apply tables_step_refl|apply labels_fresh_refl|done]. Qed.

Lemma space_step_trans w v lab w1 v1 lab1 w2 v2 lab2 :
  space_step w v lab w1 v1 lab1 -> space_step w1 v1 lab1 w2 v2 lab2 -> space_step w v lab w2 v2 lab2.
Proof.
  intros [S1 F1 K1] [S2 F2 K2]. constructor; [by eapply tables_step_trans| |auto].
  eapply labels_fresh_trans; [|exact F1|exact F2]. apply S1.
Qed.

Lemma identity_map w v lab lo size perms : vspace_wf w v lab -> 0 <= lo -> fits 64 size -> lo + size <= 2 ^ 64 ->
  exists e v' w' lab', vspace_map w (Some v) lo lo size perms 0 = Some (e, Some v', w') /\
    space_step w v lab w' v' lab' /\ (e = ERR_OK -> identity_mapped w' v' lo size).
Proof.
  intros Hwf Hlo Hs Ht. destruct (vspace_map_full w v lab lo lo size perms 0)
    as (e & v' & w' & lab' & Hrun & Hst & Hfr & Hok & _ & Hkeep); try done.
  exists e, v', w', lab'. split; [done|]. split.
  - constructor; [done|done|]. intros a n Ha va out Hva. by apply Hkeep, Ha.
  - intros E va out Hva. destruct (Hok E va out Hva) as [-> _]. do 3 f_equal. lia.
Qed.

(** Everything [vga_init] needs of memory. *)
Definition windows_mapped (w : pt_world) (v : vspace_t) : Prop :=
  identity_mapped w v VGA_FB_BASE (4 * PIXELS) /\ identity_mapped w v VGA_BAR2_BASE VGA_BAR2_SIZE /\
  identity_mapped w v 0x30000000 0x1000000.

Lemma identity_mapped_sub w v lo n n' : n' <= n -> identity_mapped w v lo n -> identity_mapped w v lo n'.
Proof. intros Hn H va out Hva. apply H. lia. Qed.

Lemma vga_init_spec dev w s lab v t : vspace_wf w s lab ->
  exists e s' w' v' t' lab', vga_init dev w (Some s) v t = Some (e, Some s', w', v', t') /\
    space_step w s lab w' s' lab' /\ extends window_event t t' /\
    ((e = ERR_OK /\ windows_mapped w' s' /\ console_ready v') \/ (e <> ERR_OK /\ v' = v)) /\
    (t' = t \/ windows_mapped w' s').
Proof.
  intros Hwf. unfold vga_init, guard_ret. cbv zeta.
  assert (4 * PIXELS <= page_round_up (VGA_WIDTH * VGA_HEIGHT * (VGA_BPP / 8))) as Hsz by (vm_compute; congruence).
  destruct (identity_map w s lab VGA_FB_BASE (page_round_up (VGA_WIDTH * VGA_HEIGHT * (VGA_BPP / 8))) 0x7)
    as (e1 & s1 & w1 & lab1 & -> & Hs1 & Hok1); [done|done|fits_now|vm_compute; congruence|].
  cbn [mbind option_bind]. destruct (is_ok e1) eqn:E1; cbn [negb].
  2:{ exists e1, s1, w1, v, t, lab1. split_and!; try done; [|by left]. right. split; [|done]. by intros ->. }
  destruct (identity_map w1 s1 lab1 VGA_BAR2_BASE VGA_BAR2_SIZE 0x7) as (e2 & s2 & w2 & lab2 & -> & Hs2 & Hok2);
    [apply Hs1|done|fits_now|vm_compute; congruence|].
  pose proof (space_step_trans _ _ _ _ _ _ _ _ _ Hs1 Hs2) as Hs12.
  cbn [mbind option_bind]. destruct (is_ok e2) eqn:E2; cbn [negb].
  2:{ exists e2, s2, w2, v, t, lab2. split_and!; try done; [|by left]. right. split; [|done]. by intros ->. }
  destruct (identity_map w2 s2 lab2 0x30000000 0x1000000 0x7) as (e3 & s3 & w3 & lab3 & -> & Hs3 & Hok3);
    [apply Hs2|done|fits_now|vm_compute; congruence|].
  pose proof (space_step_trans _ _ _ _ _ _ _ _ _ Hs12 Hs3) as Hs13.
  cbn [mbind option_bind]. destruct (is_ok e3) eqn:E3; cbn [negb].
  2:{ exists e3, s3, w3, v, t, lab3. split_and!; try done; [|by left]. right. split; [|done]. by intros ->. }
  destruct (vga_start_spec dev v t) as (e & v' & t' & -> & Hext & Hcase). cbn [mbind option_bind].
  assert (windows_mapped w3 s3) as Hwin.
  { destruct e1, e2, e3; try discriminate E1; try discriminate E2; try discriminate E3.
    split; [|split]; [|by apply Hs3, Hok2|by apply Hok3].
    apply Hs3, Hs2. eapply identity_mapped_sub; [exact Hsz|by apply Hok1]. }
  exists e, s3, w3, v', t', lab3. split_and!; try done; [|by right].
  destruct Hcase as [[-> Hr]|[-> ->]]; [by left|by right].
Qed.

Lemma puts_shows s : forall v a, shows v a -> cursor_ok a ->
  exists v', vga_console_puts s v = Some v' /\ shows v' (fold_left text_put s a) /\
    cursor_ok (fold_left text_put s a).
Proof.
  induction s as [|c s IH]; intros v a Hs Hc; [by exists v|]. cbn [vga_console_puts fold_left].
  destruct (putc_shows v a c Hs Hc) as (v1 & -> & Hs1 & Hc1). cbn [mbind option_bind]. by apply IH.
Qed.

(** ** Properties *)

(** C31. The console refines a grid of characters: when the framebuffer shows a text, then
    writing any string leaves it showing the text that the specification computes
    character by character (carriage return, newline, line wrap, clearing at the
    bottom); every write is defined, that is, inside the framebuffer, and the cursor
    stays on the screen. *)
Theorem console_refines_text s : forall v a, shows v a -> cursor_ok a ->
  exists v', vga_console_puts s v = Some v' /\ shows v' (fold_left text_put s a) /\
    cursor_ok (fold_left text_put s a).
Proof. apply puts_shows. Qed.

(** An initialised console of which nothing is known but the cursor. *)
Definition demo_vga : vga_t := mk_vga ∅ true 99 36.
Definition demo_text : text := mk_text (fun _ _ => None) 99 36.

Lemma console_refines_text_witness :
  exists v', vga_console_puts [72; 105] demo_vga = Some v' /\ console_cx v' = 1 /\ console_cy v' = 36 /\
    pixel v' 3 580 = Some (glyph 105 3 580 0x00FFFFFF 0).
Proof.
  destruct (console_refines_text [72; 105] demo_vga demo_text) as (v' & H & [_ Hx Hy Hc] & _).
  - constructor; [reflexivity..|]. intros px py c _ E. discriminate E.
  - split; vm_compute; split; congruence.
  - exists v'. split; [exact H|]. split; [exact Hx|]. split; [exact Hy|].
    apply Hc; [split; vm_compute; split; congruence|vm_compute; reflexivity].
Defined.

(** C32. Bringing up the display is confined: whatever the devices answer, [vga_init] has a
    result; it accesses the serial port and, only after all three windows are mapped to
    themselves, registers inside the PCI configuration window and the display's register
    page; on [ERR_OK] also the whole framebuffer is mapped and the console is ready at
    the origin, and on an error the console is as before. The page tables stay well
    formed and nothing mapped before is lost. *)
Theorem vga_init_confined dev w s lab v t : vspace_wf w s lab ->
  exists e s' w' v' t' lab', vga_init dev w (Some s) v t = Some (e, Some s', w', v', t') /\
    tables_step w s lab w' s' lab' /\
    (forall a n, identity_mapped w s a n -> identity_mapped w' s' a n) /\
    extends window_event t t' /\ (t' = t \/ windows_mapped w' s') /\
    ((e = ERR_OK /\ windows_mapped w' s' /\ console_ready v') \/ (e <> ERR_OK /\ v' = v)).
Proof.
  intros Hwf. destruct (vga_init_spec dev w s lab v t Hwf) as (e & s' & w' & v' & t' & lab' & Hrun & Hs & He & Hc & Ht).
  exists e, s', w', v', t', lab'. split; [done|]. split; [apply Hs|]. split; [apply Hs|]. done.
Qed.

(** A bus with the display as device 1 and nothing else. *)
Definition demo_bus : device := fun _ _ a => if a =? 0x30008000 then 0x11111234 else 0xFFFFFFFF.

Lemma vga_init_confined_witness :
  exists s w lab e s' w' v' t', vspace_wf w s lab /\
    vga_init demo_bus w (Some s) vga_zero [] = Some (e, Some s', w', v', t') /\ extends window_event [] t'.
Proof.
  destruct demo_space as (s & w & lab & _ & Hwf).
  destruct (vga_init_confined demo_bus w s lab vga_zero [] Hwf)
    as (e & s' & w' & v' & t' & lab' & Hrun & _ & _ & He & _).
  exists s, w, lab, e, s', w', v', t'. split; [exact Hwf|]. split; [exact Hrun|exact He].
Defined.
