(* ===== verification/Kernel.v ===== *)
(** * The kernel's global state

    The globals of boot.c that the system-call layer works on ([g_tcbs],
    [g_endpoints], [g_root_cnode], [g_sched], [g_mdb], the address spaces) and the
    pointers by which capabilities refer to them.

    A capability stores the address of its object. Which address the linker gave
    an object is not the program's choice, so it is a parameter, [layout]. A
    pointer is followed by looking up the object at that address; a pointer that is
    not null and that no object has is memory the kernel does not keep an object
    in, and reading an object through it has no defined result. *)

From S2P Require Import Prelude Types Cheri Cap CNode Tcb Endpoint Alloc Sched Mdb VSpace.

(** [&g_tcbs.threads[i]], [&g_endpoints[i]] and [&g_root_cnode]. *)
Record layout := mk_layout {
  tcb_addr : Z -> Z;
  ep_addr : Z -> Z;
  root_cnode : Z
}.

Record kstate := mk_kstate {
  g_tcbs : tcb_table_t;
  g_endpoints : list endpoint_t;
  g_cnodes : cnodes;
  g_sched : sched_state_t;
  g_mdb : mdb_tree_t;
  g_vspaces : gmap Z vspace_t;
  g_pt : pt_world
}.
#[export] Instance kstate_eta : Eta kstate := fun k =>
  mk_kstate (g_tcbs k) (g_endpoints k) (g_cnodes k) (g_sched k) (g_mdb k) (g_vspaces k) (g_pt k).

(** The index of the object of an array that a pointer addresses. *)
Definition ptr_index (addr : Z -> Z) (n p : Z) : option Z :=
  find_idx (fun i => addr i =? p) (seqZ 0 n).

(** A pointer into an array: [Some None] is null, [None] addresses no object. *)
Definition deref (addr : Z -> Z) (n p : Z) : option (option Z) :=
  if p =? NULL then Some None
  else i ← ptr_index addr n p; Some (Some i).

(** [f(&g_tcbs.threads[i])] for a function that updates the thread. *)
Definition upd_thread (tcbs : tcb_table_t) (i : Z) (f : tcb_t -> tcb_t) : option tcb_table_t :=
  t ← (threads tcbs).[i];
  l ← (threads tcbs).[i := f t];
  Some (tcbs <| threads := l |>).

(** The node a [cnode_t *] points to; the null pointer is passed on. *)
Definition deref_cnode (h : cnodes) (p : Z) : option (option cnode_t) :=
  if p =? NULL then Some None else cn ← h !! p; Some (Some cn).

(** The same for a [vspace_t *]. *)
Definition deref_vspace (m : gmap Z vspace_t) (p : Z) : option (option vspace_t) :=
  if p =? NULL then Some None else v ← m !! p; Some (Some v).

(** ** Invariant *)

(** Distinct objects have distinct addresses, none of them null. *)
Record layout_wf (lay : layout) : Prop := {
  lw_tcb_inj : forall i j, 0 <= i < MAX_TCBS -> 0 <= j < MAX_TCBS ->
    tcb_addr lay i = tcb_addr lay j -> i = j;
  lw_tcb_null : forall i, 0 <= i < MAX_TCBS -> tcb_addr lay i <> NULL;
  lw_ep_inj : forall i j, 0 <= i < MAX_ENDPOINTS -> 0 <= j < MAX_ENDPOINTS ->
    ep_addr lay i = ep_addr lay j -> i = j;
  lw_ep_null : forall i, 0 <= i < MAX_ENDPOINTS -> ep_addr lay i <> NULL;
  lw_root : root_cnode lay <> NULL
}.

(** A thread as the kernel leaves it: a capability space that exists or none, a
    scheduling context of the array, an IPC buffer of the declared shape. *)
Definition thread_ok (h : cnodes) (t : tcb_t) : Prop :=
  ptr_ok h (cspace t) /\ 0 <= sched_context t < MAX_SCHED_CONTEXTS /\
  length (words (ipc_buffer t)) = Z.to_nat IPC_MSG_MAX /\
  length (cap_ptrs (ipc_buffer t)) = Z.to_nat IPC_CAPS_MAX.

(** The widths of the fields of a capability that the operations compute with. *)
Definition caps_typed (h : cnodes) : Prop := forall c, holds h c -> fits 32 (rights c).

(** Queued and pending messages carry the 30 words of [ipc_msg_t]. *)
Definition msg_shape (m : ipc_msg_t) : Prop :=
  0 <= msg_length m /\ length (words m) = Z.to_nat IPC_MSG_MAX.
Definition endpoint_msgs_ok (e : endpoint_t) : Prop :=
  Forall msg_shape (queue_msgs e) /\ msg_shape (pending_msg e).

(** The address spaces: well-formed tables on distinct pages, drawn from one
    allocator. *)
Definition vspaces_at (w : pt_world) (m : gmap Z vspace_t) (labs : Z -> labels) : Prop :=
  (forall p v, m !! p = Some v -> vspace_wf w v (labs p)) /\
  (forall p q v v', p <> q -> m !! p = Some v -> m !! q = Some v' ->
     labs p ##ₘ labs q /\ vs_alloc v = vs_alloc v').
Definition vspaces_wf (w : pt_world) (m : gmap Z vspace_t) : Prop := exists labs, vspaces_at w m labs.

Record kernel_wf (lay : layout) (k : kstate) : Prop := {
  kw_threads : tcbs_wf (g_tcbs k);
  kw_thread : forall i t, (threads (g_tcbs k)).[i] = Some t -> thread_ok (g_cnodes k) t;
  kw_eps : length (g_endpoints k) = Z.to_nat MAX_ENDPOINTS;
  kw_ep : forall i e, (g_endpoints k).[i] = Some e -> endpoint_wf e /\ endpoint_msgs_ok e;
  kw_cnodes : cnodes_wf (g_cnodes k);
  kw_root : is_Some (g_cnodes k !! root_cnode lay);
  kw_caps : caps_typed (g_cnodes k);
  kw_sched : sched_wf (g_sched k);
  kw_mdb : mdb_inv (g_mdb k);
  kw_mdb_root : live (mdb_nodes (g_mdb k)) 0;
  kw_vspaces : vspaces_wf (g_pt k) (g_vspaces k)
}.

(** The capability's pointer addresses an object of its type. *)
Definition cap_target_ok (lay : layout) (k : kstate) (c : cap_t) : Prop :=
  (type c = CAP_TCB -> exists i, 0 <= i < MAX_TCBS /\ tcb_tcb_ptr (u c) = tcb_addr lay i) /\
  (type c = CAP_ENDPOINT -> exists i, 0 <= i < MAX_ENDPOINTS /\ endpoint_ep_ptr (u c) = ep_addr lay i) /\
  (type c = CAP_VSPACE -> is_Some (g_vspaces k !! vspace_root_pt (u c))).

Definition objects_ok (lay : layout) (k : kstate) : Prop :=
  forall c, holds (g_cnodes k) c -> cap_target_ok lay k c.

(** ** Lemmas *)

Lemma ptr_index_Some addr n p i : ptr_index addr n p = Some i -> 0 <= i < n /\ addr i = p.
Proof.
  unfold ptr_index. intros H. apply find_idx_Some in H as ((j & Hj & E) & _).
  apply arr_get_Some in Hj as [Hi Hj]. apply lookup_seqZ in Hj as [-> Hlt].
  rewrite length_seqZ in Hi. apply Z.eqb_eq in E. rewrite Z2Nat.id in * by lia. split; [lia|].
  by rewrite Z.add_0_l in E.
Qed.

Lemma ptr_index_addr addr n i : 0 <= i < n ->
  (forall j, 0 <= j < n -> addr j = addr i -> j = i) -> ptr_index addr n (addr i) = Some i.
Proof.
  intros Hi Hinj. unfold ptr_index. apply find_idx_Some.
  assert (forall j, 0 <= j < n -> (seqZ 0 n).[j] = Some j) as Hget.
  { intros j Hj. rewrite arr_get_lookup by lia. apply lookup_seqZ. lia. }
  split.
  - exists i. rewrite Hget by done. split; [done|]. apply Z.eqb_refl.
  - intros j y Hj Hy. assert (0 <= j) by (apply arr_get_Some in Hy; lia).
    rewrite Hget in Hy by lia. injection Hy as <-. apply Z.eqb_neq. intros E.
    apply Hinj in E; lia.
Qed.

Lemma upd_thread_inv tcbs i f tcbs' : upd_thread tcbs i f = Some tcbs' ->
  exists t, (threads tcbs).[i] = Some t /\
    forall j, (threads tcbs').[j] = if j =? i then Some (f t) else (threads tcbs).[j].
Proof.
  unfold upd_thread. intros H. peel H. injection H as <-. exists t. split; [done|].
  intros j. by apply arr_get_set.
Qed.

Lemma upd_thread_count tcbs i f tcbs' : upd_thread tcbs i f = Some tcbs' -> count tcbs' = count tcbs.
Proof. unfold upd_thread. intros H. peel H. by injection H as <-. Qed.

Lemma upd_thread_defined tcbs i f t : (threads tcbs).[i] = Some t ->
  upd_thread tcbs i f = Some (tcbs <| threads := <[Z.to_nat i := f t]> (threads tcbs) |>).
Proof.
  intros H. unfold upd_thread. rewrite H. cbn [mbind option_bind].
  apply arr_get_Some in H as [Hi _]. by rewrite arr_set_in.
Qed.

Lemma thread_get tcbs i : tcbs_wf tcbs -> 0 <= i < MAX_TCBS ->
  exists t, (threads tcbs).[i] = Some t.
Proof.
  intros Hwf Hi. apply arr_get_is_Some. rewrite Hwf. unfold MAX_TCBS in *. lia.
Qed.

Lemma upd_thread_wf tcbs i f tcbs' : upd_thread tcbs i f = Some tcbs' -> tcbs_wf tcbs -> tcbs_wf tcbs'.
Proof.
  unfold upd_thread, tcbs_wf. intros H Hwf. peel H. injection H as <-. cbn.
  erewrite arr_set_length by eauto. done.
Qed.

(** Replacing one part of the state keeps the rest of the invariant. *)
Section Parts.
Context (lay : layout) (k : kstate) (Hwf : kernel_wf lay k).

Lemma wf_set_cnodes h : cnodes_wf h -> caps_typed h ->
  (forall p, is_Some (g_cnodes k !! p) -> is_Some (h !! p)) ->
  kernel_wf lay (k <| g_cnodes := h |>).
Proof.
  intros Hh Hc Hdom. destruct Hwf. constructor; cbn; auto.
  intros i t Ht. destruct (kw_thread0 i t Ht) as (Hp & Hrest). split; [|exact Hrest].
  destruct Hp as [Hp|Hp]; [by left|]. right. by apply Hdom.
Qed.

Lemma wf_set_tcbs tcbs : tcbs_wf tcbs ->
  (forall i t, (threads tcbs).[i] = Some t -> thread_ok (g_cnodes k) t) ->
  kernel_wf lay (k <| g_tcbs := tcbs |>).
Proof. intros Ht Hok. destruct Hwf. by constructor. Qed.

Lemma wf_upd_thread i f t :
  (threads (g_tcbs k)).[i] = Some t -> (thread_ok (g_cnodes k) t -> thread_ok (g_cnodes k) (f t)) ->
  exists tcbs, upd_thread (g_tcbs k) i f = Some tcbs /\ kernel_wf lay (k <| g_tcbs := tcbs |>).
Proof.
  intros Ht Hf. pose proof (upd_thread_defined _ _ f _ Ht) as Hu. eexists. split; [exact Hu|].
  apply wf_set_tcbs; [eapply upd_thread_wf; [exact Hu|apply Hwf]|].
  intros j tj Hj. destruct (upd_thread_inv _ _ _ _ Hu) as (t' & Ht' & Hget).
  rewrite Ht in Ht'. injection Ht' as <-. rewrite Hget in Hj.
  destruct (j =? i); [injection Hj as <-; apply Hf|]; by eapply (kw_thread _ _ Hwf).
Qed.

Lemma wf_set_sched s : sched_wf s -> kernel_wf lay (k <| g_sched := s |>).
Proof. intros Hs. destruct Hwf. by constructor. Qed.

Lemma wf_set_mdb m : mdb_inv m -> live (mdb_nodes m) 0 -> kernel_wf lay (k <| g_mdb := m |>).
Proof. intros Hm Hl. destruct Hwf. by constructor. Qed.

Lemma wf_set_pt w m : vspaces_wf w m -> kernel_wf lay (k <| g_pt := w |> <| g_vspaces := m |>).
Proof. intros Hv. destruct Hwf. by constructor. Qed.

Lemma wf_set_ep i e eps : endpoint_wf e -> endpoint_msgs_ok e -> (g_endpoints k).[i := e] = Some eps ->
  kernel_wf lay (k <| g_endpoints := eps |>).
Proof.
  intros He Hm Hset. destruct Hwf. constructor; cbn; auto.
  - by erewrite arr_set_length.
  - intros j e' Hj. rewrite (arr_get_set _ _ _ _ _ Hset) in Hj.
    destruct (j =? i); [by injection Hj as <-|by eapply kw_ep0].
Qed.
End Parts.

(** One address space changed by a step of its tables: the others translate as before. *)
Lemma spaces_kept w m labs p v w' v' lab' q vq va out : vspaces_at w m labs ->
  m !! p = Some v -> tables_step w v (labs p) w' v' lab' -> labels_fresh w v (labs p) lab' ->
  q <> p -> m !! q = Some vq ->
  vspace_resolve w' (Some vq) va (Some out) = vspace_resolve w (Some vq) va (Some out).
Proof.
  intros [Hl Hd] Hp Hst Hfr Hne Hq. destruct (Hd p q v vq (not_eq_sym Hne) Hp Hq) as [Hdis Hal].
  destruct (other_space w v (labs p) w' v' lab' vq (labs q) Hst Hfr (Hl q vq Hq) (eq_sym Hal) Hdis) as (Hwf & _ & Hx).
  rewrite (vspace_resolve_xlate w' vq (labs q) va out Hwf), (vspace_resolve_xlate w vq (labs q) va out (Hl q vq Hq)).
  by rewrite Hx.
Qed.

(** They also stay well formed. *)
Lemma vspaces_step w m labs p v w' v' lab' : vspaces_at w m labs ->
  m !! p = Some v -> tables_step w v (labs p) w' v' lab' -> labels_fresh w v (labs p) lab' ->
  vspaces_wf w' (<[p := v']> m).
Proof.
  intros [Hl Hd] Hp Hst Hfr.
  assert (forall q vq, q <> p -> m !! q = Some vq ->
    vspace_wf w' vq (labs q) /\ lab' ##ₘ labs q /\ vs_alloc vq = vs_alloc v) as Hoth.
  { intros q vq Hne Hq. destruct (Hd p q v vq (not_eq_sym Hne) Hp Hq) as [Hdis Hal].
    destruct (other_space w v (labs p) w' v' lab' vq (labs q) Hst Hfr (Hl q vq Hq) (eq_sym Hal) Hdis)
      as (? & ? & _). done. }
  pose proof (ts_same _ _ _ _ _ _ Hst) as (_ & _ & _ & Hal').
  exists (fun q => if q =? p then lab' else labs q). split.
  - intros q vq Hq. destruct (Z.eqb_spec q p) as [E|Hne].
    + subst q. rewrite lookup_insert_eq in Hq. injection Hq as <-. apply Hst.
    + rewrite lookup_insert_ne in Hq by done. by apply Hoth.
  - intros q r vq vr Hne Hq Hr.
    destruct (Z.eqb_spec q p) as [Eq|Nq]; destruct (Z.eqb_spec r p) as [Er|Nr];
      [congruence|subst q|subst r|].
    + rewrite lookup_insert_eq in Hq. injection Hq as <-. rewrite lookup_insert_ne in Hr by done.
      destruct (Hoth r vr Nr Hr) as (_ & ? & ->). done.
    + rewrite lookup_insert_eq in Hr. injection Hr as <-. rewrite lookup_insert_ne in Hq by done.
      destruct (Hoth q vq Nq Hq) as (_ & ? & ->). split; [by apply map_disjoint_sym|done].
    + rewrite !lookup_insert_ne in Hq, Hr by done. by eapply Hd.
Qed.

(** ** A small kernel

    A concrete state on which theorems about the whole kernel are instantiated:
    two runnable threads of partition 0 that share the root node, which holds an
    untyped, a node, a thread and an endpoint capability. *)

Definition demo_layout : layout :=
  mk_layout (fun i => 0x10000 + 432 * i) (fun i => 0x40000 + 4800 * i) 0x8000.

Definition demo_cap_of (t paddr size : Z) : cap_t :=
  mk_cap t 0xFF 0 true true 0 (mk_cap_u paddr size 0 0) (mk_sim_cap paddr (paddr + size) paddr 0 0 true true).

Definition demo_untyped : cap_t := demo_cap_of CAP_UNTYPED 0x90000000 0x400000.
Definition demo_caps : list (nat * cap_t) :=
  [(0%nat, demo_untyped); (1%nat, demo_cap_of CAP_CNODE 0 0);
   (2%nat, demo_cap_of CAP_TCB (tcb_addr demo_layout 1) 0);
   (11%nat, demo_cap_of CAP_ENDPOINT (ep_addr demo_layout 1) 0)].

Definition put_all {A} (l : list (nat * A)) (d : list A) : list A :=
  foldr (fun p d => <[p.1 := p.2]> d) d l.

Definition demo_root : cnode_t :=
  cnode_zero <| slots := put_all demo_caps (slots cnode_zero) |> <| radix := 8 |> <| used := 4 |>.

Definition demo_thread (i : Z) : tcb_t :=
  tcb_zero <| id := i |> <| state := TCB_RUNNABLE |> <| pc := 0x80100000 |> <| sp := 0x80500000 |>
    <| cspace := root_cnode demo_layout |> <| sched_context := i |>
    <| ipc_buffer := ipc_msg_zero <| words := map Z.of_nat (seq 100 30) |> |>.

Definition demo_threads : tcb_table_t :=
  mk_tcb_table (put_all [(0%nat, demo_thread 0); (1%nat, demo_thread 1)] (threads tcb_table_zero)) 2.

Definition demo_sched_setup : list sched_op :=
  [SCreate 0 0 6000 1; SCreate 1 6000 2000 3; SBind 0 0 0 1000 5000 10; SBind 1 1 0 500 2000 5].
Definition demo_sched : sched_state_t := default sched_init (sched_run sched_init demo_sched_setup).

Definition demo_db : mdb_tree_t :=
  match mdb_insert (Some mdb_init) NIL 0 demo_untyped (Some 0) with
  | Some (_, Some m, _) => m
  | _ => mdb_init
  end.

Definition demo_kernel : kstate :=
  mk_kstate demo_threads (replicate (Z.to_nat MAX_ENDPOINTS) endpoint_zero)
    {[ root_cnode demo_layout := demo_root ]} demo_sched demo_db ∅ (mk_pt_world ∅ ∅ 0x90000000 0).

Lemma put_all_length {A} (l : list (nat * A)) d : length (put_all l d) = length d.
Proof. induction l as [|p l IH]; [done|]. cbn. by rewrite length_insert. Qed.

Lemma put_all_get {A} (l : list (nat * A)) d i x :
  (put_all l d).[i] = Some x -> In x (map snd l) \/ d.[i] = Some x.
Proof.
  induction l as [|p l IH]; [by right|]. change (put_all (p :: l) d) with (<[p.1 := p.2]> (put_all l d)).
  intros H. apply arr_get_Some in H as [Hi H].
  apply list_lookup_insert_Some in H as [(_ & <- & _)|[_ H]]; [left; by left|].
  destruct IH as [?|?]; [rewrite arr_get_lookup; [done|lia]|left; by right|by right].
Qed.

Lemma demo_layout_wf : layout_wf demo_layout.
Proof. constructor; cbn; unfold NULL, MAX_TCBS, MAX_ENDPOINTS; lia. Qed.

Lemma demo_holds c : holds (g_cnodes demo_kernel) c -> In c (map snd demo_caps).
Proof.
  intros (p & cn & i & Hp & Hi & Hv). cbn in Hp. apply lookup_singleton_Some in Hp as [<- <-].
  apply put_all_get in Hi as [?|Hi]; [done|]. apply arr_get_replicate in Hi as ->. done.
Qed.

Lemma demo_kernel_objects : objects_ok demo_layout demo_kernel.
Proof.
  intros c Hc. apply demo_holds in Hc. cbn in Hc. unfold cap_target_ok.
  repeat (destruct Hc as [<-|Hc]; [split_and!; intros E; try discriminate E;
    (exists 1; split; [vm_compute; split; congruence|reflexivity])|]).
  destruct Hc.
Qed.

Lemma demo_mdb_insert : exists m, mdb_insert (Some mdb_init) NIL 0 demo_untyped (Some 0) = Some (ERR_OK, Some m, Some 0)
  /\ demo_db = m /\ mdb_inv m /\ live (mdb_nodes m) 0.
Proof.
  destruct (mdb_insert_cases mdb_init NIL 0 demo_untyped 0 mdb_init_inv (or_introl eq_refl))
    as (e & m & idx & H & Hinv & He & _ & Hok).
  assert (e = ERR_OK) as -> by (apply He; vm_compute; reflexivity).
  destruct (Hok eq_refl) as (_ & Hbelow & Hl & _).
  assert (option_map snd (mdb_insert (Some mdb_init) NIL 0 demo_untyped (Some 0)) = Some (Some 0)) as Hidx
    by (vm_compute; reflexivity).
  rewrite H in Hidx. injection Hidx as ->. exists m. unfold demo_db. rewrite H.
  split_and!; try done. apply Hl. by left.
Qed.

Lemma demo_kernel_wf : kernel_wf demo_layout demo_kernel.
Proof.
  destruct demo_mdb_insert as (m & _ & Em & Hinv & Hlive).
  constructor; unfold demo_kernel; cbn [g_tcbs g_endpoints g_cnodes g_sched g_mdb g_vspaces g_pt].
  - unfold tcbs_wf, demo_threads. cbn [threads]. by rewrite put_all_length.
  - intros i t Ht. apply put_all_get in Ht as [Ht|Ht].
    + assert (is_Some (({[root_cnode demo_layout := demo_root]} : cnodes) !! root_cnode demo_layout)) as Hr
        by (by eexists; apply lookup_singleton_eq).
      destruct Ht as [<-|[<-|[]]]; (split; [by right|split_and!; done]).
    + apply arr_get_replicate in Ht as ->. split; [by left|split_and!; done].
  - done.
  - intros i e He. apply arr_get_replicate in He as ->. split; [apply endpoint_zero_wf|].
    split; [|by split]. unfold endpoint_zero. cbn [queue_msgs].
    apply Forall_replicate. by split.
  - intros p cn Hp. apply lookup_singleton_Some in Hp as [_ <-]. unfold cnode_wf, demo_root.
    cbn [slots modify_field]. by rewrite put_all_length.
  - by eexists; apply lookup_singleton_eq.
  - intros c Hc. apply demo_holds in Hc. cbn in Hc.
    repeat (destruct Hc as [<-|Hc]; [fits_now|]). destruct Hc.
  - destruct (sched_run_wf demo_sched_setup sched_init sched_init_wf) as (s & Hs & Hwf).
    + repeat constructor; vm_compute; congruence.
    + unfold demo_sched. by rewrite Hs.
  - by rewrite Em.
  - by rewrite Em.
  - exists (fun _ => ∅). split; intros; by rewrite lookup_empty in *.
Qed.
