(* ===== verification/Invoke.v ===== *)
(** * syscall.c: capability invocation ([handle_invoke])

    One definition per case of the [switch], each over the whole kernel state, and
    the theorem that bounds what an invocation can do with a capability. *)

From S2P Require Import Prelude Types Cheri Cap CNode Tcb Endpoint Alloc Sched Mdb VSpace Kernel.

(** Bits [lo .. lo+7] of an argument register. *)
Definition arg_byte (arg lo : Z) : Z := Z.land (Z.shiftr arg lo) 0xFF.

(** [cap_t *c = cnode_lookup(&g_root_cnode, slot)] and the capability it points to. *)
Definition root_lookup (lay : layout) (k : kstate) (slot : Z) : option (option cap_t) :=
  root ← g_cnodes k !! root_cnode lay;
  Some (i ← cnode_lookup (Some root) slot; Some (slot_at root i)).

(** [!c || c->type != t]. *)
Definition wrong_type (c : option cap_t) (t : cap_type_t) : bool :=
  match c with None => true | Some c => negb (type c =? t) end.

Definition invoke_untyped_retype (lay : layout) (k : kstate) (cap : cap_t) (arg1 arg2 arg3 : Z)
    : option (kerror_t * kstate) :=
  let new_type := u32 arg2 in
  let size := arg3 in
  let dest_slot := arg_byte arg1 8 in
  let dest_slot := if dest_slot =? 0 then 5 else dest_slot in
  retif negb (cap_can_retype cap new_type size) with Some (ERR_INVALID_ARG, k);;
  let new_cap := cap_retype cap new_type (untyped_paddr (u cap)) size in
  retif negb (is_valid new_cap) with Some (ERR_INVALID_CAP, k);;
  retif MAX_CAPS_PER_CNODE <=? dest_slot with Some (ERR_INVALID_ARG, k);;
  root ← g_cnodes k !! root_cnode lay;
  old ← (slots root).[dest_slot];
  retif is_valid old with Some (ERR_REVOKE_NEEDED, k);;
  sl ← (slots root).[dest_slot := new_cap];
  let root' := root <| slots := sl |> <| used ::= fun n => u32 (n + 1) |> in
  '(_, mdb', _) ← mdb_insert (Some (g_mdb k)) 0 dest_slot new_cap (Some 0);
  mdb' ← mdb';
  Some (ERR_OK, k <| g_cnodes ::= insert (root_cnode lay) root' |> <| g_mdb := mdb' |>).

(** The result of a cnode operation on the root node. *)
Definition with_cnodes (k : kstate) (r : option (kerror_t * cnodes)) : option (kerror_t * kstate) :=
  '(e, h) ← r; Some (e, k <| g_cnodes := h |>).

Definition invoke_cnode_copy (lay : layout) (k : kstate) (cap : cap_t) (arg2 arg3 : Z)
    : option (kerror_t * kstate) :=
  retif negb (type cap =? CAP_CNODE) with Some (ERR_INVALID_CAP, k);;
  let src_slot := arg_byte arg2 0 in
  let dst_slot := arg_byte arg3 0 in
  with_cnodes k (cnode_copy (g_cnodes k) (root_cnode lay) dst_slot (root_cnode lay) src_slot
                            (rights cap)).

Definition invoke_cnode_mint (lay : layout) (k : kstate) (cap : cap_t) (arg2 arg3 : Z)
    : option (kerror_t * kstate) :=
  retif negb (type cap =? CAP_CNODE) with Some (ERR_INVALID_CAP, k);;
  let src_slot := arg_byte arg2 0 in
  let dst_slot := arg_byte arg3 0 in
  let badge' := arg_byte arg2 8 in
  with_cnodes k (cnode_mint (g_cnodes k) (root_cnode lay) dst_slot (root_cnode lay) src_slot
                            (rights cap) badge').

Definition invoke_cnode_move (lay : layout) (k : kstate) (cap : cap_t) (arg2 arg3 : Z)
    : option (kerror_t * kstate) :=
  retif negb (type cap =? CAP_CNODE) with Some (ERR_INVALID_CAP, k);;
  let src_slot := arg_byte arg2 0 in
  let dst_slot := arg_byte arg3 0 in
  with_cnodes k (cnode_move (g_cnodes k) (root_cnode lay) dst_slot (root_cnode lay) src_slot).

Definition invoke_cnode_delete (lay : layout) (k : kstate) (cap : cap_t) (arg2 : Z)
    : option (kerror_t * kstate) :=
  retif negb (type cap =? CAP_CNODE) with Some (ERR_INVALID_CAP, k);;
  let slot := arg_byte arg2 0 in
  with_cnodes k (cnode_delete (g_cnodes k) (root_cnode lay) slot).

(** [t->state == TCB_INACTIVE ? tcb_resume(t) : tcb_wake_from_ipc(t, 0)]. *)
Definition resume_or_wake (t : tcb_t) : tcb_t :=
  if in_state t TCB_INACTIVE then default t (tcb_resume (Some t))
  else default t (tcb_wake_from_ipc (Some t) 0).2.

Definition invoke_tcb_resume (lay : layout) (k : kstate) (cap : cap_t)
    : option (kerror_t * kstate) :=
  retif negb (type cap =? CAP_TCB) with Some (ERR_INVALID_CAP, k);;
  p ← deref (tcb_addr lay) MAX_TCBS (tcb_tcb_ptr (u cap));
  i ← p;
  tcbs ← upd_thread (g_tcbs k) i resume_or_wake;
  Some (ERR_OK, k <| g_tcbs := tcbs |>).

Definition invoke_tcb_suspend (lay : layout) (k : kstate) (cap : cap_t)
    : option (kerror_t * kstate) :=
  retif negb (type cap =? CAP_TCB) with Some (ERR_INVALID_CAP, k);;
  p ← deref (tcb_addr lay) MAX_TCBS (tcb_tcb_ptr (u cap));
  match p with
  | None => Some (ERR_OK, k)
  | Some i =>
      tcbs ← upd_thread (g_tcbs k) i (fun t => default t (tcb_suspend (Some t)));
      Some (ERR_OK, k <| g_tcbs := tcbs |>)
  end.

(** The space given to the thread is the root node whatever the capability named. *)
Definition invoke_tcb_configure (lay : layout) (k : kstate) (cap : cap_t) (arg1 arg2 arg3 : Z)
    : option (kerror_t * kstate) :=
  retif negb (type cap =? CAP_TCB) with Some (ERR_INVALID_CAP, k);;
  let cspace_slot := arg_byte arg1 16 in
  let vspace_slot := arg_byte arg2 0 in
  cspace_cap ← root_lookup lay k cspace_slot;
  vspace_cap ← root_lookup lay k vspace_slot;
  retif wrong_type cspace_cap CAP_CNODE with Some (ERR_INVALID_CAP, k);;
  retif wrong_type vspace_cap CAP_VSPACE with Some (ERR_INVALID_CAP, k);;
  vc ← vspace_cap;
  p ← deref (tcb_addr lay) MAX_TCBS (tcb_tcb_ptr (u cap));
  let vspace_root' := vspace_root_pt (u vc) in
  let asid' := arg_byte arg3 0 in
  let partition := arg_byte arg3 8 in
  match p with
  | None => Some ((tcb_configure None (root_cnode lay) vspace_root' asid' partition).1, k)
  | Some i =>
      t ← (threads (g_tcbs k)).[i];
      let (e, t') := tcb_configure (Some t) (root_cnode lay) vspace_root' asid' partition in
      tcbs ← upd_thread (g_tcbs k) i (fun t => default t t');
      Some (e, k <| g_tcbs := tcbs |>)
  end.

(** [INV_VSPACE_MAP] and its alias [INV_FRAME_MAP]. *)
Definition invoke_vspace_map (lay : layout) (k : kstate) (cap : cap_t) (arg2 arg3 : Z)
    : option (kerror_t * kstate) :=
  retif negb (type cap =? CAP_VSPACE) with Some (ERR_INVALID_CAP, k);;
  let frame_slot := arg_byte arg3 0 in
  frame_cap ← root_lookup lay k frame_slot;
  retif wrong_type frame_cap CAP_FRAME with Some (ERR_INVALID_CAP, k);;
  fc ← frame_cap;
  let p := vspace_root_pt (u cap) in
  vs ← deref_vspace (g_vspaces k) p;
  '(e, vs', w') ← vspace_map (g_pt k) vs arg2 (frame_paddr (u fc)) PAGE_SIZE
                    (frame_perms (u fc)) (frame_color (u fc));
  match vs' with
  | None => Some (e, k <| g_pt := w' |>)
  | Some v' => Some (e, k <| g_pt := w' |> <| g_vspaces ::= insert p v' |>)
  end.

Definition invoke_vspace_unmap (lay : layout) (k : kstate) (cap : cap_t) (arg2 arg3 : Z)
    : option (kerror_t * kstate) :=
  retif negb (type cap =? CAP_VSPACE) with Some (ERR_INVALID_CAP, k);;
  vs ← deref_vspace (g_vspaces k) (vspace_root_pt (u cap));
  '(e, w') ← vspace_unmap (g_pt k) vs arg2 arg3;
  Some (e, k <| g_pt := w' |>).

Definition invoke_sched_bind (k : kstate) (cap : cap_t) (arg1 arg2 arg3 : Z)
    : option (kerror_t * kstate) :=
  retif negb (cap_is_valid (Some cap)) with Some (ERR_INVALID_CAP, k);;
  let sc_id := arg_byte arg1 8 in
  let tcb_id := arg_byte arg1 16 in
  let part_id := arg_byte arg1 24 in
  let prio := arg_byte arg1 32 in
  '(e, s') ← sched_context_bind (Some (g_sched k)) sc_id tcb_id part_id arg2 arg3 prio;
  s' ← s';
  Some (e, k <| g_sched := s' |>).

Definition handle_invoke (lay : layout) (k : kstate) (cap : option cap_t) (op arg1 arg2 arg3 : Z)
    : option (kerror_t * kstate) :=
  match cap with
  | None => Some (ERR_INVALID_CAP, k)
  | Some c =>
      retif negb (cap_is_valid cap) with Some (ERR_INVALID_CAP, k);;
      match invoke_op_decode op with
      | Some INV_UNTYPED_RETYPE => invoke_untyped_retype lay k c arg1 arg2 arg3
      | Some INV_CNODE_COPY => invoke_cnode_copy lay k c arg2 arg3
      | Some INV_TCB_RESUME => invoke_tcb_resume lay k c
      | Some INV_VSPACE_MAP => invoke_vspace_map lay k c arg2 arg3
      | Some INV_CNODE_MINT => invoke_cnode_mint lay k c arg2 arg3
      | Some INV_CNODE_MOVE => invoke_cnode_move lay k c arg2 arg3
      | Some INV_CNODE_DELETE => invoke_cnode_delete lay k c arg2
      | Some INV_TCB_CONFIGURE => invoke_tcb_configure lay k c arg1 arg2 arg3
      | Some INV_TCB_SUSPEND => invoke_tcb_suspend lay k c
      | Some INV_VSPACE_UNMAP => invoke_vspace_unmap lay k c arg2 arg3
      | Some INV_FRAME_MAP => invoke_vspace_map lay k c arg2 arg3
      | Some INV_SCHED_BIND => invoke_sched_bind k c arg1 arg2 arg3
      | None => Some (ERR_INVALID_ARG, k)
      end
  end.

(** ** Lemmas *)

Lemma arg_byte_range arg lo : 0 <= arg_byte arg lo < 256.
Proof.
  unfold arg_byte. change 0xFF with (Z.ones 8). rewrite Z.land_ones by lia.
  apply Z.mod_pos_bound. lia.
Qed.

Lemma arg_byte_fits arg lo : fits 32 (arg_byte arg lo).
Proof. pose proof (arg_byte_range arg lo). unfold fits. lia. Qed.

#[local] Hint Resolve arg_byte_fits : moon.

Lemma root_lookup_holds lay k slot c : root_lookup lay k slot = Some (Some c) ->
  holds (g_cnodes k) c /\ cheri_tag_get (hw_cap c) = true.
Proof.
  unfold root_lookup. intros H. destruct (g_cnodes k !! root_cnode lay) as [root|] eqn:Er; [|done].
  cbn [mbind option_bind] in H. injection H as H.
  destruct (cnode_lookup (Some root) slot) as [i|] eqn:El; [|done]. injection H as <-.
  apply cnode_lookup_Some in El as (Hg & Hv & Ht). split; [|done].
  by exists (root_cnode lay), root, i.
Qed.

Lemma root_lookup_defined lay k slot : kernel_wf lay k -> is_Some (root_lookup lay k slot).
Proof.
  intros Hwf. destruct (kw_root _ _ Hwf) as [root Hr]. unfold root_lookup. rewrite Hr. by eexists.
Qed.

(** [k] with a component replaced by itself. *)
Lemma same_cnodes k : k <| g_cnodes := g_cnodes k |> = k.
Proof. by destruct k. Qed.
Lemma same_tcbs k : k <| g_tcbs := g_tcbs k |> = k.
Proof. by destruct k. Qed.
Lemma same_sched k : k <| g_sched := g_sched k |> = k.
Proof. by destruct k. Qed.

(** What each case of the dispatch guarantees: a result, the invariant, and no
    effect when it fails. *)
Definition case_ok (lay : layout) (k : kstate) (r : option (kerror_t * kstate)) : Prop :=
  exists e k', r = Some (e, k') /\ kernel_wf lay k' /\ (e <> ERR_OK -> k' = k).

Lemma case_ok_err lay k e : kernel_wf lay k -> case_ok lay k (Some (e, k)).
Proof. intros Hwf. by exists e, k. Qed.
#[local] Hint Resolve case_ok_err : moon.

Lemma caps_typed_derived h h' : caps_typed h ->
  (forall c, holds h' c -> exists c0, holds h c0 /\ derived_from c c0) -> caps_typed h'.
Proof.
  intros Ht H c Hc. destruct (H c Hc) as (c0 & H0 & (_ & _ & _ & _ & _ & Hs)).
  eapply subset_fits; [lia|exact Hs|by apply Ht].
Qed.

(** The four operations on the root node. *)
Lemma case_cnode lay k o : kernel_wf lay k -> op_typed o -> op_ptrs_ok (g_cnodes k) o ->
  case_ok lay k (with_cnodes k (cnode_exec (g_cnodes k) o)).
Proof.
  intros Hwf Ht Hp. destruct (cnode_exec_defined _ o (kw_cnodes _ _ Hwf) Ht Hp) as [[e h] H].
  rewrite H. destruct (cnode_exec_wf _ _ _ _ Ht (kw_cnodes _ _ Hwf) H) as [Hh He].
  exists e, (k <| g_cnodes := h |>). split_and!; [done| |].
  - apply wf_set_cnodes; [done|done| |].
    + eapply caps_typed_derived; [apply (kw_caps _ _ Hwf)|].
      apply cnode_step_confined. econstructor; done.
    + intros p. by eapply cnode_exec_dom.
  - intros Hne. rewrite (He Hne). apply same_cnodes.
Qed.

Lemma root_ptr_ok lay k : kernel_wf lay k -> ptr_ok (g_cnodes k) (root_cnode lay).
Proof. intros Hwf. right. apply Hwf. Qed.

Lemma case_cnode_ops lay k c a2 a3 : kernel_wf lay k -> fits 32 (rights c) ->
  case_ok lay k (invoke_cnode_copy lay k c a2 a3) /\ case_ok lay k (invoke_cnode_mint lay k c a2 a3) /\
  case_ok lay k (invoke_cnode_move lay k c a2 a3) /\ case_ok lay k (invoke_cnode_delete lay k c a2).
Proof.
  intros Hwf Hr. pose proof (root_ptr_ok lay k Hwf) as Hp.
  unfold invoke_cnode_copy, invoke_cnode_mint, invoke_cnode_move, invoke_cnode_delete.
  pose proof (arg_byte_range a3 0) as Hb.
  split_and!; branches; auto with moon.
  - apply (case_cnode lay k (OpCopy _ _ _ _ _)); [done|split_and!; auto with moon|done].
  - apply (case_cnode lay k (OpMint _ _ _ _ _ _)); [done|split_and!; auto with moon|done].
  - apply (case_cnode lay k (OpMove _ _ _ _)); [done|split_and!; auto with moon|].
    split_and!; try done. unfold MAX_CAPS_PER_CNODE. lia.
  - apply (case_cnode lay k (OpDelete _ _)); [done|apply arg_byte_fits|done].
Qed.

(** A retyped capability and where it comes from. *)
Definition retyped_from (x c : cap_t) (t size : Z) : Prop :=
  cap_can_retype c t size = true /\ x = cap_retype c t (untyped_paddr (u c)) size.

Lemma cap_retype_fields c t size : cap_can_retype c t size = true ->
  let x := cap_retype c t (untyped_paddr (u c)) size in
  type x = t /\ rights x = 0xF /\ is_valid x = true /\ frame_paddr (u x) = untyped_paddr (u c) /\
  hw_base (hw_cap x) = untyped_paddr (u c) /\ hw_top (hw_cap x) = u64 (untyped_paddr (u c) + size).
Proof. intros H. unfold cap_retype, guard_ret. rewrite H. done. Qed.

(** A successful retype writes the new capability into a free slot of the root node
    and records it under node 0 of the database. *)
Lemma retype_effect lay k c a1 a2 a3 e k' :
  invoke_untyped_retype lay k c a1 a2 a3 = Some (e, k') ->
  (e <> ERR_OK /\ k' = k) \/
  (e = ERR_OK /\ exists h m slot x, k' = k <| g_cnodes := h |> <| g_mdb := m |> /\
     retyped_from x c (u32 a2) a3 /\
     put_slot (g_cnodes k) (root_cnode lay) slot x (fun n => u32 (n + 1)) h /\
     exists err out, mdb_insert (Some (g_mdb k)) 0 slot x (Some 0) = Some (err, Some m, out)).
Proof.
  unfold invoke_untyped_retype, guard_ret. cbn zeta. intros H.
  set (slot := if arg_byte a1 8 =? 0 then 5 else arg_byte a1 8) in *.
  destruct (negb (cap_can_retype c (u32 a2) a3)) eqn:Hc; [injection H as <- <-; by left|].
  destruct (negb (is_valid _)); [injection H as <- <-; by left|].
  destruct (MAX_CAPS_PER_CNODE <=? slot); [injection H as <- <-; by left|].
  destruct (g_cnodes k !! root_cnode lay) as [root|] eqn:Er; [|done]. cbn [mbind option_bind] in H.
  destruct (slots root).[slot] as [old|] eqn:Eo; [|done]. cbn [mbind option_bind] in H.
  destruct (is_valid old); [injection H as <- <-; by left|].
  destruct ((slots root).[slot := _]) as [sl|] eqn:Es; [|done]. cbn [mbind option_bind] in H.
  destruct (mdb_insert _ _ _ _ _) as [[[err m] out]|] eqn:Em; [|done]. cbn [mbind option_bind] in H.
  destruct m as [m|]; [|done]. injection H as <- <-. right. split; [done|].
  apply arr_set_Some in Es as [Hi ->]. bools.
  eexists _, m, slot, (cap_retype c (u32 a2) (untyped_paddr (u c)) a3).
  split; [reflexivity|]. split_and!; [by split|by exists root|by eexists _, _].
Qed.

Lemma case_retype lay k c a1 a2 a3 : kernel_wf lay k ->
  case_ok lay k (invoke_untyped_retype lay k c a1 a2 a3).
Proof.
  intros Hwf. assert (is_Some (invoke_untyped_retype lay k c a1 a2 a3)) as [[e k'] H].
  { unfold invoke_untyped_retype, guard_ret. cbn zeta.
    set (slot := if arg_byte a1 8 =? 0 then 5 else arg_byte a1 8).
    assert (0 <= slot < 256) as Hs
      by (subst slot; pose proof (arg_byte_range a1 8); destruct (_ =? 0); lia).
    destruct (kw_root _ _ Hwf) as [root Hr]. rewrite Hr. cbn [mbind option_bind].
    destruct (slot_defined _ _ root slot (kw_cnodes _ _ Hwf) Hr Hs) as [[old Ho] Hset].
    rewrite Ho. cbn [mbind option_bind].
    edestruct Hset as [sl Hsl]. rewrite Hsl. cbn [mbind option_bind].
    destruct (mdb_insert_cases (g_mdb k) 0 slot (cap_retype c (u32 a2) (untyped_paddr (u c)) a3) 0
      (kw_mdb _ _ Hwf) (or_intror (kw_mdb_root _ _ Hwf))) as (err & m & out & -> & _).
    branches; by eexists. }
  rewrite H. exists e, k'. split; [done|].
  apply retype_effect in H as [[_ ->]|(-> & h & m & slot & x & -> & [Hc ->] & Hput & err & out & Hm)]; [done|].
  split; [|done]. destruct (cap_retype_fields _ _ _ Hc) as (_ & Hr & Hv & _).
  assert (kernel_wf lay (k <| g_cnodes := h |>)) as Hwf1.
  { apply wf_set_cnodes; [done|eapply put_slot_wf; [done|apply Hwf]| |].
    - intros y Hy. destruct (put_slot_holds _ _ _ _ _ _ _ Hput Hy) as [[-> _]|Hy0].
      + rewrite Hr. fits_now.
      + by apply (kw_caps _ _ Hwf).
    - intros p. by eapply put_slot_dom. }
  destruct (mdb_insert_cases (g_mdb k) 0 slot (cap_retype c (u32 a2) (untyped_paddr (u c)) a3) 0
    (kw_mdb _ _ Hwf) (or_intror (kw_mdb_root _ _ Hwf))) as (err' & m' & out' & Hm' & Hinv & _ & Herr & Hok).
  rewrite Hm in Hm'. injection Hm' as <- <- _.
  apply (wf_set_mdb lay (k <| g_cnodes := h |>)); [done..|].
  destruct (decide (err = ERR_OK)) as [E|E].
  - destruct (Hok E) as (_ & _ & Hl & _). apply Hl. right. apply Hwf.
  - destruct (Herr E) as [_ ->]. apply Hwf.
Qed.

(** A thread capability leads to its thread. *)
Lemma deref_tcb lay i : layout_wf lay -> 0 <= i < MAX_TCBS ->
  deref (tcb_addr lay) MAX_TCBS (tcb_addr lay i) = Some (Some i).
Proof.
  intros Hl Hi. unfold deref. rewrite (proj2 (Z.eqb_neq _ _) (lw_tcb_null _ Hl i Hi)).
  rewrite ptr_index_addr; [done|done|]. intros j Hj. by apply (lw_tcb_inj _ Hl).
Qed.

Lemma deref_index addr n p i : deref addr n p = Some (Some i) -> 0 <= i < n /\ addr i = p.
Proof.
  unfold deref. destruct (p =? NULL); [done|]. intros H. peel H. injection H as <-.
  by apply ptr_index_Some.
Qed.

(** [thread_ok] only reads fields that the thread operations keep or set well. *)
Lemma thread_ok_ext h t t' : thread_ok h t -> cspace t' = cspace t ->
  sched_context t' = sched_context t -> ipc_buffer t' = ipc_buffer t -> thread_ok h t'.
Proof. unfold thread_ok. by intros H -> -> ->. Qed.

Lemma resume_or_wake_ok h t : thread_ok h t -> thread_ok h (resume_or_wake t).
Proof.
  intros H. apply (thread_ok_ext h t); [done|..];
    unfold resume_or_wake, tcb_resume, tcb_wake_from_ipc; branches; done.
Qed.

Section Cases.
Context (lay : layout) (k : kstate) (c : cap_t).
Context (Hlay : layout_wf lay) (Hwf : kernel_wf lay k) (Htgt : cap_target_ok lay k c).

Lemma tcb_target : type c = CAP_TCB ->
  exists i t, deref (tcb_addr lay) MAX_TCBS (tcb_tcb_ptr (u c)) = Some (Some i) /\
    (threads (g_tcbs k)).[i] = Some t.
Proof.
  intros Ht. destruct Htgt as [Ht' _]. destruct (Ht' Ht) as (i & Hi & ->).
  destruct (thread_get (g_tcbs k) i (kw_threads _ _ Hwf) Hi) as [t Hg].
  exists i, t. split; [by apply deref_tcb|done].
Qed.

Lemma case_tcb_resume : case_ok lay k (invoke_tcb_resume lay k c).
Proof.
  unfold invoke_tcb_resume, guard_ret. destruct (negb _) eqn:E; [by apply case_ok_err|]. bools.
  destruct (tcb_target E) as (i & t & -> & Ht). cbn [mbind option_bind].
  destruct (wf_upd_thread lay k Hwf i resume_or_wake t Ht (resume_or_wake_ok _ t)) as (tcbs & -> & Hwf').
  by eexists _, _.
Qed.

Lemma case_tcb_suspend : case_ok lay k (invoke_tcb_suspend lay k c).
Proof.
  unfold invoke_tcb_suspend, guard_ret. destruct (negb _) eqn:E; [by apply case_ok_err|]. bools.
  destruct (tcb_target E) as (i & t & -> & Ht). cbn [mbind option_bind].
  destruct (wf_upd_thread lay k Hwf i (fun t => default t (tcb_suspend (Some t))) t Ht)
    as (tcbs & Hu & Hwf').
  { intros H. by apply (thread_ok_ext _ t). }
  rewrite Hu. by eexists _, _.
Qed.

Lemma case_tcb_configure a1 a2 a3 : case_ok lay k (invoke_tcb_configure lay k c a1 a2 a3).
Proof.
  unfold invoke_tcb_configure, guard_ret. destruct (negb _) eqn:E; [by apply case_ok_err|]. bools.
  destruct (root_lookup_defined lay k (arg_byte a1 16) Hwf) as [cc ->].
  destruct (root_lookup_defined lay k (arg_byte a2 0) Hwf) as [vc ->]. cbn [mbind option_bind].
  destruct (wrong_type cc CAP_CNODE); [by apply case_ok_err|].
  destruct (wrong_type vc CAP_VSPACE) eqn:Ev; [by apply case_ok_err|].
  destruct vc as [vc|]; [|done]. cbn [mbind option_bind].
  destruct (tcb_target E) as (i & t & -> & Ht). cbn [mbind option_bind]. rewrite Ht.
  cbn [mbind option_bind]. unfold tcb_configure, guard_ret.
  rewrite (proj2 (Z.eqb_neq _ _) (lw_root _ Hlay)). cbn beta iota zeta.
  match goal with |- context [upd_thread _ _ ?f] =>
    destruct (wf_upd_thread lay k Hwf i f t Ht) as (tcbs & -> & Hwf') end.
  - intros (_ & Hs & Hw). split; [|exact (conj Hs Hw)]. right. apply Hwf.
  - by eexists _, _.
Qed.

Lemma case_sched_bind a1 a2 a3 : fits 64 a2 -> fits 64 a3 ->
  case_ok lay k (invoke_sched_bind k c a1 a2 a3).
Proof.
  intros H2 H3. unfold invoke_sched_bind, guard_ret.
  destruct (negb _); [by apply case_ok_err|].
  destruct (sched_context_bind_cases (g_sched k) (arg_byte a1 8) (arg_byte a1 16) (arg_byte a1 24) a2 a3
    (arg_byte a1 32) (kw_sched _ _ Hwf)) as (e & s' & -> & Hs & Hcase).
  { split_and!; try apply arg_byte_range; done. }
  cbn [mbind option_bind]. eexists _, _. split_and!; [done|by apply wf_set_sched|].
  destruct Hcase as [[-> ->]|[-> _]]; [|done]. intros _. apply same_sched.
Qed.

(** Unmapping never fails half-way. *)
Lemma case_vspace_unmap a2 a3 : fits 64 a3 -> case_ok lay k (invoke_vspace_unmap lay k c a2 a3).
Proof.
  intros H3. unfold invoke_vspace_unmap, guard_ret. destruct (negb _) eqn:E; [by apply case_ok_err|]. bools.
  destruct Htgt as (_ & _ & Hv). destruct (Hv E) as [v Hlook]. unfold deref_vspace.
  destruct (_ =? NULL); cbn [mbind option_bind].
  { cbn. exists ERR_INVALID_ARG, (k <| g_pt := g_pt k |>). split_and!; [done|destruct k; exact Hwf|].
    intros _. by destruct k. }
  rewrite Hlook. cbn [mbind option_bind]. destruct (kw_vspaces _ _ Hwf) as [labs Hat].
  pose proof (proj1 Hat _ _ Hlook) as Hvwf. pose proof (vw_root _ _ _ Hvwf) as Hroot.
  destruct (vw_pages _ _ _ Hvwf _ _ Hroot) as ((Hpos & _) & _).
  unfold vspace_unmap, guard_ret. rewrite (proj2 (Z.eqb_neq (vs_root v) NULL)) by (unfold NULL; lia).
  destruct (_ || _) eqn:Eal.
  { cbn. exists ERR_INVALID_ARG, (k <| g_pt := g_pt k |>). split_and!; [done|destruct k; exact Hwf|].
    intros _. by destruct k. }
  bools. destruct (unmap_loop_spec (page_count a3) (g_pt k) v _ a2 a3 0 Hvwf) as (w' & Hrun & Hst & _);
    [lia|apply size_pages; [unfold fits in H3; lia|done]|done|].
  change (PAGE_SIZE * 0) with 0 in Hrun. rewrite Hrun. cbn [mbind option_bind].
  eexists _, _. split_and!; [done| |done].
  pose proof (vspaces_step _ _ _ _ _ _ _ _ Hat Hlook Hst (labels_fresh_refl _ _ _)) as Hvs.
  rewrite insert_id in Hvs by done. pose proof (wf_set_pt lay k Hwf _ _ Hvs) as Hres. by destruct k.
Qed.

(** Mapping may stop part-way, but leaves well-formed tables. *)
Lemma case_vspace_map a2 a3 : fits 64 a2 ->
  exists e k', invoke_vspace_map lay k c a2 a3 = Some (e, k') /\ kernel_wf lay k'.
Proof.
  intros H2. unfold invoke_vspace_map, guard_ret. destruct (negb _) eqn:E; [by eexists _, _|]. bools.
  destruct (root_lookup_defined lay k (arg_byte a3 0) Hwf) as [fc ->]. cbn [mbind option_bind].
  destruct (wrong_type fc CAP_FRAME) eqn:Ef; [by eexists _, _|].
  destruct fc as [fc|]; [|discriminate Ef]. cbn [mbind option_bind].
  destruct Htgt as (_ & _ & Hv). destruct (Hv E) as [v Hlook]. unfold deref_vspace.
  destruct (_ =? NULL); cbn [mbind option_bind].
  { eexists _, _. split; [done|]. destruct k; exact Hwf. }
  rewrite Hlook. cbn [mbind option_bind]. destruct (kw_vspaces _ _ Hwf) as [labs Hat].
  destruct (vspace_map_cases (g_pt k) v (labs (vspace_root_pt (u c))) a2 (frame_paddr (u fc)) PAGE_SIZE
    (frame_perms (u fc)) (frame_color (u fc))) as (e & v' & w' & lab' & n & -> & Hst & Hfr & _);
    [by apply Hat|fits_now|].
  cbn [mbind option_bind]. eexists _, _. split; [done|].
  exact (wf_set_pt lay k Hwf _ _ (vspaces_step _ _ _ _ _ _ _ _ Hat Hlook Hst Hfr)).
Qed.
End Cases.

(** ** Which parts of the state an invocation can reach *)

Lemma put_slot_frame h p i c f h' q : put_slot h p i c f h' -> q <> p -> h' !! q = h !! q.
Proof. intros (cn & _ & _ & ->) Hne. by rewrite lookup_insert_ne. Qed.

(** The operations write only the nodes they are given. *)
Lemma cnode_exec_frame h o e h' p q : op_typed o -> cnode_exec h o = Some (e, h') ->
  match o with
  | OpCopy d _ s _ _ | OpMint d _ s _ _ _ | OpMove d _ s _ => d = p /\ s = p
  | OpDelete c _ => c = p
  end -> q <> p -> h' !! q = h !! q.
Proof.
  intros Ht H. destruct o as [d di s si r|d di s si r b|d di s si|c i]; cbn in *.
  - intros [-> ->] Hne. destruct Ht as (_ & _ & Hr). destruct (cnode_copy_effect _ _ _ _ _ _ _ _ Hr H)
      as [[_ ->]|(-> & ? & ? & ? & _ & _ & _ & _ & _ & Hput)]; [done|by eapply put_slot_frame].
  - intros [-> ->] Hne. destruct Ht as (_ & _ & Hr & _). destruct (cnode_mint_effect _ _ _ _ _ _ _ _ _ Hr H)
      as [[_ ->]|(-> & ? & ? & ? & _ & _ & _ & _ & _ & _ & Hput)]; [done|by eapply put_slot_frame].
  - intros [-> ->] Hne. destruct (cnode_move_effect _ _ _ _ _ _ _ H)
      as [[_ ->]|(-> & ? & ? & ? & ? & ? & _ & _ & _ & _ & _ & Hp1 & Hp2)]; [done|].
    rewrite (put_slot_frame _ _ _ _ _ _ _ Hp2 Hne). by eapply put_slot_frame.
  - intros -> Hne. destruct (cnode_delete_effect _ _ _ _ _ H) as [[_ ->]|(-> & ? & ? & _ & _ & _ & Hput)];
      [done|by eapply put_slot_frame].
Qed.

(** The four operations as the dispatch issues them. *)
Definition root_op (lay : layout) (c : cap_t) (a2 a3 : Z) (o : cnode_op) : Prop :=
  let r := root_cnode lay in
  o = OpCopy r (arg_byte a3 0) r (arg_byte a2 0) (rights c) \/
  o = OpMint r (arg_byte a3 0) r (arg_byte a2 0) (rights c) (arg_byte a2 8) \/
  o = OpMove r (arg_byte a3 0) r (arg_byte a2 0) \/ o = OpDelete r (arg_byte a2 0).

Lemma root_op_typed lay c a2 a3 o : fits 32 (rights c) -> root_op lay c a2 a3 o -> op_typed o.
Proof. intros Hr [->|[->|[->| ->]]]; repeat split; try apply Hr; apply arg_byte_fits. Qed.

(** The effect of each case, by the type of the capability invoked. *)
Inductive invoke_effect (lay : layout) (k : kstate) (c : cap_t) (op a1 a2 a3 : Z) : kerror_t -> kstate -> Prop :=
| ef_none e : invoke_effect lay k c op a1 a2 a3 e k
| ef_retype h m slot x err out : invoke_op_decode op = Some INV_UNTYPED_RETYPE -> type c = CAP_UNTYPED -> retyped_from x c (u32 a2) a3 ->
    put_slot (g_cnodes k) (root_cnode lay) slot x (fun n => u32 (n + 1)) h ->
    mdb_insert (Some (g_mdb k)) 0 slot x (Some 0) = Some (err, Some m, out) ->
    invoke_effect lay k c op a1 a2 a3 ERR_OK (k <| g_cnodes := h |> <| g_mdb := m |>)
| ef_cnode o e h : type c = CAP_CNODE -> root_op lay c a2 a3 o -> cnode_exec (g_cnodes k) o = Some (e, h) ->
    invoke_effect lay k c op a1 a2 a3 e (k <| g_cnodes := h |>)
| ef_tcb i o e tcbs : type c = CAP_TCB -> 0 <= i < MAX_TCBS -> tcb_addr lay i = tcb_tcb_ptr (u c) ->
    upd_thread (g_tcbs k) i (fun t => tcb_exec t o) = Some tcbs -> invoke_effect lay k c op a1 a2 a3 e (k <| g_tcbs := tcbs |>)
| ef_map e fc v v' w : type c = CAP_VSPACE -> holds (g_cnodes k) fc -> type fc = CAP_FRAME ->
    cheri_tag_get (hw_cap fc) = true -> g_vspaces k !! vspace_root_pt (u c) = Some v ->
    vspace_map (g_pt k) (Some v) a2 (frame_paddr (u fc)) PAGE_SIZE (frame_perms (u fc)) (frame_color (u fc))
      = Some (e, Some v', w) ->
    invoke_effect lay k c op a1 a2 a3 e (k <| g_pt := w |> <| g_vspaces ::= insert (vspace_root_pt (u c)) v' |>)
| ef_unmap e v w : type c = CAP_VSPACE -> g_vspaces k !! vspace_root_pt (u c) = Some v ->
    vspace_unmap (g_pt k) (Some v) a2 a3 = Some (e, w) ->
    invoke_effect lay k c op a1 a2 a3 e (k <| g_pt := w |>)
| ef_bind e s : invoke_op_decode op = Some INV_SCHED_BIND ->
    sched_context_bind (Some (g_sched k)) (arg_byte a1 8) (arg_byte a1 16) (arg_byte a1 24)
      a2 a3 (arg_byte a1 32) = Some (e, Some s) ->
    invoke_effect lay k c op a1 a2 a3 e (k <| g_sched := s |>).

Lemma same_pt k : k <| g_pt := g_pt k |> = k.
Proof. by destruct k. Qed.

Lemma ef_with_cnodes lay k c op a1 a2 a3 o e k' : type c = CAP_CNODE -> root_op lay c a2 a3 o ->
  with_cnodes k (cnode_exec (g_cnodes k) o) = Some (e, k') -> invoke_effect lay k c op a1 a2 a3 e k'.
Proof.
  intros Ht Ho H. unfold with_cnodes in H. peel H. destruct p as [e' h]. injection H as <- <-.
  by eapply ef_cnode.
Qed.

Lemma ef_cnode_ops lay k c op a1 a2 a3 e k' :
  invoke_cnode_copy lay k c a2 a3 = Some (e, k') \/ invoke_cnode_mint lay k c a2 a3 = Some (e, k') \/
  invoke_cnode_move lay k c a2 a3 = Some (e, k') \/ invoke_cnode_delete lay k c a2 = Some (e, k') ->
  invoke_effect lay k c op a1 a2 a3 e k'.
Proof.
  unfold invoke_cnode_copy, invoke_cnode_mint, invoke_cnode_move, invoke_cnode_delete, guard_ret.
  destruct (negb (type c =? CAP_CNODE)) eqn:E.
  { intros [H|[H|[H|H]]]; injection H as <- <-; constructor. }
  bools. unfold root_op.
  intros [H|[H|[H|H]]]; [apply (ef_with_cnodes lay k c op a1 a2 a3 (OpCopy _ _ _ _ _) e k') in H
    |apply (ef_with_cnodes lay k c op a1 a2 a3 (OpMint _ _ _ _ _ _) e k') in H
    |apply (ef_with_cnodes lay k c op a1 a2 a3 (OpMove _ _ _ _) e k') in H
    |apply (ef_with_cnodes lay k c op a1 a2 a3 (OpDelete _ _) e k') in H]; unfold root_op; auto.
Qed.

Lemma upd_thread_ext tcbs i f g t : (threads tcbs).[i] = Some t -> f t = g t ->
  upd_thread tcbs i f = upd_thread tcbs i g.
Proof. intros Ht E. unfold upd_thread. rewrite Ht. cbn. by rewrite E. Qed.

Lemma resume_or_wake_exec t : exists o, resume_or_wake t = tcb_exec t o.
Proof.
  unfold resume_or_wake. destruct (in_state t TCB_INACTIVE); [by exists TResume|by exists (TWake 0)].
Qed.

Lemma ef_tcb_ops lay k c op a1 a2 a3 e k' :
  invoke_tcb_resume lay k c = Some (e, k') \/ invoke_tcb_suspend lay k c = Some (e, k') \/
  invoke_tcb_configure lay k c a1 a2 a3 = Some (e, k') -> invoke_effect lay k c op a1 a2 a3 e k'.
Proof.
  unfold invoke_tcb_resume, invoke_tcb_suspend, invoke_tcb_configure, guard_ret.
  destruct (negb (type c =? CAP_TCB)) eqn:E.
  { intros [H|[H|H]]; injection H as <- <-; constructor. }
  bools. intros [H|[H|H]].
  - destruct (deref _ _ _) as [[i|]|] eqn:Ed; [|done|done]. cbn [mbind option_bind] in H. peel H.
    injection H as <- <-. apply deref_index in Ed as [Hi Ha].
    destruct (upd_thread_inv _ _ _ _ E0) as (t1 & Ht1 & _).
    destruct (resume_or_wake_exec t1) as [o Ho]. rewrite (upd_thread_ext _ _ _ (fun t => tcb_exec t o) _ Ht1 Ho) in E0.
    by eapply ef_tcb.
  - destruct (deref _ _ _) as [[i|]|] eqn:Ed; [| |done]; cbn [mbind option_bind] in H;
      [|injection H as <- <-; constructor]. peel H. injection H as <- <-.
    apply deref_index in Ed as [Hi Ha]. by apply (ef_tcb _ _ _ _ _ _ _ i TSuspend).
  - destruct (root_lookup lay k (arg_byte a1 16)) as [cc|]; [|done]. cbn [mbind option_bind] in H.
    destruct (root_lookup lay k (arg_byte a2 0)) as [vc|]; [|done]. cbn [mbind option_bind] in H.
    destruct (wrong_type cc CAP_CNODE); [injection H as <- <-; constructor|].
    destruct (wrong_type vc CAP_VSPACE); [injection H as <- <-; constructor|].
    destruct vc as [vc|]; [|done]. cbn [mbind option_bind] in H.
    destruct (deref _ _ _) as [[i|]|] eqn:Ed; [| |done]; cbn [mbind option_bind] in H;
      [|injection H as <- <-; constructor]. apply deref_index in Ed as [Hi Ha].
    destruct (threads (g_tcbs k)).[i] as [t|] eqn:Et; [|done]. cbn [mbind option_bind] in H.
    match type of H with context [tcb_configure (Some t) ?cs ?v ?a ?p] =>
      pose (o := TConfigure cs v a p) end.
    destruct (tcb_configure (Some t) _ _ _ _) as [e1 t'] eqn:Ec. peel H. injection H as <- <-.
    apply (ef_tcb _ _ _ _ _ _ _ i o); [done|done|done|].
    rewrite <- E0. apply (upd_thread_ext _ _ _ _ t Et). unfold tcb_exec, o. by rewrite Ec.
Qed.

Lemma ef_vspace_ops lay k c op a1 a2 a3 e k' :
  invoke_vspace_map lay k c a2 a3 = Some (e, k') \/ invoke_vspace_unmap lay k c a2 a3 = Some (e, k') ->
  invoke_effect lay k c op a1 a2 a3 e k'.
Proof.
  unfold invoke_vspace_map, invoke_vspace_unmap, guard_ret, deref_vspace.
  destruct (negb (type c =? CAP_VSPACE)) eqn:E.
  { intros [H|H]; injection H as <- <-; constructor. }
  bools. intros [H|H].
  - destruct (root_lookup lay k (arg_byte a3 0)) as [fc|] eqn:Ef; [|done]. cbn [mbind option_bind] in H.
    destruct fc as [fc|]; [|injection H as <- <-; constructor]. cbn [wrong_type] in H.
    destruct (negb (type fc =? CAP_FRAME)) eqn:Et; [injection H as <- <-; constructor|].
    cbn [mbind option_bind] in H. bools. apply root_lookup_holds in Ef as [Hh Htag].
    destruct (_ =? NULL); cbn [mbind option_bind] in H.
    { injection H as <- <-. rewrite same_pt. constructor. }
    destruct (g_vspaces k !! _) as [v|] eqn:Ev; [|done]. cbn [mbind option_bind] in H.
    destruct (vspace_map _ _ _ _ _ _ _) as [[[e1 [v'|]] w]|] eqn:Em; [| |done]; cbn in H.
    + injection H as <- <-. by eapply ef_map.
    + exfalso. unfold vspace_map, guard_ret in Em. run Em; destruct p as [[? ?] ?]; discriminate.
  - destruct (_ =? NULL); cbn [mbind option_bind] in H.
    { injection H as <- <-. rewrite same_pt. constructor. }
    destruct (g_vspaces k !! _) as [v|] eqn:Ev; [|done]. cbn [mbind option_bind] in H.
    destruct (vspace_unmap _ _ _ _) as [[e1 w]|] eqn:Em; [|done]. injection H as <- <-.
    by eapply ef_unmap.
Qed.

Lemma handle_invoke_effect lay k c op a1 a2 a3 e k' :
  handle_invoke lay k (Some c) op a1 a2 a3 = Some (e, k') ->
  invoke_effect lay k c op a1 a2 a3 e k' /\
  (k' <> k -> cap_is_valid (Some c) = true) /\
  (g_sched k' <> g_sched k -> invoke_op_decode op = Some INV_SCHED_BIND).
Proof.
  cbn [handle_invoke]. unfold guard_ret. intros H.
  destruct (cap_is_valid (Some c)) eqn:Ev; cbn [negb] in H;
    [|injection H as <- <-; split_and!; [constructor|done|done]].
  destruct (invoke_op_decode op) as [o|] eqn:Eo;
    [|injection H as <- <-; split_and!; [constructor|done|done]].
  assert (invoke_effect lay k c op a1 a2 a3 e k') as Hef.
  { destruct o; try (apply ef_cnode_ops; by auto); try (apply ef_tcb_ops; by auto);
      try (apply ef_vspace_ops; by auto).
    - apply retype_effect in H as [[_ ->]|(-> & h & m & slot & x & -> & [Hc Hx] & Hput & err & out & Hm)];
        [constructor|].
      assert (type c = CAP_UNTYPED) as Ht by (unfold cap_can_retype in Hc; branches; by bools).
      by eapply ef_retype.
    - unfold invoke_sched_bind, guard_ret in H. rewrite Ev in H. cbn [negb] in H.
      destruct (sched_context_bind _ _ _ _ _ _ _) as [[e1 [s|]]|] eqn:Eb; [|done|done].
      injection H as <- <-. by apply ef_bind. }
  split_and!; [done|done|]. intros Hne. destruct Hef; try (by destruct Hne); congruence.
Qed.

(** ** Properties *)

(** [INV_SCHED_BIND] as its arguments say: context [arg1[8..15]] is bound to the thread,
    partition and priority of the next bytes with budget [a2] and period [a3]. *)
Definition rebinds (a1 a2 a3 : Z) (s s' : sched_state_t) : Prop :=
  exists x, (contexts s).[arg_byte a1 8] = Some x /\
    s' = s <| contexts := <[Z.to_nat (arg_byte a1 8) := bound_context x (arg_byte a1 16) (arg_byte a1 24) a2 a3
                              (arg_byte a1 32)]> (contexts s) |>.

(** What the invocation of [c] may have done to the state. *)
Record footprint (lay : layout) (c : cap_t) (op a1 a2 a3 : Z) (k k' : kstate) : Prop := {
  fp_endpoints : g_endpoints k' = g_endpoints k;
  fp_count : count (g_tcbs k') = count (g_tcbs k);
  fp_thread : forall i, 0 <= i < MAX_TCBS -> (threads (g_tcbs k')).[i] <> (threads (g_tcbs k)).[i] ->
    type c = CAP_TCB /\ tcb_tcb_ptr (u c) = tcb_addr lay i /\
    exists t o, (threads (g_tcbs k)).[i] = Some t /\ (threads (g_tcbs k')).[i] = Some (tcb_exec t o);
  fp_cnodes : g_cnodes k' <> g_cnodes k -> type c = CAP_UNTYPED \/ type c = CAP_CNODE;
  fp_root : forall p, p <> root_cnode lay -> g_cnodes k' !! p = g_cnodes k !! p;
  fp_mdb : g_mdb k' <> g_mdb k -> type c = CAP_UNTYPED;
  fp_tables : g_pt k' <> g_pt k -> type c = CAP_VSPACE;
  fp_vspace : forall p, g_vspaces k' !! p <> g_vspaces k !! p ->
    type c = CAP_VSPACE /\ p = vspace_root_pt (u c);
  fp_spaces : forall p v va out, p <> vspace_root_pt (u c) -> g_vspaces k !! p = Some v ->
    vspace_resolve (g_pt k') (Some v) va (Some out) = vspace_resolve (g_pt k) (Some v) va (Some out);
  fp_sched : g_sched k' = g_sched k \/
    (invoke_op_decode op = Some INV_SCHED_BIND /\ rebinds a1 a2 a3 (g_sched k) (g_sched k'))
}.

(** Mapping and unmapping through [c] leave the translations of other spaces alone. *)
Lemma effect_spaces lay k c op a1 a2 a3 e k' : kernel_wf lay k -> fits 64 a3 ->
  invoke_effect lay k c op a1 a2 a3 e k' -> forall p v va out, p <> vspace_root_pt (u c) ->
  g_vspaces k !! p = Some v ->
  vspace_resolve (g_pt k') (Some v) va (Some out) = vspace_resolve (g_pt k) (Some v) va (Some out).
Proof.
  intros Hwf H3 H p v va out Hp Hv. destruct (kw_vspaces _ _ Hwf) as [labs Hat].
  destruct H as [e|h m slot x err out' Hop Ht Hx Hput Hm|o e h Ht Ho H|i ot e tcbs Ht Hi Ha H
    |e fc v0 v' w Ht Hh Hf Htag Hv0 H|e v0 w Ht Hv0 H|e s Ho H]; try done; cbn.
  - destruct (vspace_map_cases (g_pt k) v0 (labs (vspace_root_pt (u c))) a2 (frame_paddr (u fc)) PAGE_SIZE
      (frame_perms (u fc)) (frame_color (u fc))) as (e1 & v1 & w1 & lab1 & n & Hrun & Hst & Hfr & _);
      [by apply Hat|fits_now|].
    rewrite H in Hrun. injection Hrun as <- <- <-.
    exact (spaces_kept _ _ labs _ v0 _ _ lab1 p v va out Hat Hv0 Hst Hfr Hp Hv).
  - refine (spaces_kept _ _ labs _ v0 _ v0 _ p v va out Hat Hv0 _ (labels_fresh_refl _ _ _) Hp Hv).
    eapply vspace_unmap_step; [by apply Hat|exact H3|exact H].
Qed.

Lemma effect_footprint lay k c op a1 a2 a3 e k' : kernel_wf lay k -> fits 32 (rights c) -> fits 64 a3 ->
  invoke_effect lay k c op a1 a2 a3 e k' -> footprint lay c op a1 a2 a3 k k'.
Proof.
  intros Hwf Hr H3 Hef. pose proof (effect_spaces _ _ _ _ _ _ _ _ _ Hwf H3 Hef) as Hsp.
  destruct Hef as [e|h m slot x err out Hop Ht Hx Hput Hm|o e h Ht Ho H|i ot e tcbs Ht Hi Ha H
    |e fc v v' w Ht Hh Hf Htag Hv H|e v w Ht Hv H|e s Ho H]; constructor; try exact Hsp; cbn; try done; auto.
  - intros p Hp. by eapply put_slot_frame.
  - intros p Hp. eapply cnode_exec_frame; [by eapply root_op_typed|exact H| |exact Hp].
    unfold root_op in Ho. by destruct Ho as [->|[->|[->| ->]]].
  - by eapply upd_thread_count.
  - intros j Hj Hne. destruct (upd_thread_inv _ _ _ _ H) as (t & Ht' & Hget). rewrite Hget in Hne |- *.
    destruct (Z.eqb_spec j i) as [->|]; [|done]. rewrite Ha. split_and!; [done..|]. by exists t, ot.
  - intros p Hp. destruct (decide (p = vspace_root_pt (u c))) as [->|Hne]; [done|].
    by rewrite lookup_insert_ne in Hp.
  - destruct (decide (e = ERR_OK)) as [->|He]; [right|left; by eapply sched_context_bind_err].
    split; [done|]. by apply sched_context_bind_inv in H.
Qed.

(** C19. The footprint of an invocation: on a well-formed kernel and whatever the
    arguments, [handle_invoke] changes no endpoint, no thread count and no capability
    node but the root node (the one node on which node capabilities and retyping act); it
    changes a thread only through a thread capability that points to it and only by an
    operation of the thread state machine; slots of the root node only through an untyped
    or node capability; the derivation database only through an untyped one; page tables
    and the record of an address space only through a capability for that space, every
    address of every other space translating as before. The one change that is not tied
    to what the capability names is that of [INV_SCHED_BIND], which any valid capability
    allows: it binds the scheduling context its argument names, and changes nothing else
    of the scheduler. Nothing at all changes through a capability that is invalid or
    untagged. *)
Theorem invoke_footprint lay k c op a1 a2 a3 e k' :
  kernel_wf lay k -> fits 32 (rights c) -> fits 64 a3 ->
  handle_invoke lay k (Some c) op a1 a2 a3 = Some (e, k') ->
  footprint lay c op a1 a2 a3 k k' /\ (k' <> k -> cap_is_valid (Some c) = true).
Proof.
  intros Hwf Hr H3 H. destruct (handle_invoke_effect _ _ _ _ _ _ _ _ _ H) as (Hef & Hv & _).
  split; [by eapply effect_footprint|done].
Qed.

(** Suspending thread 1 of the small kernel through the capability in slot 2. *)
Definition demo_tcb_cap : cap_t := slot_at demo_root 2.

Lemma invoke_footprint_witness :
  exists k', handle_invoke demo_layout demo_kernel (Some demo_tcb_cap) 7 7 0 0 = Some (ERR_OK, k') /\
    g_sched k' = g_sched demo_kernel /\ footprint demo_layout demo_tcb_cap 7 7 0 0 demo_kernel k' /\
    option_map state (threads (g_tcbs k')).[1] = Some TCB_INACTIVE.
Proof.
  eexists. split; [vm_compute; reflexivity|]. split; [vm_compute; reflexivity|]. split.
  - apply (invoke_footprint demo_layout demo_kernel demo_tcb_cap 7 7 0 0 ERR_OK).
    + exact demo_kernel_wf.
    + fits_now.
    + fits_now.
    + vm_compute. reflexivity.
  - vm_compute. reflexivity.
Defined.

Lemma effect_authority lay k c op a1 a2 a3 e k' : fits 32 (rights c) ->
  invoke_effect lay k c op a1 a2 a3 e k' -> forall x, holds (g_cnodes k') x ->
  (exists x0, holds (g_cnodes k) x0 /\ derived_from x x0) \/
  (invoke_op_decode op = Some INV_UNTYPED_RETYPE /\ retyped_from x c (u32 a2) a3).
Proof.
  intros Hr H x Hx. destruct H as [e|h m slot y err out Hop Ht Hy Hput Hm|o e h Ht Ho H|i ot e tcbs Ht Hi Ha H
    |e fc v v' w Ht Hh Hf Htag Hv H|e v w Ht Hv H|e s Ho H]; cbn in Hx; try (left; by exists x).
  - destruct (put_slot_holds _ _ _ _ _ _ _ Hput Hx) as [[-> _]|]; [by right|left; by exists x].
  - left. eapply cnode_step_confined; [|exact Hx]. econstructor; [by eapply root_op_typed|exact H].
Qed.

(** C18. Invocation creates no authority: after any [handle_invoke], every valid
    capability of any node is derived from one held before (same object, same
    hardware capability, rights not extended), or is the one capability the
    invocation retyped: then the invoked capability is untyped, and the new one
    covers whole pages at the start of the untyped's memory and inside it, and is
    not itself untyped. *)
Theorem invoke_confines_authority lay k c op a1 a2 a3 e k' :
  fits 32 (rights c) -> fits 64 a3 -> 0 <= untyped_paddr (u c) ->
  untyped_paddr (u c) + untyped_size (u c) < 2 ^ 64 ->
  handle_invoke lay k (Some c) op a1 a2 a3 = Some (e, k') ->
  forall x, holds (g_cnodes k') x ->
  (exists x0, holds (g_cnodes k) x0 /\ derived_from x x0) \/
  (type c = CAP_UNTYPED /\ type x <> CAP_UNTYPED /\
   hw_base (hw_cap x) = untyped_paddr (u c) /\
   hw_base (hw_cap x) + PAGE_SIZE <= hw_top (hw_cap x) <= untyped_paddr (u c) + untyped_size (u c)).
Proof.
  intros Hr H3 Hp Hend H x Hx. destruct (handle_invoke_effect _ _ _ _ _ _ _ _ _ H) as (Hef & _).
  destruct (effect_authority _ _ _ _ _ _ _ _ _ Hr Hef x Hx) as [?|(_ & Hc & ->)]; [by left|right].
  destruct (cap_retype_fields _ _ _ Hc) as (-> & _ & _ & _ & -> & ->).
  apply cap_can_retype_spec in Hc as (Ht & _ & Hle & Hne & Hpg & _); [|done].
  rewrite u64_small by (unfold fits, PAGE_SIZE in *; lia). split_and!; try done; lia.
Qed.

Lemma invoke_confines_authority_witness :
  exists k', handle_invoke demo_layout demo_kernel (Some demo_untyped) 0 (7 * 256) CAP_FRAME 8192
      = Some (ERR_OK, k') /\
    forall x, holds (g_cnodes k') x ->
    (exists x0, holds (g_cnodes demo_kernel) x0 /\ derived_from x x0) \/
    (type demo_untyped = CAP_UNTYPED /\ type x <> CAP_UNTYPED /\
     hw_base (hw_cap x) = untyped_paddr (u demo_untyped) /\
     hw_base (hw_cap x) + PAGE_SIZE <= hw_top (hw_cap x)
       <= untyped_paddr (u demo_untyped) + untyped_size (u demo_untyped)).
Proof.
  eexists. split; [vm_compute; reflexivity|].
  apply (invoke_confines_authority demo_layout demo_kernel demo_untyped 0 (7 * 256) CAP_FRAME 8192 ERR_OK);
    [fits_now|fits_now|vm_compute; congruence|vm_compute; reflexivity|vm_compute; reflexivity].
Defined.

(** The operations that fail with no effect: all but the two that map. *)
Definition maps (op : Z) : bool :=
  match invoke_op_decode op with
  | Some INV_VSPACE_MAP | Some INV_FRAME_MAP => true
  | _ => false
  end.

Lemma handle_invoke_total lay k c op a1 a2 a3 :
  layout_wf lay -> kernel_wf lay k -> cap_target_ok lay k c -> fits 32 (rights c) ->
  fits 64 a2 -> fits 64 a3 ->
  exists e k', handle_invoke lay k (Some c) op a1 a2 a3 = Some (e, k') /\ kernel_wf lay k' /\
    (e <> ERR_OK -> maps op = false -> k' = k).
Proof.
  intros Hlay Hwf Ht Hr H2 H3.
  assert (forall r, case_ok lay k r -> exists e k', r = Some (e, k') /\ kernel_wf lay k' /\
    (e <> ERR_OK -> maps op = false -> k' = k)) as Hcase.
  { intros r (e & k' & -> & Hk & He). exists e, k'. auto. }
  destruct (case_cnode_ops lay k c a2 a3 Hwf Hr) as (H4 & H5 & H6 & H7).
  destruct (case_vspace_map lay k c Hwf Ht a2 a3 H2) as (e & k' & Hm & Hk').
  assert (maps op = true -> exists e k', invoke_vspace_map lay k c a2 a3 = Some (e, k') /\ kernel_wf lay k' /\
    (e <> ERR_OK -> maps op = false -> k' = k)) as Hmap.
  { intros Hop. exists e, k'. split_and!; [done..|]. by rewrite Hop. }
  cbn [handle_invoke]. unfold guard_ret. destruct (negb _); [by apply Hcase, case_ok_err|].
  unfold maps in *. destruct (invoke_op_decode op) as [[]|]; try (by apply Hmap); apply Hcase;
    auto using case_ok_err, case_retype, case_tcb_resume, case_tcb_suspend, case_tcb_configure,
      case_sched_bind, case_vspace_unmap.
Qed.

(** Invocation is total and keeps the kernel well formed: on a well-formed
    kernel, through a capability whose pointer addresses an object of its type,
    every opcode with every argument has a defined result and leaves a
    well-formed kernel (threads, endpoints, nodes, scheduler, derivation forest and
    page tables); and when it returns an error, nothing has changed, unless the
    operation was a mapping, which may leave page-table pages behind. *)
Theorem invoke_total lay k c op a1 a2 a3 :
  layout_wf lay -> kernel_wf lay k -> cap_target_ok lay k c -> fits 32 (rights c) ->
  fits 64 a2 -> fits 64 a3 ->
  exists e k', handle_invoke lay k (Some c) op a1 a2 a3 = Some (e, k') /\ kernel_wf lay k' /\
    (e <> ERR_OK -> maps op = false -> k' = k).
Proof. apply handle_invoke_total. Qed.

Lemma invoke_total_witness :
  exists e k', handle_invoke demo_layout demo_kernel (Some demo_untyped) 0 (7 * 256) CAP_FRAME 8192
    = Some (e, k') /\ kernel_wf demo_layout k'.
Proof.
  destruct (invoke_total demo_layout demo_kernel demo_untyped 0 (7 * 256) CAP_FRAME 8192)
    as (e & k' & H & Hwf & _); [exact demo_layout_wf|exact demo_kernel_wf| |fits_now..|].
  - split_and!; intros E; discriminate E.
  - exists e, k'. split; [exact H|exact Hwf].
Defined.

(** A capability retyped from untyped memory into a thread refers to memory in which
    no thread was created: the invocation that creates it succeeds, and resuming
    the "thread" then reads through a pointer to no object. The same untyped can be
    retyped again: the second frame has the same address as the first. *)
Example retype_creates_no_object :
  exists k1 k2 k3 c f1 f2,
    handle_invoke demo_layout demo_kernel (Some demo_untyped) 0 (7 * 256) CAP_TCB 4096 = Some (ERR_OK, k1) /\
    root_lookup demo_layout k1 7 = Some (Some c) /\
    handle_invoke demo_layout k1 (Some c) 6 6 0 0 = None /\
    handle_invoke demo_layout k1 (Some demo_untyped) 0 (8 * 256) CAP_FRAME 4096 = Some (ERR_OK, k2) /\
    handle_invoke demo_layout k2 (Some demo_untyped) 0 (9 * 256) CAP_FRAME 4096 = Some (ERR_OK, k3) /\
    root_lookup demo_layout k3 8 = Some (Some f1) /\ root_lookup demo_layout k3 9 = Some (Some f2) /\
    frame_paddr (u f1) = frame_paddr (u f2) /\ frame_paddr (u f1) = tcb_tcb_ptr (u c).
Proof.
  do 6 eexists. split; [vm_compute; reflexivity|]. split; [vm_compute; reflexivity|].
  split; [vm_compute; reflexivity|]. split; [vm_compute; reflexivity|].
  split; [vm_compute; reflexivity|]. split; [vm_compute; reflexivity|].
  split; [vm_compute; reflexivity|]. split; vm_compute; reflexivity.
Qed.
