(* ===== verification/Syscall.v ===== *)
(** * syscall.h, syscall.c: the system-call handler

    [syscall_handler] over the whole kernel state. The two readings of the clock
    ([rdtime] at entry and in [wcet_check]) are arguments. *)

From S2P Require Import Prelude Types Cheri Cap CNode Tcb Endpoint Alloc Sched Mdb VSpace Kernel Invoke.

Record trap_frame_t := mk_trap_frame {
  tf_ra : Z; tf_sp : Z; tf_gp : Z; tf_tp : Z;
  tf_t : list Z;
  a0 : Z; a1 : Z; a2 : Z; a3 : Z; a4 : Z; a5 : Z; a6 : Z; a7 : Z;
  tf_s : list Z;
  tf_pc : Z;
  tf_cause : Z
}.
#[export] Instance trap_frame_eta : Eta trap_frame_t := fun f =>
  mk_trap_frame (tf_ra f) (tf_sp f) (tf_gp f) (tf_tp f) (tf_t f) (a0 f) (a1 f) (a2 f) (a3 f)
    (a4 f) (a5 f) (a6 f) (a7 f) (tf_s f) (tf_pc f) (tf_cause f).

(** [for (i = 0; i < n; i++) dst[i] = src[i];] from index [i] on. *)
Fixpoint copy_array (n : nat) (i : Z) (dst src : list Z) : option (list Z) :=
  match n with
  | O => Some dst
  | S n' => x ← src.[i]; d ← dst.[i := x]; copy_array n' (i + 1) d src
  end.

(** How a case of the [switch] ends: with a [return] of its own, or by [break], so
    that the common exit follows. *)
Inductive exit_t := Returns (e : kerror_t) | Breaks (e : kerror_t).

(** [endpoint_t *ep = (endpoint_t * )cap->u.endpoint.ep_ptr]. *)
Definition ep_of (lay : layout) (cap : cap_t) : option (option Z) :=
  deref (ep_addr lay) MAX_ENDPOINTS (endpoint_ep_ptr (u cap)).

(** [endpoint_send(ep, sender, &msg)] through a pointer. *)
Definition send_to (k : kstate) (ep : option Z) (sender : Z) (msg : ipc_msg_t)
    : option (kerror_t * kstate) :=
  match ep with
  | None => '(e, _, tcbs) ← endpoint_send (g_tcbs k) None sender (Some msg);
            Some (e, k <| g_tcbs := tcbs |>)
  | Some i =>
      x ← (g_endpoints k).[i];
      '(e, x', tcbs) ← endpoint_send (g_tcbs k) (Some x) sender (Some msg);
      eps ← (g_endpoints k).[i := default x x'];
      Some (e, k <| g_endpoints := eps |> <| g_tcbs := tcbs |>)
  end.

Definition sys_call (lay : layout) (k : kstate) (tcb : tcb_t) (cur : Z) (cap : cap_t) (arg1 : Z)
    : option (exit_t * kstate) :=
  retif negb (cap_has_right cap (Z.lor CAP_RIGHTS_READ CAP_RIGHTS_WRITE))
    with Some (Returns ERR_NO_RIGHTS, k);;
  retif negb (type cap =? CAP_ENDPOINT) with Some (Returns ERR_INVALID_CAP, k);;
  let len := Z.land arg1 0xFF in
  retif IPC_MSG_MAX <? len with Some (Returns ERR_INVALID_ARG, k);;
  w ← copy_array (Z.to_nat len) 0 (words ipc_msg_zero) (words (ipc_buffer tcb));
  let msg := ipc_msg_zero <| msg_length := len |> <| words := w |> in
  ep ← ep_of lay cap;
  '(e, k1) ← send_to k ep cur msg;
  if is_ok e then
    tcbs ← upd_thread (g_tcbs k1) cur (fun t => t <| state := TCB_BLOCKED_REPLY |>);
    Some (Breaks e, k1 <| g_tcbs := tcbs |>)
  else Some (Breaks e, k1).

Definition sys_reply_recv (lay : layout) (k : kstate) (cur : Z) (cap : cap_t)
    : option (exit_t * kstate) :=
  retif negb (type cap =? CAP_ENDPOINT) with Some (Returns ERR_INVALID_CAP, k);;
  ep ← ep_of lay cap;
  i ← ep;
  x ← (g_endpoints k).[i];
  let was_pending := pending x || (0 <? q_len x) in
  '(e, x', tcbs, out) ← endpoint_recv (g_tcbs k) (Some x) cur (Some ipc_msg_zero);
  out ← out;
  eps ← (g_endpoints k).[i := default x x'];
  let k1 := k <| g_endpoints := eps |> <| g_tcbs := tcbs |> in
  if is_ok e && was_pending then
    t ← (threads tcbs).[cur];
    w ← copy_array (Z.to_nat (msg_length out)) 0 (words (ipc_buffer t)) (words out);
    tcbs' ← upd_thread tcbs cur (fun t =>
              t <| ipc_buffer ::= fun b => b <| words := w |> <| msg_length := msg_length out |> |>);
    Some (Breaks e, k1 <| g_tcbs := tcbs' |>)
  else if is_ok e then
    tcbs' ← upd_thread tcbs cur (fun t => t <| state := TCB_BLOCKED_RECV |>);
    Some (Breaks e, k1 <| g_tcbs := tcbs' |>)
  else Some (Breaks e, k1).

(** [msg.caps] comes from the IPC buffer, which the caller fills, and bounds the
    copy into [msg.cap_ptrs]. *)
Definition sys_send (lay : layout) (k : kstate) (tcb : tcb_t) (cur : Z) (cap : cap_t) (arg1 : Z)
    : option (exit_t * kstate) :=
  retif negb (type cap =? CAP_ENDPOINT) with Some (Returns ERR_INVALID_CAP, k);;
  let len := Z.land arg1 0xFF in
  retif IPC_MSG_MAX <? len with Some (Returns ERR_INVALID_ARG, k);;
  w ← copy_array (Z.to_nat len) 0 (words ipc_msg_zero) (words (ipc_buffer tcb));
  let ncaps := msg_caps (ipc_buffer tcb) in
  c ← copy_array (Z.to_nat ncaps) 0 (cap_ptrs ipc_msg_zero) (cap_ptrs (ipc_buffer tcb));
  let msg := ipc_msg_zero <| msg_length := len |> <| words := w |> <| msg_caps := ncaps |>
               <| cap_ptrs := c |> in
  ep ← ep_of lay cap;
  '(e, k1) ← send_to k ep cur msg;
  Some (Breaks e, k1).

Definition sys_invoke (lay : layout) (k : kstate) (cap : cap_t) (arg1 arg2 arg3 : Z)
    : option (exit_t * kstate) :=
  let op := Z.land arg1 0xFF in
  '(e, k1) ← handle_invoke lay k (Some cap) op arg1 arg2 arg3;
  Some (Breaks e, k1).

(** [cap = cnode_lookup(tcb->cspace, cap_ptr)], with the fallback to the root node
    for [SYS_INVOKE] on pointer 0. *)
Definition find_cap (lay : layout) (k : kstate) (tcb : tcb_t) (sys : syscall_t) (cap_ptr arg1 : Z)
    : option (option cap_t) :=
  cn ← deref_cnode (g_cnodes k) (cspace tcb);
  match cnode_lookup cn cap_ptr, cn with
  | Some i, Some n => Some (Some (slot_at n i))
  | _, _ =>
      if bool_decide (sys = SYS_INVOKE) && (cap_ptr =? 0)
      then root_lookup lay k (u32 arg1)
      else Some None
  end.

(** The [switch]. A null capability gets here only with [SYS_YIELD], which does not
    use it. *)
Definition dispatch (lay : layout) (k : kstate) (tcb : tcb_t) (cur : Z) (sys : syscall_t)
    (cap : option cap_t) (f : trap_frame_t) : option (exit_t * kstate) :=
  match sys with
  | SYS_CALL => c ← cap; sys_call lay k tcb cur c (a1 f)
  | SYS_REPLY_RECV => c ← cap; sys_reply_recv lay k cur c
  | SYS_SEND => c ← cap; sys_send lay k tcb cur c (a1 f)
  | SYS_YIELD => Some (Breaks ERR_OK, k)
  | SYS_INVOKE => c ← cap; sys_invoke lay k c (a1 f) (a2 f) (a3 f)
  | SYS_SEAL => Some (Breaks ERR_INVALID_ARG, k)
  end.

Definition syscall_handler (lay : layout) (entry_us now : Z) (k : kstate)
    (frame : option trap_frame_t) (cur_tcb : Z) : option (kerror_t * kstate * option trap_frame_t) :=
  match frame with
  | None => Some (ERR_INVALID_ARG, k, frame)
  | Some f =>
      match syscall_decode (a7 f) with
      | None => Some (ERR_INVALID_ARG, k, frame)
      | Some sys =>
          let cap_ptr := u32 (a0 f) in
          let is_yield := bool_decide (sys = SYS_YIELD) in
          tcb ← (threads (g_tcbs k)).[cur_tcb];
          retif negb (tcb_is_runnable (Some tcb)) && negb is_yield
            with Some (ERR_PARTITION_DENIED, k, frame);;
          cap ← find_cap lay k tcb sys cap_ptr (a1 f);
          retif negb is_yield && bool_decide (cap = None) with Some (ERR_INVALID_CAP, k, frame);;
          sc ← (contexts (g_sched k)).[sched_context tcb];
          retif sc_remaining_us sc =? 0 with Some (ERR_WCET_EXCEEDED, k, frame);;
          '(x, k1) ← dispatch lay k tcb cur_tcb sys cap f;
          match x with
          | Returns e => Some (e, k1, frame)
          | Breaks err =>
              retif negb (wcet_check now entry_us) with Some (ERR_WCET_EXCEEDED, k1, frame);;
              Some (err, k1, Some (f <| a0 := kerror_code err |>))
          end
      end
  end.

(** ** Lemmas *)

Lemma copy_array_spec n : forall i dst src,
  (i + n <= length dst)%nat -> (i + n <= length src)%nat ->
  copy_array n (Z.of_nat i) dst src = Some (take i dst ++ take n (drop i src) ++ drop (i + n) dst).
Proof.
  induction n as [|n IH]; intros i dst src Hd Hs; cbn [copy_array].
  { rewrite Nat.add_0_r. change (take 0 (drop i src)) with (@nil Z). by rewrite app_nil_l, take_drop. }
  destruct (lookup_lt_is_Some_2 src i) as [x Hx]; [lia|].
  rewrite arr_get_nat, Hx. cbn [mbind option_bind].
  rewrite arr_set_in, Nat2Z.id by lia. cbn [mbind option_bind].
  replace (Z.of_nat i + 1) with (Z.of_nat (S i)) by lia.
  rewrite IH by (rewrite ?length_insert; lia). f_equal.
  rewrite (drop_S src x i Hx). cbn [take].
  rewrite (take_S_r _ i x) by (apply list_lookup_insert_eq; lia).
  rewrite take_insert_ge, drop_insert_lt by lia.
  replace (S i + n)%nat with (i + S n)%nat by lia. by rewrite <- app_assoc.
Qed.

Lemma copy_array_0 n dst src : 0 <= n -> n <= Z.of_nat (length dst) -> n <= Z.of_nat (length src) ->
  copy_array (Z.to_nat n) 0 dst src = Some (take (Z.to_nat n) src ++ drop (Z.to_nat n) dst).
Proof.
  intros H0 Hd Hs. change 0 with (Z.of_nat 0). rewrite copy_array_spec by lia. done.
Qed.

(** How the thread table may change in IPC: states only. *)
Definition threads_evolve (tcbs tcbs' : tcb_table_t) : Prop :=
  length (threads tcbs') = length (threads tcbs) /\
  forall j t', (threads tcbs').[j] = Some t' -> exists t, (threads tcbs).[j] = Some t /\
    cspace t' = cspace t /\ sched_context t' = sched_context t /\ ipc_buffer t' = ipc_buffer t.

#[export] Instance threads_evolve_preorder : PreOrder threads_evolve.
Proof.
  split.
  - intros x. split; [done|]. intros j t' Ht. by exists t'.
  - intros x y z [L1 H1] [L2 H2]. split; [congruence|]. intros j t' Ht.
    destruct (H2 j t' Ht) as (t2 & Ht2 & ? & ? & ?). destruct (H1 j t2 Ht2) as (t1 & Ht1 & ? & ? & ?).
    exists t1. split_and!; congruence.
Qed.

Lemma upd_evolve tcbs i t t' l : (threads tcbs).[i] = Some t -> (threads tcbs).[i := t'] = Some l ->
  cspace t' = cspace t -> sched_context t' = sched_context t -> ipc_buffer t' = ipc_buffer t ->
  threads_evolve tcbs (tcbs <| threads := l |>).
Proof.
  intros Ht Hl H1 H2 H3. split; [cbn; by erewrite arr_set_length|].
  intros j tj Hj. cbn in Hj. rewrite (arr_get_set _ _ _ _ _ Hl) in Hj.
  destruct (Z.eqb_spec j i) as [E|]; [|by exists tj]. injection Hj as <-. exists t. by rewrite E.
Qed.

Lemma wake_evolve tcbs i s tcbs' : wake_thread tcbs i s = Some tcbs' -> threads_evolve tcbs tcbs'.
Proof.
  unfold wake_thread. intros H. destruct (threads tcbs).[i] as [t|] eqn:Ht; [|done].
  cbn [mbind option_bind] in H. destruct (tcb_wake_from_ipc (Some t) s) as [e t'] eqn:Ew.
  peel H. injection H as <-. eapply upd_evolve; [done|done|..];
    unfold tcb_wake_from_ipc, guard_ret in Ew; branches; injection Ew as <- <-; done.
Qed.

Lemma resume_evolve tcbs i tcbs' : resume_sender tcbs i = Some tcbs' -> threads_evolve tcbs tcbs'.
Proof.
  unfold resume_sender. intros H. destruct (threads tcbs).[i] as [t|] eqn:Ht; [|done].
  cbn [mbind option_bind] in H. destruct (in_state t TCB_BLOCKED_SEND); [|by injection H as <-].
  peel H. injection H as <-. eapply upd_evolve; [done|done|..]; cbn; by branches.
Qed.

Lemma msg_zero_shape : msg_shape ipc_msg_zero.
Proof. by split. Qed.

(** Messages keep their shape in an endpoint. *)
Lemma send_msgs tcbs e s m err e' tcbs' :
  endpoint_send tcbs (Some e) s (Some m) = Some (err, Some e', tcbs') ->
  endpoint_msgs_ok e -> msg_shape m ->
  endpoint_msgs_ok e' /\ threads_evolve tcbs tcbs' /\ (err <> ERR_OK -> e' = e /\ tcbs' = tcbs).
Proof.
  unfold endpoint_send, guard_ret. intros H [Hq Hp] Hm.
  destruct (IPC_MSG_MAX <? msg_length m); [by injection H as <- <- <-|].
  destruct (IPC_CAPS_MAX <? msg_caps m); [by injection H as <- <- <-|].
  destruct (has_receiver e).
  - destruct (_ <? MAX_TCBS).
    + destruct (wake_thread _ _ _) as [t'|] eqn:Ew; [|done]. injection H as <- <- <-.
      split_and!; [by split|by eapply wake_evolve|done].
    + injection H as <- <- <-. split_and!; done.
  - destruct (16 <=? q_len e); [by injection H as <- <- <-|].
    destruct ((queue e).[_ := _]) as [q|] eqn:E1; [|done]. cbn [mbind option_bind] in H.
    destruct ((queue_msgs e).[_ := _]) as [qm|] eqn:E2; [|done]. injection H as <- <- <-.
    apply arr_set_Some in E2 as [_ ->]. split_and!; [|done|done]. split; [by apply Forall_insert|done].
Qed.

Lemma recv_msgs tcbs e r err e' tcbs' out :
  endpoint_recv tcbs (Some e) r (Some ipc_msg_zero) = Some (err, Some e', tcbs', Some out) ->
  endpoint_msgs_ok e -> endpoint_msgs_ok e' /\ msg_shape out /\ threads_evolve tcbs tcbs'.
Proof.
  unfold endpoint_recv. intros H [Hq Hp].
  assert (forall i m, (queue_msgs e).[i] = Some m -> msg_shape m) as Hget.
  { intros i m [_ Hi]%arr_get_Some. by eapply Forall_lookup_1. }
  destruct (0 <? q_len e).
  - destruct ((queue_msgs e).[_]) as [m|] eqn:Em; [|done]. cbn [mbind option_bind] in H.
    destruct ((queue e).[_]) as [sd|]; [|done]. cbn [mbind option_bind] in H.
    destruct (if _ =? 0 then _ else _) as [e2|] eqn:E2; [|done]. cbn [mbind option_bind] in H.
    assert (endpoint_msgs_ok e2) as He2.
    { destruct (_ =? 0); [by injection E2 as <-|]. peel E2. injection E2 as <-.
      split; [done|]. cbn in *. by eapply Hget. }
    destruct (sd <? MAX_TCBS).
    + destruct (resume_sender tcbs sd) as [t'|] eqn:Er; [|done]. injection H as <- <- <- <-.
      split_and!; [done|by eapply Hget|by eapply resume_evolve].
    + injection H as <- <- <- <-. split_and!; [done|by eapply Hget|done].
  - destruct (pending e); injection H as <- <- <- <-; (split_and!; [by split|try done|done]).
Qed.

(** The thread that waits on endpoint [x] or whose message is the oldest in its queue. *)
Definition ipc_party (x : endpoint_t) (j : Z) : Prop :=
  (has_receiver x = true /\ receiver_tcb x = j) \/ (0 < q_len x /\ (queue x).[q_head x] = Some j).

(** A thread that is woken: by [tcb_wake_from_ipc] or [tcb_resume]. *)
Definition woken_up (t t' : tcb_t) : Prop := exists o, (o = TResume \/ exists s, o = TWake s) /\ t' = tcb_exec t o.

(** What [endpoint_send] and [endpoint_recv] may do to the threads. *)
Definition wakes_party (x : endpoint_t) (tcbs tcbs' : tcb_table_t) : Prop :=
  count tcbs' = count tcbs /\
  forall j, (threads tcbs').[j] = (threads tcbs).[j] \/
    exists t t', ipc_party x j /\ (threads tcbs).[j] = Some t /\ (threads tcbs').[j] = Some t' /\ woken_up t t'.

Lemma wakes_none x tcbs : wakes_party x tcbs tcbs.
Proof. split; [done|]. by left. Qed.

Lemma wake_wakes x tcbs i s tcbs' : ipc_party x i -> wake_thread tcbs i s = Some tcbs' -> wakes_party x tcbs tcbs'.
Proof.
  intros Hp. unfold wake_thread. destruct (threads tcbs).[i] as [t|] eqn:Ht; [|done]. cbn [mbind option_bind]. intros H.
  destruct (tcb_wake_from_ipc (Some t) s) as [e t'] eqn:Ew. peel H. injection H as <-. split; [done|]. intros j. cbn.
  rewrite (arr_get_set _ _ _ _ _ E). destruct (Z.eqb_spec j i) as [->|]; [|by left]. right.
  eexists t, _. split_and!; [done..|]. exists (TWake s). split; [right; by exists s|]. unfold tcb_exec. by rewrite Ew.
Qed.

Lemma resume_wakes x tcbs i tcbs' : ipc_party x i -> resume_sender tcbs i = Some tcbs' -> wakes_party x tcbs tcbs'.
Proof.
  intros Hp. unfold resume_sender. destruct (threads tcbs).[i] as [t|] eqn:Ht; [|done]. cbn [mbind option_bind].
  destruct (in_state t TCB_BLOCKED_SEND); [|intros [= <-]; apply wakes_none]. intros H. peel H. injection H as <-.
  split; [done|]. intros j. cbn [modify_field threads]. change (threads (tcbs <| threads := l |>)) with l.
  rewrite (arr_get_set _ _ _ _ _ E). destruct (Z.eqb_spec j i) as [->|]; [|by left]. right.
  eexists t, _. split_and!; [done..|]. exists TResume. by split; [left|].
Qed.

Lemma send_wakes tcbs x s m err x' tcbs' : endpoint_send tcbs (Some x) s (Some m) = Some (err, x', tcbs') ->
  wakes_party x tcbs tcbs'.
Proof.
  unfold endpoint_send, guard_ret. intros H.
  do 2 (destruct (_ <? _); [injection H as <- <- <-; apply wakes_none|]). destruct (has_receiver x) eqn:Hr.
  - destruct (_ <? MAX_TCBS); [|injection H as <- <- <-; apply wakes_none].
    destruct (wake_thread _ _ _) as [t'|] eqn:Ew; [|done]. injection H as <- <- <-.
    eapply wake_wakes; [|exact Ew]. by left.
  - destruct (16 <=? q_len x); [injection H as <- <- <-; apply wakes_none|]. peel H. injection H as <- <- <-.
    apply wakes_none.
Qed.

Lemma recv_wakes tcbs x r out err x' tcbs' out' :
  endpoint_recv tcbs (Some x) r (Some out) = Some (err, x', tcbs', out') -> wakes_party x tcbs tcbs'.
Proof.
  unfold endpoint_recv. intros H. destruct (Z.ltb_spec 0 (q_len x)) as [Hq|_].
  2:{ destruct (pending x); injection H as <- <- <- <-; apply wakes_none. }
  destruct ((queue_msgs x).[_]) as [m|]; [|done]. cbn [mbind option_bind] in H.
  destruct ((queue x).[_]) as [sd|] eqn:Es; [|done]. cbn [mbind option_bind] in H.
  destruct (if _ =? 0 then _ else _) as [x2|]; [|done]. cbn [mbind option_bind] in H.
  destruct (sd <? MAX_TCBS); [|injection H as <- <- <- <-; apply wakes_none].
  destruct (resume_sender tcbs sd) as [t'|] eqn:Er; [|done]. injection H as <- <- <- <-.
  eapply resume_wakes; [|exact Er]. by right.
Qed.

(** The part of a thread that its own IPC does not change. *)
Definition same_config (t t' : tcb_t) : Prop :=
  t' = t <| state := state t' |> <| ipc_buffer := ipc_buffer t' |> <| fault_addr := fault_addr t' |>
         <| fault_type := fault_type t' |>.

Lemma woken_config t t' : woken_up t t' -> same_config t t'.
Proof.
  intros (o & [->|[s ->]] & ->); unfold same_config, tcb_exec, tcb_resume, tcb_wake_from_ipc, guard_ret;
    branches; by destruct t.
Qed.

(** Communication of thread [cur] through endpoint [i] touches that endpoint, the caller
    itself, and the one thread the endpoint has to wake. *)
Record ipc_only (i cur : Z) (k k' : kstate) : Prop := {
  io_cnodes : g_cnodes k' = g_cnodes k;
  io_sched : g_sched k' = g_sched k;
  io_mdb : g_mdb k' = g_mdb k;
  io_vspaces : g_vspaces k' = g_vspaces k;
  io_pt : g_pt k' = g_pt k;
  io_eps : forall j, j <> i -> (g_endpoints k').[j] = (g_endpoints k).[j];
  io_count : count (g_tcbs k') = count (g_tcbs k);
  io_others : forall j, j <> cur -> (threads (g_tcbs k')).[j] = (threads (g_tcbs k)).[j] \/
    exists x t t', (g_endpoints k).[i] = Some x /\ ipc_party x j /\ (threads (g_tcbs k)).[j] = Some t /\
      (threads (g_tcbs k')).[j] = Some t' /\ woken_up t t';
  io_caller : forall t', (threads (g_tcbs k')).[cur] = Some t' ->
    exists t, (threads (g_tcbs k)).[cur] = Some t /\ same_config t t'
}.

(** The endpoint and the threads after the exchange itself. *)
Lemma exchange_only i cur k x x' eps tcbs : (g_endpoints k).[i] = Some x -> (g_endpoints k).[i := x'] = Some eps ->
  wakes_party x (g_tcbs k) tcbs -> ipc_only i cur k (k <| g_endpoints := eps |> <| g_tcbs := tcbs |>).
Proof.
  intros Hx Heps [Hcnt Hw]. constructor; try done.
  - intros j Hj. cbn. rewrite (arr_get_set _ _ _ _ _ Heps). by rewrite (proj2 (Z.eqb_neq _ _) Hj).
  - intros j _. destruct (Hw j) as [?|(t & t' & ?)]; [by left|right]. by exists x, t, t'.
  - intros t' Ht'. cbn in Ht'. destruct (Hw cur) as [E|(t & t'' & _ & Ht & Ht'' & Hup)].
    + rewrite E in Ht'. exists t'. split; [done|]. by destruct t'.
    + rewrite Ht'' in Ht'. injection Ht' as ->. exists t. split; [done|]. by apply woken_config.
Qed.

(** The caller then updates its own state or buffer. *)
Lemma ipc_only_caller i cur k k1 f tcbs : ipc_only i cur k k1 ->
  upd_thread (g_tcbs k1) cur f = Some tcbs -> (forall t, same_config t (f t)) ->
  ipc_only i cur k (k1 <| g_tcbs := tcbs |>).
Proof.
  intros [] H Hf. destruct (upd_thread_inv _ _ _ _ H) as (t1 & Ht1 & Hget). pose proof (upd_thread_count _ _ _ _ H) as Hc.
  constructor; try done; cbn.
  - congruence.
  - intros j Hj. rewrite Hget, (proj2 (Z.eqb_neq _ _) Hj). by apply io_others0.
  - intros t'. rewrite Hget, Z.eqb_refl. intros [= <-]. destruct (io_caller0 t1 Ht1) as (t & Ht & E).
    exists t. split; [done|]. specialize (Hf t1). unfold same_config in *. rewrite Hf, E. by destruct t.
Qed.

Lemma send_to_only k i cur m e k1 : send_to k (Some i) cur m = Some (e, k1) -> ipc_only i cur k k1.
Proof.
  cbn [send_to]. intros H. destruct ((g_endpoints k).[i]) as [x|] eqn:Hx; [|done]. cbn [mbind option_bind] in H.
  destruct (endpoint_send _ _ _ _) as [[[e' x'] tcbs]|] eqn:Es; [|done]. cbn [mbind option_bind] in H.
  peel H. injection H as <- <-. eapply exchange_only; [done|done|by eapply send_wakes].
Qed.

Lemma send_to_null k cur m e k1 : send_to k None cur m = Some (e, k1) -> k1 = k /\ e = ERR_INVALID_ARG.
Proof. cbn. intros [= <- <-]. by destruct k. Qed.

(** A case of the dispatch that communicates has an endpoint capability. *)
Definition ipc_case (lay : layout) (cur : Z) (k : kstate) (c : cap_t) (k' : kstate) : Prop :=
  k' = k \/ (type c = CAP_ENDPOINT /\ exists i, 0 <= i < MAX_ENDPOINTS /\
             endpoint_ep_ptr (u c) = ep_addr lay i /\ ipc_only i cur k k').

Lemma ep_of_index lay c i : ep_of lay c = Some (Some i) ->
  0 <= i < MAX_ENDPOINTS /\ endpoint_ep_ptr (u c) = ep_addr lay i.
Proof. intros H. by apply deref_index in H as [? ->]. Qed.

Lemma sys_call_case lay k tcb cur c arg x k' :
  sys_call lay k tcb cur c arg = Some (x, k') -> ipc_case lay cur k c k'.
Proof.
  unfold sys_call, guard_ret. intros H.
  destruct (negb _); [injection H as <- <-; by left|].
  destruct (negb (type c =? CAP_ENDPOINT)) eqn:Et; [injection H as <- <-; by left|].
  destruct (_ <? _); [injection H as <- <-; by left|]. bools.
  destruct (copy_array _ _ _ _); [|done]. cbn [mbind option_bind] in H.
  destruct (ep_of lay c) as [[i|]|] eqn:Ep; [| |done]; cbn [mbind option_bind] in H.
  - right. split; [done|]. exists i. destruct (ep_of_index _ _ _ Ep). split; [done|]. split; [done|].
    destruct (send_to _ _ _ _) as [[e k1]|] eqn:Es; [|done]. apply send_to_only in Es.
    cbn [mbind option_bind] in H. destruct (is_ok e); [|injection H as <- <-; exact Es].
    destruct (upd_thread _ _ _) as [tcbs|] eqn:Eu; [|done]. injection H as <- <-.
    eapply ipc_only_caller; [exact Es|exact Eu|]. intros t. by destruct t.
  - left. destruct (send_to _ _ _ _) as [[e k1]|] eqn:Es; [|done].
    apply send_to_null in Es as [-> ->]. by injection H as <- <-.
Qed.

Lemma sys_send_case lay k tcb cur c arg x k' :
  sys_send lay k tcb cur c arg = Some (x, k') -> ipc_case lay cur k c k'.
Proof.
  unfold sys_send, guard_ret. intros H.
  destruct (negb (type c =? CAP_ENDPOINT)) eqn:Et; [injection H as <- <-; by left|].
  destruct (_ <? _); [injection H as <- <-; by left|]. bools.
  destruct (copy_array _ _ (words _) _); [|done]. cbn [mbind option_bind] in H.
  destruct (copy_array _ _ (cap_ptrs _) _); [|done]. cbn [mbind option_bind] in H.
  destruct (ep_of lay c) as [[i|]|] eqn:Ep; [| |done]; cbn [mbind option_bind] in H.
  - right. split; [done|]. exists i. destruct (ep_of_index _ _ _ Ep). split; [done|]. split; [done|].
    destruct (send_to _ _ _ _) as [[e k1]|] eqn:Es; [|done]. injection H as <- <-.
    by eapply send_to_only.
  - left. destruct (send_to _ _ _ _) as [[e k1]|] eqn:Es; [|done].
    apply send_to_null in Es as [-> ->]. by injection H as <- <-.
Qed.

Lemma sys_reply_recv_case lay k cur c x k' :
  sys_reply_recv lay k cur c = Some (x, k') -> ipc_case lay cur k c k'.
Proof.
  unfold sys_reply_recv, guard_ret. intros H.
  destruct (negb (type c =? CAP_ENDPOINT)) eqn:Et; [injection H as <- <-; by left|]. bools.
  destruct (ep_of lay c) as [[i|]|] eqn:Ep; [|done|done]. cbn [mbind option_bind] in H.
  right. split; [done|]. exists i. destruct (ep_of_index _ _ _ Ep). split; [done|]. split; [done|].
  destruct ((g_endpoints k).[i]) as [ep|] eqn:Hx; [|done]. cbn [mbind option_bind] in H.
  destruct (endpoint_recv _ _ _ _) as [[[[e x'] tcbs] [out|]]|] eqn:Er; [|done|done]. cbn [mbind option_bind] in H.
  destruct ((g_endpoints k).[i := _]) as [eps|] eqn:Es; [|done]. cbn [mbind option_bind] in H.
  pose proof (exchange_only i cur k ep _ eps tcbs Hx Es (recv_wakes _ _ _ _ _ _ _ _ Er)) as Hio.
  assert (forall f t1, upd_thread tcbs cur f = Some t1 -> (forall t, same_config t (f t)) ->
    ipc_only i cur k (k <| g_endpoints := eps |> <| g_tcbs := t1 |>)) as Hupd
    by (intros f t1 Hu Hf; exact (ipc_only_caller i cur k _ f t1 Hio Hu Hf)).
  destruct (is_ok e && _); [|destruct (is_ok e)]; [| |injection H as <- <-; exact Hio].
  - peel H. injection H as <- <-. eapply Hupd; [done|]. by intros [].
  - peel H. injection H as <- <-. eapply Hupd; [done|]. by intros [].
Qed.

(** ** Where the capability of a system call comes from *)

(** Node [q] holds the valid, tagged capability [c]. *)
Definition held_at (k : kstate) (q : Z) (c : cap_t) : Prop :=
  exists cn i, g_cnodes k !! q = Some cn /\ (slots cn).[i] = Some c /\ is_valid c = true /\
    cheri_tag_get (hw_cap c) = true.

Lemma held_holds k q c : held_at k q c -> holds (g_cnodes k) c.
Proof. intros (cn & i & Hq & Hi & Hv & _). by exists q, cn, i. Qed.

Lemma find_cap_held lay k tcb sys p a c : find_cap lay k tcb sys p a = Some (Some c) ->
  held_at k (cspace tcb) c \/ (held_at k (root_cnode lay) c /\ sys = SYS_INVOKE /\ p = 0).
Proof.
  assert (forall q cn i j, g_cnodes k !! q = Some cn -> cnode_lookup (Some cn) i = Some j ->
    held_at k q (slot_at cn j)) as Hslot.
  { intros q cn i j Hq Hl. apply cnode_lookup_Some in Hl as (Hg & Hv & Ht). by exists cn, j. }
  assert ((if bool_decide (sys = SYS_INVOKE) && (p =? 0) then root_lookup lay k (u32 a) else Some None)
    = Some (Some c) -> held_at k (root_cnode lay) c /\ sys = SYS_INVOKE /\ p = 0) as Hroot.
  { destruct (bool_decide _ && _) eqn:E; [|done]. bools. apply bool_decide_eq_true in H. intros Hl.
    split; [|done]. unfold root_lookup in Hl.
    destruct (g_cnodes k !! root_cnode lay) as [root|] eqn:Er; [|done]. cbn [mbind option_bind] in Hl.
    injection Hl as Hl. destruct (cnode_lookup _ _) as [j|] eqn:Ej; [|done]. injection Hl as <-.
    by eapply Hslot. }
  unfold find_cap, deref_cnode. intros H. destruct (cspace tcb =? NULL); cbn [mbind option_bind] in H.
  { right. apply Hroot. by destruct (cnode_lookup None p). }
  destruct (g_cnodes k !! cspace tcb) as [cn|] eqn:Ec; [|done]. cbn [mbind option_bind] in H.
  destruct (cnode_lookup (Some cn) p) as [j|] eqn:Ej; [|by right; apply Hroot].
  injection H as <-. left. by eapply Hslot.
Qed.

(** The thread passes the gate: it runs, and its context has budget left. *)
Definition may_enter (k : kstate) (cur : Z) (tcb : tcb_t) : Prop :=
  (threads (g_tcbs k)).[cur] = Some tcb /\ state tcb = TCB_RUNNABLE /\
  exists sc, (contexts (g_sched k)).[sched_context tcb] = Some sc /\ sc_remaining_us sc <> 0.

(** What the dispatch does with the capability. *)
Lemma dispatch_case lay k tcb cur sys cap f x k' :
  dispatch lay k tcb cur sys cap f = Some (x, k') -> k' <> k ->
  exists c, cap = Some c /\
    ((sys <> SYS_INVOKE /\ ipc_case lay cur k c k') \/
     (sys = SYS_INVOKE /\ exists e,
        handle_invoke lay k (Some c) (Z.land (a1 f) 0xFF) (a1 f) (a2 f) (a3 f) = Some (e, k'))).
Proof.
  destruct sys; cbn [dispatch]; intros H Hne; try (injection H as <- <-; done);
    (destruct cap as [c|]; [|done]); cbn [mbind option_bind] in H; exists c; (split; [done|]).
  - left. split; [done|]. by eapply sys_call_case.
  - left. split; [done|]. by eapply sys_reply_recv_case.
  - left. split; [done|]. by eapply sys_send_case.
  - right. split; [done|]. unfold sys_invoke in H. peel H. destruct p as [e k1]. injection H as <- <-.
    by exists e.
Qed.

(** Every way through the handler. *)
Lemma handler_gate lay t0 t1 k frame cur e k' frame' :
  syscall_handler lay t0 t1 k frame cur = Some (e, k', frame') ->
  (k' = k /\ frame' = frame /\ e <> ERR_OK) \/
  exists f sys tcb cap x, frame = Some f /\ syscall_decode (a7 f) = Some sys /\
    (threads (g_tcbs k)).[cur] = Some tcb /\ (sys <> SYS_YIELD -> may_enter k cur tcb) /\
    find_cap lay k tcb sys (u32 (a0 f)) (a1 f) = Some cap /\ (sys <> SYS_YIELD -> cap <> None) /\
    dispatch lay k tcb cur sys cap f = Some (x, k') /\
    match x with
    | Returns err => e = err /\ frame' = frame
    | Breaks err => if wcet_check t1 t0 then e = err /\ frame' = Some (f <| a0 := kerror_code err |>)
                    else e = ERR_WCET_EXCEEDED /\ frame' = frame
    end.
Proof.
  destruct frame as [f|]; [|by intros [= <- <- <-]; left]. unfold syscall_handler, guard_ret.
  destruct (syscall_decode (a7 f)) as [sys|] eqn:Ed; [|by intros [= <- <- <-]; left].
  destruct (threads (g_tcbs k)).[cur] as [tcb|] eqn:Et; [|done]. cbn [mbind option_bind].
  destruct (negb (tcb_is_runnable (Some tcb)) && _) eqn:Er; [by intros [= <- <- <-]; left|].
  destruct (find_cap _ _ _ _ _ _) as [cap|] eqn:Ef; [|done]. cbn [mbind option_bind].
  destruct (negb _ && bool_decide (cap = None)) eqn:Ec; [by intros [= <- <- <-]; left|].
  destruct (contexts (g_sched k)).[sched_context tcb] as [sc|] eqn:Es; [|done]. cbn [mbind option_bind].
  destruct (sc_remaining_us sc =? 0) eqn:Eb; [by intros [= <- <- <-]; left|].
  destruct (dispatch _ _ _ _ _ _ _) as [[x k1]|] eqn:Ex; [|done]. cbn [mbind option_bind].
  intros H. right. exists f, sys, tcb, cap, x. assert (k1 = k') as ->.
  { destruct x; [by injection H|]. destruct (wcet_check t1 t0); by injection H. }
  split_and!; try done.
  - intros Hy. rewrite bool_decide_eq_false_2 in Er by done. rewrite andb_true_r in Er. bools.
    unfold tcb_is_runnable, in_state in Er. apply bool_decide_eq_true in Er.
    split_and!; [done..|]. by exists sc.
  - intros Hy. rewrite bool_decide_eq_false_2 in Ec by done. cbn in Ec.
    by apply bool_decide_eq_false in Ec.
  - destruct x as [err|err]; [by injection H as <- <-|].
    destruct (wcet_check t1 t0); cbn [negb] in H; by injection H as <- <-.
Qed.

(** ** Totality and the invariant of the whole kernel *)

(** No thread announces more capabilities than its buffer has room for. *)
Definition buffer_ok (t : tcb_t) : Prop := 0 <= msg_caps (ipc_buffer t) <= IPC_CAPS_MAX.
Definition buffers_ok (k : kstate) : Prop :=
  forall i t, (threads (g_tcbs k)).[i] = Some t -> buffer_ok t.

Lemma evolve_thread_ok h tcbs tcbs' : threads_evolve tcbs tcbs' ->
  (forall i t, (threads tcbs).[i] = Some t -> thread_ok h t) ->
  forall i t, (threads tcbs').[i] = Some t -> thread_ok h t.
Proof.
  intros [_ H] Hok i t' Ht'. destruct (H i t' Ht') as (t & Ht & ? & ? & ?).
  by eapply thread_ok_ext; [eapply Hok|..].
Qed.

Lemma evolve_buffers_ok tcbs tcbs' : threads_evolve tcbs tcbs' ->
  (forall i t, (threads tcbs).[i] = Some t -> buffer_ok t) ->
  forall i t, (threads tcbs').[i] = Some t -> buffer_ok t.
Proof.
  intros [_ H] Hok i t' Ht'. destruct (H i t' Ht') as (t & Ht & _ & _ & E).
  unfold buffer_ok. rewrite E. by eapply Hok.
Qed.

Lemma wf_evolve lay k tcbs : kernel_wf lay k -> threads_evolve (g_tcbs k) tcbs ->
  kernel_wf lay (k <| g_tcbs := tcbs |>).
Proof.
  intros Hwf Hev. apply wf_set_tcbs; [done| |].
  - destruct Hev as [Hl _]. unfold tcbs_wf. rewrite Hl. apply Hwf.
  - eapply evolve_thread_ok; [done|]. apply (kw_thread _ _ Hwf).
Qed.

Lemma ep_get lay k i : kernel_wf lay k -> 0 <= i < MAX_ENDPOINTS ->
  exists x, (g_endpoints k).[i] = Some x /\ endpoint_wf x /\ endpoint_msgs_ok x /\
    forall x', endpoint_wf x' -> endpoint_msgs_ok x' ->
    exists eps, (g_endpoints k).[i := x'] = Some eps /\ kernel_wf lay (k <| g_endpoints := eps |>).
Proof.
  intros Hwf Hi. assert (0 <= i < Z.of_nat (length (g_endpoints k))) as Hr
    by (rewrite (kw_eps _ _ Hwf); unfold MAX_ENDPOINTS in *; lia).
  destruct (arr_get_is_Some (g_endpoints k) i Hr) as [x Hx]. exists x.
  destruct (kw_ep _ _ Hwf i x Hx) as [Hx1 Hx2]. do 3 (split; [done|]).
  intros x' Hw Hm. eexists. split; [by apply arr_set_in|].
  eapply wf_set_ep; [done|exact Hw|exact Hm|]. by apply arr_set_in.
Qed.

Lemma send_to_total lay k i cur m : kernel_wf lay k -> 0 <= i < MAX_ENDPOINTS -> msg_shape m -> 0 <= cur ->
  exists e k1, send_to k (Some i) cur m = Some (e, k1) /\ kernel_wf lay k1 /\
    threads_evolve (g_tcbs k) (g_tcbs k1) /\ (e <> ERR_OK -> k1 = k).
Proof.
  intros Hwf Hi Hm Hc. destruct (ep_get lay k i Hwf Hi) as (x & Hx & Hxw & Hxm & Hset).
  destruct (send_refines (g_tcbs k) x cur m Hxw (kw_threads _ _ Hwf) Hc)
    as (e & x' & tcbs & w & Hs & _ & Hxw' & _).
  destruct (send_msgs _ _ _ _ _ _ _ Hs Hxm Hm) as (Hxm' & Hev & Herr).
  destruct (Hset x' Hxw' Hxm') as (eps & Heps & Hwf1).
  exists e, (k <| g_endpoints := eps |> <| g_tcbs := tcbs |>).
  split; [|split; [|split]].
  - cbn [send_to]. rewrite Hx. cbn [mbind option_bind]. rewrite Hs. cbn. by rewrite Heps.
  - by apply (wf_evolve lay (k <| g_endpoints := eps |>)).
  - done.
  - intros He. destruct (Herr He) as [-> ->]. assert (eps = g_endpoints k) as ->; [|by destruct k].
    apply arr_set_Some in Heps as [_ ->]. apply arr_get_Some in Hx as [_ Hx].
    by apply list_insert_id.
Qed.

(** What a message case guarantees. *)
Definition ipc_ok (lay : layout) (k : kstate) (r : option (exit_t * kstate)) : Prop :=
  exists x k', r = Some (x, k') /\ kernel_wf lay k' /\ (buffers_ok k -> buffers_ok k') /\
    match x with Returns e => k' = k | Breaks e => e <> ERR_OK -> k' = k end.

Lemma ipc_ok_ret lay k e : kernel_wf lay k -> ipc_ok lay k (Some (Returns e, k)).
Proof. intros Hwf. by exists (Returns e), k. Qed.

Lemma ep_target lay k c : layout_wf lay -> cap_target_ok lay k c -> type c = CAP_ENDPOINT ->
  exists i, 0 <= i < MAX_ENDPOINTS /\ ep_of lay c = Some (Some i).
Proof.
  intros Hl (_ & He & _) Ht. destruct (He Ht) as (i & Hi & Ep). exists i. split; [done|].
  unfold ep_of, deref. rewrite Ep, (proj2 (Z.eqb_neq _ _) (lw_ep_null _ Hl i Hi)).
  rewrite ptr_index_addr; [done|done|]. intros j Hj. by apply (lw_ep_inj _ Hl).
Qed.

Lemma byte_range a : 0 <= Z.land a 0xFF < 256.
Proof. change 0xFF with (Z.ones 8). rewrite Z.land_ones by lia. apply Z.mod_pos_bound. lia. Qed.

Lemma buffers_upd k i f tcbs : buffers_ok k -> upd_thread (g_tcbs k) i f = Some tcbs ->
  (forall t, buffer_ok t -> buffer_ok (f t)) -> buffers_ok (k <| g_tcbs := tcbs |>).
Proof.
  intros Hb Hu Hf j t Ht. destruct (upd_thread_inv _ _ _ _ Hu) as (t0 & Ht0 & Hget). cbn in Ht.
  rewrite Hget in Ht. destruct (j =? i); [injection Ht as <-; apply Hf|]; by eapply Hb.
Qed.

Section IpcCases.
Context (lay : layout) (k : kstate) (c : cap_t) (tcb : tcb_t) (cur : Z).
Context (Hlay : layout_wf lay) (Hwf : kernel_wf lay k) (Htgt : cap_target_ok lay k c).
Context (Hcur : (threads (g_tcbs k)).[cur] = Some tcb).

Lemma cur_nonneg : 0 <= cur.
Proof using Hcur. apply arr_get_Some in Hcur. lia. Qed.

(** The words of a message of at most 30 words. *)
Lemma msg_words n : 0 <= n <= IPC_MSG_MAX ->
  exists w, copy_array (Z.to_nat n) 0 (words ipc_msg_zero) (words (ipc_buffer tcb)) = Some w /\
    length w = Z.to_nat IPC_MSG_MAX /\ take (Z.to_nat n) w = take (Z.to_nat n) (words (ipc_buffer tcb)).
Proof using Hwf Hcur.
  intros Hn. destruct (kw_thread _ _ Hwf _ _ Hcur) as (_ & _ & Hw & _).
  assert (length (words ipc_msg_zero) = 30%nat) as Hz by done. unfold IPC_MSG_MAX in *.
  rewrite copy_array_0 by lia. eexists. split; [reflexivity|]. split.
  - rewrite length_app, length_take, length_drop. lia.
  - rewrite take_app_le by (rewrite length_take; lia). by rewrite take_take, Nat.min_id.
Qed.

Lemma sys_call_total arg : ipc_ok lay k (sys_call lay k tcb cur c arg).
Proof using Hlay Hwf Htgt Hcur.
  unfold sys_call, guard_ret. destruct (negb _); [by apply ipc_ok_ret|].
  destruct (negb (type c =? CAP_ENDPOINT)) eqn:Et; [by apply ipc_ok_ret|]. bools.
  destruct (IPC_MSG_MAX <? _) eqn:El; [by apply ipc_ok_ret|]. pose proof (byte_range arg). bools.
  destruct (msg_words (Z.land arg 0xFF)) as (w & -> & Hw & _); [lia|]. cbn [mbind option_bind].
  destruct (ep_target lay k c Hlay Htgt Et) as (i & Hi & ->). cbn [mbind option_bind].
  destruct (send_to_total lay k i cur (ipc_msg_zero <| msg_length := Z.land arg 0xFF |> <| words := w |>)
    Hwf Hi) as (e & k1 & -> & Hwf1 & Hev & He); [split; [apply byte_range|done]|apply cur_nonneg|].
  cbn [mbind option_bind]. destruct (is_ok e) eqn:Eok.
  - destruct (thread_get (g_tcbs k1) cur (kw_threads _ _ Hwf1)) as [t Ht].
    { apply arr_get_Some in Hcur as [Hr _]. rewrite (kw_threads _ _ Hwf) in Hr. unfold MAX_TCBS in *. lia. }
    destruct (wf_upd_thread lay k1 Hwf1 cur (fun t => t <| state := TCB_BLOCKED_REPLY |>) t Ht)
      as (tcbs & Hu & Hwf2); [intros H'; by apply (thread_ok_ext _ t)|].
    rewrite Hu. cbn [mbind option_bind]. eexists (Breaks e), _. split; [reflexivity|].
    split; [exact Hwf2|]. apply is_ok_true in Eok as ->. split; [|done].
    intros Hb. eapply buffers_upd; [|exact Hu|done]. exact (evolve_buffers_ok _ _ Hev Hb).
  - exists (Breaks e), k1. split; [done|]. split; [done|]. split; [|done].
    intros Hb. exact (evolve_buffers_ok _ _ Hev Hb).
Qed.

Lemma sys_send_total arg : buffer_ok tcb -> ipc_ok lay k (sys_send lay k tcb cur c arg).
Proof using Hlay Hwf Htgt Hcur.
  intros Hbuf. unfold sys_send, guard_ret.
  destruct (negb (type c =? CAP_ENDPOINT)) eqn:Et; [by apply ipc_ok_ret|]. bools.
  destruct (IPC_MSG_MAX <? _) eqn:El; [by apply ipc_ok_ret|]. pose proof (byte_range arg). bools.
  destruct (msg_words (Z.land arg 0xFF)) as (w & -> & Hw & _); [lia|]. cbn [mbind option_bind].
  destruct (kw_thread _ _ Hwf _ _ Hcur) as (_ & _ & _ & Hcp). unfold buffer_ok in Hbuf.
  assert (length (cap_ptrs ipc_msg_zero) = 3%nat) as Hz by done. unfold IPC_CAPS_MAX in *.
  rewrite copy_array_0 by lia. cbn [mbind option_bind].
  destruct (ep_target lay k c Hlay Htgt Et) as (i & Hi & ->). cbn [mbind option_bind].
  match goal with |- context [send_to k (Some i) cur ?m] =>
    destruct (send_to_total lay k i cur m Hwf Hi) as (e & k1 & -> & Hwf1 & Hev & He);
      [split; [apply byte_range|done]|apply cur_nonneg|] end.
  cbn [mbind option_bind]. exists (Breaks e), k1. split; [done|]. split; [done|]. split; [|done].
  intros Hb. exact (evolve_buffers_ok _ _ Hev Hb).
Qed.

Lemma sys_reply_recv_total : ipc_ok lay k (sys_reply_recv lay k cur c).
Proof using Hlay Hwf Htgt Hcur.
  unfold sys_reply_recv, guard_ret.
  destruct (negb (type c =? CAP_ENDPOINT)) eqn:Et; [by apply ipc_ok_ret|]. bools.
  destruct (ep_target lay k c Hlay Htgt Et) as (i & Hi & ->). cbn [mbind option_bind].
  destruct (ep_get lay k i Hwf Hi) as (x & -> & Hxw & Hxm & Hset). cbn [mbind option_bind].
  destruct (recv_refines (g_tcbs k) x cur ipc_msg_zero Hxw (kw_threads _ _ Hwf) cur_nonneg)
    as (x' & tcbs & d & w & Hr & _ & Hxw' & _ & _ & Hbnd).
  destruct (recv_msgs _ _ _ _ _ _ _ Hr Hxm) as (Hxm' & [Hlen Hshape] & Hev).
  destruct (Hset x' Hxw' Hxm') as (eps & Heps & Hwf1).
  assert (msg_length (default ipc_msg_zero d) <= 30) as Hle.
  { destruct d as [m|]; [|done]. destruct (Hbnd m eq_refl) as [? _]. unfold IPC_MSG_MAX in *. cbn. lia. }
  set (out := default ipc_msg_zero d) in *.
  rewrite Hr. cbn. rewrite Heps. cbn [mbind option_bind].
  pose proof (wf_evolve lay (k <| g_endpoints := eps |>) tcbs Hwf1 Hev) as Hwf2.
  set (k2 := k <| g_endpoints := eps |> <| g_tcbs := tcbs |>) in *.
  destruct (thread_get (g_tcbs k2) cur (kw_threads _ _ Hwf2)) as [t Ht].
  { apply arr_get_Some in Hcur as [Hrg _]. rewrite (kw_threads _ _ Hwf) in Hrg. unfold MAX_TCBS in *. lia. }
  pose proof (kw_thread _ _ Hwf2 _ _ Ht) as Htok.
  assert (forall f, (thread_ok (g_cnodes k2) t -> thread_ok (g_cnodes k2) (f t)) ->
    (forall t, buffer_ok t -> buffer_ok (f t)) ->
    exists tcbs', upd_thread tcbs cur f = Some tcbs' /\
      kernel_wf lay (k2 <| g_tcbs := tcbs' |>) /\ (buffers_ok k -> buffers_ok (k2 <| g_tcbs := tcbs' |>))) as Hupd.
  { intros f Hf Hb. destruct (wf_upd_thread lay k2 Hwf2 cur f t Ht Hf) as (tcbs' & Hu & Hwf3).
    exists tcbs'. split; [exact Hu|]. split; [exact Hwf3|]. intros Hbk.
    apply (buffers_upd k2 cur f); [|exact Hu|exact Hb]. exact (evolve_buffers_ok _ _ Hev Hbk). }
  destruct (pending x || (0 <? q_len x)).
  - change (g_tcbs k2) with tcbs in Ht. rewrite Ht. cbn [mbind option_bind].
    destruct Htok as (Hp & Hsc & Hwl & Hcl).
    rewrite copy_array_0 by (rewrite ?Hwl, ?Hshape; unfold IPC_MSG_MAX; lia). cbn [mbind option_bind].
    match goal with |- context [upd_thread tcbs cur ?f] => destruct (Hupd f) as (tcbs' & -> & Hw3 & Hb3) end.
    + intros _. split_and!; try done; try apply Hsc. cbn.
      rewrite length_app, length_take, length_drop, Hwl, Hshape. unfold IPC_MSG_MAX. lia.
    + done.
    + cbn [mbind option_bind]. by eexists (Breaks ERR_OK), _.
  - destruct (Hupd (fun t => t <| state := TCB_BLOCKED_RECV |>)) as (tcbs' & -> & Hw3 & Hb3);
      [intros H'; by apply (thread_ok_ext _ t)|done|].
    cbn [mbind option_bind]. by eexists (Breaks ERR_OK), _.
Qed.
End IpcCases.

(** ** The kernel between two system calls *)

Definition kernel_ok (lay : layout) (k : kstate) : Prop :=
  kernel_wf lay k /\ objects_ok lay k /\ buffers_ok k.

(** The register values are 64-bit words. *)
Definition regs_ok (f : trap_frame_t) : Prop := fits 64 (a2 f) /\ fits 64 (a3 f).

(** A retype into a type whose capabilities hold the address of a kernel object. *)
Definition creates_object (op arg2 : Z) : bool :=
  match invoke_op_decode op with
  | Some INV_UNTYPED_RETYPE =>
      (u32 arg2 =? CAP_TCB) || (u32 arg2 =? CAP_ENDPOINT) || (u32 arg2 =? CAP_VSPACE)
  | _ => false
  end.

Lemma target_ext lay k k' c c0 : cap_target_ok lay k c0 -> type c = type c0 -> u c = u c0 ->
  (forall p, is_Some (g_vspaces k !! p) -> is_Some (g_vspaces k' !! p)) -> cap_target_ok lay k' c.
Proof. unfold cap_target_ok. intros (H1 & H2 & H3) -> -> Hv. split_and!; auto. Qed.

Lemma effect_vspaces lay k c op b1 b2 b3 e k' p : invoke_effect lay k c op b1 b2 b3 e k' ->
  is_Some (g_vspaces k !! p) -> is_Some (g_vspaces k' !! p).
Proof.
  intros H Hp. destruct H; try done. cbn. destruct (decide (p = vspace_root_pt (u c))) as [->|].
  - rewrite lookup_insert_eq. by eexists.
  - by rewrite lookup_insert_ne.
Qed.

Lemma effect_objects lay k c op b1 b2 b3 e k' : fits 32 (rights c) ->
  invoke_effect lay k c op b1 b2 b3 e k' -> creates_object op b2 = false ->
  objects_ok lay k -> objects_ok lay k'.
Proof.
  intros Hr H Hno Hobj x Hx.
  destruct (effect_authority _ _ _ _ _ _ _ _ _ Hr H x Hx) as [(x0 & Hx0 & Ht & Hu & _)|(Hop & Hc & ->)].
  - eapply target_ext; [by apply Hobj|done|done|]. intros p. by eapply effect_vspaces.
  - destruct (cap_retype_fields _ _ _ Hc) as (Ht & _). unfold creates_object in Hno.
    rewrite Hop in Hno. bools. unfold cap_target_ok. rewrite Ht. done.
Qed.

Lemma effect_buffers lay k c op b1 b2 b3 e k' : invoke_effect lay k c op b1 b2 b3 e k' ->
  buffers_ok k -> buffers_ok k'.
Proof.
  intros H Hb. destruct H; try done. eapply buffers_upd; [exact Hb|done|].
  intros t Ht. unfold buffer_ok. by destruct (tcb_exec_identity t o) as (_ & _ & _ & ->).
Qed.

Lemma find_cap_defined lay k tcb sys p a : kernel_wf lay k -> ptr_ok (g_cnodes k) (cspace tcb) ->
  is_Some (find_cap lay k tcb sys p a).
Proof.
  intros Hwf Hp. unfold find_cap, deref_cnode.
  assert (is_Some (if bool_decide (sys = SYS_INVOKE) && (p =? 0) then root_lookup lay k (u32 a) else Some None))
    as Hr by (destruct (_ && _); [by apply root_lookup_defined|by eexists]).
  destruct (Z.eqb_spec (cspace tcb) NULL); cbn [mbind option_bind]; [done|].
  destruct Hp as [?|[cn Hcn]]; [done|]. rewrite Hcn. cbn [mbind option_bind].
  destruct (cnode_lookup _ _); [by eexists|done].
Qed.

(** Does this system call map a page, or retype into a kernel object? *)
Definition invokes (f : trap_frame_t) (P : Z -> bool) : bool :=
  bool_decide (syscall_decode (a7 f) = Some SYS_INVOKE) && P (Z.land (a1 f) 0xFF).

Lemma dispatch_total lay k tcb cur sys cap f : layout_wf lay -> kernel_ok lay k -> regs_ok f ->
  (threads (g_tcbs k)).[cur] = Some tcb -> (sys <> SYS_YIELD -> cap <> None) ->
  (forall c, cap = Some c -> holds (g_cnodes k) c) -> syscall_decode (a7 f) = Some sys ->
  exists x k', dispatch lay k tcb cur sys cap f = Some (x, k') /\ kernel_wf lay k' /\ buffers_ok k' /\
    (invokes f (fun op => creates_object op (a2 f)) = false -> objects_ok lay k') /\
    (invokes f maps = false -> match x with Returns e => k' = k | Breaks e => e <> ERR_OK -> k' = k end).
Proof.
  intros Hlay (Hwf & Hobj & Hbuf) [H2 H3] Ht Hn Hh Hd.
  assert (forall r c, cap = Some c -> ipc_ok lay k r ->
    (forall x k', r = Some (x, k') -> ipc_case lay cur k c k') ->
    exists x k', r = Some (x, k') /\ kernel_wf lay k' /\ buffers_ok k' /\
    (invokes f (fun op => creates_object op (a2 f)) = false -> objects_ok lay k') /\
    (invokes f maps = false -> match x with Returns e => k' = k | Breaks e => e <> ERR_OK -> k' = k end)) as Hipc.
  { intros r c _ (x & k' & -> & Hw & Hb & Hx) Hcase. exists x, k'. do 2 (split; [done|]).
    split; [by apply Hb|]. split; [|done]. intros _.
    destruct (Hcase x k' eq_refl) as [->|(_ & i & _ & _ & Hio)]; [done|].
    intros y Hy. rewrite (io_cnodes _ _ _ _ Hio) in Hy.
    eapply target_ext; [by apply Hobj|done|done|]. intros p. by rewrite (io_vspaces _ _ _ _ Hio). }
  destruct sys; cbn [dispatch].
  6: { destruct cap as [c|]; [|by destruct Hn]. cbn [mbind option_bind]. unfold sys_invoke.
    assert (holds (g_cnodes k) c) as Hc by (by apply Hh).
    pose proof (kw_caps _ _ Hwf c Hc) as Hr.
    destruct (handle_invoke_total lay k c (Z.land (a1 f) 0xFF) (a1 f) (a2 f) (a3 f) Hlay Hwf (Hobj c Hc) Hr H2 H3)
      as (e & k' & Hrun & Hw & He). rewrite Hrun. cbn [mbind option_bind].
    destruct (handle_invoke_effect _ _ _ _ _ _ _ _ _ Hrun) as (Hef & _).
    unfold invokes. rewrite Hd, bool_decide_eq_true_2 by done. cbn [andb].
    exists (Breaks e), k'. do 2 (split; [done|]). split; [by eapply effect_buffers|].
    split; [|by intros ? ?; apply He]. intros Hno. by eapply effect_objects. }
  - destruct cap as [c|]; [|by destruct Hn]. apply (Hipc _ c eq_refl).
    + apply sys_call_total; try done. by apply Hobj, Hh.
    + intros x k'. apply sys_call_case.
  - destruct cap as [c|]; [|by destruct Hn]. apply (Hipc _ c eq_refl).
    + eapply sys_reply_recv_total; try done. by apply Hobj, Hh.
    + intros x k'. apply sys_reply_recv_case.
  - destruct cap as [c|]; [|by destruct Hn]. apply (Hipc _ c eq_refl).
    + apply sys_send_total; try done; [by apply Hobj, Hh|by eapply Hbuf].
    + intros x k'. apply sys_send_case.
  - by exists (Breaks ERR_OK), k.
  - by exists (Breaks ERR_INVALID_ARG), k.
Qed.

Lemma syscall_handler_total lay t0 t1 k f cur : layout_wf lay -> kernel_ok lay k -> regs_ok f ->
  0 <= cur < MAX_TCBS ->
  exists e k' f', syscall_handler lay t0 t1 k (Some f) cur = Some (e, k', Some f') /\
    kernel_wf lay k' /\ buffers_ok k' /\
    (invokes f (fun op => creates_object op (a2 f)) = false -> objects_ok lay k') /\
    (e <> ERR_OK -> e <> ERR_WCET_EXCEEDED -> invokes f maps = false -> k' = k).
Proof.
  intros Hlay Hok Hf Hcur. pose proof Hok as (Hwf & Hobj & Hbuf). unfold syscall_handler, guard_ret.
  assert (forall e, exists e' k' f', Some (e, k, Some f) = Some (e', k', Some f') /\
    kernel_wf lay k' /\ buffers_ok k' /\
    (invokes f (fun op => creates_object op (a2 f)) = false -> objects_ok lay k') /\
    (e' <> ERR_OK -> e' <> ERR_WCET_EXCEEDED -> invokes f maps = false -> k' = k)) as Hsame
    by (intros e; by exists e, k, f).
  destruct (syscall_decode (a7 f)) as [sys|] eqn:Ed; [|apply Hsame].
  destruct (thread_get (g_tcbs k) cur (kw_threads _ _ Hwf) Hcur) as [tcb Ht]. rewrite Ht. cbn [mbind option_bind].
  destruct (_ && _); [apply Hsame|]. pose proof (kw_thread _ _ Hwf _ _ Ht) as (Hp & Hsc & _).
  destruct (find_cap_defined lay k tcb sys (u32 (a0 f)) (a1 f) Hwf Hp) as [cap Hcap]. rewrite Hcap.
  cbn [mbind option_bind].
  destruct (negb _ && _) eqn:En; [apply Hsame|].
  destruct (arr_get_is_Some (contexts (g_sched k)) (sched_context tcb)) as [sc ->].
  { rewrite (sw_contexts _ (kw_sched _ _ Hwf)). unfold MAX_SCHED_CONTEXTS in *. lia. }
  cbn [mbind option_bind]. destruct (_ =? 0); [apply Hsame|].
  destruct (dispatch_total lay k tcb cur sys cap f Hlay Hok Hf Ht) as (x & k' & -> & Hw & Hb & Ho & Hx).
  - intros Hy. rewrite bool_decide_eq_false_2 in En by done. by apply bool_decide_eq_false in En.
  - intros c ->. destruct (find_cap_held _ _ _ _ _ _ _ Hcap) as [Hc|[Hc _]]; by eapply held_holds.
  - done.
  - cbn [mbind option_bind]. destruct x as [e|e].
    + exists e, k', f. do 4 (split; [done|]). intros _ _. exact Hx.
    + destruct (negb (wcet_check t1 t0)).
      * by exists ERR_WCET_EXCEEDED, k', f.
      * eexists e, k', _. do 4 (split; [done|]). intros He _ Hm. by apply Hx.
Qed.

(** ** Properties *)

(** System calls on the small kernel: registers [a7], [a0], [a1], [a2], [a3]. *)
Definition demo_frame (n cptr x1 x2 x3 : Z) : trap_frame_t :=
  mk_trap_frame 0 0 0 0 (replicate 7 0) cptr x1 x2 x3 0 0 0 n (replicate 12 0) 0 8.

Lemma demo_kernel_ok : kernel_ok demo_layout demo_kernel.
Proof.
  split; [apply demo_kernel_wf|]. split; [apply demo_kernel_objects|].
  intros i t Ht. apply put_all_get in Ht as [Ht|Ht].
  - destruct Ht as [<-|[<-|[]]]; split; vm_compute; congruence.
  - apply arr_get_replicate in Ht as ->. split; vm_compute; congruence.
Qed.

Definition demo_send : trap_frame_t := demo_frame 2 11 4 0 0.
Definition demo_recv : trap_frame_t := demo_frame 1 11 0 0 0.

Lemma demo_may_enter i : i = 0 \/ i = 1 -> may_enter demo_kernel i (demo_thread i).
Proof.
  intros [->| ->]; (split; [vm_compute; reflexivity|split; [reflexivity|]]);
    (eexists; split; [vm_compute; reflexivity|vm_compute; congruence]).
Qed.

(** C1. Complete mediation: on a well-formed kernel, whatever a thread puts in its
    registers, a system call that changes any kernel state was made by a runnable thread
    whose scheduling context has budget left, and through a valid, tagged capability
    found in that thread's own capability space (or, for [SYS_INVOKE] on pointer 0, in the
    root node). A message operation needs an endpoint capability and changes only that
    endpoint, the state and buffer of the caller, and the state of the one thread that
    waits on the endpoint or is first in its queue, which is woken. An invocation leaves
    the footprint of its capability: the thread, address space, untyped memory or root
    node slots the capability gives access to, or, with [INV_SCHED_BIND], for which any
    valid capability will do, the scheduling context named in the argument. *)
Theorem syscall_mediation lay t0 t1 k frame cur e k' frame' :
  kernel_wf lay k -> (forall f, frame = Some f -> regs_ok f) ->
  syscall_handler lay t0 t1 k frame cur = Some (e, k', frame') -> k' <> k ->
  exists f sys tcb c, frame = Some f /\ syscall_decode (a7 f) = Some sys /\ may_enter k cur tcb /\
    (held_at k (cspace tcb) c \/
     (held_at k (root_cnode lay) c /\ sys = SYS_INVOKE /\ u32 (a0 f) = 0)) /\
    ((sys <> SYS_INVOKE /\ type c = CAP_ENDPOINT /\ exists i, 0 <= i < MAX_ENDPOINTS /\
        endpoint_ep_ptr (u c) = ep_addr lay i /\ ipc_only i cur k k') \/
     (sys = SYS_INVOKE /\ cap_is_valid (Some c) = true /\
        footprint lay c (Z.land (a1 f) 0xFF) (a1 f) (a2 f) (a3 f) k k')).
Proof.
  intros Hwf Hregs H Hne. destruct (handler_gate _ _ _ _ _ _ _ _ _ H)
    as [(-> & _)|(f & sys & tcb & cap & x & Hf & Hd & Ht & Hm & Hc & Hn & Hx & _)]; [done|].
  destruct (dispatch_case _ _ _ _ _ _ _ _ _ Hx Hne) as (c & -> & Hcase).
  assert (sys <> SYS_YIELD) as Hy by (intros ->; cbn in Hx; congruence).
  pose proof (find_cap_held _ _ _ _ _ _ _ Hc) as Hheld.
  exists f, sys, tcb, c. split; [done|]. split; [done|]. split; [by apply Hm|]. split; [done|].
  destruct Hcase as [[Hs [?|(Hty & Hi)]]|[Hs (e' & Hinv)]]; [done|by left|].
  right. split; [done|]. assert (fits 32 (rights c)) as Hr.
  { apply (kw_caps _ _ Hwf). destruct Hheld as [Hh|[Hh _]]; by eapply held_holds. }
  destruct (handle_invoke_effect _ _ _ _ _ _ _ _ _ Hinv) as (Hef & Hv & _).
  split; [by apply Hv|]. eapply effect_footprint; [done|done|by apply Hregs|exact Hef].
Qed.

Lemma syscall_mediation_witness :
  exists k' f', syscall_handler demo_layout 0 100 demo_kernel (Some demo_send) 0 = Some (ERR_OK, k', f') /\
    exists f sys tcb c, Some demo_send = Some f /\ syscall_decode (a7 f) = Some sys /\
      may_enter demo_kernel 0 tcb /\ (held_at demo_kernel (cspace tcb) c \/
        (held_at demo_kernel (root_cnode demo_layout) c /\ sys = SYS_INVOKE /\ u32 (a0 f) = 0)).
Proof.
  assert (forall f, Some demo_send = Some f -> regs_ok f) as Hregs by (intros f [= <-]; split; fits_now).
  do 2 eexists. split; [vm_compute; reflexivity|].
  destruct (syscall_mediation demo_layout 0 100 demo_kernel (Some demo_send) 0 ERR_OK _ _
    demo_kernel_wf Hregs ltac:(vm_compute; reflexivity)) as (f & sys & tcb & c & H1 & H2 & H3 & H4 & _).
  - intros E. apply (f_equal (fun k => option_map pending (g_endpoints k).[1])) in E.
    vm_compute in E. discriminate E.
  - exists f, sys, tcb, c. split; [exact H1|]. split; [exact H2|]. split; [exact H3|exact H4].
Defined.

(** A system call: the clock at entry and exit, the thread and its registers. *)
Record sys_event := mk_event { ev_entry : Z; ev_exit : Z; ev_cur : Z; ev_frame : trap_frame_t }.

Fixpoint syscall_run (lay : layout) (k : kstate) (l : list sys_event) : option (list kerror_t * kstate) :=
  match l with
  | [] => Some ([], k)
  | ev :: l' =>
      '(e, k1, _) ← syscall_handler lay (ev_entry ev) (ev_exit ev) k (Some (ev_frame ev)) (ev_cur ev);
      '(es, k2) ← syscall_run lay k1 l';
      Some (e :: es, k2)
  end.

(** Any thread, any registers; only a retype into a type that names a kernel object is
    left out. *)
Definition event_ok (ev : sys_event) : Prop :=
  0 <= ev_cur ev < MAX_TCBS /\ regs_ok (ev_frame ev) /\
  invokes (ev_frame ev) (fun op => creates_object op (a2 (ev_frame ev))) = false.

Lemma syscall_run_ok lay k l :
  layout_wf lay -> kernel_ok lay k -> Forall event_ok l ->
  exists es k', syscall_run lay k l = Some (es, k') /\ length es = length l /\ kernel_ok lay k'.
Proof.
  intros Hlay Hok Hl. revert k Hok. induction Hl as [|ev l (Hc & Hf & Hno) Hl IH]; intros k Hok.
  { by exists [], k. }
  destruct (syscall_handler_total lay (ev_entry ev) (ev_exit ev) k (ev_frame ev) (ev_cur ev) Hlay Hok Hf Hc)
    as (e & k1 & f' & Hrun & Hw & Hb & Ho & _).
  destruct (IH k1) as (es & k' & Hes & Hlen & Hok'); [by split_and!; auto|].
  exists (e :: es), k'. cbn [syscall_run]. rewrite Hrun. cbn [mbind option_bind]. rewrite Hes.
  cbn. split_and!; [done|by rewrite Hlen|apply Hok'..].
Qed.

(** C2. The kernel survives every program: from a well-formed kernel, any sequence of
    system calls by any threads with any register contents (short of retyping
    memory into a kernel object that nobody creates) runs to its end without
    undefined behaviour, one result per call, and leaves a well-formed kernel in
    which every capability still points to an object of its type. *)
Theorem syscall_run_total lay k l :
  layout_wf lay -> kernel_ok lay k -> Forall event_ok l ->
  exists es k', syscall_run lay k l = Some (es, k') /\ length es = length l /\ kernel_ok lay k'.
Proof. apply syscall_run_ok. Qed.

(** Thread 0 sends, thread 1 receives, thread 0 retypes a frame, thread 1 tries a
    capability that is not there. *)
Definition demo_events : list sys_event :=
  [mk_event 0 100 0 demo_send; mk_event 200 300 1 demo_recv;
   mk_event 400 500 0 (demo_frame 5 0 (7 * 256) CAP_FRAME 4096);
   mk_event 600 700 1 (demo_frame 2 99 4 0 0)].

Lemma syscall_run_total_witness :
  exists es k', syscall_run demo_layout demo_kernel demo_events = Some (es, k') /\
    es = [ERR_OK; ERR_OK; ERR_OK; ERR_INVALID_CAP] /\ kernel_ok demo_layout k'.
Proof.
  destruct (syscall_run_total demo_layout demo_kernel demo_events demo_layout_wf demo_kernel_ok)
    as (es & k' & H & _ & Hok).
  - repeat constructor; vm_compute; congruence.
  - exists es, k'. split; [exact H|]. split; [|exact Hok].
    assert (option_map fst (syscall_run demo_layout demo_kernel demo_events)
      = Some [ERR_OK; ERR_OK; ERR_OK; ERR_INVALID_CAP]) as E by (vm_compute; reflexivity).
    rewrite H in E. injection E as E. exact E.
Defined.

(** C24. A failed system call has no effect: when the handler returns an error other
    than [ERR_WCET_EXCEEDED] and the call was not a mapping, the whole kernel state
    is as before. *)
Theorem syscall_error_atomic lay t0 t1 k f cur e k' frame' :
  layout_wf lay -> kernel_ok lay k -> regs_ok f -> 0 <= cur < MAX_TCBS ->
  syscall_handler lay t0 t1 k (Some f) cur = Some (e, k', frame') ->
  e <> ERR_OK -> e <> ERR_WCET_EXCEEDED -> invokes f maps = false -> k' = k.
Proof.
  intros Hlay Hok Hf Hc H He Hw Hm.
  destruct (syscall_handler_total lay t0 t1 k f cur Hlay Hok Hf Hc) as (e1 & k1 & f1 & H1 & _ & _ & _ & Hat).
  rewrite H in H1. injection H1 as <- <- _. by apply Hat.
Qed.

Lemma syscall_error_atomic_witness :
  exists k' f', syscall_handler demo_layout 0 100 demo_kernel (Some (demo_frame 2 1 4 0 0)) 0
    = Some (ERR_INVALID_CAP, k', f') /\ k' = demo_kernel.
Proof.
  do 2 eexists. split; [vm_compute; reflexivity|].
  apply (syscall_error_atomic demo_layout 0 100 demo_kernel (demo_frame 2 1 4 0 0) 0 ERR_INVALID_CAP _
    (Some (demo_frame 2 1 4 0 0)) demo_layout_wf demo_kernel_ok);
    [split; fits_now|split; vm_compute; congruence|vm_compute; reflexivity|discriminate|discriminate
    |vm_compute; reflexivity].
Defined.

(** ** One message from thread to thread *)

Lemma find_cap_ext lay k k' tcb sys p a : g_cnodes k' = g_cnodes k ->
  find_cap lay k' tcb sys p a = find_cap lay k tcb sys p a.
Proof. unfold find_cap, root_lookup. by intros ->. Qed.

(** A call that passes the gate and breaks out of the switch in time. *)
Lemma handler_run lay t0 t1 k f cur sys tcb c e k' :
  syscall_decode (a7 f) = Some sys -> may_enter k cur tcb ->
  find_cap lay k tcb sys (u32 (a0 f)) (a1 f) = Some (Some c) ->
  dispatch lay k tcb cur sys (Some c) f = Some (Breaks e, k') -> wcet_check t1 t0 = true ->
  syscall_handler lay t0 t1 k (Some f) cur = Some (e, k', Some (f <| a0 := kerror_code e |>)).
Proof.
  intros Hd (Ht & Hs & sc & Hsc & Hrem) Hc Hx Hw. unfold syscall_handler, guard_ret. rewrite Hd, Ht.
  cbn [mbind option_bind]. unfold tcb_is_runnable, in_state. rewrite (bool_decide_eq_true_2 _ Hs).
  cbn [negb andb]. rewrite Hc. cbn [mbind option_bind]. rewrite (bool_decide_eq_false_2 (Some c = None)) by done.
  rewrite andb_false_r, Hsc. cbn [mbind option_bind]. rewrite (proj2 (Z.eqb_neq _ _) Hrem), Hx.
  cbn [mbind option_bind]. by rewrite Hw.
Qed.

(** Nothing queued, nothing handed over, nobody waiting. *)
Definition idle (x : endpoint_t) : Prop := q_len x = 0 /\ pending x = false /\ has_receiver x = false.

Lemma idle_abs x : idle x -> ep_abs x = mk_ep_spec [] None None.
Proof. intros (H1 & H2 & H3). unfold ep_abs, ring_list. by rewrite H1, H2, H3. Qed.

Section Roundtrip.
Context (lay : layout) (k : kstate) (i s : Z) (x : endpoint_t) (ts : tcb_t).
Context (Hlay : layout_wf lay) (Hok : kernel_ok lay k) (Hi : 0 <= i < MAX_ENDPOINTS).
Context (Hx : (g_endpoints k).[i] = Some x) (Hidle : idle x).
Context (Hts : (threads (g_tcbs k)).[s] = Some ts) (Hrun : state ts = TCB_RUNNABLE).

(** The message is queued and no thread is touched. *)
Lemma send_idle m : msg_shape m -> ipc_msg_bounded m ->
  exists x1 eps, endpoint_wf x1 /\ endpoint_msgs_ok x1 /\ ep_abs x1 = mk_ep_spec [(s, m)] None None /\
    (g_endpoints k).[i := x1] = Some eps /\
    send_to k (Some i) s m = Some (ERR_OK, k <| g_endpoints := eps |>).
Proof using Hok Hi Hx Hidle Hts.
  intros Hm Hb. destruct Hok as (Hwf & _ & _).
  destruct (ep_get lay k i Hwf Hi) as (x0 & Hx0 & Hxw & Hxm & Hset). rewrite Hx in Hx0. injection Hx0 as <-.
  assert (0 <= s) as Hs by (apply arr_get_Some in Hts; lia).
  destruct (send_refines (g_tcbs k) x s m Hxw (kw_threads _ _ Hwf) Hs)
    as (e & x1 & tcbs & w & Hsend & Hspec & Hw1 & _ & Hwoke).
  destruct (send_msgs _ _ _ _ _ _ _ Hsend Hxm Hm) as (Hxm1 & _).
  rewrite (idle_abs x Hidle) in Hspec. unfold spec_send in Hspec.
  rewrite (proj2 (bounded_iff m) Hb) in Hspec. cbn [sp_queue sp_waiting length Nat.leb app] in Hspec.
  apply pair_equal_spec in Hspec as [[<- Habs]%pair_equal_spec <-].
  cbn in Hwoke. subst tcbs. destruct (Hset x1 Hw1 Hxm1) as (eps & Heps & _).
  exists x1, eps. do 3 (split; [done|]). split; [done|]. cbn [send_to]. rewrite Hx. cbn [mbind option_bind].
  rewrite Hsend. cbn. rewrite Heps. by destruct k.
Qed.

(** [SYS_SEND] on the idle endpoint. *)
Lemma sys_send_idle c arg : type c = CAP_ENDPOINT -> ep_of lay c = Some (Some i) ->
  Z.land arg 0xFF <= IPC_MSG_MAX ->
  exists m x1 eps, msg_length m = Z.land arg 0xFF /\
    (length (words m) = Z.to_nat IPC_MSG_MAX /\
     take (Z.to_nat (Z.land arg 0xFF)) (words m) = take (Z.to_nat (Z.land arg 0xFF)) (words (ipc_buffer ts))) /\
    endpoint_wf x1 /\ endpoint_msgs_ok x1 /\ ep_abs x1 = mk_ep_spec [(s, m)] None None /\
    (g_endpoints k).[i := x1] = Some eps /\
    sys_send lay k ts s c arg = Some (Breaks ERR_OK, k <| g_endpoints := eps |>).
Proof using Hok Hi Hx Hidle Hts.
  intros Ht Hep Hle. pose proof (byte_range arg) as Hb. pose proof Hok as (Hwf & _ & Hbuf).
  destruct (msg_words lay k ts s Hwf Hts (Z.land arg 0xFF)) as (w & Hw & Hwl & Hwt); [lia|].
  destruct (kw_thread _ _ Hwf _ _ Hts) as (_ & _ & _ & Hcp).
  pose proof (Hbuf _ _ Hts) as Hcaps. unfold buffer_ok in Hcaps.
  assert (length (cap_ptrs ipc_msg_zero) = 3%nat) as Hz by done.
  unfold sys_send, guard_ret. rewrite Ht, Z.eqb_refl. cbn [negb].
  rewrite (proj2 (Z.ltb_ge _ _) Hle), Hw. cbn [mbind option_bind].
  rewrite copy_array_0 by (unfold IPC_CAPS_MAX in *; lia). cbn [mbind option_bind]. rewrite Hep. cbn [mbind option_bind].
  match goal with |- context [send_to k (Some i) s ?m] =>
    destruct (send_idle m) as (x1 & eps & H1 & H2 & H3 & H4 & H5); [by split; [apply byte_range|]| |exists m, x1, eps] end.
  - split; [exact Hle|]. cbn. lia.
  - rewrite H5. done.
Qed.

Context (r : Z) (tr : tcb_t) (Htr : (threads (g_tcbs k)).[r] = Some tr).

(** The message is taken out again and the sender, who is running, is left alone. *)
Lemma recv_queued x1 m out : endpoint_wf x1 -> ep_abs x1 = mk_ep_spec [(s, m)] None None ->
  exists x2, endpoint_recv (g_tcbs k) (Some x1) r (Some out) = Some (ERR_OK, Some x2, g_tcbs k, Some m) /\
    (pending x1 || (0 <? q_len x1)) = true /\ ep_abs x2 = mk_ep_spec [] None None.
Proof using Hok Hts Hrun Htr.
  intros Hw1 Habs. destruct Hok as (Hwf & _ & _).
  assert (0 <= r) as Hr by (apply arr_get_Some in Htr; lia).
  destruct (recv_refines (g_tcbs k) x1 r out Hw1 (kw_threads _ _ Hwf) Hr)
    as (x2 & tcbs & d & w & Hrecv & Hspec & _ & _ & Hwoke & _).
  rewrite Habs in Hspec. unfold spec_recv in Hspec. cbn [sp_queue sp_waiting] in Hspec.
  apply pair_equal_spec in Hspec as [[Habs2 <-]%pair_equal_spec <-]. cbn in Hwoke.
  assert (tcbs = g_tcbs k) as ->.
  { destruct (s <? MAX_TCBS); [|done]. unfold resume_sender in Hwoke. rewrite Hts in Hwoke.
    cbn [mbind option_bind] in Hwoke. unfold in_state in Hwoke. rewrite Hrun in Hwoke.
    by injection Hwoke as <-. }
  exists x2. split; [done|]. split; [|done].
  assert (length (ring_list x1) = 1%nat) as Hlen
    by (change (ring_list x1) with (sp_queue (ep_abs x1)); by rewrite Habs).
  rewrite ring_list_length in Hlen by done. rewrite (proj2 (Z.ltb_lt 0 (q_len x1))) by lia. apply orb_true_r.
Qed.
End Roundtrip.

(** Where the word of a capability for endpoint [i] leads. *)
Lemma ep_of_addr lay i c : layout_wf lay -> 0 <= i < MAX_ENDPOINTS ->
  endpoint_ep_ptr (u c) = ep_addr lay i -> ep_of lay c = Some (Some i).
Proof.
  intros Hlay Hi Hp. unfold ep_of, deref. rewrite Hp, (proj2 (Z.eqb_neq _ _) (lw_ep_null _ Hlay i Hi)).
  rewrite ptr_index_addr; [done|done|]. intros j Hj. by apply (lw_ep_inj _ Hlay).
Qed.

(** [SYS_REPLY_RECV] on an endpoint that holds the message [m]: its words are copied
    to the receiver's buffer and the endpoint is left as [endpoint_recv] leaves it. *)
Lemma reply_recv_queued lay k r i x1 x2 m tr cr : type cr = CAP_ENDPOINT -> ep_of lay cr = Some (Some i) ->
  (g_endpoints k).[i] = Some x1 -> (threads (g_tcbs k)).[r] = Some tr ->
  (pending x1 || (0 <? q_len x1)) = true ->
  endpoint_recv (g_tcbs k) (Some x1) r (Some ipc_msg_zero) = Some (ERR_OK, Some x2, g_tcbs k, Some m) ->
  0 <= msg_length m <= IPC_MSG_MAX -> length (words m) = Z.to_nat IPC_MSG_MAX ->
  length (words (ipc_buffer tr)) = Z.to_nat IPC_MSG_MAX ->
  sys_reply_recv lay k r cr = Some (Breaks ERR_OK,
    k <| g_endpoints := <[Z.to_nat i := x2]> (g_endpoints k) |>
      <| g_tcbs := (g_tcbs k) <| threads := <[Z.to_nat r := tr <| ipc_buffer ::= fun b =>
           b <| words := take (Z.to_nat (msg_length m)) (words m)
                         ++ drop (Z.to_nat (msg_length m)) (words (ipc_buffer tr)) |>
             <| msg_length := msg_length m |> |>]> (threads (g_tcbs k)) |> |>).
Proof.
  intros Hcr Hep Hx Htr Hpend Hrecv Hml Hlm Hlr. unfold sys_reply_recv, guard_ret.
  rewrite Hcr, Z.eqb_refl, Hep. cbn [negb mbind option_bind]. rewrite Hx. cbn [mbind option_bind]. rewrite Hpend, Hrecv.
  cbn [mbind option_bind]. cbn [default from_option id].
  rewrite arr_set_in by (apply arr_get_Some in Hx; lia). cbn [mbind option_bind is_ok].
  rewrite Htr. cbn [mbind option_bind]. change (is_ok ERR_OK && true) with true. cbn iota.
  rewrite copy_array_0 by (rewrite ?Hlr, ?Hlm; unfold IPC_MSG_MAX in *; lia).
  cbn [mbind option_bind]. rewrite (upd_thread_defined _ _ _ _ Htr). done.
Qed.

(** C23. A message arrives: when a runnable thread sends [n] words through a capability
    for an idle endpoint and another then receives through its own capability for
    it, both calls return [ERR_OK] (also in [a0]); the receiver keeps running and
    has exactly the sender's [n] words and the length [n] in its buffer, the rest of
    its buffer and the sender's thread being as before; and the endpoint is idle
    again. *)
Theorem syscall_message_delivered lay k i s r x ts tr cs cr fs fr t0 t1 t2 t3 :
  layout_wf lay -> kernel_ok lay k -> s <> r -> 0 <= i < MAX_ENDPOINTS ->
  (g_endpoints k).[i] = Some x -> idle x -> may_enter k s ts -> may_enter k r tr ->
  syscall_decode (a7 fs) = Some SYS_SEND -> syscall_decode (a7 fr) = Some SYS_REPLY_RECV ->
  find_cap lay k ts SYS_SEND (u32 (a0 fs)) (a1 fs) = Some (Some cs) ->
  find_cap lay k tr SYS_REPLY_RECV (u32 (a0 fr)) (a1 fr) = Some (Some cr) ->
  type cs = CAP_ENDPOINT -> endpoint_ep_ptr (u cs) = ep_addr lay i ->
  type cr = CAP_ENDPOINT -> endpoint_ep_ptr (u cr) = ep_addr lay i ->
  let n := Z.land (a1 fs) 0xFF in
  n <= IPC_MSG_MAX -> wcet_check t1 t0 = true -> wcet_check t3 t2 = true ->
  exists k1 k2 tr' x2,
    syscall_handler lay t0 t1 k (Some fs) s = Some (ERR_OK, k1, Some (fs <| a0 := 0 |>)) /\
    syscall_handler lay t2 t3 k1 (Some fr) r = Some (ERR_OK, k2, Some (fr <| a0 := 0 |>)) /\
    (threads (g_tcbs k2)).[r] = Some tr' /\ state tr' = TCB_RUNNABLE /\
    msg_length (ipc_buffer tr') = n /\
    words (ipc_buffer tr') = take (Z.to_nat n) (words (ipc_buffer ts))
                             ++ drop (Z.to_nat n) (words (ipc_buffer tr)) /\
    (threads (g_tcbs k2)).[s] = Some ts /\
    (g_endpoints k2).[i] = Some x2 /\ ep_abs x2 = mk_ep_spec [] None None.
Proof.
  intros Hlay Hok Hne Hi Hx Hidle Hms Hmr Hds Hdr Hfs Hfr Hcs Hps Hcr Hpr n Hn Hw1 Hw2.
  pose proof Hok as (Hwf & Hobj & Hbuf). pose proof Hms as (Hts & Hrs & _). pose proof Hmr as (Htr & Hrr & Hbud).
  assert (0 <= n) as Hn0 by apply byte_range.
  destruct (sys_send_idle lay k i s x ts Hok Hi Hx Hidle Hts cs (a1 fs) Hcs (ep_of_addr lay i cs Hlay Hi Hps) Hn)
    as (m & x1 & eps & Hml & Hmw & Hw & Hmo & Habs & Heps & Hsend).
  pose proof (kw_thread _ _ Hwf _ _ Htr) as (_ & _ & Hlr & _).
  pose proof (kw_thread _ _ Hwf _ _ Hts) as (_ & _ & Hls & _).
  destruct (recv_queued lay k s ts Hok Hts Hrs r tr Htr x1 m ipc_msg_zero Hw Habs) as (x2 & Hrecv & Hpend & Habs2).
  assert (0 <= i < Z.of_nat (length (g_endpoints k))) as Hil by (apply arr_get_Some in Hx; lia).
  assert (eps = <[Z.to_nat i := x1]> (g_endpoints k)) as -> by (by apply arr_set_Some in Heps as [_ ->]).
  set (k1 := k <| g_endpoints := <[Z.to_nat i := x1]> (g_endpoints k) |>) in *.
  set (buf := fun b : ipc_msg_t => b <| words := take (Z.to_nat n) (words (ipc_buffer ts))
     ++ drop (Z.to_nat n) (words (ipc_buffer tr)) |> <| msg_length := n |>).
  set (tcbs2 := (g_tcbs k) <| threads := <[Z.to_nat r := tr <| ipc_buffer ::= buf |>]> (threads (g_tcbs k)) |>).
  set (k2 := k1 <| g_endpoints := <[Z.to_nat i := x2]> (g_endpoints k) |> <| g_tcbs := tcbs2 |>).
  assert (sys_reply_recv lay k1 r cr = Some (Breaks ERR_OK, k2)) as Hrr2.
  { rewrite (reply_recv_queued lay k1 r i x1 x2 m tr cr); try done.
    - change (g_endpoints k1) with (<[Z.to_nat i := x1]> (g_endpoints k)).
      rewrite list_insert_insert_eq, Hml, (proj2 Hmw). done.
    - by apply ep_of_addr.
    - cbn. by apply arr_get_insert_eq.
    - rewrite Hml. exact (conj Hn0 Hn).
    - apply Hmw. }
  exists k1, k2, (tr <| ipc_buffer ::= buf |>), x2. apply arr_get_Some in Htr as Hr. destruct Hr as [Hr _].
  split; [|split; [|split_and!]].
  - apply (handler_run lay t0 t1 k fs s SYS_SEND ts cs ERR_OK k1); done.
  - apply (handler_run lay t2 t3 k1 fr r SYS_REPLY_RECV tr cr ERR_OK k2); try done.
  - cbn. by apply arr_get_insert_eq.
  - done.
  - done.
  - done.
  - cbn. rewrite arr_get_insert_ne by lia. done.
  - cbn. by apply arr_get_insert_eq.
  - done.
Qed.

Lemma syscall_message_delivered_witness :
  exists k1 k2 tr',
    syscall_handler demo_layout 0 100 demo_kernel (Some demo_send) 0
      = Some (ERR_OK, k1, Some (demo_send <| a0 := 0 |>)) /\
    syscall_handler demo_layout 200 300 k1 (Some demo_recv) 1
      = Some (ERR_OK, k2, Some (demo_recv <| a0 := 0 |>)) /\
    (threads (g_tcbs k2)).[1] = Some tr' /\ msg_length (ipc_buffer tr') = 4.
Proof.
  destruct (syscall_message_delivered demo_layout demo_kernel 1 0 1 endpoint_zero (demo_thread 0) (demo_thread 1)
    (slot_at demo_root 11) (slot_at demo_root 11) demo_send demo_recv 0 100 200 300
    demo_layout_wf demo_kernel_ok ltac:(discriminate) ltac:(split; vm_compute; congruence)
    ltac:(vm_compute; reflexivity) ltac:(repeat split) (demo_may_enter 0 (or_introl eq_refl))
    (demo_may_enter 1 (or_intror eq_refl)) ltac:(vm_compute; reflexivity) ltac:(vm_compute; reflexivity)
    ltac:(vm_compute; reflexivity) ltac:(vm_compute; reflexivity) ltac:(vm_compute; reflexivity)
    ltac:(vm_compute; reflexivity) ltac:(vm_compute; reflexivity) ltac:(vm_compute; reflexivity))
    as (k1 & k2 & tr' & x2 & H1 & H2 & H3 & _ & H4 & _);
    [vm_compute; congruence|vm_compute; reflexivity|vm_compute; reflexivity|].
  exists k1, k2, tr'. split; [exact H1|]. split; [exact H2|]. split; [exact H3|exact H4].
Defined.

(** A call that overruns its time returns [ERR_WCET_EXCEEDED], yet its message has been
    queued; and, like every early return, the error does not reach the caller's
    [a0], which still holds the capability pointer. *)
Example syscall_overrun_keeps_effect :
  exists k' x, syscall_handler demo_layout 0 6000 demo_kernel (Some demo_send) 0
      = Some (ERR_WCET_EXCEEDED, k', Some demo_send) /\
    (g_endpoints k').[1] = Some x /\ q_len x = 1.
Proof. do 2 eexists. split; [vm_compute; reflexivity|]. split; vm_compute; reflexivity. Qed.

(** An unknown system call is refused, but a caller that passed 0 in [a0] reads 0, the
    code of [ERR_OK], from it. *)
Example syscall_refusal_hidden :
  syscall_handler demo_layout 0 100 demo_kernel (Some (demo_frame 99 0 0 0 0)) 0
    = Some (ERR_INVALID_ARG, demo_kernel, Some (demo_frame 99 0 0 0 0)) /\
  a0 (demo_frame 99 0 0 0 0) = kerror_code ERR_OK.
Proof. by split. Qed.

(** [SYS_SEND] copies as many capability pointers as the buffer announces into an array
    of three before anything checks the number. *)
Example syscall_send_overflows :
  let over := demo_kernel <| g_tcbs ::= fun t =>
    t <| threads ::= fun l => <[0%nat := (demo_thread 0) <| ipc_buffer ::= fun b => b <| msg_caps := 4 |> |>]> l |> |> in
  syscall_handler demo_layout 0 100 over (Some demo_send) 0 = None.
Proof. vm_compute. reflexivity. Qed.
