(* ===== verification/Process.v ===== *)
(** * process.h, process.c: creating and destroying processes

    [process_create] takes a free thread block, a stack frame of the partition's
    colour and a scheduling context, and records the frame in the derivation
    database; [process_destroy] undoes what it finds of this and removes the thread
    from the endpoints. *)

From S2P Require Import Prelude Types Cheri Cap CNode Tcb Endpoint Alloc Sched Mdb.

Record process_create_args_t := mk_process_args {
  pa_parent_cnode : Z;
  pa_untyped_cptr : Z;
  pa_partition_id : Z;
  pa_budget_us : Z;
  pa_period_us : Z;
  pa_priority : Z;
  pa_pc : Z;
  pa_sp_top : Z;
  pa_stack_size : Z
}.

(** [t->pc == 0 && t->sp == 0 && t->cspace == NULL]. *)
Definition tcb_is_free (t : tcb_t) : bool := (pc t =? 0) && (sp t =? 0) && (cspace t =? NULL).

(** The sealed registers of the new thread: 64 KiB of code around its entry, and its
    stack frame. *)
Definition initial_pcc (pc' : Z) : sim_cap_t :=
  let b := Z.land pc' (bnot 64 0xFFF) in
  sim_cap_zero <| hw_tag := true |> <| hw_base := b |> <| hw_top := u64 (b + 0x10000) |>
    <| hw_addr := pc' |>.
Definition initial_csp (stack_cap : cap_t) (stack_size sp_top : Z) : sim_cap_t :=
  let b := frame_paddr (u stack_cap) in
  sim_cap_zero <| hw_tag := true |> <| hw_base := b |> <| hw_top := u64 (b + stack_size) |>
    <| hw_addr := sp_top |>.

Definition initial_tcb (id' : Z) (args : process_create_args_t) (stack_cap : cap_t) : tcb_t :=
  tcb_zero <| id := id' |> <| time_partition := pa_partition_id args |>
    <| priority := pa_priority args |> <| pc := pa_pc args |> <| sp := pa_sp_top args |>
    <| pcc := initial_pcc (pa_pc args) |>
    <| csp := initial_csp stack_cap (pa_stack_size args) (pa_sp_top args) |>
    <| state := TCB_INACTIVE |>.

(** [sched->contexts[i].bound = false;] *)
Definition unbind (s : sched_state_t) (i : Z) : option sched_state_t :=
  c ← (contexts s).[i];
  l ← (contexts s).[i := c <| sc_bound := false |>];
  Some (s <| contexts := l |>).

(** The objects the two functions work on. *)
Record proc_env := mk_proc_env {
  pe_tcbs : tcb_table_t;
  pe_alloc : frame_alloc_t;
  pe_sched : sched_state_t;
  pe_mdb : mdb_tree_t
}.
#[export] Instance proc_env_eta : Eta proc_env := fun e =>
  mk_proc_env (pe_tcbs e) (pe_alloc e) (pe_sched e) (pe_mdb e).

Definition set_thread (env : proc_env) (i : Z) (t : tcb_t) : option proc_env :=
  l ← (threads (pe_tcbs env)).[i := t];
  Some (env <| pe_tcbs ::= fun ts => ts <| threads := l |> |>).

(** The second half of [process_create]: a scheduling context, the admission test and
    the entry in the database, each failure clearing the thread block again. *)
Definition bind_process (v1 : proc_env) (a : process_create_args_t) (id' : Z) (stack_cap : cap_t)
    (out_tcb_id : option Z) : option (kerror_t * option proc_env * option Z) :=
  let tcb := initial_tcb id' a stack_cap in
  match find_idx (fun c => negb (sc_bound c)) (contexts (pe_sched v1)) with
  | None => v2 ← set_thread v1 id' tcb_zero; Some (ERR_NO_MEM, Some v2, out_tcb_id)
  | Some i =>
      '(e, s) ← sched_context_bind (Some (pe_sched v1)) i id' (pa_partition_id a)
                  (pa_budget_us a) (pa_period_us a) (pa_priority a);
      s ← s;
      let v2 := v1 <| pe_sched := s |> in
      if negb (is_ok e) then
        v3 ← set_thread v2 id' tcb_zero; Some (e, Some v3, out_tcb_id)
      else
        v3 ← set_thread v2 id' (tcb <| sched_context := i |>);
        ok ← sched_is_schedulable (pe_sched v3);
        if negb ok then
          s' ← unbind (pe_sched v3) i;
          v4 ← set_thread (v3 <| pe_sched := s' |>) id' tcb_zero;
          Some (ERR_INVALID_ARG, Some v4, out_tcb_id)
        else
          '(_, m, _) ← mdb_insert (Some (pe_mdb v3)) 0xFFFF id' stack_cap (Some 0);
          m ← m;
          Some (ERR_OK,
                Some (v3 <| pe_mdb := m |>
                         <| pe_tcbs ::= fun ts => ts <| count ::= fun n => u32 (n + 1) |> |>),
                Some id')
  end.

(** [env] is [None] when one of the four pointers is null. *)
Definition process_create (env : option proc_env) (args : option process_create_args_t)
    (out_tcb_id : option Z) : option (kerror_t * option proc_env * option Z) :=
  match env, args, out_tcb_id with
  | Some v, Some a, Some _ =>
      retif MAX_PARTITIONS <=? pa_partition_id a with Some (ERR_INVALID_ARG, env, out_tcb_id);;
      retif (pa_period_us a <? pa_budget_us a) || (pa_budget_us a =? 0)
        with Some (ERR_INVALID_ARG, env, out_tcb_id);;
      match find_idx tcb_is_free (threads (pe_tcbs v)) with
      | None => Some (ERR_NO_MEM, env, out_tcb_id)
      | Some id' =>
          '(e, al, sc) ← alloc_frame (Some (pe_alloc v)) (pa_partition_id a) (pa_stack_size a) (Some cap_zero);
          al ← al;
          stack_cap ← sc;
          let v0 := v <| pe_alloc := al |> in
          retif negb (is_ok e) with Some (e, Some v0, out_tcb_id);;
          let tcb := initial_tcb id' a stack_cap in
          v1 ← set_thread v0 id' tcb;
          bind_process v1 a id' stack_cap out_tcb_id
      end
  | _, _, _ => Some (ERR_INVALID_ARG, env, out_tcb_id)
  end.

(** ** Removing a thread from an endpoint *)

(** [(ep->q_head + k) % 16]. *)
Definition ring_pos (e : endpoint_t) (k : Z) : Z := (q_head e + k) mod 16.

(** The shift: [n] rounds from [k] on. *)
Fixpoint shift_queue (n : nat) (e : endpoint_t) (k : Z) : option endpoint_t :=
  match n with
  | O => Some e
  | S n' =>
      s ← (queue e).[ring_pos e (k + 1)];
      q ← (queue e).[ring_pos e k := s];
      m ← (queue_msgs e).[ring_pos e (k + 1)];
      qm ← (queue_msgs e).[ring_pos e k := m];
      shift_queue n' (e <| queue := q |> <| queue_msgs := qm |>) (k + 1)
  end.

(** [for (q = 0; q < ep->q_len;)]: each round drops an entry or moves on. *)
Fixpoint purge_queue (fuel : nat) (e : endpoint_t) (tcb_id q : Z) : option endpoint_t :=
  if q <? q_len e then
    match fuel with
    | O => None
    | S fuel' =>
        sender ← (queue e).[ring_pos e q];
        if sender =? tcb_id then
          e1 ← shift_queue (Z.to_nat (q_len e - 1 - q)) e q;
          let e2 := e1 <| q_len := u8 (q_len e1 - 1) |> in
          let e3 := e2 <| q_tail := u8 ((q_head e2 + q_len e2) mod 16) |> in
          let e4 := if q_len e3 =? 0 then e3 <| pending := false |> else e3 in
          purge_queue fuel' e4 tcb_id q
        else purge_queue fuel' e tcb_id (q + 1)
    end
  else Some e.

Definition cleanup_endpoint (tcb_id : Z) (e : endpoint_t) : option endpoint_t :=
  let e1 := if has_receiver e && (receiver_tcb e =? tcb_id)
            then e <| has_receiver := false |> <| pending := false |> <| receiver_tcb := 0xFFFFFFFF |>
            else e in
  purge_queue 16 e1 tcb_id 0.

Definition endpoint_cleanup_for_tcb (eps : list endpoint_t) (tcb_id : Z) : option (list endpoint_t) :=
  mapM (cleanup_endpoint tcb_id) eps.

(** [if (slots[i].is_valid) memset(&slots[i], 0, sizeof(cap_t))] over the node. *)
Definition clear_cnode (cn : cnode_t) : cnode_t :=
  cn <| slots ::= map (fun c => if is_valid c then cap_zero else c) |> <| used := 0 |>.

(** [env] is [None] when one of the pointers is null; the allocator is not used. *)
Definition process_destroy (h : cnodes) (eps : list endpoint_t) (env : option proc_env) (tcb_id : Z)
    : option (kerror_t * cnodes * list endpoint_t * option proc_env) :=
  match env with
  | None => Some (ERR_INVALID_ARG, h, eps, env)
  | Some v =>
      retif MAX_TCBS <=? tcb_id with Some (ERR_INVALID_ARG, h, eps, env);;
      t ← (threads (pe_tcbs v)).[tcb_id];
      retif tcb_is_free t with Some (ERR_INVALID_ARG, h, eps, env);;
      eps' ← endpoint_cleanup_for_tcb eps tcb_id;
      h' ← (if negb (cspace t =? NULL) then
              cn ← h !! cspace t; Some (<[cspace t := clear_cnode cn]> h)
            else Some h);
      let idx := mdb_lookup (pe_mdb v) 0 tcb_id in
      m ← (if negb (idx =? 0xFFFF) then
             '(_, m1) ← mdb_revoke (Some (pe_mdb v)) idx;
             m1 ← m1;
             '(_, m2) ← mdb_delete (Some m1) idx;
             m2
           else Some (pe_mdb v));
      s ← (if sched_context t <? MAX_SCHED_CONTEXTS then unbind (pe_sched v) (sched_context t)
           else Some (pe_sched v));
      v1 ← set_thread (v <| pe_mdb := m |> <| pe_sched := s |>) tcb_id tcb_zero;
      Some (ERR_OK, h', eps',
            Some (v1 <| pe_tcbs ::= fun ts => ts <| count ::= fun n => u32 (n - 1) |> |>))
  end.

(** ** Lemmas on the queue *)

(** The arrays of the ring have their sizes. *)
Definition ring_ok (e : endpoint_t) : Prop :=
  length (queue e) = 16%nat /\ length (queue_msgs e) = 16%nat /\ 0 <= q_head e < 16.

Lemma ring_pos_range e k : 0 <= ring_pos e k < 16.
Proof. unfold ring_pos. apply Z.mod_pos_bound. lia. Qed.

Lemma ring_pos_inj e j k : 0 <= q_head e < 16 -> 0 <= j < 16 -> 0 <= k < 16 ->
  ring_pos e j = ring_pos e k -> j = k.
Proof. unfold ring_pos. intros. zmod. Qed.

Lemma ring_get e (k : nat) : ring_ok e ->
  (queue e).[ring_pos e (Z.of_nat k)] = Some (ring_entry e k).1 /\
  (queue_msgs e).[ring_pos e (Z.of_nat k)] = Some (ring_entry e k).2.
Proof.
  intros (Hq & Hm & _). pose proof (ring_pos_range e (Z.of_nat k)) as Hr.
  unfold ring_entry. cbn zeta. fold (ring_pos e (Z.of_nat k)).
  destruct (arr_get_is_Some (queue e) (ring_pos e (Z.of_nat k))) as [s Hs]; [lia|].
  destruct (arr_get_is_Some (queue_msgs e) (ring_pos e (Z.of_nat k))) as [m Hms]; [lia|].
  by rewrite Hs, Hms.
Qed.

(** What the shift keeps. *)
Definition same_ring_ctl (e e' : endpoint_t) : Prop :=
  q_head e' = q_head e /\ q_len e' = q_len e /\ q_tail e' = q_tail e /\ pending e' = pending e /\
  pending_msg e' = pending_msg e /\ has_receiver e' = has_receiver e /\ receiver_tcb e' = receiver_tcb e.

Lemma shift_queue_spec n : forall e k, ring_ok e -> (k + n < 16)%nat ->
  exists e', shift_queue n e (Z.of_nat k) = Some e' /\ ring_ok e' /\ same_ring_ctl e e' /\
    forall j, (j < 16)%nat ->
      ring_entry e' j = if decide (k <= j < k + n)%nat then ring_entry e (S j) else ring_entry e j.
Proof.
  induction n as [|n IH]; intros e k Hok Hk; cbn [shift_queue].
  { exists e. split_and!; try done; try apply Hok. intros j Hj. by destruct (decide _); [lia|]. }
  replace (Z.of_nat k + 1) with (Z.of_nat (S k)) by lia.
  destruct (ring_get e (S k) Hok) as [-> ->]. pose proof Hok as (Hq & Hm & Hh).
  pose proof (ring_pos_range e (Z.of_nat k)) as Hr.
  cbn [mbind option_bind]. rewrite arr_set_in by lia. cbn [mbind option_bind].
  rewrite arr_set_in by lia. cbn [mbind option_bind].
  set (e1 := e <| queue := _ |> <| queue_msgs := _ |>).
  assert (forall j, (j < 16)%nat -> ring_entry e1 j = if decide (j = k) then ring_entry e (S k) else ring_entry e j) as He1.
  { intros j Hj. unfold ring_entry at 1. cbn zeta. fold (ring_pos e1 (Z.of_nat j)).
    change (ring_pos e1 (Z.of_nat j)) with (ring_pos e (Z.of_nat j)). cbn [queue queue_msgs modify_field e1].
    rewrite !arr_get_insert by lia. destruct (decide (j = k)) as [->|Hne].
    - rewrite Z.eqb_refl. by destruct (ring_entry e (S k)).
    - rewrite (proj2 (Z.eqb_neq _ _)); [done|]. intros E. apply ring_pos_inj in E; lia. }
  destruct (IH e1 (S k)) as (e' & Hrun & Hok' & Hctl & Hent).
  { split_and!; cbn; rewrite ?length_insert; done || lia. }
  { lia. }
  exists e'. split; [exact Hrun|]. split; [exact Hok'|]. split; [exact Hctl|]. intros j Hj.
  rewrite Hent by done. repeat destruct (decide _); try lia; rewrite He1 by lia;
    destruct (decide _); subst; try lia; done.
Qed.

(** Dropping entry [q] of the ring. *)
Lemma ring_delete e e' (q : nat) : ring_ok e -> 0 <= q_len e <= 16 -> Z.of_nat q < q_len e ->
  q_len e' = q_len e - 1 ->
  (forall j, (j < 16)%nat -> ring_entry e' j =
     if decide (q <= j < Z.to_nat (q_len e) - 1)%nat then ring_entry e (S j) else ring_entry e j) ->
  ring_list e' = delete q (ring_list e).
Proof.
  intros Hok Hl Hq El Hent. apply list_eq. intros j. unfold ring_list.
  assert (forall f n (i : nat), (map f (seq 0 n) : list (Z * ipc_msg_t)) !! i =
    if decide (i < n)%nat then Some (f i) else None) as Hmap.
  { intros f n i. rewrite list_lookup_fmap. destruct (decide (i < n)%nat).
    - by rewrite lookup_seq_lt.
    - rewrite lookup_seq_ge by lia. done. }
  rewrite Hmap, El. destruct (decide (j < q)%nat) as [Hjq|Hjq].
  - rewrite list_lookup_delete_lt, Hmap by done.
    rewrite !decide_True by lia. rewrite Hent by lia. by rewrite decide_False by lia.
  - rewrite list_lookup_delete_ge, Hmap by lia.
    destruct (decide (j < Z.to_nat (q_len e - 1))%nat).
    + rewrite decide_True, Hent, decide_True by lia. done.
    + by rewrite decide_False by lia.
Qed.

Lemma wf_ring_ok e : endpoint_wf e -> ring_ok e.
Proof. intros Hwf. unfold ring_ok. split_and!; apply Hwf. Qed.

(** An entry of another sender. *)
Definition not_from (tcb_id : Z) (p : Z * ipc_msg_t) : bool := negb (p.1 =? tcb_id).

Lemma filter_delete tcb_id (l : list (Z * ipc_msg_t)) (q : nat) p : l !! q = Some p -> not_from tcb_id p = false ->
  List.filter (not_from tcb_id) (delete q l) = List.filter (not_from tcb_id) l.
Proof.
  intros Hq Hp. rewrite <- (take_drop_middle l q p Hq) at 2. rewrite delete_take_drop.
  rewrite !List.filter_app. cbn. by rewrite Hp.
Qed.

Lemma filter_all_true tcb_id (l : list (Z * ipc_msg_t)) :
  (forall j p, l !! j = Some p -> not_from tcb_id p = true) -> List.filter (not_from tcb_id) l = l.
Proof.
  induction l as [|p l IH]; intros H; [done|]. cbn. rewrite (H 0%nat p eq_refl). f_equal. apply IH.
  intros j. apply (H (S j)).
Qed.

(** One entry dropped: the bookkeeping of [purge_queue]. *)
Definition drop_entry (e1 : endpoint_t) : endpoint_t :=
  let e2 := e1 <| q_len := u8 (q_len e1 - 1) |> in
  let e3 := e2 <| q_tail := u8 ((q_head e2 + q_len e2) mod 16) |> in
  if q_len e3 =? 0 then e3 <| pending := false |> else e3.

Lemma drop_entry_spec e (q : nat) : endpoint_wf e -> Z.of_nat q < q_len e ->
  exists e1, shift_queue (Z.to_nat (q_len e - 1 - Z.of_nat q)) e (Z.of_nat q) = Some e1 /\
    endpoint_wf (drop_entry e1) /\ ring_list (drop_entry e1) = delete q (ring_list e) /\
    q_len (drop_entry e1) = q_len e - 1 /\ has_receiver (drop_entry e1) = has_receiver e /\
    receiver_tcb (drop_entry e1) = receiver_tcb e /\
    (q_len (drop_entry e1) = 0 -> pending (drop_entry e1) = false).
Proof.
  intros Hwf Hq. pose proof (wf_ring_ok e Hwf) as Hok. pose proof (ew_len e Hwf) as Hl.
  destruct (shift_queue_spec (Z.to_nat (q_len e - 1 - Z.of_nat q)) e q Hok ltac:(lia))
    as (e1 & Hs & (Hq1 & Hm1 & Hh1) & (Eh & El & _ & Ep & Epm & Er & Ert) & Hent).
  exists e1. split; [done|].
  assert (q_len (drop_entry e1) = q_len e - 1) as El'.
  { unfold drop_entry. cbn. rewrite El. destruct (_ =? 0); cbn; apply u8_small; unfold fits; lia. }
  assert (forall j, ring_entry (drop_entry e1) j = ring_entry e1 j) as Hsame
    by (intros j; unfold drop_entry; cbn; by destruct (_ =? 0)).
  assert (ring_list (drop_entry e1) = delete q (ring_list e)) as Hring.
  { apply ring_delete; [done|lia|done|done|]. intros j Hj. rewrite Hsame, Hent by done.
    repeat destruct (decide _); done || lia. }
  assert (has_receiver e = false) as Hnr.
  { destruct (has_receiver e) eqn:E; [|done]. destruct (ew_recv e Hwf E). lia. }
  assert (has_receiver (drop_entry e1) = false) as Hnr'
    by (unfold drop_entry; cbn; destruct (_ =? 0); cbn; congruence).
  split; [|split_and!; try done; try (unfold drop_entry; cbn; destruct (_ =? 0); cbn; congruence)].
  2: { unfold drop_entry. cbn. destruct (Z.eqb_spec (u8 (q_len e1 - 1)) 0); cbn; [done|]. lia. }
  pose proof (ew_pending e Hwf) as Hpb. pose proof (ew_queued e Hwf) as Hqd.
  assert (q_head (drop_entry e1) = q_head e) as Eh'
    by (unfold drop_entry; cbn; destruct (_ =? 0); cbn; congruence).
  constructor; try (unfold drop_entry; cbn; destruct (_ =? 0); cbn; congruence).
  - lia.
  - rewrite El', Eh'. unfold drop_entry. cbn. rewrite El, Eh, (u8_small (q_len e - 1)) by (unfold fits; lia).
    destruct (_ =? 0); cbn; rewrite u8_small by (unfold fits; zmod); congruence.
  - rewrite Hring. by apply Forall_delete, ew_entries.
  - intros Hp. unfold drop_entry in *. cbn in *. destruct (_ =? 0); cbn in *; [done|].
    rewrite Epm. apply Hpb. congruence.
  - intros Hpos. rewrite El' in Hpos. unfold drop_entry. cbn.
    rewrite El, (u8_small (q_len e - 1)) by (unfold fits; lia).
    destruct (Z.eqb_spec (q_len e - 1) 0); [lia|]. cbn. rewrite Ep. apply Hqd. lia.
  - unfold drop_entry. cbn. destruct (_ =? 0); cbn; rewrite Ert; apply Hwf.
Qed.

Lemma purge_queue_spec tcb_id fuel : forall e (q : nat), endpoint_wf e -> Z.of_nat q <= q_len e ->
  q_len e - Z.of_nat q <= Z.of_nat fuel ->
  (forall j p, (j < q)%nat -> ring_list e !! j = Some p -> not_from tcb_id p = true) ->
  exists e', purge_queue fuel e tcb_id (Z.of_nat q) = Some e' /\ endpoint_wf e' /\
    ring_list e' = List.filter (not_from tcb_id) (ring_list e) /\
    has_receiver e' = has_receiver e /\ receiver_tcb e' = receiver_tcb e /\ (q_len e = 0 -> e' = e) /\
    (q_len e <> 0 -> q_len e' = 0 -> pending e' = false).
Proof.
  induction fuel as [|fuel IH]; intros e q Hwf Hq Hf Hbefore.
  - exists e. cbn [purge_queue]. destruct (Z.ltb_spec (Z.of_nat q) (q_len e)); [lia|].
    split_and!; try done. symmetry. apply filter_all_true. intros j p Hj.
    apply (Hbefore j); [|done]. apply lookup_lt_Some in Hj. rewrite ring_list_length in Hj by done. lia.
  - cbn [purge_queue]. destruct (Z.ltb_spec (Z.of_nat q) (q_len e)) as [Hlt|Hge].
    2: { exists e. split_and!; try done. symmetry. apply filter_all_true. intros j p Hj.
         apply (Hbefore j); [|done]. apply lookup_lt_Some in Hj. rewrite ring_list_length in Hj by done. lia. }
    destruct (ring_get e q (wf_ring_ok e Hwf)) as [Hg _]. rewrite Hg. cbn [mbind option_bind].
    assert (ring_list e !! q = Some (ring_entry e q)) as Hlook.
    { unfold ring_list. rewrite list_lookup_fmap, lookup_seq_lt by lia. done. }
    destruct (Z.eqb_spec (ring_entry e q).1 tcb_id) as [Es|Es].
    + destruct (drop_entry_spec e q Hwf Hlt) as (e1 & Hs & Hw & Hr & Hl & Hhr & Hrt & Hp0).
      rewrite Hs. cbn [mbind option_bind]. fold (drop_entry e1).
      destruct (IH (drop_entry e1) q Hw) as (e' & Hrun & Hw' & Hr' & Hhr' & Hrt' & Hz' & Hp'); [lia|lia| |].
      { intros j p Hj Hp. rewrite Hr, list_lookup_delete_lt in Hp by done. by apply (Hbefore j). }
      exists e'. split; [exact Hrun|]. split; [done|]. split_and!; try congruence; try lia.
      2: { intros _ Hz0. destruct (decide (q_len (drop_entry e1) = 0)) as [E|E]; [|by apply Hp'].
           rewrite (Hz' E). by apply Hp0. }
      rewrite Hr', Hr. eapply filter_delete; [exact Hlook|]. unfold not_from. by rewrite Es, Z.eqb_refl.
    + replace (Z.of_nat q + 1) with (Z.of_nat (S q)) by lia. apply IH; [done|lia|lia|].
      intros j p Hj Hp. destruct (decide (j = q)) as [->|]; [|apply (Hbefore j); [lia|done]].
      rewrite Hlook in Hp. injection Hp as <-. unfold not_from. by rewrite (proj2 (Z.eqb_neq _ _) Es).
Qed.

Lemma purge_queue_end fuel e tcb_id q : q_len e <= q -> purge_queue fuel e tcb_id q = Some e.
Proof. intros H. destruct fuel; cbn [purge_queue]; by rewrite (proj2 (Z.ltb_ge _ _) H). Qed.

(** The abstract endpoint without a thread. *)
Definition spec_cleanup (tcb_id : Z) (a : ep_spec) : ep_spec :=
  mk_ep_spec (List.filter (not_from tcb_id) (sp_queue a)) (sp_handoff a)
    (if decide (sp_waiting a = Some tcb_id) then None else sp_waiting a).

Lemma cleanup_refines tcb_id e : endpoint_wf e ->
  exists e', cleanup_endpoint tcb_id e = Some e' /\ endpoint_wf e' /\
    ep_abs e' = spec_cleanup tcb_id (ep_abs e).
Proof.
  intros Hwf. unfold cleanup_endpoint.
  destruct (has_receiver e && (receiver_tcb e =? tcb_id)) eqn:Er.
  - bools. destruct (ew_recv e Hwf H) as [Hl Hp].
    set (e1 := e <| has_receiver := false |> <| pending := false |> <| receiver_tcb := 0xFFFFFFFF |>).
    assert (endpoint_wf e1) as Hwf1 by (destruct Hwf; constructor; cbn; done || lia).
    exists e1. split; [apply purge_queue_end; cbn; lia|]. split; [done|]. unfold spec_cleanup, ep_abs.
    assert (ring_list e1 = []) as -> by (unfold ring_list; cbn; by rewrite Hl).
    assert (ring_list e = []) as -> by (unfold ring_list; by rewrite Hl).
    cbn. rewrite Hl, Hp, H, H0. by destruct (decide _).
  - destruct (purge_queue_spec tcb_id 16 e 0 Hwf) as (e' & Hrun & Hw' & Hr' & Hh & Ht & Hz & Hp);
      [pose proof (ew_len e Hwf); lia..|intros; lia|].
    exists e'. split; [exact Hrun|]. split; [done|]. unfold spec_cleanup, ep_abs. cbn [sp_queue sp_handoff sp_waiting].
    rewrite Hr', Hh, Ht. f_equal.
    + destruct (Z.eqb_spec (q_len e) 0) as [E|E]; [by rewrite (Hz E), E|]. cbn [andb].
      destruct (Z.eqb_spec (q_len e') 0) as [E'|E']; [|done]. by rewrite (Hp E E').
    + destruct (has_receiver e) eqn:E; [|by destruct (decide _)]. cbn in Er. bools.
      destruct (decide _) as [Ed|]; [|done]. congruence.
Qed.

(** ** Creation *)

Record proc_wf (v : proc_env) : Prop := {
  pw_tcbs : tcbs_wf (pe_tcbs v);
  pw_alloc : alloc_wf (pe_alloc v);
  pw_sched : sched_wf (pe_sched v);
  pw_mdb : mdb_inv (pe_mdb v)
}.

(** The C types of the arguments, and a stack whose end is an address. *)
Definition args_ok (v : proc_env) (a : process_create_args_t) : Prop :=
  0 <= pa_partition_id a /\ fits 64 (pa_budget_us a) /\ fits 64 (pa_period_us a) /\
  0 <= pa_priority a < 256 /\ size_ok (pe_alloc v) (pa_stack_size a).

Lemma set_thread_get v i t v' : set_thread v i t = Some v' ->
  pe_alloc v' = pe_alloc v /\ pe_sched v' = pe_sched v /\ pe_mdb v' = pe_mdb v /\
  count (pe_tcbs v') = count (pe_tcbs v) /\ length (threads (pe_tcbs v')) = length (threads (pe_tcbs v)) /\
  forall j, (threads (pe_tcbs v')).[j] = if j =? i then Some t else (threads (pe_tcbs v)).[j].
Proof.
  unfold set_thread. intros H. peel H. injection H as <-. split_and!; try done.
  - cbn. by erewrite arr_set_length.
  - intros j. by apply arr_get_set.
Qed.

Lemma set_thread_defined v i t : tcbs_wf (pe_tcbs v) -> 0 <= i < MAX_TCBS -> is_Some (set_thread v i t).
Proof.
  intros Hwf Hi. unfold set_thread. rewrite arr_set_in by (rewrite Hwf; unfold MAX_TCBS in *; lia). by eexists.
Qed.

Lemma unbind_spec s i : sched_wf s -> 0 <= i < MAX_SCHED_CONTEXTS ->
  exists c s', (contexts s).[i] = Some c /\ unbind s i = Some s' /\ sched_wf s' /\
    s' = s <| contexts := <[Z.to_nat i := c <| sc_bound := false |>]> (contexts s) |>.
Proof.
  intros Hwf Hi. assert (0 <= i < Z.of_nat (length (contexts s))) as Hr
    by (rewrite (sw_contexts _ Hwf); unfold MAX_SCHED_CONTEXTS in *; lia).
  destruct (arr_get_is_Some (contexts s) i Hr) as [c Hc]. exists c. unfold unbind. rewrite Hc.
  cbn [mbind option_bind]. rewrite arr_set_in by done. cbn [mbind option_bind]. eexists.
  split; [done|]. split; [reflexivity|]. split; [|done].
  constructor; cbn; try apply Hwf; [rewrite length_insert; apply Hwf|].
  intros j d Hd Hb. rewrite arr_get_insert in Hd by done. destruct (j =? i); [by injection Hd as <-|].
  by apply (sw_bound _ Hwf j).
Qed.

(** Which contexts are in use. *)
Definition same_bound (s s' : sched_state_t) : Prop :=
  map sc_bound (contexts s') = map sc_bound (contexts s).

(** The allocator has at most handed out frames. *)
Definition alloc_moved (a a' : frame_alloc_t) : Prop :=
  al_base a' = al_base a /\ al_top a' = al_top a /\ al_next a <= al_next a'.

(** Nothing of a process is left when its creation fails: at most a free thread block
    has been cleared. *)
Record not_created (v v' : proc_env) : Prop := {
  nc_mdb : pe_mdb v' = pe_mdb v;
  nc_count : count (pe_tcbs v') = count (pe_tcbs v);
  nc_threads : forall j t, (threads (pe_tcbs v)).[j] = Some t ->
    (threads (pe_tcbs v')).[j] = Some t \/
    (tcb_is_free t = true /\ (threads (pe_tcbs v')).[j] = Some tcb_zero);
  nc_contexts : same_bound (pe_sched v) (pe_sched v');
  nc_frontier : alloc_moved (pe_alloc v) (pe_alloc v')
}.

(** What a successful creation has done. *)
Record created (v : proc_env) (a : process_create_args_t) (v' : proc_env) (id' : Z) : Prop := {
  cr_free : find_idx tcb_is_free (threads (pe_tcbs v)) = Some id';
  cr_others : forall j, j <> id' -> (threads (pe_tcbs v')).[j] = (threads (pe_tcbs v)).[j];
  cr_count : count (pe_tcbs v') = u32 (count (pe_tcbs v) + 1);
  cr_frontier : alloc_moved (pe_alloc v) (pe_alloc v');
  cr_live : forall i, live (mdb_nodes (pe_mdb v)) i -> live (mdb_nodes (pe_mdb v')) i;
  cr_sched : sched_is_schedulable (pe_sched v') = Some true;
  cr_thread : exists i c stack,
    (threads (pe_tcbs v')).[id'] = Some ((initial_tcb id' a stack) <| sched_context := i |>) /\
    Alloc.frame_ok (al_next (pe_alloc v)) (al_next (pe_alloc v')) (pa_partition_id a, stack) /\
    hw_top (hw_cap stack) = hw_base (hw_cap stack) + pa_stack_size a /\
    find_idx (fun c => negb (sc_bound c)) (contexts (pe_sched v)) = Some i /\
    (contexts (pe_sched v)).[i] = Some c /\
    pe_sched v' = (pe_sched v) <| contexts := <[Z.to_nat i := bound_context c id' (pa_partition_id a)
      (pa_budget_us a) (pa_period_us a) (pa_priority a)]> (contexts (pe_sched v)) |> /\
    (count_if mn_valid (mdb_nodes (pe_mdb v)) < MAX_MDB_NODES ->
       exists idx n, ~ live (mdb_nodes (pe_mdb v)) idx /\ (mdb_nodes (pe_mdb v')).[idx] = Some n /\
         mn_cap n = stack /\ mn_cptr n = id')
}.

Lemma same_bound_insert s i c d : (contexts s).[i] = Some c -> sc_bound d = sc_bound c ->
  same_bound s (s <| contexts := <[Z.to_nat i := d]> (contexts s) |>).
Proof.
  intros Hc Hd. unfold same_bound. cbn. apply arr_get_Some in Hc as [_ Hc].
  change (map sc_bound) with (fmap (M:=list) sc_bound). rewrite list_fmap_insert. apply list_insert_id. rewrite list_lookup_fmap, Hc. cbn. by rewrite Hd.
Qed.

Lemma frame_ok_top lo hi hi' p c : Alloc.frame_ok lo hi (p, c) -> hw_top (hw_cap c) <= hi' ->
  Alloc.frame_ok lo hi' (p, c).
Proof. unfold Alloc.frame_ok. intuition. Qed.

(** Any of the exits taken after the thread block was filled: it is cleared again. *)
Lemma scrub_thread v0 v v' id' : (threads (pe_tcbs v0)).[id'] = Some v -> tcb_is_free v = true ->
  (forall j, (threads (pe_tcbs v')).[j] = if j =? id' then Some tcb_zero else (threads (pe_tcbs v0)).[j]) ->
  forall j t, (threads (pe_tcbs v0)).[j] = Some t ->
    (threads (pe_tcbs v')).[j] = Some t \/
    (tcb_is_free t = true /\ (threads (pe_tcbs v')).[j] = Some tcb_zero).
Proof.
  intros Hv Hf Hget j t Ht. rewrite Hget. destruct (Z.eqb_spec j id') as [->|]; [right|by left].
  split; [congruence|done].
Qed.

Lemma not_created_refl v : not_created v v.
Proof. constructor; try done. by left. Qed.

Lemma first_unbound s i : find_idx (fun c => negb (sc_bound c)) (contexts s) = Some i ->
  exists c, (contexts s).[i] = Some c /\ sc_bound c = false.
Proof. intros [(c & Hc & Hb) _]%find_idx_Some. exists c. split; [done|]. by bools. Qed.

(** The outcome of the second half, from the state [v1] with the thread block filled. *)
Record bind_failed (v1 v' : proc_env) (id' : Z) : Prop := {
  bf_mdb : pe_mdb v' = pe_mdb v1;
  bf_count : count (pe_tcbs v') = count (pe_tcbs v1);
  bf_threads : forall j, (threads (pe_tcbs v')).[j] =
    if j =? id' then Some tcb_zero else (threads (pe_tcbs v1)).[j];
  bf_bound : same_bound (pe_sched v1) (pe_sched v')
}.

Record bind_done (v1 : proc_env) (a : process_create_args_t) (id' : Z) (stack : cap_t) (v' : proc_env) : Prop := {
  bd_count : count (pe_tcbs v') = u32 (count (pe_tcbs v1) + 1);
  bd_sched : sched_is_schedulable (pe_sched v') = Some true;
  bd_context : exists i c,
    (forall j, (threads (pe_tcbs v')).[j] = if j =? id' then Some ((initial_tcb id' a stack) <| sched_context := i |>)
       else (threads (pe_tcbs v1)).[j]) /\
    find_idx (fun c => negb (sc_bound c)) (contexts (pe_sched v1)) = Some i /\
    (contexts (pe_sched v1)).[i] = Some c /\
    pe_sched v' = (pe_sched v1) <| contexts := <[Z.to_nat i := bound_context c id' (pa_partition_id a)
      (pa_budget_us a) (pa_period_us a) (pa_priority a)]> (contexts (pe_sched v1)) |>;
  bd_live : forall i, live (mdb_nodes (pe_mdb v1)) i -> live (mdb_nodes (pe_mdb v')) i;
  bd_mdb : count_if mn_valid (mdb_nodes (pe_mdb v1)) < MAX_MDB_NODES ->
    exists idx n, ~ live (mdb_nodes (pe_mdb v1)) idx /\ (mdb_nodes (pe_mdb v')).[idx] = Some n /\
      mn_cap n = stack /\ mn_cptr n = id'
}.

Lemma tcbs_wf_len t t' : length (threads t') = length (threads t) -> tcbs_wf t -> tcbs_wf t'.
Proof. unfold tcbs_wf. congruence. Qed.

(** A failing exit: the contexts in use are those of [v1] again and the thread block is
    cleared. *)
Lemma clear_failed v1 v2 id' : proc_wf v1 -> tcbs_wf (pe_tcbs v2) -> sched_wf (pe_sched v2) -> 0 <= id' < MAX_TCBS ->
  pe_alloc v2 = pe_alloc v1 -> pe_mdb v2 = pe_mdb v1 -> count (pe_tcbs v2) = count (pe_tcbs v1) ->
  same_bound (pe_sched v1) (pe_sched v2) ->
  (forall j, j <> id' -> (threads (pe_tcbs v2)).[j] = (threads (pe_tcbs v1)).[j]) ->
  exists v', set_thread v2 id' tcb_zero = Some v' /\ proc_wf v' /\ pe_alloc v' = pe_alloc v1 /\ bind_failed v1 v' id'.
Proof.
  intros [_ Ha _ Hm] Ht Hs Hid E1 E3 E4 Hb Hth.
  destruct (set_thread_defined v2 id' tcb_zero Ht Hid) as [v' Hv'].
  destruct (set_thread_get _ _ _ _ Hv') as (F1 & F2 & F3 & F4 & F5 & F6). exists v'. split; [done|]. split_and!.
  - constructor; rewrite ?F1, ?F2, ?F3, ?E1, ?E3; try done. by eapply tcbs_wf_len.
  - by rewrite F1.
  - constructor; rewrite ?F2, ?F3, ?F4; try done. intros j. rewrite F6.
    destruct (Z.eqb_spec j id'); [done|]. by apply Hth.
Qed.

(** Releasing the context that was just bound. *)
Lemma unbound_same s s1 s2 i c d cu : (contexts s).[i] = Some c -> sc_bound c = false ->
  s1 = s <| contexts := <[Z.to_nat i := d]> (contexts s) |> -> (contexts s1).[i] = Some cu ->
  s2 = s1 <| contexts := <[Z.to_nat i := cu <| sc_bound := false |>]> (contexts s1) |> -> same_bound s s2.
Proof.
  intros Hc Hcb -> Hcu ->. apply arr_get_Some in Hc as Hr. destruct Hr as [Hr _]. cbn in Hcu.
  rewrite arr_get_insert_eq in Hcu by done. injection Hcu as <-.
  unfold same_bound. cbn. rewrite list_insert_insert_eq.
  exact (same_bound_insert s i c (d <| sc_bound := false |>) Hc (eq_sym Hcb)).
Qed.

Lemma bind_process_spec v1 a id' stack out : proc_wf v1 -> args_ok v1 a -> 0 <= id' < MAX_TCBS ->
  exists e v', bind_process v1 a id' stack (Some out) = Some (e, Some v', Some (if is_ok e then id' else out)) /\
    proc_wf v' /\ pe_alloc v' = pe_alloc v1 /\
    ((e <> ERR_OK /\ bind_failed v1 v' id') \/ (e = ERR_OK /\ bind_done v1 a id' stack v')).
Proof.
  intros Hwf1 (Hpart & Hb & Hp & Hpr & _) Hid. pose proof Hwf1 as [Ht Ha Hs Hm]. unfold bind_process.
  destruct (find_idx _ (contexts (pe_sched v1))) as [i|] eqn:Ei.
  2: { destruct (clear_failed v1 v1 id') as (v' & -> & Hwf & Hal & Hf); try done. exists ERR_NO_MEM, v'. do 3 (split; [done|]). left. by split. }
  destruct (first_unbound _ _ Ei) as (c & Hc & Hcb).
  assert (0 <= i < MAX_SCHED_CONTEXTS) as Hi.
  { apply arr_get_Some in Hc as [Hr _]. rewrite (sw_contexts _ Hs) in Hr. unfold MAX_SCHED_CONTEXTS in *. lia. }
  destruct (sched_context_bind_cases (pe_sched v1) i id' (pa_partition_id a) (pa_budget_us a) (pa_period_us a)
    (pa_priority a) Hs) as (e & s & Hbind & Hs' & Hcase); [by split_and!; try lia|].
  rewrite Hbind. cbn [mbind option_bind]. set (v2 := v1 <| pe_sched := s |>).
  destruct Hcase as [[-> ->]|[-> _]]; cbn [is_ok negb]; [change (negb (is_ok ERR_INVALID_ARG)) with true
    |change (negb (is_ok ERR_OK)) with false]; cbn iota.
  { destruct (clear_failed v1 v2 id') as (v' & -> & Hwf & Hal & Hf); try done. exists ERR_INVALID_ARG, v'. do 3 (split; [done|]). left. by split. }
  destruct (sched_context_bind_inv _ _ _ _ _ _ _ _ Hbind) as (c' & Hc' & Es). rewrite Hc in Hc'.
  injection Hc' as <-.
  destruct (set_thread_defined v2 id' ((initial_tcb id' a stack) <| sched_context := i |>) Ht Hid) as [v3 Hv3].
  rewrite Hv3. cbn [mbind option_bind].
  destruct (set_thread_get _ _ _ _ Hv3) as (E1 & E2 & E3 & E4 & E5 & E6).
  destruct (schedulable_loop_spec (contexts s) 0 (Z.to_nat (num_partitions s)) (sched_contexts_ok s Hs'))
    as (ok & Hok & _); [by rewrite (sw_contexts _ Hs')|].
  rewrite E2. change (pe_sched v2) with s. unfold sched_is_schedulable at 1. rewrite Hok. cbn [mbind option_bind].
  destruct ok; cbn [negb].
  - destruct (mdb_insert_cases (pe_mdb v1) NIL id' stack 0 Hm (or_introl eq_refl))
      as (e & m & idx & Hins & Hm' & He & Herr & Hokm).
    rewrite E3. change (pe_mdb v2) with (pe_mdb v1). fold NIL. rewrite Hins. cbn [mbind option_bind].
    eexists ERR_OK, _. split; [reflexivity|]. split; [|split; [exact E1|right; split; [done|]]].
    + constructor; cbn; [by eapply tcbs_wf_len|by rewrite E1|by rewrite E2|done].
    + constructor; cbn.
      * by rewrite E4.
      * rewrite E2. exact Hok.
      * exists i, c. rewrite E2. split; [|done]. intros j. by rewrite E6.
      * intros j Hj. destruct (decide (e = ERR_OK)) as [Hee|Hee].
        -- destruct (Hokm Hee) as (_ & _ & Hl & _). apply Hl. by right.
        -- destruct (Herr Hee) as [_ ->]. done.
      * intros Hlt. apply He in Hlt. destruct (Hokm Hlt) as (Hn & _ & _ & n & Hget & Hcap & Hcp & _).
        by exists idx, n.
  - destruct (unbind_spec s i Hs' Hi) as (cu & s2 & Hcu & Hub & Hs2 & Es2). rewrite Hub. cbn [mbind option_bind].
    destruct (clear_failed v1 (v3 <| pe_sched := s2 |>) id') as (v' & -> & Hwf & Hal & Hf); try done.
    + by eapply tcbs_wf_len.
    + by eapply unbound_same.
    + intros j Hj. cbn. by rewrite E6, (proj2 (Z.eqb_neq _ _) Hj).
    + exists ERR_INVALID_ARG, v'. do 3 (split; [done|]). left. by split.
Qed.

(** Both outcomes of the second half seen from the start: [v1] is [v] with the allocator
    [al] and the block of the free thread [id'] filled. *)
Section Created.
Context (v v1 : proc_env) (al : frame_alloc_t) (a : process_create_args_t) (id' : Z) (t : tcb_t) (stack : cap_t).
Context (Htid : (threads (pe_tcbs v)).[id'] = Some t) (Hfree : tcb_is_free t = true)
  (Hmoved : alloc_moved (pe_alloc v) al)
  (Hv1 : set_thread (v <| pe_alloc := al |>) id' (initial_tcb id' a stack) = Some v1).

Lemma failed_not_created v' : pe_alloc v' = pe_alloc v1 -> bind_failed v1 v' id' -> not_created v v'.
Proof using Htid Hfree Hmoved Hv1.
  intros Hal Hf. destruct (set_thread_get _ _ _ _ Hv1) as (E1 & E2 & E3 & E4 & E5 & E6).
  constructor; [by rewrite (bf_mdb _ _ _ Hf), E3|by rewrite (bf_count _ _ _ Hf), E4| | |by rewrite Hal, E1].
  - apply (scrub_thread v t v' id' Htid Hfree). intros j. rewrite (bf_threads _ _ _ Hf), E6. by destruct (j =? id').
  - unfold same_bound. rewrite (bf_bound _ _ _ Hf). by rewrite E2.
Qed.

Lemma done_created v' : pe_alloc v' = pe_alloc v1 -> bind_done v1 a id' stack v' ->
  find_idx tcb_is_free (threads (pe_tcbs v)) = Some id' ->
  Alloc.frame_ok (al_next (pe_alloc v)) (al_next al) (pa_partition_id a, stack) ->
  hw_top (hw_cap stack) = hw_base (hw_cap stack) + pa_stack_size a -> created v a v' id'.
Proof using Hmoved Hv1.
  intros Hal Hd Hfi0 Hfok Htop. destruct (set_thread_get _ _ _ _ Hv1) as (E1 & E2 & E3 & E4 & E5 & E6).
  destruct (bd_context _ _ _ _ _ Hd) as (i & c & Hth & Hfi & Hc & Hsd). rewrite E2 in Hfi, Hc, Hsd.
  constructor; [done| |by rewrite (bd_count _ _ _ _ _ Hd), E4|by rewrite Hal, E1| |apply Hd|].
  - intros j Hj. rewrite Hth, E6, (proj2 (Z.eqb_neq _ _) Hj). done.
  - intros j Hj. apply Hd. by rewrite E3.
  - exists i, c, stack. rewrite Hth, Z.eqb_refl. split; [done|]. split; [by rewrite Hal, E1|].
    split; [done|]. do 3 (split; [done|]). pose proof (bd_mdb _ _ _ _ _ Hd) as Hmdb.
    rewrite E3 in Hmdb. exact Hmdb.
Qed.
End Created.

Lemma process_create_cases v a out : proc_wf v -> args_ok v a ->
  exists e v' out', process_create (Some v) (Some a) (Some out) = Some (e, Some v', Some out') /\ proc_wf v' /\
    ((e <> ERR_OK /\ out' = out /\ not_created v v') \/ (e = ERR_OK /\ created v a v' out')).
Proof.
  intros Hwf Hargs. pose proof Hwf as [Ht Ha Hs Hm]. pose proof Hargs as (Hpart & Hb & Hp & Hpr & Hsz).
  assert (forall e, e <> ERR_OK -> exists e' v' out', Some (e, Some v, Some out) = Some (e', Some v', Some out') /\
    proc_wf v' /\ ((e' <> ERR_OK /\ out' = out /\ not_created v v') \/ (e' = ERR_OK /\ created v a v' out'))) as Hsame.
  { intros e He. exists e, v, out. split; [done|]. split; [done|]. left. auto using not_created_refl. }
  unfold process_create, guard_ret. destruct (MAX_PARTITIONS <=? _); [by apply Hsame|].
  destruct (_ || _); [by apply Hsame|].
  destruct (find_idx tcb_is_free _) as [id'|] eqn:Ef; [|by apply Hsame].
  pose proof Ef as Ef'. apply find_idx_Some in Ef' as [(t & Htid & Hfree) _].
  assert (0 <= id' < MAX_TCBS) as Hid.
  { apply arr_get_Some in Htid as [Hr _]. rewrite Ht in Hr. unfold MAX_TCBS in *. lia. }
  destruct (alloc_frame_cases (pe_alloc v) (pa_partition_id a) (pa_stack_size a) cap_zero Ha Hsz Hpart)
    as (e & al & sc & -> & Hcase). cbn [mbind option_bind].
  destruct Hcase as [(-> & _ & -> & ->)|[(_ & _ & -> & _ & -> & ->)|(_ & Hlt & -> & Htop & -> & Hbase & Htp & Hnext & Hawf)]].
  - change (negb (is_ok ERR_INVALID_ARG)) with true. cbn iota.
    assert (v <| pe_alloc := pe_alloc v |> = v) as -> by (by destruct v). by apply Hsame.
  - change (negb (is_ok ERR_NO_MEM)) with true. cbn iota.
    assert (v <| pe_alloc := pe_alloc v |> = v) as -> by (by destruct v). by apply Hsame.
  - change (negb (is_ok ERR_OK)) with false. cbn iota.
    set (stack := frame_cap _ _ _). set (v0 := v <| pe_alloc := al |>).
    destruct (frame_cap_ok _ _ _ Ha Hsz (conj Hpart Hlt) Htop) as (Hfok & Hbase' & Htop'). fold stack in Hfok, Hbase', Htop'.
    destruct (set_thread_defined v0 id' (initial_tcb id' a stack) Ht Hid) as [v1 Hv1]. rewrite Hv1.
    cbn [mbind option_bind]. destruct (set_thread_get _ _ _ _ Hv1) as (E1 & E2 & E3 & E4 & E5 & E6).
    assert (proc_wf v1) as Hwf1.
    { constructor; [by eapply tcbs_wf_len|by rewrite E1|by rewrite E2|by rewrite E3]. }
    assert (args_ok v1 a) as Hargs1.
    { do 4 (split; [done|]). unfold size_ok. rewrite E1. cbn. rewrite Htp. exact Hsz. }
    destruct (bind_process_spec v1 a id' stack out Hwf1 Hargs1 Hid) as (e & v' & Hrun & Hwf' & Hal & Hcase).
    exists e, v', (if is_ok e then id' else out). split; [exact Hrun|]. split; [done|].
    pose proof (next_frame_spec _ _ Ha (conj Hpart Hlt)) as (Hnf & _). destruct Hsz as [Hsz0 _].
    assert (alloc_moved (pe_alloc v) al) as Hmoved by (split_and!; [done|done|lia]).
    destruct Hcase as [[He Hf]|[-> Hd]]; [left|right].
    + split; [done|]. split; [|by eapply failed_not_created].
      destruct (is_ok e) eqn:Eo; [|done]. by apply is_ok_true in Eo.
    + split; [done|]. change (is_ok ERR_OK) with true. cbn iota.
      apply (done_created v v1 al a id' stack); try done. eapply frame_ok_top; [exact Hfok|lia].
Qed.

(** ** Destruction *)

Lemma mdb_lookup_cases m a b : mdb_inv m ->
  (mdb_lookup m a b = NIL) \/ (mdb_lookup m a b <> NIL /\ live (mdb_nodes m) (mdb_lookup m a b)).
Proof.
  intros [fs Hwf]. unfold mdb_lookup. destruct (find_idx _ _) as [i|] eqn:E; [right|by left].
  apply find_idx_Some in E as [(n & Hn & Hm) _]. cbn.
  split; [by apply (node_range m i n (mw_length _ _ Hwf))|]. exists n. split; [done|].
  unfold lookup_match in Hm. by bools.
Qed.

(** A thread of the table as far as [process_destroy] follows its fields. *)
Definition thread_refs_ok (h : cnodes) (t : tcb_t) : Prop :=
  ptr_ok h (cspace t) /\ 0 <= sched_context t.

(** No valid capability is left in the node, and the others are as before. *)
Definition cspace_cleared (h h' : cnodes) (p : Z) : Prop :=
  (forall q, q <> p \/ p = NULL -> h' !! q = h !! q) /\
  (p <> NULL -> exists cn, h' !! p = Some cn /\ used cn = 0 /\ forall c, In c (slots cn) -> is_valid c = false).

Record destroyed (h : cnodes) (eps : list endpoint_t) (v : proc_env) (id' : Z) (t : tcb_t)
    (h' : cnodes) (eps' : list endpoint_t) (v' : proc_env) : Prop := {
  ds_thread : forall j, (threads (pe_tcbs v')).[j] = if j =? id' then Some tcb_zero else (threads (pe_tcbs v)).[j];
  ds_count : count (pe_tcbs v') = u32 (count (pe_tcbs v) - 1);
  ds_alloc : pe_alloc v' = pe_alloc v;
  ds_eps : Forall2 (fun e e' => endpoint_wf e' /\ ep_abs e' = spec_cleanup id' (ep_abs e)) eps eps';
  ds_cspace : cspace_cleared h h' (cspace t);
  ds_context : forall j, (contexts (pe_sched v')).[j] =
    if j =? sched_context t then (fun c => c <| sc_bound := false |>) <$> (contexts (pe_sched v)).[j]
    else (contexts (pe_sched v)).[j];
  ds_mdb : let idx := mdb_lookup (pe_mdb v) 0 id' in
    (idx = NIL -> pe_mdb v' = pe_mdb v) /\
    (idx <> NIL -> live (mdb_nodes (pe_mdb v)) idx /\ forall j, live (mdb_nodes (pe_mdb v')) j <->
       live (mdb_nodes (pe_mdb v)) j /\ j <> idx /\ ~ descends (mdb_nodes (pe_mdb v)) idx j)
}.

Arguments cleanup_endpoint : simpl never.

Lemma cleanup_all id' eps : Forall endpoint_wf eps ->
  exists eps', endpoint_cleanup_for_tcb eps id' = Some eps' /\
    Forall2 (fun e e' => endpoint_wf e' /\ ep_abs e' = spec_cleanup id' (ep_abs e)) eps eps'.
Proof.
  unfold endpoint_cleanup_for_tcb. induction 1 as [|e eps He _ (eps' & IH & Hall)]; [by exists []|].
  destruct (cleanup_refines id' e He) as (e' & Hc & Hw & Ha). exists (e' :: eps').
  cbn. rewrite Hc. cbn. rewrite IH. split; [done|]. by constructor.
Qed.

Lemma clear_cnode_spec h p : ptr_ok h p ->
  exists h', (if negb (p =? NULL) then cn ← h !! p; Some (<[p := clear_cnode cn]> h) else Some h) = Some h' /\
    cspace_cleared h h' p.
Proof.
  intros Hp. destruct (Z.eqb_spec p NULL) as [E|E]; cbn [negb].
  { exists h. split; [done|]. by split. }
  destruct Hp as [?|[cn Hcn]]; [done|]. rewrite Hcn. cbn [mbind option_bind]. eexists. split; [done|]. split.
  - intros q [Hq|?]; [|done]. by rewrite lookup_insert_ne.
  - intros _. exists (clear_cnode cn). rewrite lookup_insert_eq. split; [done|]. split; [done|].
    intros c Hc. cbn in Hc. apply in_map_iff in Hc as (x & <- & _). by destruct (is_valid x) eqn:Ex.
Qed.

Lemma drop_context s i : sched_wf s -> 0 <= i ->
  exists s', (if i <? MAX_SCHED_CONTEXTS then unbind s i else Some s) = Some s' /\ sched_wf s' /\
    forall j, (contexts s').[j] = if j =? i then (fun c => c <| sc_bound := false |>) <$> (contexts s).[j]
              else (contexts s).[j].
Proof.
  intros Hwf Hi. pose proof (sw_contexts _ Hwf) as Hl. destruct (Z.ltb_spec i MAX_SCHED_CONTEXTS) as [Hlt|Hge].
  - destruct (unbind_spec s i Hwf (conj Hi Hlt)) as (c & s' & Hc & Hu & Hwf' & ->).
    eexists. split; [exact Hu|]. split; [done|]. intros j. cbn.
    rewrite arr_get_insert by (rewrite Hl; unfold MAX_SCHED_CONTEXTS in *; lia).
    destruct (Z.eqb_spec j i) as [->|]; [|done]. by rewrite Hc.
  - exists s. split; [done|]. split; [done|]. intros j. destruct (Z.eqb_spec j i) as [->|]; [|done].
    rewrite (proj2 (arr_get_None _ _)); [done|]. rewrite Hl. unfold MAX_SCHED_CONTEXTS in *. lia.
Qed.

Lemma revoke_lookup m idx : mdb_inv m -> (idx = NIL \/ (idx <> NIL /\ live (mdb_nodes m) idx)) ->
  exists m', (if negb (idx =? 0xFFFF) then
             '(_, m1) ← mdb_revoke (Some m) idx;
             m1 ← m1;
             '(_, m2) ← mdb_delete (Some m1) idx;
             m2
           else Some m) = Some m' /\ mdb_inv m' /\ (idx = NIL -> m' = m) /\
    (idx <> NIL -> live (mdb_nodes m) idx /\ forall j, live (mdb_nodes m') j <->
       live (mdb_nodes m) j /\ j <> idx /\ ~ descends (mdb_nodes m) idx j).
Proof.
  intros Hm [->|[Hne Hlv]].
  - exists m. by split_and!.
  - change 0xFFFF with NIL. rewrite (proj2 (Z.eqb_neq _ _) Hne). cbn [negb].
    destruct (mdb_remove_tree m idx Hm Hlv) as (m1 & m2 & H1 & H2 & Hinv & Hlive).
    rewrite H1. cbn [mbind option_bind]. rewrite H2. exists m2. split; [done|]. by split_and!.
Qed.

Lemma process_destroy_cases h eps v id' : proc_wf v -> Forall endpoint_wf eps -> 0 <= id' ->
  (forall i t, (threads (pe_tcbs v)).[i] = Some t -> thread_refs_ok h t) ->
  exists e h' eps' v', process_destroy h eps (Some v) id' = Some (e, h', eps', Some v') /\ proc_wf v' /\
    ((e = ERR_INVALID_ARG /\ h' = h /\ eps' = eps /\ v' = v /\
        forall t, (threads (pe_tcbs v)).[id'] = Some t -> tcb_is_free t = true) \/
     (e = ERR_OK /\ exists t, (threads (pe_tcbs v)).[id'] = Some t /\ tcb_is_free t = false /\
        destroyed h eps v id' t h' eps' v')).
Proof.
  intros Hwf Heps Hid Hrefs. pose proof Hwf as [Ht Ha Hs Hm]. unfold process_destroy, guard_ret.
  destruct (Z.leb_spec MAX_TCBS id') as [Hge|Hlt].
  { exists ERR_INVALID_ARG, h, eps, v. split; [done|]. split; [done|]. left. split_and!; try done.
    intros t [Hr _]%arr_get_Some. rewrite Ht in Hr. unfold MAX_TCBS in *. lia. }
  destruct (arr_get_is_Some (threads (pe_tcbs v)) id') as [t Htid]; [rewrite Ht; unfold MAX_TCBS in *; lia|].
  rewrite Htid. cbn [mbind option_bind]. destruct (tcb_is_free t) eqn:Ef.
  { exists ERR_INVALID_ARG, h, eps, v. split; [done|]. split; [done|]. left. split_and!; try done. congruence. }
  destruct (Hrefs id' t Htid) as [Hcs Hsc].
  destruct (cleanup_all id' eps Heps) as (eps' & -> & Hall). cbn [mbind option_bind].
  destruct (clear_cnode_spec h (cspace t) Hcs) as (h' & -> & Hclr). cbn [mbind option_bind].
  destruct (revoke_lookup (pe_mdb v) (mdb_lookup (pe_mdb v) 0 id') Hm (mdb_lookup_cases _ 0 id' Hm))
    as (m' & -> & Hm' & Hmdb). cbn [mbind option_bind].
  destruct (drop_context (pe_sched v) (sched_context t) Hs Hsc) as (s' & -> & Hs' & Hctx). cbn [mbind option_bind].
  match goal with |- context [set_thread ?x ?i ?z] =>
    destruct (set_thread_defined x i z Ht (conj Hid Hlt)) as [v1 Hv1] end.
  rewrite Hv1. cbn [mbind option_bind].
  destruct (set_thread_get _ _ _ _ Hv1) as (E1 & E2 & E3 & E4 & E5 & E6).
  eexists ERR_OK, h', eps', _. split; [reflexivity|]. split.
  { constructor; cbn; [by eapply tcbs_wf_len|by rewrite E1|by rewrite E2|by rewrite E3]. }
  right. split; [done|]. exists t. split; [done|]. split; [done|].
  constructor; cbn; [done|by rewrite E4|by rewrite E1|done|done|by rewrite E2|by rewrite E3].
Qed.

(** ** Properties *)

(** C20. Process creation: on well-formed tables, for arguments of their C types and a
    stack size with which the end of the frame cannot wrap around, it has a result and
    keeps the tables well formed. When it succeeds, the first free thread block holds an inactive
    thread with the given entry, stack pointer, partition and priority, whose
    stack capability covers exactly a newly allocated frame of the partition's
    colour; the first unbound scheduling context is bound to it with the requested
    budget and every partition passes the admission test; the frame is recorded
    in the derivation database; and no other thread or context changes. When it
    fails, no context is left bound, nothing is recorded, and no thread in use
    has changed. *)
Theorem process_create_correct v a out :
  proc_wf v -> args_ok v a ->
  exists e v' out', process_create (Some v) (Some a) (Some out) = Some (e, Some v', Some out') /\ proc_wf v' /\
    ((e <> ERR_OK /\ out' = out /\ not_created v v') \/ (e = ERR_OK /\ created v a v' out')).
Proof. apply process_create_cases. Qed.

(** An empty thread table, the allocator of the boot code, one partition, and a database
    with the initial untyped capability at index 0. *)
Definition demo_proc_sched : sched_state_t := default sched_init (sched_run sched_init [SCreate 0 0 6000 1]).
Definition demo_ut : cap_t :=
  mk_cap CAP_UNTYPED 0xFF 0 true true 0 (mk_cap_u 0x90000000 0x400000 0 0)
    (mk_sim_cap 0x90000000 0x90400000 0x90000000 0 0 true true).
Definition demo_proc_mdb : mdb_tree_t :=
  match mdb_insert (Some mdb_init) NIL 0 demo_ut (Some 0) with Some (_, Some m, _) => m | _ => mdb_init end.
Definition demo_env : proc_env := mk_proc_env tcb_table_zero demo_alloc demo_proc_sched demo_proc_mdb.
Definition demo_args : process_create_args_t :=
  mk_process_args 0 0 0 1000 5000 10 0x80100000 0x80500000 4096.

Lemma demo_env_wf : proc_wf demo_env.
Proof.
  constructor; cbn [demo_env pe_tcbs pe_alloc pe_sched pe_mdb].
  - done.
  - apply demo_alloc_wf.
  - destruct (sched_run_wf [SCreate 0 0 6000 1] sched_init sched_init_wf) as (s & Hs & Hwf).
    + repeat constructor; vm_compute; congruence.
    + unfold demo_proc_sched. by rewrite Hs.
  - destruct (mdb_insert_cases mdb_init NIL 0 demo_ut 0 mdb_init_inv (or_introl eq_refl))
      as (e & m & idx & H & Hinv & _). unfold demo_proc_mdb. by rewrite H.
Qed.

Lemma demo_args_ok : args_ok demo_env demo_args.
Proof. repeat split; vm_compute; congruence. Qed.

Lemma process_create_correct_witness :
  exists v', process_create (Some demo_env) (Some demo_args) (Some 7) = Some (ERR_OK, Some v', Some 0) /\
    proc_wf v' /\ created demo_env demo_args v' 0.
Proof.
  destruct (process_create_correct demo_env demo_args 7 demo_env_wf demo_args_ok)
    as (e & v' & out' & H & Hwf & Hcase).
  assert (option_map (fun r => (r.1.1, r.2)) (process_create (Some demo_env) (Some demo_args) (Some 7))
    = Some (ERR_OK, Some 0)) as E by (vm_compute; reflexivity).
  rewrite H in E. cbn in E. injection E as -> ->. exists v'. split; [exact H|]. split; [exact Hwf|].
  destruct Hcase as [[Hne _]|[_ Hc]]; [by destruct Hne|exact Hc].
Defined.

(** C21. Process destruction: on well-formed tables it always has a result; it refuses
    exactly the free thread blocks, changing nothing. Otherwise it clears the
    thread block and no other, empties the thread's capability node, removes the
    thread from every endpoint (as sender and as waiting receiver) while all other
    queued messages keep their order, unbinds its scheduling context alone, and
    removes from the derivation database the node it looks up for the thread
    together with exactly the nodes derived from it, or nothing when the look-up
    finds no node. *)
Theorem process_destroy_correct h eps v id' :
  proc_wf v -> Forall endpoint_wf eps -> 0 <= id' ->
  (forall i t, (threads (pe_tcbs v)).[i] = Some t -> thread_refs_ok h t) ->
  exists e h' eps' v', process_destroy h eps (Some v) id' = Some (e, h', eps', Some v') /\ proc_wf v' /\
    ((e = ERR_INVALID_ARG /\ h' = h /\ eps' = eps /\ v' = v /\
        forall t, (threads (pe_tcbs v)).[id'] = Some t -> tcb_is_free t = true) \/
     (e = ERR_OK /\ exists t, (threads (pe_tcbs v)).[id'] = Some t /\ tcb_is_free t = false /\
        destroyed h eps v id' t h' eps' v')).
Proof. apply process_destroy_cases. Qed.

Lemma demo_refs : forall i t, (threads (pe_tcbs demo_env)).[i] = Some t -> thread_refs_ok ∅ t.
Proof. intros i t Ht. apply arr_get_replicate in Ht as ->. split; [by left|done]. Qed.

Lemma created_refs v a v' id' h : created v a v' id' ->
  (forall i t, (threads (pe_tcbs v)).[i] = Some t -> thread_refs_ok h t) ->
  forall i t, (threads (pe_tcbs v')).[i] = Some t -> thread_refs_ok h t.
Proof.
  intros Hc Hrefs i t Ht. destruct (decide (i = id')) as [->|Hne].
  - destruct (cr_thread _ _ _ _ Hc) as (sc & c & stack & Hth & _ & _ & Hfi & _).
    rewrite Hth in Ht. injection Ht as <-. split; [by left|]. cbn.
    apply find_idx_Some in Hfi as [(x & Hx & _) _]. apply arr_get_Some in Hx. lia.
  - rewrite (cr_others _ _ _ _ Hc i Hne) in Ht. by eapply Hrefs.
Qed.

(** The small environment with one process. *)
Lemma demo_created : exists v1, process_create (Some demo_env) (Some demo_args) (Some 7) = Some (ERR_OK, Some v1, Some 0) /\
  proc_wf v1 /\ forall i t, (threads (pe_tcbs v1)).[i] = Some t -> thread_refs_ok ∅ t.
Proof.
  destruct (process_create_cases demo_env demo_args 7 demo_env_wf demo_args_ok) as (e & v1 & o & H & Hwf & Hcase).
  assert (option_map (fun r => (r.1.1, r.2)) (process_create (Some demo_env) (Some demo_args) (Some 7))
    = Some (ERR_OK, Some 0)) as E by (vm_compute; reflexivity).
  rewrite H in E. cbn in E. injection E as -> ->. exists v1. split; [exact H|]. split; [exact Hwf|].
  destruct Hcase as [[Hne _]|[_ Hc]]; [by destruct Hne|]. by apply (created_refs _ _ _ _ _ Hc), demo_refs.
Qed.

(** Destroying it, and a number that is free. *)
Lemma process_destroy_correct_witness :
  exists v1 h' eps' v' t, process_create (Some demo_env) (Some demo_args) (Some 7) = Some (ERR_OK, Some v1, Some 0) /\
    process_destroy ∅ (replicate 64 endpoint_zero) (Some v1) 0 = Some (ERR_OK, h', eps', Some v') /\
    destroyed ∅ (replicate 64 endpoint_zero) v1 0 t h' eps' v' /\
    process_destroy ∅ (replicate 64 endpoint_zero) (Some v1) 3
      = Some (ERR_INVALID_ARG, ∅, replicate 64 endpoint_zero, Some v1).
Proof.
  destruct demo_created as (v1 & Hrun & Hwf & Hrefs).
  assert (Forall endpoint_wf (replicate 64 endpoint_zero)) as Heps by (apply Forall_replicate, endpoint_zero_wf).
  destruct (process_destroy_correct ∅ (replicate 64 endpoint_zero) v1 0 Hwf Heps ltac:(lia) Hrefs)
    as (e & h' & eps' & v' & H & _ & Hcase).
  destruct (process_destroy_correct ∅ (replicate 64 endpoint_zero) v1 3 Hwf Heps ltac:(lia) Hrefs)
    as (e3 & h3 & eps3 & v3 & H3 & _ & Hcase3).
  vm_compute in Hrun. injection Hrun as Hv1.
  destruct Hcase as [(_ & _ & _ & _ & Hf)|(-> & t & _ & _ & Hd)].
  { exfalso. rewrite <- Hv1 in Hf. vm_compute in Hf. discriminate (Hf _ eq_refl). }
  destruct Hcase3 as [(-> & -> & -> & -> & _)|(_ & t3 & Ht & Hf & _)].
  2:{ exfalso. rewrite <- Hv1 in Ht. vm_compute in Ht. injection Ht as <-. discriminate Hf. }
  exists v1, h', eps', v', t. split; [rewrite <- Hv1; vm_compute; reflexivity|]. split; [exact H|].
  split; [exact Hd|exact H3].
Defined.

(** A cleaned endpoint does not mention the thread. *)
Lemma spec_cleanup_gone id' a :
  ~ In id' (map fst (sp_queue (spec_cleanup id' a))) /\ sp_waiting (spec_cleanup id' a) <> Some id'.
Proof.
  split; cbn.
  - intros (p & Hp & Hin)%in_map_iff. apply filter_In in Hin as [_ Hf]. unfold not_from in Hf. bools. done.
  - by destruct (decide _).
Qed.

Lemma u32_succ_pred n : fits 32 n -> u32 (u32 (n + 1) - 1) = n.
Proof.
  intros Hn. unfold u32, wrap. rewrite Zminus_mod_idemp_l.
  replace (n + 1 - 1) with n by lia. by apply Z.mod_small.
Qed.

(** Binding a context and dropping it again. *)
Lemma rebind_same_bound s i c d s' : (contexts s).[i] = Some c -> sc_bound c = false ->
  (forall j, (contexts s').[j] = if j =? i then (fun c => c <| sc_bound := false |>) <$>
     (<[Z.to_nat i := d]> (contexts s)).[j] else (<[Z.to_nat i := d]> (contexts s)).[j]) -> same_bound s s'.
Proof.
  intros Hc Hb Hget. apply arr_get_Some in Hc as Hr. destruct Hr as [Hr _].
  unfold same_bound. apply list_eq. intros j. rewrite !list_lookup_fmap, <- !arr_get_nat, Hget.
  rewrite arr_get_insert by done. destruct (Z.eqb_spec (Z.of_nat j) i) as [->|]; [|done].
  rewrite Hc. cbn. by rewrite Hb.
Qed.

(** C22. Create and destroy are inverse, except for the null entry. A process created, with
    a stack size that does not wrap around, from a non-zero entry or stack pointer can be
    destroyed, and then the same threads exist as before (its own block being free and
    cleared), the same scheduling contexts are bound, the number of threads is the old
    one, and no endpoint mentions it. A process created with entry and stack pointer both
    zero, which creation accepts, cannot be destroyed: its block is taken for a free one,
    the call returns [ERR_INVALID_ARG] and changes nothing. *)
Theorem process_create_destroy h eps v a out v1 id' :
  proc_wf v -> args_ok v a -> Forall endpoint_wf eps ->
  (forall i t, (threads (pe_tcbs v)).[i] = Some t -> thread_refs_ok h t) ->
  fits 32 (count (pe_tcbs v)) ->
  process_create (Some v) (Some a) (Some out) = Some (ERR_OK, Some v1, Some id') ->
  if (pa_pc a =? 0) && (pa_sp_top a =? 0)
  then process_destroy h eps (Some v1) id' = Some (ERR_INVALID_ARG, h, eps, Some v1) else
  exists eps' v2, process_destroy h eps (Some v1) id' = Some (ERR_OK, h, eps', Some v2) /\ proc_wf v2 /\
    (forall j, (threads (pe_tcbs v2)).[j] = if j =? id' then Some tcb_zero else (threads (pe_tcbs v)).[j]) /\
    same_bound (pe_sched v) (pe_sched v2) /\ count (pe_tcbs v2) = count (pe_tcbs v) /\
    Forall (fun e => ~ In id' (map fst (sp_queue (ep_abs e))) /\ sp_waiting (ep_abs e) <> Some id') eps'.
Proof.
  intros Hwf Hargs Heps Hrefs Hcnt Hcreate.
  destruct (process_create_cases v a out Hwf Hargs) as (e & v' & out' & Hrun & Hwf1 & Hcase).
  rewrite Hcreate in Hrun. injection Hrun as <- <- <-. destruct Hcase as [[? _]|[_ Hc]]; [done|].
  destruct (cr_thread _ _ _ _ Hc) as (i & c & stack & Hth & _ & _ & Hfi & Hci & Hsd & _).
  apply arr_get_Some in Hth as Hid. destruct Hid as [Hid _].
  destruct (process_destroy_cases h eps v1 id' Hwf1 Heps (proj1 Hid) (created_refs _ _ _ _ h Hc Hrefs))
    as (e & h' & eps' & v2 & Hdes & Hwf2 & Hcase).
  assert (tcb_is_free ((initial_tcb id' a stack) <| sched_context := i |>) = (pa_pc a =? 0) && (pa_sp_top a =? 0))
    as Ef by (unfold tcb_is_free; cbn; apply andb_true_r).
  destruct Hcase as [(-> & -> & -> & -> & Hfree)|(-> & t & Ht & Hnf & Hd)].
  { by rewrite <- Ef, (Hfree _ Hth). }
  rewrite Hth in Ht. injection Ht as <-. rewrite <- Ef, Hnf. clear Ef Hnf.
  assert (h' = h) as ->.
  { apply map_eq. intros q. apply (ds_cspace _ _ _ _ _ _ _ _ Hd). by right. }
  exists eps', v2. split; [done|]. split; [done|]. split; [|split; [|split]].
  - intros j. rewrite (ds_thread _ _ _ _ _ _ _ _ Hd). destruct (Z.eqb_spec j id'); [done|].
    by apply (cr_others _ _ _ _ Hc).
  - destruct (first_unbound _ _ Hfi) as (c' & Hc' & Hb). rewrite Hci in Hc'. injection Hc' as <-.
    eapply (rebind_same_bound _ i c); [done|done|]. intros j.
    rewrite (ds_context _ _ _ _ _ _ _ _ Hd), Hsd. reflexivity.
  - rewrite (ds_count _ _ _ _ _ _ _ _ Hd), (cr_count _ _ _ _ Hc). by apply u32_succ_pred.
  - pose proof (ds_eps _ _ _ _ _ _ _ _ Hd) as Hall. clear -Hall.
    induction Hall as [|e e' l l' [_ Ha] _ IH]; constructor; [|done]. rewrite Ha. apply spec_cleanup_gone.
Qed.

Lemma process_create_destroy_witness :
  exists v1 eps' v2, process_create (Some demo_env) (Some demo_args) (Some 7) = Some (ERR_OK, Some v1, Some 0) /\
    process_destroy ∅ (replicate 64 endpoint_zero) (Some v1) 0 = Some (ERR_OK, ∅, eps', Some v2) /\
    same_bound (pe_sched demo_env) (pe_sched v2).
Proof.
  destruct (process_create (Some demo_env) (Some demo_args) (Some 7)) as [[[e [v1|]] [id'|]]|] eqn:Hrun;
    [|vm_compute in Hrun; discriminate Hrun..].
  assert (option_map (fun r => (r.1.1, r.2)) (process_create (Some demo_env) (Some demo_args) (Some 7))
    = Some (ERR_OK, Some 0)) as E by (vm_compute; reflexivity).
  rewrite Hrun in E. cbn in E. injection E as -> ->.
  destruct (process_create_destroy ∅ (replicate 64 endpoint_zero) demo_env demo_args 7 v1 0
    demo_env_wf demo_args_ok) as (eps' & v2 & Hd & _ & _ & Hb & _).
  - apply Forall_replicate. apply endpoint_zero_wf.
  - exact demo_refs.
  - fits_now.
  - exact Hrun.
  - exists v1, eps', v2. split; [reflexivity|]. split; [exact Hd|exact Hb].
Defined.

(** With entry and stack pointer zero the process takes its block, context and count and
    cannot be removed. *)
Example null_entry_undestroyable :
  let a := mk_process_args 0 0 0 1000 5000 10 0 0 4096 in
  exists v1, process_create (Some demo_env) (Some a) (Some 7) = Some (ERR_OK, Some v1, Some 0) /\
    count (pe_tcbs v1) = 1 /\
    process_destroy ∅ (replicate 64 endpoint_zero) (Some v1) 0
      = Some (ERR_INVALID_ARG, ∅, replicate 64 endpoint_zero, Some v1).
Proof. eexists. split; [vm_compute; reflexivity|]. split; vm_compute; reflexivity. Qed.

(** A stack size close to 2^64 is granted and moves the frontier of the allocator below
    its region. *)
Example stack_size_wraps :
  let a := mk_process_args 0 0 0 1000 5000 10 0x80100000 0x80500000 (2 ^ 64 - 0x10000) in
  exists v1, process_create (Some demo_env) (Some a) (Some 7) = Some (ERR_OK, Some v1, Some 0) /\
    al_next (pe_alloc v1) < al_base (pe_alloc v1).
Proof. eexists. split; vm_compute; reflexivity. Qed.

(** The look-up of the node to revoke confuses thread numbers with slots: destroying the
    first process finds the untyped capability of slot 0, so that the kernel's
    initial untyped is removed from the database and the stack frame stays in it. *)
Example destroy_revokes_untyped :
  exists v1 eps' v2 n0 n1,
    process_create (Some demo_env) (Some demo_args) (Some 7) = Some (ERR_OK, Some v1, Some 0) /\
    process_destroy ∅ (replicate 64 endpoint_zero) (Some v1) 0 = Some (ERR_OK, ∅, eps', Some v2) /\
    (mdb_nodes (pe_mdb v2)).[0] = Some n0 /\ mn_valid n0 = false /\
    (mdb_nodes (pe_mdb v2)).[1] = Some n1 /\ mn_valid n1 = true /\ type (mn_cap n1) = CAP_FRAME.
Proof.
  do 5 eexists. split; [vm_compute; reflexivity|]. split; [vm_compute; reflexivity|].
  split; [vm_compute; reflexivity|]. split; [vm_compute; reflexivity|].
  split; [vm_compute; reflexivity|]. split; vm_compute; reflexivity.
Qed.
