(* ===== verification/Elf.v ===== *)
(** * elf.h, elf.c: the ELF64 loader

    The image is the list of bytes [elf_data] points to; a field of a structure is
    read at the offset the C layout gives it, and a read past the end of the list
    has no defined result. *)

From S2P Require Import Prelude Types.

Definition ELF_MAGIC : Z := 0x464C457F.
Definition ELFCLASS64 : Z := 2.
Definition ET_EXEC : Z := 2.
Definition PT_LOAD : Z := 1.

(** A little-endian integer of [n] bytes at offset [off]. *)
Fixpoint read_le (n : nat) (d : list Z) (off : Z) : option Z :=
  match n with
  | O => Some 0
  | S n' => b ← d.[off]; r ← read_le n' d (off + 1); Some (b + 256 * r)
  end.

Record elf64_hdr_t := mk_elf64_hdr {
  eh_magic : Z;
  eh_cls : Z; eh_data : Z; eh_version : Z; eh_osabi : Z;
  eh_abiversion : Z; eh_pad : Z;
  eh_type : Z; eh_machine : Z;
  eh_version2 : Z;
  eh_entry : Z; eh_phoff : Z; eh_shoff : Z;
  eh_flags : Z;
  eh_ehsize : Z; eh_phentsize : Z; eh_phnum : Z; eh_shentsize : Z; eh_shnum : Z; eh_shstrndx : Z
}.

Record elf64_phdr_t := mk_elf64_phdr {
  ph_type : Z; ph_flags : Z;
  ph_offset : Z; ph_vaddr : Z; ph_paddr : Z; ph_filesz : Z; ph_memsz : Z; ph_align : Z
}.

(** The members in order, each with its size in bytes; neither structure has
    padding. [pad[7]] is one number of seven bytes. *)
Definition hdr_fields (h : elf64_hdr_t) : list (nat * Z) :=
  [(4, eh_magic h);
   (1, eh_cls h); (1, eh_data h); (1, eh_version h); (1, eh_osabi h);
   (1, eh_abiversion h); (7, eh_pad h);
   (2, eh_type h); (2, eh_machine h);
   (4, eh_version2 h);
   (8, eh_entry h); (8, eh_phoff h); (8, eh_shoff h);
   (4, eh_flags h);
   (2, eh_ehsize h); (2, eh_phentsize h); (2, eh_phnum h); (2, eh_shentsize h); (2, eh_shnum h);
   (2, eh_shstrndx h)]%nat.

Definition phdr_fields (p : elf64_phdr_t) : list (nat * Z) :=
  [(4, ph_type p); (4, ph_flags p);
   (8, ph_offset p); (8, ph_vaddr p); (8, ph_paddr p); (8, ph_filesz p); (8, ph_memsz p);
   (8, ph_align p)]%nat.

Definition sizeof_hdr : Z := 64.
Definition sizeof_phdr : Z := 56.

Definition elf_is_valid (data : option (list Z)) (size : Z) : option bool :=
  match data with
  | None => Some false
  | Some d =>
      retif size <? sizeof_hdr with Some false;;
      magic ← read_le 4 d 0;
      retif negb (magic =? ELF_MAGIC) with Some false;;
      cls ← read_le 1 d 4;
      retif negb (cls =? ELFCLASS64) with Some false;;
      ty ← read_le 2 d 16;
      retif negb (ty =? ET_EXEC) with Some false;;
      Some true
  end.

(** The loop over the program headers, [n] of them from address [p] on; the inner
    [None] is the [ERR_INVALID_ARG] exit. *)
Fixpoint phdr_loop (n : nat) (d : list Z) (p first_vaddr : Z) : option (option Z) :=
  match n with
  | O => Some (Some first_vaddr)
  | S n' =>
      ty ← read_le 4 d p;
      if negb (ty =? PT_LOAD) then phdr_loop n' d (p + sizeof_phdr) first_vaddr
      else
        vaddr ← read_le 8 d (p + 16);
        let first_vaddr := if vaddr <? first_vaddr then vaddr else first_vaddr in
        paddr ← read_le 8 d (p + 24);
        memsz ← read_le 8 d (p + 40);
        retif 0x90000000 <? u64 (paddr + memsz) with Some None;;
        phdr_loop n' d (p + sizeof_phdr) first_vaddr
  end.

Definition elf_load (elf_data : option (list Z)) (elf_size : Z) (out_entry out_vaddr : option Z)
    : option (kerror_t * option Z * option Z) :=
  match elf_data, out_entry, out_vaddr with
  | Some d, Some _, Some _ =>
      ok ← elf_is_valid elf_data elf_size;
      retif negb ok with Some (ERR_INVALID_ARG, out_entry, out_vaddr);;
      phoff ← read_le 8 d 32;
      phnum ← read_le 2 d 56;
      retif elf_size <? u64 (phoff + phnum * sizeof_phdr) with Some (ERR_INVALID_ARG, out_entry, out_vaddr);;
      r ← phdr_loop (Z.to_nat phnum) d phoff (2 ^ 64 - 1);
      match r with
      | None => Some (ERR_INVALID_ARG, out_entry, out_vaddr)
      | Some first_vaddr =>
          entry ← read_le 8 d 24;
          Some (ERR_OK, Some entry, Some first_vaddr)
      end
  | _, _, _ => Some (ERR_INVALID_ARG, out_entry, out_vaddr)
  end.

(** ** Images

    The bytes of a structure, and what the loader should say of an image given as
    a header and a list of program headers. *)

Definition encode (l : list (nat * Z)) : list Z := concat (map (fun f => le_bytes f.1 f.2) l).
Definition encode_hdr (h : elf64_hdr_t) : list Z := encode (hdr_fields h).
Definition encode_phdrs (l : list elf64_phdr_t) : list Z := concat (map (fun p => encode (phdr_fields p)) l).

Definition fields_ok (l : list (nat * Z)) : Prop := Forall (fun f => fits (8 * Z.of_nat f.1) f.2) l.

Definition hdr_ok (h : elf64_hdr_t) : bool :=
  (eh_magic h =? ELF_MAGIC) && (eh_cls h =? ELFCLASS64) && (eh_type h =? ET_EXEC).

Definition loads (p : elf64_phdr_t) : bool := ph_type p =? PT_LOAD.
(** The end of a segment is at or below the limit, or it passes 2^64 and what is left of
    it then is. *)
Definition segment_ok (p : elf64_phdr_t) : bool :=
  let e := ph_paddr p + ph_memsz p in
  (e <=? 0x90000000) || ((2 ^ 64 <=? e) && (e - 2 ^ 64 <=? 0x90000000)).

(** The least address of a loaded segment. *)
Definition lowest (init : Z) (l : list elf64_phdr_t) : Z :=
  foldl (fun m p => Z.min m (ph_vaddr p)) init (filter (fun p => loads p = true) l).

(** ** Reading what was written *)

Lemma arr_get_middle {A} (pre post : list A) x i : i = Z.of_nat (length pre) -> (pre ++ x :: post).[i] = Some x.
Proof. intros ->. rewrite arr_get_nat. by apply list_lookup_middle. Qed.

Lemma read_le_at n : forall pre post z off, off = Z.of_nat (length pre) -> fits (8 * Z.of_nat n) z ->
  read_le n (pre ++ le_bytes n z ++ post) off = Some z.
Proof.
  induction n as [|n IH]; intros pre post z off Hoff Hz; cbn [read_le le_bytes].
  { unfold fits in Hz. cbn in Hz. f_equal. lia. }
  rewrite <- app_comm_cons, arr_get_middle by done. cbn [mbind option_bind].
  rewrite (cons_middle (z mod 256)), app_assoc.
  rewrite (IH _ post (z / 256) (off + 1)).
  - cbn. f_equal. pose proof (Z.div_mod z 256). lia.
  - rewrite length_app. cbn. lia.
  - unfold fits in *. replace (8 * Z.of_nat (S n)) with (8 + 8 * Z.of_nat n) in Hz by lia.
    rewrite Z.pow_add_r in Hz by lia. change (2 ^ 8) with 256 in Hz.
    split; [apply Z.div_pos; lia|]. apply Z.div_lt_upper_bound; lia.
Qed.

Lemma encode_app l l' : encode (l ++ l') = encode l ++ encode l'.
Proof. unfold encode. by rewrite map_app, concat_app. Qed.

(** The size of a list of fields in bytes. *)
Definition fields_size (l : list (nat * Z)) : Z := foldr (fun f n => Z.of_nat f.1 + n) 0 l.

Lemma encode_length l : Z.of_nat (length (encode l)) = fields_size l.
Proof.
  induction l as [|f l IH]; [done|]. change (encode (f :: l)) with (le_bytes f.1 f.2 ++ encode l).
  rewrite length_app, le_bytes_length, Nat2Z.inj_add, IH. done.
Qed.

(** The field number [k] of a structure at [base]. *)
Lemma read_field l k n z pre post base off : l !! k = Some (n, z) -> fields_ok l ->
  base = Z.of_nat (length pre) -> off = base + fields_size (take k l) ->
  read_le n (pre ++ encode l ++ post) off = Some z.
Proof.
  intros Hk Hok Hbase Hoff. rewrite <- (take_drop_middle _ _ _ Hk) at 1.
  rewrite encode_app. change (encode ((n, z) :: drop (S k) l)) with (le_bytes n z ++ encode (drop (S k) l)).
  replace (pre ++ (encode (take k l) ++ le_bytes n z ++ encode (drop (S k) l)) ++ post)
    with ((pre ++ encode (take k l)) ++ le_bytes n z ++ (encode (drop (S k) l) ++ post)) by (by rewrite <- !app_assoc).
  apply read_le_at.
  - rewrite length_app, Nat2Z.inj_add, encode_length. lia.
  - by apply (proj1 (list.Forall_forall _ _) Hok (n, z)), (list_elem_of_lookup_2 _ k).
Qed.

Lemma read_le_defined n d off : 0 <= off -> off + Z.of_nat n <= Z.of_nat (length d) -> Forall (fits 8) d ->
  exists z, read_le n d off = Some z /\ fits (8 * Z.of_nat n) z.
Proof.
  revert off. induction n as [|n IH]; intros off H0 Hlen Hd; cbn [read_le].
  { exists 0. split; [done|]. by split. }
  destruct (arr_get_is_Some d off) as [b Hb]; [lia|].
  assert (fits 8 b) as Hfb.
  { apply arr_get_Some in Hb as [_ Hb]. by apply (proj1 (list.Forall_forall _ _) Hd), (list_elem_of_lookup_2 _ (Z.to_nat off)). }
  destruct (IH (off + 1)) as (r & Hr & Hfr); [lia|lia|done|]. rewrite Hb. cbn [mbind option_bind]. rewrite Hr.
  eexists. split; [reflexivity|]. unfold fits in *.
  replace (8 * Z.of_nat (S n)) with (8 + 8 * Z.of_nat n) by lia. rewrite Z.pow_add_r by lia.
  change (2 ^ 8) with 256 in *. lia.
Qed.

(** ** The loops *)

(** The sum the code forms in 64 bits. *)
Lemma segment_ok_sum p : fields_ok (phdr_fields p) ->
  segment_ok p = (u64 (ph_paddr p + ph_memsz p) <=? 0x90000000).
Proof.
  intros Hp. unfold fields_ok in Hp. rewrite list.Forall_forall in Hp.
  assert (fits 64 (ph_paddr p)) as Ha by (apply (Hp (8%nat, ph_paddr p)); cbn; set_solver).
  assert (fits 64 (ph_memsz p)) as Hm by (apply (Hp (8%nat, ph_memsz p)); cbn; set_solver).
  unfold segment_ok. cbv zeta. unfold fits in Ha, Hm. set (e := ph_paddr p + ph_memsz p).
  destruct (Z.leb_spec (2 ^ 64) e) as [Hge|Hlt]; cbn [andb].
  - assert (u64 e = e - 2 ^ 64) as ->.
    { unfold u64, wrap. symmetry. apply (Z.mod_unique_pos _ _ 1); unfold e; lia. }
    rewrite (proj2 (Z.leb_gt e _)) by lia. done.
  - rewrite u64_small by (unfold fits, e; lia). by rewrite orb_false_r.
Qed.

Lemma phdr_loop_encoded l : forall pre post p init, p = Z.of_nat (length pre) ->
  Forall (fun x => fields_ok (phdr_fields x)) l ->
  phdr_loop (length l) (pre ++ encode_phdrs l ++ post) p init =
  Some (if forallb (fun x => implb (loads x) (segment_ok x)) l then Some (lowest init l) else None).
Proof.
  induction l as [|x l IH]; intros pre post p init Hp Hok; [done|].
  apply list.Forall_cons in Hok as [Hx Hok]. cbn [length phdr_loop].
  change (encode_phdrs (x :: l)) with (encode (phdr_fields x) ++ encode_phdrs l). rewrite <- !app_assoc.
  set (d := pre ++ encode (phdr_fields x) ++ encode_phdrs l ++ post).
  assert (forall k n z off, phdr_fields x !! k = Some (n, z) -> off = p + fields_size (take k (phdr_fields x)) ->
    read_le n d off = Some z) as Hrd by (intros k n z off Hk Hoff; by eapply read_field).
  assert (forall init', phdr_loop (length l) d (p + sizeof_phdr) init'
    = Some (if forallb (fun x => implb (loads x) (segment_ok x)) l then Some (lowest init' l) else None)) as Hrest.
  { intros init'. unfold d. rewrite app_assoc. apply IH; [|done].
    rewrite length_app, Nat2Z.inj_add, encode_length, Hp. done. }
  rewrite (Hrd 0%nat 4%nat (ph_type x) p) by (reflexivity || (cbn; lia)). cbn [mbind option_bind forallb].
  unfold lowest. rewrite filter_cons. change (ph_type x =? PT_LOAD) with (loads x).
  destruct (loads x); cbn [negb implb andb].
  2:{ rewrite Hrest, decide_False by done. done. }
  rewrite (Hrd 3%nat 8%nat (ph_vaddr x) (p + 16)) by (reflexivity || (cbn; lia)). cbn [mbind option_bind].
  rewrite (Hrd 4%nat 8%nat (ph_paddr x) (p + 24)) by (reflexivity || (cbn; lia)). cbn [mbind option_bind].
  rewrite (Hrd 6%nat 8%nat (ph_memsz x) (p + 40)) by (reflexivity || (cbn; lia)). cbn [mbind option_bind].
  unfold guard_ret. rewrite (segment_ok_sum x Hx), Z.ltb_antisym. destruct (_ <=? _); cbn [negb andb]; [|done].
  rewrite Hrest, decide_True by done. cbn [foldl]. unfold lowest.
  replace (if ph_vaddr x <? init then ph_vaddr x else init) with (Z.min init (ph_vaddr x)); [done|].
  destruct (Z.ltb_spec (ph_vaddr x) init); lia.
Qed.

Lemma phdr_loop_defined n d : Forall (fits 8) d -> forall p init, 0 <= p ->
  p + Z.of_nat n * sizeof_phdr <= Z.of_nat (length d) -> is_Some (phdr_loop n d p init).
Proof.
  intros Hd. induction n as [|n IH]; intros p init Hp Hlen; cbn [phdr_loop]; [by eexists|].
  unfold sizeof_phdr in Hlen.
  destruct (read_le_defined 4 d p) as (ty & -> & _); [lia|cbn; lia|done|]. cbn [mbind option_bind].
  assert (forall i, is_Some (phdr_loop n d (p + sizeof_phdr) i)) as Hrest
    by (intros i; apply IH; unfold sizeof_phdr; lia).
  destruct (negb _); [apply Hrest|].
  destruct (read_le_defined 8 d (p + 16)) as (a & -> & _); [lia|cbn; lia|done|].
  destruct (read_le_defined 8 d (p + 24)) as (b & -> & _); [lia|cbn; lia|done|].
  destruct (read_le_defined 8 d (p + 40)) as (c & -> & _); [lia|cbn; lia|done|].
  cbn [mbind option_bind]. unfold guard_ret. destruct (_ <? _); [by eexists|apply Hrest].
Qed.

(** The header of an image of at least 64 bytes. *)
Lemma elf_is_valid_encoded h post : fields_ok (hdr_fields h) ->
  elf_is_valid (Some (encode_hdr h ++ post)) (Z.of_nat (length (encode_hdr h ++ post))) = Some (hdr_ok h).
Proof.
  intros Hok. unfold elf_is_valid, guard_ret, hdr_ok.
  assert (forall k n z off, hdr_fields h !! k = Some (n, z) -> off = fields_size (take k (hdr_fields h)) ->
    read_le n (encode_hdr h ++ post) off = Some z) as Hrd
    by (intros k n z off Hk ->; by eapply (read_field _ k n z [] post 0)).
  rewrite (Hrd 0%nat 4%nat (eh_magic h) 0), (Hrd 1%nat 1%nat (eh_cls h) 4), (Hrd 7%nat 2%nat (eh_type h) 16)
    by reflexivity.
  assert (sizeof_hdr <= Z.of_nat (length (encode_hdr h ++ post))) as Hsz.
  { rewrite length_app, Nat2Z.inj_add. unfold encode_hdr. rewrite encode_length. cbn. unfold sizeof_hdr. lia. }
  rewrite (proj2 (Z.ltb_ge _ _) Hsz). cbn [mbind option_bind].
  destruct (eh_magic h =? ELF_MAGIC), (eh_cls h =? ELFCLASS64), (eh_type h =? ET_EXEC); done.
Qed.

(** ** Properties *)

(** C33. The loader understands every well-formed image: for a header and program headers
    with any field values, laid out as the ELF64 format says with any bytes between and
    after them, [elf_load] accepts exactly when the magic number, class and type are
    right and every loadable segment ends at or below 0x90000000, or ends beyond 2^64 and
    at or below 0x90000000 once 2^64 is taken off, as the sum in the code does; it then
    returns the entry point and the lowest address of a loadable segment, and otherwise
    [ERR_INVALID_ARG] with the outputs untouched. *)
Theorem elf_load_correct h l gap rest e v :
  let d := encode_hdr h ++ gap ++ encode_phdrs l ++ rest in
  fields_ok (hdr_fields h) -> Forall (fun p => fields_ok (phdr_fields p)) l ->
  eh_phoff h = sizeof_hdr + Z.of_nat (length gap) -> eh_phnum h = Z.of_nat (length l) ->
  Z.of_nat (length d) < 2 ^ 64 ->
  elf_load (Some d) (Z.of_nat (length d)) (Some e) (Some v) =
  Some (if hdr_ok h && forallb (fun p => implb (loads p) (segment_ok p)) l
        then (ERR_OK, Some (eh_entry h), Some (lowest (2 ^ 64 - 1) l))
        else (ERR_INVALID_ARG, Some e, Some v)).
Proof.
  intros d Hh Hl Hoff Hnum Hlen. unfold elf_load, guard_ret.
  pose proof (elf_is_valid_encoded h (gap ++ encode_phdrs l ++ rest) Hh) as Hv. fold d in Hv. rewrite Hv.
  assert (forall k n z off, hdr_fields h !! k = Some (n, z) -> off = fields_size (take k (hdr_fields h)) ->
    read_le n d off = Some z) as Hrd
    by (intros k n z off Hk ->; by eapply (read_field _ k n z [] _ 0)).
  cbn [mbind option_bind]. destruct (hdr_ok h); [|done]. cbn [negb andb].
  rewrite (Hrd 11%nat 8%nat (eh_phoff h) 32), (Hrd 16%nat 2%nat (eh_phnum h) 56), (Hrd 10%nat 8%nat (eh_entry h) 24)
    by reflexivity.
  cbn [mbind option_bind].
  assert (Z.of_nat (length (encode_hdr h)) = sizeof_hdr) as Eh by (unfold encode_hdr; by rewrite encode_length).
  assert (Z.of_nat (length (encode_phdrs l)) = Z.of_nat (length l) * sizeof_phdr) as El.
  { clear. induction l as [|p l IH]; [done|]. change (encode_phdrs (p :: l)) with (encode (phdr_fields p) ++ encode_phdrs l).
    rewrite length_app, Nat2Z.inj_add, IH, encode_length. cbn [length]. unfold sizeof_phdr. cbn. lia. }
  assert (eh_phoff h + eh_phnum h * sizeof_phdr <= Z.of_nat (length d)) as Hin.
  { unfold d. rewrite !length_app, !Nat2Z.inj_add, Eh, El. lia. }
  unfold sizeof_phdr, sizeof_hdr in *.
  rewrite u64_small, (proj2 (Z.ltb_ge _ _) Hin) by (unfold fits; lia).
  rewrite Hnum, Nat2Z.id. unfold d. rewrite app_assoc, phdr_loop_encoded by (rewrite ?length_app; done || lia).
  cbn [mbind option_bind]. by destruct (forallb _ l).
Qed.

Definition demo_hdr : elf64_hdr_t :=
  mk_elf64_hdr ELF_MAGIC ELFCLASS64 1 1 0 0 0 ET_EXEC 243 1 0x80100010 64 0 0 64 56 2 0 0 0.
Definition demo_phdrs : list elf64_phdr_t :=
  [mk_elf64_phdr PT_LOAD 5 0x1000 0x80101000 0x80101000 16 16 0x1000;
   mk_elf64_phdr PT_LOAD 6 0x2000 0x80100000 0x80100000 16 64 0x1000].
Definition demo_elf : list Z := encode_hdr demo_hdr ++ [] ++ encode_phdrs demo_phdrs ++ [].

Lemma elf_load_correct_witness :
  elf_load (Some demo_elf) (Z.of_nat (length demo_elf)) (Some 0) (Some 0)
  = Some (ERR_OK, Some 0x80100010, Some 0x80100000).
Proof.
  unfold demo_elf. rewrite (elf_load_correct demo_hdr demo_phdrs [] [] 0 0).
  - vm_compute. reflexivity.
  - repeat constructor; vm_compute; congruence.
  - repeat constructor; vm_compute; congruence.
  - reflexivity.
  - reflexivity.
  - vm_compute. reflexivity.
Defined.

(** The loader never reads outside the file: on any bytes whatsoever, if the end of
    the program header table named by the header does not wrap around 2^64, [elf_load]
    has a result, and when it is an error the outputs are untouched. *)
Theorem elf_load_safe d e v :
  Forall (fits 8) d -> Z.of_nat (length d) < 2 ^ 64 ->
  (forall phoff phnum, read_le 8 d 32 = Some phoff -> read_le 2 d 56 = Some phnum ->
     phoff + phnum * sizeof_phdr < 2 ^ 64) ->
  exists err e' v', elf_load (Some d) (Z.of_nat (length d)) (Some e) (Some v) = Some (err, Some e', Some v') /\
    (err = ERR_OK \/ (err = ERR_INVALID_ARG /\ e' = e /\ v' = v)).
Proof.
  intros Hd Hlen Hwrap. unfold elf_load, elf_is_valid, guard_ret.
  destruct (Z.ltb_spec (Z.of_nat (length d)) sizeof_hdr) as [Hs|Hs].
  { cbn. eexists _, _, _. split; [reflexivity|]. by right. }
  unfold sizeof_hdr in Hs.
  destruct (read_le_defined 4 d 0) as (m & -> & _); [lia|cbn; lia|done|].
  destruct (read_le_defined 1 d 4) as (c & -> & _); [lia|cbn; lia|done|].
  destruct (read_le_defined 2 d 16) as (t & -> & _); [lia|cbn; lia|done|].
  destruct (read_le_defined 8 d 32) as (po & Epo & Hpo); [lia|cbn; lia|done|].
  destruct (read_le_defined 2 d 56) as (pn & Epn & Hpn); [lia|cbn; lia|done|].
  destruct (read_le_defined 8 d 24) as (en & -> & _); [lia|cbn; lia|done|].
  specialize (Hwrap _ _ Epo Epn). rewrite Epo, Epn. cbn [mbind option_bind].
  destruct (m =? ELF_MAGIC), (c =? ELFCLASS64), (t =? ET_EXEC); cbn [negb mbind option_bind];
    try by (eexists _, _, _; split; [reflexivity|by right]).
  unfold fits in Hpo, Hpn. unfold sizeof_phdr in Hwrap |- *.
  rewrite u64_small by (unfold fits; lia).
  destruct (Z.ltb_spec (Z.of_nat (length d)) (po + pn * 56)) as [Hx|Hx].
  { eexists _, _, _. split; [reflexivity|]. by right. }
  destruct (phdr_loop_defined (Z.to_nat pn) d Hd po (2 ^ 64 - 1)) as [r ->];
    [lia|unfold sizeof_phdr; lia|]. cbn [mbind option_bind].
  destruct r; eexists _, _, _; (split; [reflexivity|]); [by left|by right].
Qed.

Lemma elf_load_safe_witness : exists err e' v',
  elf_load (Some (replicate 64 0)) 64 (Some 1) (Some 2) = Some (err, Some e', Some v').
Proof.
  destruct (elf_load_safe (replicate 64 0) 1 2) as (err & e' & v' & H & _).
  - apply Forall_replicate. fits_now.
  - vm_compute. reflexivity.
  - intros po pn Hpo Hpn. vm_compute in Hpo, Hpn. injection Hpo as <-. injection Hpn as <-. vm_compute. reflexivity.
  - exists err, e', v'. exact H.
Defined.

(** When the end of the table wraps around, the size test passes and the loader reads
    far outside the file. *)
Example elf_load_wraps :
  let d := encode_hdr (mk_elf64_hdr ELF_MAGIC ELFCLASS64 1 1 0 0 0 ET_EXEC 243 1 0 (2 ^ 64 - 56) 0 0 64 56 1 0 0 0) in
  elf_load (Some d) 64 (Some 0) (Some 0) = None.
Proof.
  intros d. unfold elf_load. replace (elf_is_valid (Some d) 64) with (Some true) by (vm_compute; reflexivity).
  replace (read_le 8 d 32) with (Some (2 ^ 64 - 56)) by (vm_compute; reflexivity).
  replace (read_le 2 d 56) with (Some 1) by (vm_compute; reflexivity).
  unfold guard_ret. cbn [mbind option_bind negb]. replace (64 <? u64 (2 ^ 64 - 56 + 1 * sizeof_phdr)) with false by done.
  change (Z.to_nat 1) with 1%nat. cbn [phdr_loop read_le].
  rewrite (proj2 (arr_get_None d (2 ^ 64 - 56))); [done|]. change (Z.of_nat (length d)) with 64. lia.
Qed.

(** The bound on the end of a segment wraps in the same way. *)
Example segment_end_wraps :
  segment_ok (mk_elf64_phdr PT_LOAD 7 0 0 0xFFFFFFFFFFFFF000 0 0x1000 0) = true.
Proof. vm_compute. reflexivity. Qed.
