(* ===== verification/Hardening.v ===== *)
(** * hardening.h, hardening.c: canary, guard pages, address checks

    The values of the [time] and [cycle] registers are arguments. [panic] and
    [ubsan_handler] never return and are not modelled. *)

From S2P Require Import Prelude Types Minilib.

Definition STACK_CANARY : Z := 0xDEADBEEFCAFEBABE.
Definition GUARD_PAGE_PATTERN : Z := 0xDEADC0DEDEADC0DE.
Definition GUARD_PAGE_SIZE : Z := 4096.

(** The static variables of hardening.c. *)
Record hardening_t := mk_hardening {
  g_canary : Z;
  g_hardening_done : bool
}.

Definition hardening_zero : hardening_t := mk_hardening 0 false.

Definition hardening_init (rnd cycle : Z) : hardening_t :=
  mk_hardening (Z.lor (Z.lxor (Z.lxor rnd cycle) STACK_CANARY) 0x1) true.

Definition canary_check (h : hardening_t) (canary : Z) : bool :=
  let diff := Z.lxor canary (g_canary h) in diff =? 0.

(** A store of [n] bytes of [v], the lowest first. *)
Fixpoint store_le (n : nat) (m : bmem) (a v : Z) : option bmem :=
  match n with
  | O => Some m
  | S n' => m' ← store8 m a v; store_le n' m' (a + 1) (Z.shiftr v 8)
  end.

(** [for (i = 0; i < len / 8; i++) p[i] = GUARD_PAGE_PATTERN;] *)
Fixpoint fill_loop (n : nat) (m : bmem) (p : Z) : option bmem :=
  match n with
  | O => Some m
  | S n' => m' ← store_le 8 m p GUARD_PAGE_PATTERN; fill_loop n' m' (p + 8)
  end.

Definition guard_page_init (m : bmem) (base len : Z) : option bmem :=
  let len := if len <? GUARD_PAGE_SIZE then GUARD_PAGE_SIZE else len in
  if negb (base =? 0) then fill_loop (Z.to_nat (len / 8)) m base else Some m.

Definition is_canonical_addr (addr : Z) : bool :=
  let top := Z.shiftr addr 38 in
  (top =? 0) || (top =? 0x1FFFFFF).

(** ** Lemmas *)

(** Byte number [i] of the pattern. *)
Definition pattern_byte (i : Z) : Z := u8 (Z.shiftr GUARD_PAGE_PATTERN (8 * (i mod 8))).

Lemma store8_defined m a v : is_Some (m !! a) -> exists m', store8 m a v = Some m'.
Proof. intros [x Hx]. unfold store8. rewrite Hx. by eexists. Qed.

Lemma store_le_spec n : forall m a v, (forall x, a <= x < a + Z.of_nat n -> is_Some (m !! x)) ->
  exists m', store_le n m a v = Some m' /\
    forall x, m' !! x = if (a <=? x) && (x <? a + Z.of_nat n)
                        then Some (u8 (Z.shiftr v (8 * (x - a)))) else m !! x.
Proof.
  induction n as [|n IH]; intros m a v Hm; cbn [store_le].
  { exists m. split; [done|]. intros x. destruct (Z.leb_spec a x), (Z.ltb_spec x (a + Z.of_nat 0)); try done; lia. }
  destruct (store8_defined m a v) as [m1 H1]; [apply Hm; lia|]. rewrite H1. cbn [mbind option_bind].
  destruct (IH m1 (a + 1) (Z.shiftr v 8)) as (m' & H' & Hget).
  { intros x Hx. rewrite (store8_lookup _ _ _ _ x H1). destruct (x =? a); [by eexists|]. apply Hm. lia. }
  exists m'. split; [done|]. intros x. rewrite Hget, (store8_lookup _ _ _ _ x H1).
  destruct (Z.leb_spec (a + 1) x), (Z.ltb_spec x (a + 1 + Z.of_nat n)), (Z.eqb_spec x a),
    (Z.leb_spec a x), (Z.ltb_spec x (a + Z.of_nat (S n))); cbn [andb]; try lia; try done.
  - rewrite Z.shiftr_shiftr by lia. do 3 f_equal. lia.
  - subst x. by rewrite Z.sub_diag, Z.shiftr_0_r.
Qed.

Lemma fill_loop_spec n : forall m p, (forall x, p <= x < p + 8 * Z.of_nat n -> is_Some (m !! x)) ->
  exists m', fill_loop n m p = Some m' /\
    forall x, m' !! x = if (p <=? x) && (x <? p + 8 * Z.of_nat n) then Some (pattern_byte (x - p)) else m !! x.
Proof.
  induction n as [|n IH]; intros m p Hm; cbn [fill_loop].
  { exists m. split; [done|]. intros x. destruct (Z.leb_spec p x), (Z.ltb_spec x (p + 8 * Z.of_nat 0)); try done; lia. }
  destruct (store_le_spec 8 m p GUARD_PAGE_PATTERN) as (m1 & -> & Hg1); [intros x Hx; apply Hm; lia|].
  cbn [mbind option_bind]. destruct (IH m1 (p + 8)) as (m' & -> & Hg).
  { intros x Hx. rewrite Hg1. destruct (_ && _); [by eexists|]. apply Hm. lia. }
  exists m'. split; [done|]. intros x. rewrite Hg, Hg1.
  destruct (Z.leb_spec (p + 8) x), (Z.ltb_spec x (p + 8 + 8 * Z.of_nat n)),
    (Z.leb_spec p x), (Z.ltb_spec x (p + Z.of_nat 8)), (Z.ltb_spec x (p + 8 * Z.of_nat (S n))); cbn [andb]; try lia; try done.
  - unfold pattern_byte. do 4 f_equal. replace (x - p) with (x - (p + 8) + 1 * 8) by lia. by rewrite Z.mod_add.
  - unfold pattern_byte. do 4 f_equal. rewrite Z.mod_small; lia.
Qed.

(** ** Properties *)

(** Guard pages: when the memory is there, [guard_page_init] fills at least a page
    from [base] on (and as many whole words as the length holds) with the pattern
    and changes no other byte; for the null address it changes nothing. *)
Theorem guard_page_init_correct m base len : 0 <= len ->
  let n := 8 * (Z.max len GUARD_PAGE_SIZE / 8) in
  (base <> 0 -> forall x, base <= x < base + n -> is_Some (m !! x)) ->
  exists m', guard_page_init m base len = Some m' /\
    forall x, m' !! x = if negb (base =? 0) && ((base <=? x) && (x <? base + n))
                        then Some (pattern_byte (x - base)) else m !! x.
Proof.
  intros Hlen n Hm. unfold guard_page_init.
  replace (if len <? GUARD_PAGE_SIZE then GUARD_PAGE_SIZE else len) with (Z.max len GUARD_PAGE_SIZE)
    by (destruct (Z.ltb_spec len GUARD_PAGE_SIZE); lia).
  destruct (Z.eqb_spec base 0) as [->|Hb]; cbn [negb andb]; [by exists m|].
  assert (n = 8 * Z.of_nat (Z.to_nat (Z.max len GUARD_PAGE_SIZE / 8))) as En.
  { unfold n. rewrite Z2Nat.id; [done|]. apply Z.div_pos; unfold GUARD_PAGE_SIZE; lia. }
  destruct (fill_loop_spec (Z.to_nat (Z.max len GUARD_PAGE_SIZE / 8)) m base) as (m' & -> & Hg).
  { intros x Hx. apply Hm; [done|lia]. }
  exists m'. split; [done|]. intros x. by rewrite Hg, <- En.
Qed.

(** The canary is a 64-bit word that is never zero, and the check accepts it alone. *)
Theorem canary_correct rnd cycle c : fits 64 rnd -> fits 64 cycle ->
  let h := hardening_init rnd cycle in
  g_canary h <> 0 /\ fits 64 (g_canary h) /\ (canary_check h c = true <-> c = g_canary h).
Proof.
  intros Hr Hc h.
  assert (Z.testbit (g_canary h) 0 = true) as Hb
    by (unfold h, hardening_init; cbn [g_canary]; rewrite Z.lor_spec; apply orb_true_r).
  split_and!.
  - intros E. by rewrite E in Hb.
  - apply fits_bits; [done|]. intros n Hn. unfold h, hardening_init. cbn [g_canary]. rewrite Z.lor_spec, !Z.lxor_spec.
    rewrite !(testbit_high 64) by (done || fits_now). done.
  - unfold canary_check. rewrite Z.eqb_eq. apply Z.lxor_eq_0_iff.
Qed.

(** Hardening: the canary is a non-zero 64-bit word whatever the clocks read and the
    check accepts it alone; when the memory is there [guard_page_init] fills at least a
    page from [base] on (as many whole words as the length holds) with the pattern and
    changes no other byte; and [is_canonical_addr] accepts exactly the addresses below
    2^38 and those of the last 2^38 below 2^63. *)
Theorem hardening_correct rnd cycle c m base len addr :
  fits 64 rnd -> fits 64 cycle -> fits 64 addr -> 0 <= len ->
  let h := hardening_init rnd cycle in
  let n := 8 * (Z.max len GUARD_PAGE_SIZE / 8) in
  (base <> 0 -> forall x, base <= x < base + n -> is_Some (m !! x)) ->
  (g_canary h <> 0 /\ fits 64 (g_canary h) /\ (canary_check h c = true <-> c = g_canary h)) /\
  (exists m', guard_page_init m base len = Some m' /\
    forall x, m' !! x = if negb (base =? 0) && ((base <=? x) && (x <? base + n))
                        then Some (pattern_byte (x - base)) else m !! x) /\
  (is_canonical_addr addr = true <-> addr < 2 ^ 38 \/ 2 ^ 63 - 2 ^ 38 <= addr < 2 ^ 63).
Proof.
  intros Hr Hc Ha Hl h n Hm. split; [by apply canary_correct|]. split; [by apply guard_page_init_correct|].
  unfold is_canonical_addr, fits in *. rewrite orb_true_iff, !Z.eqb_eq, Z.shiftr_div_pow2 by lia.
  pose proof (Z.div_mod addr (2 ^ 38)). pose proof (Z.mod_pos_bound addr (2 ^ 38)). lia.
Qed.

(** A page of zeros at 0x1000. *)
Definition demo_page : bmem := gset_to_gmap 0 (list_to_set (seqZ 0x1000 4096)).

Lemma hardening_correct_witness :
  exists m', guard_page_init demo_page 0x1000 100 = Some m' /\ m' !! 0x1FFF = Some 0xDE /\ m' !! 0x2000 = None /\
    is_canonical_addr 0x80000000 = true.
Proof.
  destruct (hardening_correct 17 42 0 demo_page 0x1000 100 0x80000000) as (_ & (m' & H & Hget) & Hc);
    [fits_now|fits_now|fits_now|lia| |].
  - intros _ x Hx. exists 0. apply lookup_gset_to_gmap_Some. split; [|reflexivity].
    apply elem_of_list_to_set, elem_of_seqZ. vm_compute (8 * _) in Hx. lia.
  - exists m'. split; [exact H|]. rewrite !Hget.
    repeat match goal with |- context [if ?b then _ else demo_page !! ?x] =>
      let r := eval vm_compute in b in change b with r end. cbn iota.
    split; [vm_compute; reflexivity|]. split.
    + apply lookup_gset_to_gmap_None. rewrite elem_of_list_to_set, elem_of_seqZ. lia.
    + apply Hc. left. vm_compute. reflexivity.
Defined.

(** The upper half of the address space is refused: the constant has one bit less than
    the field it is compared with. *)
Example canonical_high_refused : is_canonical_addr 0xFFFFFFFFFFFFF000 = false /\ is_canonical_addr 0x7FFFFFFFFFFFF000 = true.
Proof. by split. Qed.
