(* ===== verification/Boot.v ===== *)
(** * boot.c: the boot sequence

    [kernel_boot] from the state the machine starts in to the loop it parks in, one
    definition per step. Each step may print on the serial line (and, once the
    display is up, on the screen), change the kernel state, or halt the machine. *)

From stdpp Require Import strings.
From S2P Require Import Prelude Types Minilib Cheri Cap CNode Tcb Endpoint Alloc Sched Mdb VSpace.
From S2P Require Import Kernel Invoke Syscall Process Io Vga.

(** What the linker and the hardware decide: the addresses of the global objects, the
    end of the image, the address of [user_hello]; the trap registers, the registers
    and clock readings of the test trap. *)
Record machine := mk_machine {
  m_layout : layout;
  m_vspace : Z;
  m_alloc : Z;
  m_pool : Z;
  m_kernel_end : Z;
  m_user_hello : Z;
  m_mtvec : Z;
  m_mscratch : Z;
  m_regs : trap_frame_t;
  m_entry_us : Z;
  m_exit_us : Z
}.

Record boot_t := mk_boot {
  bt_k : kstate;
  bt_vga : vga_t;
  bt_io : trace;
  bt_satp : Z
}.
#[export] Instance boot_eta : Eta boot_t := fun b => mk_boot (bt_k b) (bt_vga b) (bt_io b) (bt_satp b).

(** ** Steps

    A step has a result, or halts the machine ([None] inside), or is undefined. *)

Definition boot (A : Type) : Type := boot_t -> option (option A * boot_t).
Definition boot_ret {A} (x : A) : boot A := fun b => Some (Some x, b).
Definition boot_bind {A B} (m : boot A) (f : A -> boot B) : boot B := fun b =>
  '(r, b1) ← m b;
  match r with None => Some (None, b1) | Some x => f x b1 end.
(** [while(1) HALT();] *)
Definition HALT {A} : boot A := fun b => Some (None, b).

Declare Scope boot_scope.
Delimit Scope boot_scope with boot.
Bind Scope boot_scope with boot.
Notation "x <~ m 'then' k" := (boot_bind m (fun x => k))
  (at level 100, m at level 99, k at level 200, right associativity) : boot_scope.
Notation "m >~ k" := (boot_bind m (fun _ => k)) (at level 100, right associativity) : boot_scope.
Open Scope boot_scope.

(** A computation on the kernel state. *)
Definition on_kernel {A} (f : kstate -> option (A * kstate)) : boot A := fun b =>
  '(x, k) ← f (bt_k b); Some (Some x, b <| bt_k := k |>).

(** [uart_puts] of boot.c repeats what it sends on the screen. *)
Definition say (s : list Z) : boot unit := fun b =>
  let t := uart_puts s (bt_io b) in
  v ← (if vga_is_initialized (bt_vga b) then vga_console_puts s (bt_vga b) else Some (bt_vga b));
  Some (Some tt, b <| bt_io := t |> <| bt_vga := v |>).

Definition say_hex (x : Z) : boot unit := fun b =>
  let t := uart_hex x (bt_io b) in
  v ← (if vga_is_initialized (bt_vga b) then
         v ← vga_console_puts (hex_digits 16 x) (bt_vga b); vga_console_puts [10] v
       else Some (bt_vga b));
  Some (Some tt, b <| bt_io := t |> <| bt_vga := v |>).

Definition boot_traps (m : machine) : boot unit :=
  say (chars "[trap] mtvec=") >~ say_hex (m_mtvec m) >~
  say (chars "[trap] mscratch=") >~ say_hex (m_mscratch m) >~
  if Z.land (m_mtvec m) (bnot 64 0x3) =? 0 then say (line "[trap] FAIL mtvec zero") >~ HALT
  else say (line "[trap] riscv OK").

Definition boot_ddc : sim_cap_t := mk_sim_cap 0x80000000 0x90000000 0x80000000 0xFF 0 true false.

Definition boot_cheri : boot unit :=
  if negb (cheri_cap_is_valid boot_ddc 0x80000000 0x10000000 (Z.lor CHERI_PERM_LOAD CHERI_PERM_STORE))
  then say (line "[CHERI] FAIL sim DDC") >~ HALT
  else say (line "[CHERI] hybrid sim DDC OK (tag=1 bounds 0x80000000-0x90000000)").

(** [sched_partition_create(&g_sched, ...)], the result ignored. *)
Definition create_partition (i offset budget crit : Z) : boot unit := on_kernel (fun k =>
  '(_, s) ← sched_partition_create (Some (g_sched k)) i offset budget crit;
  s ← s; Some (tt, k <| g_sched := s |>)).

Definition boot_sched : boot unit :=
  on_kernel (fun k => Some (tt, k <| g_sched := sched_init |>)) >~
  create_partition 0 0 6000 1 >~
  create_partition 1 6000 2000 3 >~
  create_partition 2 8000 2000 2 >~
  ok <~ on_kernel (fun k => ok ← sched_is_schedulable (g_sched k); Some (ok, k)) then
  if negb ok then say (line "[SCHED] NOT schedulable") >~ HALT
  else say (line "[SCHED] partitions + EDF OK").

Definition boot_cnode (m : machine) : boot unit :=
  on_kernel (fun k => '(_, h) ← cnode_init (g_cnodes k) (root_cnode (m_layout m)) 0 8;
                      Some (tt, k <| g_cnodes := h |>)) >~
  say (line "[CNODE] root OK").

Definition boot_alloc (m : machine) : boot unit := on_kernel (fun k =>
  Some (tt, k <| g_pt ::= fun w => w <| allocators ::= insert (m_alloc m) (alloc_init 0x80400000 0x400000) |> |>
              <| g_mdb := mdb_init |>)).

(** A call that takes [&g_kernel_vspace]. *)
Definition on_vspace (m : machine) (f : pt_world -> option vspace_t -> option (kerror_t * option vspace_t * pt_world))
    : boot kerror_t := on_kernel (fun k =>
  vs ← g_vspaces k !! m_vspace m;
  '(e, vs', w) ← f (g_pt k) (Some vs);
  vs' ← vs';
  Some (e, k <| g_pt := w |> <| g_vspaces ::= insert (m_vspace m) vs' |>)).

Definition boot_vspace (m : machine) : boot unit :=
  e <~ on_vspace m (fun w vs => vspace_init_with_alloc w vs 1 0 (m_alloc m)) then
  if negb (is_ok e) then say (line "[PAGING] vspace_init FAIL") >~ HALT
  else say (line "[PAGING] root PT alloc OK (per-color via alloc_frame, color 0)").

Definition k_base : Z := 0x80000000.
Definition uart_base : Z := 0x10000000.

Definition kernel_size (m : machine) : Z :=
  let k_size := page_round_up (m_kernel_end m - 0x80000000) in
  if k_size <? 0x400000 then 0x400000 else k_size.

Definition boot_map (m : machine) : boot unit :=
  say (chars "k_size=") >~ say_hex (kernel_size m) >~
  map_err <~ on_vspace m (fun w vs => vspace_map w vs k_base k_base (kernel_size m) 0x7 0) then
  if negb (is_ok map_err) then
    say (chars "[PAGING] kernel map FAIL err=") >~ say_hex (kerror_code map_err) >~ HALT
  else
  say (chars "[PAGING] kernel ") >~ say (chars "Sv39") >~ say (line " mapped") >~
  e <~ on_vspace m (fun w vs => vspace_map w vs uart_base uart_base PAGE_SIZE 0x3 0) then
  if negb (is_ok e) then say (line "[PAGING] UART map FAIL") >~ HALT
  else say (line "[PAGING] UART mapped").

(** [vspace_resolve(&g_kernel_vspace, va, &pa)], and whether it gave [va] itself. *)
Definition resolves_to_itself (m : machine) (va : Z) : boot bool := on_kernel (fun k =>
  vs ← g_vspaces k !! m_vspace m;
  '(ok, pa) ← vspace_resolve (g_pt k) (Some vs) va (Some 0);
  pa ← pa;
  Some (ok && (pa =? va), k)).

Definition boot_check_paging (m : machine) : boot unit :=
  ok <~ resolves_to_itself m k_base then
  say (if (ok : bool) then line "[PAGING] resolve OK" else line "[PAGING] resolve FAIL") >~
  ok <~ resolves_to_itself m uart_base then
  say (if (ok : bool) then line "[PAGING] UART resolve OK" else line "[PAGING] UART resolve FAIL") >~
  (fun b => vs ← g_vspaces (bt_k b) !! m_vspace m;
            Some (Some tt, b <| bt_satp := vspace_satp (Some vs) |>)) >~
  say (chars "[PAGING] ") >~ say (chars "Sv39") >~ say (line " switch OK").

Definition boot_vga (dev : device) (m : machine) : boot unit :=
  e <~ (fun b =>
    vs ← g_vspaces (bt_k b) !! m_vspace m;
    '(e, vs', w, v, t) ← vga_init dev (g_pt (bt_k b)) (Some vs) (bt_vga b) (bt_io b);
    vs' ← vs';
    Some (Some e, b <| bt_k ::= fun k => k <| g_pt := w |> <| g_vspaces ::= insert (m_vspace m) vs' |> |>
                    <| bt_vga := v |> <| bt_io := t |>)) then
  if is_ok e then
    (fun b => v ← vga_draw_hello (bt_vga b); Some (Some tt, b <| bt_vga := v |>)) >~
    say (line "[VGA] framebuffer mapped, drawing Hello world") >~
    say (line "[VGA] Hello world on screen OK")
  else say (line "[VGA] FAIL map framebuffer").

(** [li a7, 3; ecall]: trap.S passes the registers to [syscall_handler] with thread 0
    as the current one. *)
Definition boot_ecall (m : machine) : boot unit := on_kernel (fun k =>
  '(_, k', _) ← syscall_handler (m_layout m) (m_entry_us m) (m_exit_us m) k
                  (Some ((m_regs m) <| a7 := 3 |>)) 0;
  Some (tt, k')).

Definition boot_trap_test (m : machine) : boot unit :=
  say (line "[TRAP] ecall test (SYS_YIELD)...") >~
  boot_ecall m >~
  say (line "[TRAP] ECALL RETURNED - OK") >~
  say (line "[TRAP] HANDLER OK - DONE") >~
  say (line "[FLUSH] MICROARCH OK").

Definition boot_ut : cap_t :=
  cap_zero <| type := CAP_UNTYPED |> <| is_valid := true |> <| is_sealed := true |> <| rights := 0xFF |>
    <| u ::= set_untyped_paddr 0x90000000 |> <| u ::= set_untyped_size 0x400000 |>
    <| hw_cap := mk_sim_cap 0x90000000 0x90400000 0x90000000 0 0 true true |>.

(** [g_root_cnode.slots[i] = c; g_root_cnode.used = f(used);] *)
Definition set_root_slot (m : machine) (i : Z) (c : cap_t) (f : Z -> Z) : boot unit := on_kernel (fun k =>
  cn ← g_cnodes k !! root_cnode (m_layout m);
  l ← (slots cn).[i := c];
  Some (tt, k <| g_cnodes ::= insert (root_cnode (m_layout m)) (cn <| slots := l |> <| used ::= f |>) |>)).

Definition boot_untyped (m : machine) : boot unit :=
  set_root_slot m 0 boot_ut (fun _ => 1) >~
  on_kernel (fun k => '(_, d, _) ← mdb_insert (Some (g_mdb k)) 0xFFFF 0 boot_ut (Some 0);
                      d ← d; Some (tt, k <| g_mdb := d |>)).

(** [process_create(&g_tcbs, &g_alloc, &g_sched, &g_mdb, &args, &pid)]: the result and
    [pid]. *)
Definition boot_process (m : machine) (args : process_create_args_t) : boot (kerror_t * Z) := on_kernel (fun k =>
  al ← allocators (g_pt k) !! m_alloc m;
  '(e, v, pid) ← process_create (Some (mk_proc_env (g_tcbs k) al (g_sched k) (g_mdb k))) (Some args) (Some 0);
  v ← v; pid ← pid;
  Some ((e, pid), k <| g_tcbs := pe_tcbs v |> <| g_sched := pe_sched v |> <| g_mdb := pe_mdb v |>
                    <| g_pt ::= fun w => w <| allocators ::= insert (m_alloc m) (pe_alloc v) |> |>)).

Definition boot_resume (pid : Z) : boot unit := on_kernel (fun k =>
  tcbs ← upd_thread (g_tcbs k) pid (fun t => default t (tcb_resume (Some t)));
  Some (tt, k <| g_tcbs := tcbs |>)).

Definition server_args (m : machine) (sp_top part prio budget period : Z) : process_create_args_t :=
  mk_process_args 0 0 part budget period prio (m_user_hello m) sp_top 4096.

Definition boot_hello (m : machine) : boot unit :=
  r <~ boot_process m (server_args m 0x80500000 0 10 1000 5000) then
  if is_ok r.1 then
    say (line "[BOOT] hello thread created") >~ boot_resume r.2 >~ say (line "[BOOT] hello thread resumed")
  else boot_ret tt.

Definition boot_retype (m : machine) : boot unit :=
  re <~ on_kernel (fun k =>
    c ← root_lookup (m_layout m) k 0;
    match c with
    | Some ut =>
        if type ut =? CAP_UNTYPED then
          '(re, k') ← handle_invoke (m_layout m) k (Some ut) (invoke_op_code INV_UNTYPED_RETYPE)
                       (Z.lor (Z.shiftl 5 8) (invoke_op_code INV_UNTYPED_RETYPE)) CAP_FRAME 4096;
          Some (Some re, k')
        else Some (None, k)
    | None => Some (None, k)
    end) then
  match re with
  | Some re => say (if is_ok re then line "[BOOT] handle_invoke retype OK" else line "[BOOT] retype FAIL")
  | None => boot_ret tt
  end.

Definition boot_driver_note : boot unit :=
  say (line "[BOOT] virtio_net driver isolated (MMIO+IRQ+IOMMU, partition 2, no kernel access)") >~
  say (line "[BOOT] driver IOMMU window 0x50000000-0x50100000 (dev 0) OK") >~
  say (line "[BOOT] driver IRQ 3 -> Notification badge 0x4000 OK").

Definition ep_cap (m : machine) (i : Z) : cap_t :=
  cap_zero <| type := CAP_ENDPOINT |> <| is_valid := true |> <| is_sealed := true |>
    <| hw_cap ::= fun h => h <| hw_tag := true |> |> <| u ::= set_endpoint_ep_ptr (ep_addr (m_layout m) i) |>
    <| rights := 0xFF |>.

Definition boot_endpoint (m : machine) (i : Z) : boot unit :=
  on_kernel (fun k =>
    e ← (g_endpoints k).[i];
    l ← (g_endpoints k).[i := e <| has_receiver := false |> <| q_len := 0 |> <| pending := false |>];
    Some (tt, k <| g_endpoints := l |>)) >~
  set_root_slot m (10 + i) (ep_cap m i) (fun n => u32 (n + 1)).

(** Creating one of the servers. *)
Definition boot_server (m : machine) (args : process_create_args_t) (msg : string) : boot unit :=
  r <~ boot_process m args then
  if is_ok r.1 then boot_resume r.2 >~ say (chars msg) >~ say_hex r.2 else boot_ret tt.

Definition kernel_boot (dev : device) (m : machine) : boot unit :=
  say (10 :: line "[BOOT] MoonlightOS trap/paging/CHERI init") >~
  boot_traps m >~ boot_cheri >~ boot_sched >~ boot_cnode m >~
  boot_alloc m >~ boot_vspace m >~ boot_map m >~ boot_check_paging m >~
  boot_vga dev m >~ boot_trap_test m >~
  boot_untyped m >~ boot_hello m >~ boot_retype m >~ boot_driver_note >~
  boot_endpoint m 1 >~ boot_endpoint m 2 >~ boot_endpoint m 3 >~
  boot_server m (server_args m 0x80600000 0 5 500 2000) "[BOOT] mem_server spawned pid " >~
  boot_server m (server_args m 0x80700000 1 5 500 2000) "[BOOT] sched_server spawned pid " >~
  boot_server m (server_args m 0x80800000 2 5 500 2000) "[BOOT] vfs_server spawned pid " >~
  say (line "[BOOT] ALL OK - parking").

(** As many turns of the loop of [user_hello] as [l] is long: the times at which the
    trap is entered and left, and the registers other than [a7], are those of [l]. *)
Definition user_hello (m : machine) (l : list (Z * Z * trap_frame_t)) : boot (list kerror_t) :=
  say (line "[USER] hello from userspace thread") >~
  on_kernel (fun k => syscall_run (m_layout m) k
    (map (fun '(entry, exit, f) => mk_event entry exit 0 (f <| a7 := 3 |>)) l)).

(** The state the machine starts in: all global objects zero ([sched_init] is the zero
    scheduler). *)
Definition power_on (m : machine) : boot_t :=
  mk_boot
    (mk_kstate tcb_table_zero (replicate (Z.to_nat MAX_ENDPOINTS) endpoint_zero)
       {[ root_cnode (m_layout m) := cnode_zero ]} sched_init
       (mk_mdb_tree (replicate (Z.to_nat MAX_MDB_NODES) mdb_node_zero) 0 0)
       {[ m_vspace m := vspace_zero ]} (mk_pt_world ∅ {[ m_alloc m := frame_alloc_zero ]} (m_pool m) 0))
    vga_zero [] 0.

(** ** Reasoning about steps

    A step run in a state that satisfies [P] is defined, keeps the console usable,
    and establishes [Q]; it halts only if [H]. *)

Definition console_ok (v : vga_t) : Prop :=
  fb_init_done v = true -> exists a, shows v a /\ cursor_ok a.

Definition triple {A} (H : Prop) (P : kstate -> Prop) (c : boot A) (Q : A -> kstate -> Prop) : Prop :=
  forall b, P (bt_k b) -> console_ok (bt_vga b) ->
  exists r b', c b = Some (r, b') /\ console_ok (bt_vga b') /\
    match r with Some x => Q x (bt_k b') | None => H end.

Lemma ready_console v : console_ready v -> exists a, shows v a /\ cursor_ok a.
Proof.
  intros (Hi & Hx & Hy). exists (mk_text (fun _ _ => None) 0 0). split; [by constructor|].
  split; vm_compute; split; congruence.
Qed.

Lemma puts_console s v : console_ok v ->
  exists v', (if vga_is_initialized v then vga_console_puts s v else Some v) = Some v' /\ console_ok v'.
Proof.
  intros Hv. unfold vga_is_initialized. destruct (fb_init_done v) eqn:E; [|by exists v].
  destruct (Hv E) as (a & Hs & Hc). destruct (puts_shows s v a Hs Hc) as (v' & Hp & Hs' & Hc').
  exists v'. split; [done|]. intros _. by eexists.
Qed.

Section Triples.
Context (H : Prop).

Lemma triple_ret {A} (P : kstate -> Prop) (x : A) (Q : A -> kstate -> Prop) : (forall k, P k -> Q x k) -> triple H P (boot_ret x) Q.
Proof. intros HQ b HP Hc. eexists _, _. split; [reflexivity|]. split; [done|]. by apply HQ. Qed.

Lemma triple_halt {A} P (Q : A -> kstate -> Prop) : (forall k, P k -> H) -> triple H P HALT Q.
Proof. intros HH b HP Hc. eexists _, _. split; [reflexivity|]. split; [done|]. by eapply HH. Qed.

Lemma triple_bind {A B} P (c : boot A) R (f : A -> boot B) Q :
  triple H P c R -> (forall x, triple H (R x) (f x) Q) -> triple H P (boot_bind c f) Q.
Proof.
  intros Hc Hf b HP Hb. destruct (Hc b HP Hb) as (r & b1 & Hrun & Hb1 & Hr). unfold boot_bind. rewrite Hrun.
  cbn [mbind option_bind]. destruct r as [x|]; [by apply Hf|]. by exists None, b1.
Qed.

Lemma triple_seq {A B} P (c : boot A) R (d : boot B) Q :
  triple H P c (fun _ => R) -> triple H R d Q -> triple H P (c >~ d) Q.
Proof. intros Hc Hd. eapply triple_bind; [exact Hc|done]. Qed.

Lemma triple_fact {A} (F : Prop) P (c : boot A) Q : (F -> triple H P c Q) -> triple H (fun k => F /\ P k) c Q.
Proof. intros Hc b [HF HP] Hb. by apply Hc. Qed.

Lemma triple_kernel {A} (P : kstate -> Prop) (f : kstate -> option (A * kstate)) Q :
  (forall k, P k -> exists x k', f k = Some (x, k') /\ Q x k') -> triple H P (on_kernel f) Q.
Proof.
  intros Hf b HP Hb. destruct (Hf _ HP) as (x & k' & Hrun & HQ). unfold on_kernel. rewrite Hrun.
  cbn [mbind option_bind]. eexists _, _. split; [reflexivity|]. by split.
Qed.

Lemma triple_say s P : triple H P (say s) (fun _ => P).
Proof.
  intros b HP Hb. unfold say. destruct (puts_console s _ Hb) as (v & -> & Hv). cbn [mbind option_bind].
  eexists _, _. split; [reflexivity|]. by split.
Qed.

Lemma triple_say_hex x P : triple H P (say_hex x) (fun _ => P).
Proof.
  intros b HP Hb. unfold say_hex, vga_is_initialized. destruct (fb_init_done (bt_vga b)) eqn:E.
  2:{ cbn [mbind option_bind]. eexists _, _. split; [reflexivity|]. by split. }
  destruct (Hb E) as (a & Hs & Hc). destruct (puts_shows (hex_digits 16 x) _ a Hs Hc) as (v1 & -> & Hs1 & Hc1).
  cbn [mbind option_bind]. destruct (puts_shows [10] v1 _ Hs1 Hc1) as (v2 & -> & Hs2 & Hc2).
  cbn [mbind option_bind]. eexists _, _. split; [reflexivity|]. split; [|done]. intros _. by eexists.
Qed.

Lemma triple_then_say {A} s P (d : boot A) Q : triple H P d Q -> triple H P (say s >~ d) Q.
Proof. intros Hd. eapply triple_seq; [apply triple_say|done]. Qed.

Lemma triple_then_say_hex {A} x P (d : boot A) Q : triple H P d Q -> triple H P (say_hex x >~ d) Q.
Proof. intros Hd. eapply triple_seq; [apply triple_say_hex|done]. Qed.
End Triples.

(** Step over what is printed. *)
Ltac says := repeat first [apply triple_then_say | apply triple_then_say_hex].

(** ** Mapping does not depend on where the allocator is

    The result of a table operation on a world with one allocator is the same for
    every address the allocator may have, so that one evaluation decides it. *)

Section Uniform.
Context {X : Type}.

Definition world_at (a p : Z) (mem : gmap Z (list Z)) (al : frame_alloc_t) : pt_world :=
  mk_pt_world mem {[a := al]} p 0.
Definition vs_at (a : Z) (vs : vspace_t) : vspace_t := vs <| vs_alloc := a |>.

(** [f a p] is the operation with the allocator at [a] and the fallback pool at [p]. *)
Definition uniform (f : Z -> Z -> option (X * vspace_t * pt_world)) : Prop :=
  (forall a p, a <> NULL -> f a p = None) \/
  exists x vs mem al, forall a p, a <> NULL -> f a p = Some (x, vs_at a vs, world_at a p mem al).

Lemma uniform_some x vs mem al : uniform (fun a p => Some (x, vs_at a vs, world_at a p mem al)).
Proof. right. by exists x, vs, mem, al. Qed.
End Uniform.

Lemma uniform_bind {X Y} (f : Z -> Z -> option (X * vspace_t * pt_world)) (g : X -> vspace_t -> pt_world -> option (Y * vspace_t * pt_world)) :
  uniform f -> (forall x vs mem al, uniform (fun a p => g x (vs_at a vs) (world_at a p mem al))) ->
  uniform (fun a p => '(x, vs, w) ← f a p; g x vs w).
Proof.
  intros [Hf|(x & vs & mem & al & Hf)] Hg; [left; intros a p Ha; by rewrite Hf|].
  destruct (Hg x vs mem al) as [Hn|(y & vs' & mem' & al' & Hy)]; [left|right].
  - intros a p Ha. rewrite Hf by done. by apply Hn.
  - exists y, vs', mem', al'. intros a p Ha. rewrite Hf by done. by apply Hy.
Qed.

Lemma uniform_ext {X} (f g : Z -> Z -> option (X * vspace_t * pt_world)) :
  (forall a p, a <> NULL -> f a p = g a p) -> uniform g -> uniform f.
Proof.
  intros E [Hn|(x & vs & mem & al & Hg)]; [left|right].
  - intros a p Ha. rewrite E by done. by apply Hn.
  - exists x, vs, mem, al. intros a p Ha. rewrite E by done. by apply Hg.
Qed.

Lemma uniform_none {X} : uniform (X := X) (fun _ _ => None).
Proof. by left. Qed.

(** [alloc_pt_page] with an allocator, as a computation on the tables and the allocator. *)
Lemma alloc_pt_page_at vs mem al a p : a <> NULL ->
  alloc_pt_page (world_at a p mem al) (vs_at a vs) =
  if (MAX_PT_PAGES <=? vs_pt_caps_count vs) || (MAX_PT_PAGES <=? vs_pt_pages_used vs)
  then Some (NULL, vs_at a vs, world_at a p mem al)
  else
    '(e, al', out) ← alloc_frame (Some al) (vs_partition_id vs) PAGE_SIZE (Some cap_zero);
    al' ← al'; c ← out;
    if is_ok e then
      caps ← (vs_pt_caps vs).[vs_pt_caps_count vs := c];
      Some (frame_paddr (u c), vs_at a (vs <| vs_pt_caps := caps |> <| vs_pt_caps_count ::= fun n => u32 (n + 1) |>
              <| vs_pt_pages_used ::= fun n => u32 (n + 1) |>), world_at a p (<[frame_paddr (u c) := zero_page]> mem) al')
    else Some (NULL, vs_at a vs, world_at a p mem al').
Proof.
  intros Ha. unfold alloc_pt_page, guard_ret.
  change (vs_pt_caps_count (vs_at a vs)) with (vs_pt_caps_count vs).
  change (vs_pt_pages_used (vs_at a vs)) with (vs_pt_pages_used vs).
  change (vs_alloc (vs_at a vs)) with a. change (vs_partition_id (vs_at a vs)) with (vs_partition_id vs).
  change (allocators (world_at a p mem al)) with ({[a := al]} : gmap Z frame_alloc_t).
  change (vs_pt_caps (vs_at a vs)) with (vs_pt_caps vs).
  destruct (MAX_PT_PAGES <=? vs_pt_caps_count vs); [done|]. destruct (MAX_PT_PAGES <=? vs_pt_pages_used vs); [done|].
  rewrite (proj2 (Z.eqb_neq _ _) Ha), lookup_singleton_eq. cbn [negb orb mbind option_bind].
  destruct (alloc_frame _ _ _ _) as [[[e [al'|]] [c|]]|]; try done. cbn [mbind option_bind].
  assert ((world_at a p mem al) <| allocators ::= insert a al' |> = world_at a p mem al') as ->
    by (change (mk_pt_world mem (<[a := al']> {[a := al]}) p 0 = world_at a p mem al'); by rewrite insert_singleton_eq).
  destruct (is_ok e); [|done]. cbn [negb]. by destruct (_.[_ := c]).
Qed.

Lemma uniform_alloc_pt_page vs mem al : uniform (fun a p => alloc_pt_page (world_at a p mem al) (vs_at a vs)).
Proof.
  eapply uniform_ext; [intros a p Ha; by apply alloc_pt_page_at|].
  destruct (_ || _); [apply uniform_some|].
  destruct (alloc_frame _ _ _ _) as [[[e [al'|]] [c|]]|]; try apply uniform_none. cbn [mbind option_bind].
  destruct (is_ok e); [|apply uniform_some]. destruct (_.[_ := c]); [apply uniform_some|apply uniform_none].
Qed.

Lemma uniform_write {X} mem al t i v (g : pt_world -> Z -> Z -> option (X * vspace_t * pt_world)) :
  (forall mem', uniform (fun a p => g (world_at a p mem' al) a p)) ->
  uniform (fun a p => w ← write_pte (world_at a p mem al) t i v; g w a p).
Proof.
  intros Hg. unfold write_pte. cbn [pt_mem world_at]. destruct (mem !! t) as [l|]; [|apply uniform_none].
  cbn [mbind option_bind]. destruct (l.[i := v]) as [l'|]; [|apply uniform_none].
  exact (Hg (<[t := l']> mem)).
Qed.

Lemma uniform_read {X} mem al t i (g : Z -> Z -> Z -> option (X * vspace_t * pt_world)) :
  (forall e, uniform (g e)) ->
  uniform (fun a p => e ← read_pte (world_at a p mem al) t i; g e a p).
Proof.
  intros Hg. unfold read_pte. cbn [pt_mem world_at]. destruct (mem !! t) as [l|]; [|apply uniform_none].
  cbn [mbind option_bind]. destruct (l.[i]) as [e|]; [exact (Hg e)|apply uniform_none].
Qed.

Lemma uniform_next_table vs mem al t i : uniform (fun a p => next_table (world_at a p mem al) (vs_at a vs) t i).
Proof.
  unfold next_table. apply uniform_read. intros e. apply (uniform_bind (X := bool)).
  - destruct (negb _); [|apply uniform_some]. apply uniform_bind; [apply uniform_alloc_pt_page|].
    intros n vs1 mem1 al1. destruct (n =? NULL); [apply uniform_some|].
    apply uniform_write. intros mem2. apply uniform_some.
  - intros ok vs1 mem1 al1. destruct ok; [|apply uniform_some]. apply uniform_read. intros e1. apply uniform_some.
Qed.

Lemma uniform_map_page vs mem al va pa flags : uniform (fun a p => map_page (world_at a p mem al) (vs_at a vs) va pa flags).
Proof.
  unfold map_page. change (vs_root (vs_at _ vs)) with (vs_root vs).
  apply uniform_bind; [apply uniform_next_table|]. intros [l1|] vs1 mem1 al1; [|apply uniform_some].
  apply uniform_bind; [apply uniform_next_table|]. intros [l0|] vs2 mem2 al2; [|apply uniform_some].
  apply uniform_read. intros e. unfold guard_ret. destruct (pte_valid e); [apply uniform_some|].
  apply uniform_write. intros mem3. apply uniform_some.
Qed.

Lemma uniform_map_loop n : forall vs mem al va pa size flags off,
  uniform (fun a p => map_loop n (world_at a p mem al) (vs_at a vs) va pa size flags off).
Proof.
  induction n as [|n IH]; intros; cbn [map_loop]; (destruct (_ <? _); [|apply uniform_some]); [apply uniform_none|].
  apply uniform_bind; [apply uniform_map_page|]. intros [e|] vs1 mem1 al1; [apply uniform_some|apply IH].
Qed.

(** The paging part of the boot sequence: the results of its three calls. *)
Definition paging_calls (a p : Z) : option (kerror_t * kerror_t * kerror_t) :=
  '(e0, v, w) ← vspace_init_with_alloc (world_at a p ∅ (alloc_init 0x80400000 0x400000)) (Some vspace_zero) 1 0 a;
  '(e1, v, w) ← vspace_map w v k_base k_base 0x400000 0x7 0;
  '(e2, _, _) ← vspace_map w v uart_base uart_base PAGE_SIZE 0x3 0;
  Some (e0, e1, e2).

(** The same for the operations that take and return a pointer. *)
Definition uniform_ptr (f : Z -> Z -> option (kerror_t * option vspace_t * pt_world)) : Prop :=
  (forall a p, a <> NULL -> f a p = None) \/
  exists x vs mem al, forall a p, a <> NULL -> f a p = Some (x, Some (vs_at a vs), world_at a p mem al).

Lemma uniform_ptr_some x vs mem al : uniform_ptr (fun a p => Some (x, Some (vs_at a vs), world_at a p mem al)).
Proof. right. by exists x, vs, mem, al. Qed.

Lemma uniform_ptr_of {X} (f : Z -> Z -> option (X * vspace_t * pt_world)) (g : X -> kerror_t) (h : X -> vspace_t -> vspace_t) :
  uniform f -> (forall x a vs, h x (vs_at a vs) = vs_at a (h x vs)) ->
  uniform_ptr (fun a p => '(x, v, w) ← f a p; Some (g x, Some (h x v), w)).
Proof.
  intros [Hn|(x & vs & mem & al & Hf)] Hh; [left; intros a p Ha; by rewrite Hn|right].
  exists (g x), (h x vs), mem, al. intros a p Ha. rewrite Hf by done. cbn. by rewrite Hh.
Qed.

Lemma uniform_ptr_ext f g : (forall a p, a <> NULL -> f a p = g a p) -> uniform_ptr g -> uniform_ptr f.
Proof.
  intros E [Hn|(x & vs & mem & al & Hg)]; [left|right].
  - intros a p Ha. rewrite E by done. by apply Hn.
  - exists x, vs, mem, al. intros a p Ha. rewrite E by done. by apply Hg.
Qed.

Lemma uniform_vspace_map vs mem al va pa size perms color' :
  uniform_ptr (fun a p => vspace_map (world_at a p mem al) (Some (vs_at a vs)) va pa size perms color').
Proof.
  unfold vspace_map, guard_ret. change (vs_root (vs_at _ vs)) with (vs_root vs).
  change (map_flags (vs_at _ vs) perms) with (map_flags vs perms).
  repeat match goal with |- uniform_ptr (fun a p => if ?b then _ else _) => destruct b; [apply uniform_ptr_some|] end.
  eapply uniform_ptr_ext; [|apply (uniform_ptr_of (X := kerror_t) _ (fun e => e) (fun _ v => v)
    (uniform_map_loop (page_count size) vs mem al va pa size (map_flags vs perms) 0)); done].
  done.
Qed.

Lemma uniform_vspace_init mem al asid part :
  uniform_ptr (fun a p => vspace_init_with_alloc (world_at a p mem al) (Some vspace_zero) asid part a).
Proof.
  set (v0 := vspace_zero <| vs_asid := asid |> <| vs_partition_id := part |>).
  eapply uniform_ptr_ext; [|apply (uniform_ptr_of (X := Z)
    (fun a p => alloc_pt_page (world_at a p mem al) (vs_at a v0))
    (fun root => if root =? NULL then ERR_NO_MEM else ERR_OK) (fun root v => v <| vs_root := root |>)); [apply uniform_alloc_pt_page|done]].
  intros a p Ha. unfold vspace_init_with_alloc, guard_ret. cbv zeta.
  change (vspace_zero <| vs_asid := asid |> <| vs_partition_id := part |> <| vs_alloc := a |> <| vs_base := 0 |>
    <| vs_length := 0 |> <| vs_pt_pages_used := 0 |> <| vs_pt_caps_count := 0 |>) with (vs_at a v0).
  destruct (alloc_pt_page _ _) as [[[root v] w]|]; [|done]. cbn [mbind option_bind].
  change (vs_root (v <| vs_root := root |>)) with root. by destruct (root =? NULL).
Qed.

Lemma paging_calls_ok a p : a <> NULL -> paging_calls a p = Some (ERR_OK, ERR_OK, ERR_OK).
Proof.
  intros Ha. assert (paging_calls 1 0 = Some (ERR_OK, ERR_OK, ERR_OK)) as E by (vm_compute; reflexivity).
  rewrite <- E. unfold paging_calls.
  destruct (uniform_vspace_init ∅ (alloc_init 0x80400000 0x400000) 1 0) as [Hn|(x0 & v0 & m0 & a0' & H0)];
    [by rewrite !Hn|]. rewrite !H0 by done. cbn [mbind option_bind].
  destruct (uniform_vspace_map v0 m0 a0' k_base k_base 0x400000 0x7 0) as [Hn|(x1 & v1 & m1 & a1' & H1)];
    [by rewrite !Hn|]. rewrite !H1 by done. cbn [mbind option_bind].
  destruct (uniform_vspace_map v1 m1 a1' uart_base uart_base PAGE_SIZE 0x3 0) as [Hn|(x2 & v2 & m2 & a2' & H2)];
    [by rewrite !Hn|]. rewrite !H2 by done. done.
Qed.

(** ** The machine *)

Record machine_wf (m : machine) : Prop := {
  mc_layout : layout_wf (m_layout m);
  mc_alloc : m_alloc m <> NULL;
  mc_end : 0x80000000 <= m_kernel_end m < 2 ^ 62
}.

(** A trap vector is installed and the image ends below the allocator's region. *)
Definition bootable (m : machine) : Prop :=
  Z.land (m_mtvec m) (bnot 64 0x3) <> 0 /\ m_kernel_end m <= 0x80400000.

Lemma page_round_up_spec x : 0 <= x < 2 ^ 63 -> page_round_up x = PAGE_SIZE * ((x + PAGE_SIZE - 1) / PAGE_SIZE).
Proof.
  intros Hx. unfold page_round_up, PAGE_SIZE. rewrite u64_small by (unfold fits; lia).
  rewrite land_bnot by (unfold fits; lia). change (4096 - 1) with (Z.ones 12).
  rewrite Z.ldiff_ones_r, Z.shiftl_mul_pow2, Z.shiftr_div_pow2 by lia. change (2 ^ 12) with 4096. lia.
Qed.

Lemma kernel_size_bounds m : machine_wf m ->
  0x400000 <= kernel_size m <= 2 ^ 62 /\ (m_kernel_end m <= 0x80400000 -> kernel_size m = 0x400000).
Proof.
  intros Hm. pose proof (mc_end _ Hm) as He. unfold kernel_size. cbv zeta. rewrite page_round_up_spec by lia.
  unfold PAGE_SIZE. set (x := m_kernel_end m - 2147483648 + 4096 - 1).
  assert (4096 * (x / 4096) <= x) by (apply Z.mul_div_le; lia).
  destruct (Z.ltb_spec (4096 * (x / 4096)) 0x400000); split; unfold x in *; try lia.
Qed.

(** ** The steps up to paging *)

Definition partition_of (s : sched_state_t) (i offset budget crit : Z) : sched_state_t :=
  match sched_partition_create (Some s) i offset budget crit with Some (_, Some s') => s' | _ => s end.
Definition boot_sched_state : sched_state_t :=
  partition_of (partition_of (partition_of sched_init 0 0 6000 1) 1 6000 2000 3) 2 8000 2000 2.

Definition boot_root : cnode_t := cnode_zero <| guard := 0 |> <| radix := 8 |>.

(** The kernel before the address space is set up. *)
Definition boot_start (m : machine) : kstate :=
  mk_kstate tcb_table_zero (replicate (Z.to_nat MAX_ENDPOINTS) endpoint_zero)
    {[ root_cnode (m_layout m) := boot_root ]} boot_sched_state mdb_init
    {[ m_vspace m := vspace_zero ]} (world_at (m_alloc m) (m_pool m) ∅ (alloc_init 0x80400000 0x400000)).

Lemma partition_of_wf s i f b c : sched_wf s -> sched_op_ok (SCreate i f b c) ->
  sched_wf (partition_of s i f b c) /\
  exists e, sched_partition_create (Some s) i f b c = Some (e, Some (partition_of s i f b c)).
Proof.
  intros Hs Ho. destruct (sched_exec_wf s (SCreate i f b c) Hs Ho) as (s' & Hrun & Hs'). unfold partition_of.
  cbn [sched_exec] in Hrun. destruct (sched_partition_create (Some s) i f b c) as [[e [s1|]]|];
    [|discriminate Hrun..]. cbn [mbind option_bind] in Hrun. injection Hrun as <-. split; [done|]. by exists e.
Qed.

Lemma boot_sched_parts : exists s1 s2, s1 = partition_of sched_init 0 0 6000 1 /\
  s2 = partition_of s1 1 6000 2000 3 /\ boot_sched_state = partition_of s2 2 8000 2000 2 /\ sched_wf s1 /\ sched_wf s2.
Proof.
  eexists _, _. do 3 (split; [reflexivity|]).
  split; [|apply partition_of_wf; [|repeat split; vm_compute; congruence]];
    (apply partition_of_wf; [apply sched_init_wf|repeat split; vm_compute; congruence]).
Qed.

Lemma boot_sched_wf : sched_wf boot_sched_state.
Proof.
  destruct boot_sched_parts as (s1 & s2 & _ & _ & -> & _ & Hs2).
  apply partition_of_wf; [done|repeat split; vm_compute; congruence].
Qed.

Lemma boot_schedulable : sched_is_schedulable boot_sched_state = Some true.
Proof. vm_compute. reflexivity. Qed.
#[local] Opaque boot_sched_state partition_of.

Section Steps.
Context (m : machine) (Hm : machine_wf m).
Abbreviation H := (~ bootable m).

Lemma create_partition_step s i f b c s' : sched_wf s -> sched_op_ok (SCreate i f b c) -> s' = partition_of s i f b c ->
  triple H (fun k => k = (bt_k (power_on m)) <| g_sched := s |>) (create_partition i f b c)
    (fun _ k => k = (bt_k (power_on m)) <| g_sched := s' |>).
Proof using.
  intros Hs Ho ->. apply triple_kernel. intros k ->. destruct (partition_of_wf s i f b c Hs Ho) as (_ & e & He).
  change (g_sched (_ <| g_sched := s |>)) with s. rewrite He. cbn [mbind option_bind]. eexists _, _. by split.
Qed.

Lemma boot_sched_step :
  triple H (fun k => k = bt_k (power_on m)) boot_sched (fun _ k => k = (bt_k (power_on m)) <| g_sched := boot_sched_state |>).
Proof using.
  unfold boot_sched. destruct boot_sched_parts as (s1 & s2 & E1 & E2 & E3 & Hs1 & Hs2).
  eapply (triple_seq _ _ _ (fun k => k = (bt_k (power_on m)) <| g_sched := sched_init |>)).
  { apply triple_kernel. intros k ->. eexists _, _. by split. }
  eapply triple_seq; [apply (create_partition_step _ _ _ _ _ s1 sched_init_wf); [repeat split; vm_compute; congruence|done]|].
  eapply triple_seq; [apply (create_partition_step _ _ _ _ _ s2 Hs1); [repeat split; vm_compute; congruence|done]|].
  eapply triple_seq;
    [apply (create_partition_step _ _ _ _ _ boot_sched_state Hs2); [repeat split; vm_compute; congruence|done]|].
  eapply (triple_bind _ _ _ (fun ok k => ok = true /\ k = (bt_k (power_on m)) <| g_sched := boot_sched_state |>)).
  - apply triple_kernel. intros k ->. exists true. eexists. split; [|by split].
    change (g_sched (_ <| g_sched := boot_sched_state |>)) with boot_sched_state. by rewrite boot_schedulable.
  - intros ok. apply triple_fact. intros ->. apply triple_say.
Qed.

Lemma boot_traps_step P : triple H P (boot_traps m) (fun _ => P).
Proof using.
  unfold boot_traps. says. destruct (Z.eqb_spec (Z.land (m_mtvec m) (bnot 64 0x3)) 0) as [E|E]; [|apply triple_say].
  says. apply triple_halt. by intros k _ [Hb _].
Qed.

Lemma boot_cheri_step P : triple H P boot_cheri (fun _ => P).
Proof using. apply triple_say. Qed.

Lemma boot_cnode_step :
  triple H (fun k => k = (bt_k (power_on m)) <| g_sched := boot_sched_state |>) (boot_cnode m)
    (fun _ k => k = (bt_k (power_on m)) <| g_sched := boot_sched_state |>
      <| g_cnodes := {[ root_cnode (m_layout m) := boot_root ]} |>).
Proof using Hm.
  unfold boot_cnode. eapply (triple_seq _ _ _ (fun k => k = _)); [|apply triple_say].
  apply triple_kernel. intros k ->.
  change (g_cnodes ((bt_k (power_on m)) <| g_sched := boot_sched_state |>))
    with ({[ root_cnode (m_layout m) := cnode_zero ]} : cnodes). unfold cnode_init, guard_ret.
  rewrite (proj2 (Z.eqb_neq _ _) (lw_root _ (mc_layout _ Hm))).
  cbn [orb Z.ltb Z.eqb Z.compare Pos.compare Pos.compare_cont Pos.eqb]. rewrite lookup_singleton_eq.
  cbn [mbind option_bind]. rewrite insert_singleton_eq. eexists _, _. by split.
Qed.

Lemma boot_alloc_step :
  triple H (fun k => k = (bt_k (power_on m)) <| g_sched := boot_sched_state |>
      <| g_cnodes := {[ root_cnode (m_layout m) := boot_root ]} |>) (boot_alloc m) (fun _ k => k = boot_start m).
Proof using.
  apply triple_kernel. intros k ->. eexists _, _. split; [reflexivity|]. symmetry. unfold boot_start, world_at.
  rewrite <- (insert_singleton_eq (m_alloc m) (alloc_init 0x80400000 0x400000) frame_alloc_zero).
  reflexivity.
Qed.

(** ** Paging *)

(** The kernel with the address space [v] on the tables [w]. *)
Definition with_space (k : kstate) (w : pt_world) (v : vspace_t) : kstate :=
  k <| g_pt := w |> <| g_vspaces := {[ m_vspace m := v ]} |>.

Lemma on_vspace_step (P : kstate -> Prop) f (Q : kerror_t -> kstate -> Prop) :
  (forall k, P k -> exists k0 w v e v' w', k = with_space k0 w v /\ f w (Some v) = Some (e, Some v', w') /\
     Q e (with_space k0 w' v')) ->
  triple H P (on_vspace m f) Q.
Proof using.
  intros Hf. apply triple_kernel. intros k HP. destruct (Hf k HP) as (k0 & w & v & e & v' & w' & -> & Hrun & HQ).
  change (g_vspaces (with_space k0 w v)) with ({[ m_vspace m := v ]} : gmap Z vspace_t). rewrite lookup_singleton_eq.
  cbn [mbind option_bind]. change (g_pt (with_space k0 w v)) with w. rewrite Hrun. cbn [mbind option_bind].
  eexists _, _. split; [reflexivity|].
  replace (_ <| g_vspaces ::= _ |>) with (with_space k0 w' v'); [done|].
  unfold with_space. by rewrite <- (insert_singleton_eq (m_vspace m) v' v).
Qed.

Abbreviation world0 := (world_at (m_alloc m) (m_pool m) ∅ (alloc_init 0x80400000 0x400000)).

(** The address space after [vspace_init_with_alloc]. *)
Definition space_ready (k : kstate) : Prop := exists w v,
  k = with_space (boot_start m) w v /\
  vspace_init_with_alloc world0 (Some vspace_zero) 1 0 (m_alloc m) = Some (ERR_OK, Some v, w) /\
  vspace_wf w v {[vs_root v := LRoot]} /\ vs_alloc v = m_alloc m.

Lemma world0_source : vs_source_ok world0 (vspace_zero <| vs_partition_id := 0 |> <| vs_alloc := m_alloc m |>).
Proof using Hm.
  unfold vs_source_ok.
  change (vs_alloc (vspace_zero <| vs_partition_id := 0 |> <| vs_alloc := m_alloc m |>)) with (m_alloc m).
  rewrite (proj2 (Z.eqb_neq _ _) (mc_alloc _ Hm)). exists (alloc_init 0x80400000 0x400000).
  split; [apply lookup_singleton_eq|]. split; [apply demo_alloc_wf|]. cbn. unfold size_ok. split_and!; vm_compute; congruence.
Qed.

Lemma boot_vspace_step : triple H (fun k => k = boot_start m) (boot_vspace m) (fun _ => space_ready).
Proof using Hm.
  unfold boot_vspace. eapply (triple_bind _ _ _ (fun e k => e = ERR_OK /\ space_ready k)).
  - apply on_vspace_step. intros k ->.
    pose proof (paging_calls_ok (m_alloc m) (m_pool m) (mc_alloc _ Hm)) as Hok. unfold paging_calls in Hok.
    destruct (vspace_init_spec world0 vspace_zero 1 0 (m_alloc m) world0_source) as (e & v & w & Hrun & Hcase).
    rewrite Hrun in Hok. cbn [mbind option_bind] in Hok. exists (boot_start m), world0, vspace_zero, e, v, w.
    split; [done|]. split; [done|].
    assert (e = ERR_OK) as ->.
    { destruct (vspace_map _ _ _ _ _ _ _) as [[[? ?] ?]|]; [|done]. cbn [mbind option_bind] in Hok.
      destruct (vspace_map _ _ _ _ _ _ _) as [[[? ?] ?]|]; [|done]. cbn [mbind option_bind] in Hok. by injection Hok. }
    split; [done|]. destruct Hcase as [[? _]|(_ & Hwf & _ & _ & Hal & _)]; [done|]. by exists w, v.
  - intros e. apply triple_fact. intros ->. apply triple_say.
Qed.

(** The kernel's address space when paging is on: the image and the serial port are
    mapped to themselves. *)
Record space_ok (w : pt_world) (v : vspace_t) (lab : labels) : Prop := {
  so_wf : vspace_wf w v lab;
  so_alloc : vs_alloc v = m_alloc m;
  so_kernel : identity_mapped w v k_base (kernel_size m);
  so_uart : identity_mapped w v uart_base PAGE_SIZE
}.

Definition paged (k : kstate) : Prop := exists w v lab, k = with_space (boot_start m) w v /\ space_ok w v lab.

Lemma space_ok_step w v lab w' v' lab' : space_ok w v lab -> space_step w v lab w' v' lab' -> space_ok w' v' lab'.
Proof using.
  intros [Hwf Hal Hk Hu] [Hst _ Hkeep]. constructor; [apply Hst| |by apply Hkeep..].
  destruct (ts_same _ _ _ _ _ _ Hst) as (_ & _ & _ & ->). done.
Qed.

(** The state between the two mappings. *)
Definition half_paged (k : kstate) : Prop := exists w1 v1 lab1,
  k = with_space (boot_start m) w1 v1 /\ vspace_wf w1 v1 lab1 /\ vs_alloc v1 = m_alloc m /\
  identity_mapped w1 v1 k_base (kernel_size m) /\
  (bootable m -> exists v2 w2, vspace_map w1 (Some v1) uart_base uart_base PAGE_SIZE 0x3 0 = Some (ERR_OK, v2, w2)).

Lemma boot_map_kernel_step :
  triple H space_ready (on_vspace m (fun w vs => vspace_map w vs k_base k_base (kernel_size m) 0x7 0))
    (fun e k => (e <> ERR_OK -> H) /\ (e = ERR_OK -> half_paged k)).
Proof using Hm.
  apply on_vspace_step. intros k (w & v & -> & Hinit & Hwf & Hal).
  pose proof (kernel_size_bounds m Hm) as [Hsz Hexact].
  destruct (identity_map w v _ k_base (kernel_size m) 0x7 Hwf) as (e & v1 & w1 & lab1 & Hrun & Hst & Hid);
    [done|unfold fits; lia|unfold k_base; lia|].
  exists (boot_start m), w, v, e, v1, w1. split; [done|]. split; [done|].
  assert (bootable m -> e = ERR_OK /\
    exists v2 w2, vspace_map w1 (Some v1) uart_base uart_base PAGE_SIZE 0x3 0 = Some (ERR_OK, v2, w2)) as Hb.
  { intros [_ Hend]. pose proof (paging_calls_ok (m_alloc m) (m_pool m) (mc_alloc _ Hm)) as Hok.
    unfold paging_calls in Hok. rewrite Hinit in Hok. cbn [mbind option_bind] in Hok.
    rewrite <- (Hexact Hend), Hrun in Hok. cbn [mbind option_bind] in Hok.
    destruct (vspace_map w1 _ _ _ _ _ _) as [[[e2 v2] w2]|]; [|done]. cbn [mbind option_bind] in Hok.
    injection Hok as -> ->. split; [done|]. by exists v2, w2. }
  split; [intros He Hb'; by destruct (Hb Hb')|]. intros E. exists w1, v1, lab1. split; [done|].
  split; [apply Hst|]. destruct (ts_same _ _ _ _ _ _ (ss_step _ _ _ _ _ _ Hst)) as (_ & _ & _ & ->).
  split; [done|]. split; [by apply Hid|]. intros Hb'. by apply Hb.
Qed.

Lemma boot_map_uart_step :
  triple H half_paged (on_vspace m (fun w vs => vspace_map w vs uart_base uart_base PAGE_SIZE 0x3 0))
    (fun e k => (e <> ERR_OK -> H) /\ (e = ERR_OK -> paged k)).
Proof using.
  apply on_vspace_step. intros k (w & v & lab & -> & Hwf & Hal & Hk & Hb).
  destruct (identity_map w v lab uart_base PAGE_SIZE 0x3 Hwf) as (e & v1 & w1 & lab1 & Hrun & Hst & Hid);
    [done|fits_now|done|].
  exists (boot_start m), w, v, e, v1, w1. split; [done|]. split; [done|]. split.
  - intros He Hb'. destruct (Hb Hb') as (v2 & w2 & Hr). congruence.
  - intros E. exists w1, v1, lab1. split; [done|]. constructor; [apply Hst| |by apply Hst|by apply Hid].
    by destruct (ts_same _ _ _ _ _ _ (ss_step _ _ _ _ _ _ Hst)) as (_ & _ & _ & ->).
Qed.

(** After a call whose failure halts the machine. *)
Lemma triple_checked {A} (e : kerror_t) (P : kstate -> Prop) (c d : boot A) Q :
  ((e <> ERR_OK -> H) -> is_ok e = false -> triple H (fun _ => True) c Q) -> triple H P d Q ->
  triple H (fun k => (e <> ERR_OK -> H) /\ (e = ERR_OK -> P k)) (if negb (is_ok e) then c else d) Q.
Proof using.
  intros Hc Hd b [Hf HP] Hb. destruct (is_ok e) eqn:E; cbn [negb].
  - apply Hd; [|done]. apply HP. by apply is_ok_true.
  - by apply Hc.
Qed.

Lemma boot_map_step : triple H space_ready (boot_map m) (fun _ => paged).
Proof using Hm.
  unfold boot_map. says. eapply triple_bind; [apply boot_map_kernel_step|]. intros e.
  apply triple_checked.
  { intros Hf E. says. apply triple_halt. intros k _. apply Hf. by intros ->. }
  says. eapply triple_bind; [apply boot_map_uart_step|]. intros e2.
  apply triple_checked; [|apply triple_say].
  intros Hf E. says. apply triple_halt. intros k _. apply Hf. by intros ->.
Qed.

(** ** The steps with paging on *)

Lemma resolves_step va : (exists lo size, lo <= va < lo + size /\ forall w v lab, space_ok w v lab -> identity_mapped w v lo size) ->
  triple H paged (resolves_to_itself m va) (fun _ => paged).
Proof using.
  intros (lo & size & Hva & Hid). apply triple_kernel. intros k Hk. pose proof Hk as (w & v & lab & E & Hs).
  assert (g_vspaces k = {[ m_vspace m := v ]} /\ g_pt k = w) as [-> ->] by (by rewrite E). rewrite lookup_singleton_eq.
  cbn [mbind option_bind]. rewrite (Hid w v lab Hs va 0 Hva). cbn [mbind option_bind]. eexists _, _. by split.
Qed.

Lemma boot_check_paging_step : triple H paged (boot_check_paging m) (fun _ => paged).
Proof using Hm.
  pose proof (kernel_size_bounds m Hm) as [Hsz _]. unfold boot_check_paging.
  eapply triple_bind; [apply resolves_step|intros ok; says].
  { exists k_base, (kernel_size m). split; [lia|]. by intros w v lab []. }
  eapply triple_bind; [apply resolves_step|intros ok'; says].
  { exists uart_base, PAGE_SIZE. split; [done|]. by intros w v lab []. }
  eapply (triple_seq _ _ _ paged).
  - intros b Hk Hb. pose proof Hk as (w & v & lab & E & Hs).
    assert (g_vspaces (bt_k b) = {[ m_vspace m := v ]}) as -> by (by rewrite E). rewrite lookup_singleton_eq.
    cbn [mbind option_bind]. eexists _, _. split; [reflexivity|]. by split.
  - says. apply triple_say.
Qed.

Lemma boot_vga_step dev : triple H paged (boot_vga dev m) (fun _ => paged).
Proof using.
  unfold boot_vga. eapply (triple_bind _ _ _ (fun _ => paged)).
  - intros b (w & v & lab & E & Hs) Hb.
    destruct (vga_init_spec dev w v lab (bt_vga b) (bt_io b) (so_wf _ _ _ Hs))
      as (e & v' & w' & vga' & t' & lab' & Hrun & Hst & _ & Hcase & _).
    assert (g_vspaces (bt_k b) = {[ m_vspace m := v ]} /\ g_pt (bt_k b) = w) as [-> ->] by (by rewrite E).
    rewrite lookup_singleton_eq. cbn [mbind option_bind]. rewrite Hrun. cbn [mbind option_bind].
    eexists _, _. split; [reflexivity|]. split.
    + cbn. destruct Hcase as [(_ & _ & Hr)|(_ & ->)]; [|done]. intros _. by apply ready_console.
    + exists w', v', lab'. split; [|by eapply space_ok_step]. cbn. rewrite E. unfold with_space.
      by rewrite <- (insert_singleton_eq (m_vspace m) v' v).
  - intros e. destruct (is_ok e); [|apply triple_say].
    eapply (triple_seq _ _ _ paged); [|says; apply triple_say].
    intros b Hk Hb. unfold vga_draw_hello, guard_ret. destruct (fb_init_done (bt_vga b)) eqn:E; cbn [negb].
    2:{ eexists _, _. split; [reflexivity|]. by split. }
    destruct (ready_console (vga_console_clear (bt_vga b))) as (a & Hs & Hc).
    { unfold vga_console_clear, guard_ret. rewrite E. done. }
    destruct (puts_shows (line "Hello world") _ a Hs Hc) as (v' & -> & Hs' & Hc'). cbn [mbind option_bind].
    eexists _, _. split; [reflexivity|]. split; [|done]. intros _. by eexists.
Qed.

(** The test trap finds no thread with a budget, and changes nothing. *)
Lemma boot_ecall_step : triple H paged (boot_ecall m) (fun _ => paged).
Proof using.
  apply triple_kernel. intros k Hk. pose proof Hk as (w & v & lab & E & _).
  assert ((threads (g_tcbs k)).[0] = Some tcb_zero) as Ht by (by rewrite E).
  assert (g_sched k = boot_sched_state) as Hs by (by rewrite E).
  unfold syscall_handler, guard_ret. change (a7 ((m_regs m) <| a7 := 3 |>)) with 3.
  change (syscall_decode 3) with (Some SYS_YIELD). rewrite Ht. cbn [mbind option_bind].
  rewrite bool_decide_eq_true_2 by done. cbn [negb andb]. rewrite andb_false_r.
  assert (find_cap (m_layout m) k tcb_zero SYS_YIELD (u32 (a0 ((m_regs m) <| a7 := 3 |>))) (a1 ((m_regs m) <| a7 := 3 |>)) = Some None)
    as -> by done.
  cbn [mbind option_bind]. rewrite Hs. change (sched_context tcb_zero) with 0.
  destruct (arr_get_is_Some (contexts boot_sched_state) 0) as [sc ->]; [by rewrite (sw_contexts _ boot_sched_wf)|].
  cbn [mbind option_bind]. destruct (sc_remaining_us sc =? 0); [eexists _, _; by split|].
  cbn [dispatch mbind option_bind]. destruct (negb (wcet_check _ _)); eexists _, _; by split.
Qed.

Lemma boot_trap_test_step : triple H paged (boot_trap_test m) (fun _ => paged).
Proof using.
  unfold boot_trap_test. says. eapply triple_seq; [apply boot_ecall_step|]. says. apply triple_say.
Qed.

(** ** The steps that fill the kernel *)

(** The capabilities the boot code makes. *)
Definition boot_cap (c : cap_t) : Prop :=
  c = boot_ut \/ retyped_from c boot_ut CAP_FRAME 4096 \/ exists i, 1 <= i <= 3 /\ c = ep_cap m i.

(** A thread the boot code makes has no capability space. *)
Definition boot_thread (t : tcb_t) : Prop :=
  cspace t = NULL /\ 0 <= sched_context t < MAX_SCHED_CONTEXTS /\ ipc_buffer t = ipc_msg_zero.

Record booted (k : kstate) : Prop := {
  bo_wf : kernel_wf (m_layout m) k;
  bo_caps : forall c, holds (g_cnodes k) c -> boot_cap c;
  bo_threads : forall i t, (threads (g_tcbs k)).[i] = Some t -> boot_thread t;
  bo_eps : g_endpoints k = replicate (Z.to_nat MAX_ENDPOINTS) endpoint_zero;
  bo_space : exists v lab, g_vspaces k = {[ m_vspace m := v ]} /\ space_ok (g_pt k) v lab
}.

Lemma boot_thread_ok h t : boot_thread t -> thread_ok h t /\ buffer_ok t.
Proof using.
  intros (Hc & Hs & Hb). unfold thread_ok, buffer_ok. rewrite Hb. split; [|done]. by split; [left|].
Qed.

Lemma boot_cap_ok k c : boot_cap c -> fits 32 (rights c) /\ cap_target_ok (m_layout m) k c.
Proof using.
  intros [->|[[Hr ->]|(i & Hi & ->)]].
  - split; [fits_now|]. split_and!; intros E; discriminate E.
  - destruct (cap_retype_fields _ _ _ Hr) as (Ht & Hri & _). rewrite Hri. split; [fits_now|].
    unfold cap_target_ok. rewrite Ht. split_and!; intros E; discriminate E.
  - split; [fits_now|]. split_and!; intros E; try discriminate E. exists i. split; [|done].
    unfold MAX_ENDPOINTS. lia.
Qed.

Lemma booted_ok k : booted k -> kernel_ok (m_layout m) k.
Proof using.
  intros [Hwf Hc Ht _ _]. split; [done|]. split; [|intros i t Hi; by eapply (boot_thread_ok ∅), Ht].
  intros c Hh. by apply boot_cap_ok, Hc.
Qed.

Lemma tcb_zero_boot : boot_thread tcb_zero.
Proof using. by split_and!. Qed.

Lemma vspaces_single w v lab p : vspace_wf w v lab -> vspaces_wf w {[ p := v ]}.
Proof using.
  intros Hwf. exists (fun _ => lab). split.
  - intros q v' Hq. by apply lookup_singleton_Some in Hq as [_ <-].
  - intros q r v1 v2 Hne Hq Hr. apply lookup_singleton_Some in Hq as [<- _].
    by apply lookup_singleton_Some in Hr as [<- _].
Qed.

(** The root node with the capability in a slot. *)
Lemma set_root_slot_step i c f (P : kstate -> Prop) :
  0 <= i < MAX_CAPS_PER_CNODE -> (forall k, P k -> exists cn, g_cnodes k !! root_cnode (m_layout m) = Some cn /\ cnode_wf cn) ->
  triple H P (set_root_slot m i c f)
    (fun _ k => exists k0 h, P k0 /\ k = k0 <| g_cnodes := h |> /\
       put_slot (g_cnodes k0) (root_cnode (m_layout m)) i c f h).
Proof using.
  intros Hi Hcn. apply triple_kernel. intros k HP. destruct (Hcn k HP) as (cn & Hr & Hw). rewrite Hr.
  assert (0 <= i < Z.of_nat (length (slots cn))) as Hi' by (rewrite Hw; unfold MAX_CAPS_PER_CNODE in *; lia).
  cbn [mbind option_bind]. rewrite arr_set_in by done. cbn [mbind option_bind].
  eexists _, _. split; [reflexivity|]. eexists k, _. split; [done|]. split; [reflexivity|]. by exists cn.
Qed.

Lemma put_slot_root h i c f h' p :
  put_slot h (root_cnode (m_layout m)) i c f h' -> is_Some (h !! p) -> is_Some (h' !! p).
Proof using.
  intros (cn & Hr & _ & ->) Hp. destruct (decide (root_cnode (m_layout m) = p)) as [<-|Hne].
  - rewrite lookup_insert_eq. by eexists.
  - by rewrite lookup_insert_ne.
Qed.

(** One more capability. *)
Lemma booted_put k i c f h : booted k -> boot_cap c ->
  put_slot (g_cnodes k) (root_cnode (m_layout m)) i c f h -> booted (k <| g_cnodes := h |>).
Proof using.
  intros [Hwf Hc Ht He Hs] Hbc Hput.
  assert (forall x, holds h x -> boot_cap x) as Hall.
  { intros x Hx. destruct (put_slot_holds _ _ _ _ _ _ _ Hput Hx) as [[-> _]|]; auto. }
  constructor; [|done..]. apply wf_set_cnodes; [done|eapply put_slot_wf; [done|apply Hwf]| |].
  - intros x Hx. by apply (boot_cap_ok k), Hall.
  - intros p. by eapply put_slot_root.
Qed.

Lemma boot_ut_step : triple H paged (boot_untyped m) (fun _ => booted).
Proof using Hm.
  unfold boot_untyped. eapply triple_seq.
  { apply (set_root_slot_step 0 boot_ut (fun _ => 1)); [done|].
    intros k (w & v & lab & -> & _). exists boot_root. split; [apply lookup_singleton_eq|done]. }
  apply triple_kernel. intros k (k0 & h & (w & v & lab & -> & Hs) & -> & Hput).
  destruct (mdb_insert_cases mdb_init 0xFFFF 0 boot_ut 0 mdb_init_inv (or_introl eq_refl))
    as (e & d & idx & Hrun & Hinv & He & _ & Hok).
  change (g_cnodes (with_space (boot_start m) w v)) with ({[ root_cnode (m_layout m) := boot_root ]} : cnodes) in Hput.
  change (g_mdb (_ <| g_cnodes := h |>)) with mdb_init. rewrite Hrun. cbn [mbind option_bind].
  assert (e = ERR_OK) as -> by (apply He; vm_compute; reflexivity).
  assert (option_map snd (mdb_insert (Some mdb_init) 0xFFFF 0 boot_ut (Some 0)) = Some (Some 0)) as Hidx
    by (vm_compute; reflexivity).
  rewrite Hrun in Hidx. injection Hidx as ->. destruct (Hok eq_refl) as (_ & _ & Hl & _).
  eexists _, _. split; [reflexivity|].
  assert (forall x, holds h x -> boot_cap x) as Hall.
  { intros x Hx. destruct (put_slot_holds _ _ _ _ _ _ _ Hput Hx) as [[-> _]|(p & cn & j & Hp & Hj & Hv)]; [by left|].
    apply lookup_singleton_Some in Hp as [_ <-]. apply arr_get_replicate in Hj as ->. done. }
  assert (forall i t, (threads tcb_table_zero).[i] = Some t -> boot_thread t) as Hth.
  { intros i t Ht. apply arr_get_replicate in Ht as ->. apply tcb_zero_boot. }
  constructor; [|done..|by exists v, lab].
  constructor; cbn [g_tcbs g_endpoints g_cnodes g_sched g_mdb g_vspaces g_pt with_space boot_start modify_field].
  - done.
  - intros i t Ht. by apply boot_thread_ok, (Hth i).
  - done.
  - intros i ep Hep. apply arr_get_replicate in Hep as ->. split; [apply endpoint_zero_wf|].
    split; [|by split]. apply Forall_replicate. by split.
  - eapply put_slot_wf; [exact Hput|]. intros p cn Hp. by apply lookup_singleton_Some in Hp as [_ <-].
  - eapply put_slot_root; [exact Hput|]. eexists. apply lookup_singleton_eq.
  - intros x Hx. by apply (boot_cap_ok (boot_start m)), Hall.
  - apply boot_sched_wf.
  - done.
  - apply Hl. by left.
  - eapply vspaces_single, Hs.
Qed.

(** The tables do not change when the allocator has given out more memory. *)
Lemma space_ok_alloc w v lab a : space_ok w v lab -> alloc_wf a ->
  (forall a0, allocators w !! m_alloc m = Some a0 -> alloc_moved a0 a) ->
  space_ok (w <| allocators ::= insert (m_alloc m) a |>) v lab.
Proof using Hm.
  intros [[Hroot Hpages Hlinks Hsrc Hcaps] Hal Hk Hu] Ha Hmv. constructor; [|done..].
  unfold vs_source_ok, vs_front in *. rewrite Hal, (proj2 (Z.eqb_neq _ _) (mc_alloc _ Hm)) in *.
  destruct Hsrc as (a0 & E & Hw & Hsz & Hpos & Hp). destruct (Hmv a0 E) as (Hb & Ht & Hn).
  constructor; [done| |done| |done].
  - intros p lb Hl. destruct (Hpages p lb Hl) as (Hok & Hf & Hmem). rewrite E in Hf. split; [done|]. split; [|done].
    unfold vs_front. rewrite Hal, (proj2 (Z.eqb_neq _ _) (mc_alloc _ Hm)). cbn [modify_field allocators].
    change (allocators (w <| allocators ::= insert (m_alloc m) a |>)) with (<[m_alloc m := a]> (allocators w)).
    rewrite lookup_insert_eq. cbn in *. lia.
  - unfold vs_source_ok. rewrite Hal, (proj2 (Z.eqb_neq _ _) (mc_alloc _ Hm)). exists a.
    split; [apply lookup_insert_eq|]. cbn in *. unfold size_ok in *. rewrite Hb, Ht. done.
Qed.

(** The thread table after a creation, successful or not. *)
Lemma created_threads v a v' id' : proc_wf v -> created v a v' id' ->
  (forall i t, (threads (pe_tcbs v)).[i] = Some t -> boot_thread t) ->
  forall i t, (threads (pe_tcbs v')).[i] = Some t -> boot_thread t.
Proof using.
  intros Hwf Hc Hall i t Ht. destruct (Z.eqb_spec i id') as [->|Hne].
  - destruct (cr_thread _ _ _ _ Hc) as (j & c & stack & Hnew & _ & _ & _ & Hj & _). rewrite Hnew in Ht.
    injection Ht as <-. split; [done|]. split; [|done]. apply arr_get_Some in Hj as [Hr _].
    rewrite (sw_contexts _ (pw_sched _ Hwf)) in Hr. cbn. unfold MAX_SCHED_CONTEXTS in *. lia.
  - rewrite (cr_others _ _ _ _ Hc) in Ht by done. by eapply Hall.
Qed.

Lemma not_created_threads v v' : proc_wf v -> proc_wf v' -> not_created v v' ->
  (forall i t, (threads (pe_tcbs v)).[i] = Some t -> boot_thread t) ->
  forall i t, (threads (pe_tcbs v')).[i] = Some t -> boot_thread t.
Proof using.
  intros Hwf Hwf' Hn Hall i t Ht.
  assert (is_Some (threads (pe_tcbs v)).[i]) as [t0 Ht0].
  { apply arr_get_is_Some. apply arr_get_Some in Ht as [Hr _]. by rewrite (pw_tcbs _ Hwf), <- (pw_tcbs _ Hwf'). }
  destruct (nc_threads _ _ Hn i t0 Ht0) as [E|[_ E]]; rewrite Ht in E; injection E as ->;
    [by eapply Hall|apply tcb_zero_boot].
Qed.

(** The state with what [process_create] leaves. *)
Lemma booted_process k v : booted k -> proc_wf v ->
  (forall i t, (threads (pe_tcbs v)).[i] = Some t -> boot_thread t) -> live (mdb_nodes (pe_mdb v)) 0 ->
  (forall a0, allocators (g_pt k) !! m_alloc m = Some a0 -> alloc_moved a0 (pe_alloc v)) ->
  booted (k <| g_tcbs := pe_tcbs v |> <| g_sched := pe_sched v |> <| g_mdb := pe_mdb v |>
            <| g_pt ::= fun w => w <| allocators ::= insert (m_alloc m) (pe_alloc v) |> |>).
Proof using Hm.
  intros [Hwf Hc Ht He (vs & lab & Hv & Hs)] [Hpt Hpa Hps Hpm] Hth Hl Hmv.
  pose proof (space_ok_alloc _ _ _ _ Hs Hpa Hmv) as Hs'.
  constructor; [|done..|by exists vs, lab]. destruct Hwf. constructor; cbn; auto.
  - intros i t Hi. by apply boot_thread_ok, (Hth i).
  - rewrite Hv. eapply vspaces_single, Hs'.
Qed.

Lemma boot_process_step a : 0 <= pa_partition_id a -> fits 64 (pa_budget_us a) -> fits 64 (pa_period_us a) ->
  0 <= pa_priority a < 256 -> pa_stack_size a = PAGE_SIZE ->
  triple H booted (boot_process m a) (fun r k => booted k /\ (r.1 = ERR_OK -> 0 <= r.2 < MAX_TCBS)).
Proof using Hm.
  intros Hp Hb Hpe Hpr Hst. apply triple_kernel. intros k Hk.
  destruct (bo_space _ Hk) as (vs & lab & Hv & Hs). pose proof (vw_source _ _ _ (so_wf _ _ _ Hs)) as Hsrc.
  unfold vs_source_ok in Hsrc. rewrite (so_alloc _ _ _ Hs), (proj2 (Z.eqb_neq _ _) (mc_alloc _ Hm)) in Hsrc.
  destruct Hsrc as (al & Eal & Ha & Hsz & _). rewrite Eal. cbn [mbind option_bind].
  pose proof (bo_wf _ Hk) as Hwf. set (v := mk_proc_env (g_tcbs k) al (g_sched k) (g_mdb k)).
  assert (proc_wf v) as Hpw by (destruct Hwf; by constructor).
  destruct (process_create_cases v a 0 Hpw) as (e & v' & out & Hrun & Hpw' & Hcase).
  { do 4 (split; [done|]). rewrite Hst. exact Hsz. }
  rewrite Hrun. cbn [mbind option_bind]. eexists _, _. split; [reflexivity|].
  destruct Hcase as [(Hne & _ & Hn)|(-> & Hc)]; (split; [apply booted_process; try done|]).
  - eapply not_created_threads; [| |exact Hn|]; [done|done|apply Hk].
  - rewrite (nc_mdb _ _ Hn). apply Hwf.
  - intros a0 E. rewrite Eal in E. injection E as <-. apply Hn.
  - done.
  - eapply created_threads; [|exact Hc|]; [done|apply Hk].
  - apply Hc, Hwf.
  - intros a0 E. rewrite Eal in E. injection E as <-. apply Hc.
  - intros _. destruct (find_idx_Some tcb_is_free (threads (pe_tcbs v)) out) as [Hf _].
    destruct (Hf (cr_free _ _ _ _ Hc)) as [(t & Ht & _) _]. apply arr_get_Some in Ht as [Hr _].
    rewrite (pw_tcbs _ Hpw) in Hr. unfold MAX_TCBS in *. cbn. lia.
Qed.

Lemma boot_resume_step pid : 0 <= pid < MAX_TCBS -> triple H booted (boot_resume pid) (fun _ => booted).
Proof using.
  intros Hpid. apply triple_kernel. intros k Hk. pose proof (bo_wf _ Hk) as Hwf.
  destruct (thread_get _ _ (kw_threads _ _ Hwf) Hpid) as [t Ht].
  assert (forall t, boot_thread t -> boot_thread (default t (tcb_resume (Some t)))) as Hres.
  { intros t0. unfold tcb_resume, guard_ret. by branches. }
  destruct (wf_upd_thread (m_layout m) k Hwf pid (fun t => default t (tcb_resume (Some t))) t Ht) as (tcbs & Hu & Hwf').
  { intros _. apply boot_thread_ok, Hres. by eapply bo_threads. }
  rewrite Hu. cbn [mbind option_bind]. eexists _, _. split; [reflexivity|]. destruct Hk as [_ Hc Hth He Hs].
  constructor; try done. intros i t' Hi. destruct (upd_thread_inv _ _ _ _ Hu) as (t0 & Ht0 & Hget).
  cbn in Hi. rewrite Hget in Hi. destruct (i =? pid); [injection Hi as <-; apply Hres|]; by eapply Hth.
Qed.

Lemma boot_spawn_step {A} a (c : Z -> boot A) (d : boot A) Q :
  0 <= pa_partition_id a -> fits 64 (pa_budget_us a) -> fits 64 (pa_period_us a) ->
  0 <= pa_priority a < 256 -> pa_stack_size a = PAGE_SIZE ->
  (forall pid, 0 <= pid < MAX_TCBS -> triple H booted (c pid) Q) -> triple H booted d Q ->
  triple H booted (r <~ boot_process m a then if is_ok r.1 then c r.2 else d) Q.
Proof using Hm.
  intros ? ? ? ? ? Hc Hd. eapply triple_bind; [by apply boot_process_step|]. intros [e pid] b [Hk Hp] Hb.
  cbn [fst snd]. destruct (is_ok e) eqn:E; [|by apply Hd]. apply is_ok_true in E. apply Hc; [by apply Hp|done..].
Qed.

Lemma boot_hello_step : triple H booted (boot_hello m) (fun _ => booted).
Proof using Hm.
  apply (boot_spawn_step (server_args m 0x80500000 0 10 1000 5000)
    (fun pid => say (line "[BOOT] hello thread created") >~ boot_resume pid >~ say (line "[BOOT] hello thread resumed"))
    (boot_ret tt)); [done|fits_now|fits_now|done|done| |by apply triple_ret].
  intros pid Hpid. says. eapply triple_seq; [by apply boot_resume_step|]. apply triple_say.
Qed.

Lemma boot_server_step sp part msg : 0 <= part ->
  triple H booted (boot_server m (server_args m sp part 5 500 2000) msg) (fun _ => booted).
Proof using Hm.
  intros Hp. apply (boot_spawn_step (server_args m sp part 5 500 2000)
    (fun pid => boot_resume pid >~ say (chars msg) >~ say_hex pid) (boot_ret tt));
    [done|fits_now|fits_now|done|done| |by apply triple_ret].
  intros pid Hpid. eapply triple_seq; [by apply boot_resume_step|]. says. apply triple_say_hex.
Qed.

Lemma boot_retype_step : triple H booted (boot_retype m) (fun _ => booted).
Proof using Hm.
  unfold boot_retype. eapply (triple_bind _ _ _ (fun _ => booted)).
  2:{ intros [e|]; [apply triple_say|by apply triple_ret]. }
  apply triple_kernel. intros k Hk. pose proof (bo_wf _ Hk) as Hwf.
  destruct (root_lookup_defined (m_layout m) k 0 Hwf) as [[ut|] Hut]; rewrite Hut; cbn [mbind option_bind].
  2: by eexists _, _.
  destruct (Z.eqb_spec (type ut) CAP_UNTYPED) as [Et|]; [|by eexists _, _].
  destruct (root_lookup_holds _ _ _ _ Hut) as [Hh _]. pose proof (bo_caps _ Hk _ Hh) as Hbc.
  assert (ut = boot_ut) as ->.
  { destruct Hbc as [->|[[Hr ->]|(i & _ & ->)]]; [done| |done].
    destruct (cap_retype_fields _ _ _ Hr) as [E _]. rewrite E in Et. discriminate Et. }
  destruct (boot_cap_ok k boot_ut Hbc) as [Hr Ht].
  destruct (handle_invoke_total (m_layout m) k boot_ut (invoke_op_code INV_UNTYPED_RETYPE)
    (Z.lor (Z.shiftl 5 8) (invoke_op_code INV_UNTYPED_RETYPE)) CAP_FRAME 4096 (mc_layout _ Hm) Hwf Ht Hr)
    as (e & k' & Hrun & Hwf' & _); [fits_now..|].
  rewrite Hrun. cbn [mbind option_bind]. eexists _, _. split; [reflexivity|].
  destruct (handle_invoke_effect _ _ _ _ _ _ _ _ _ Hrun) as [Hef _].
  inversion Hef; subst; try done. constructor; try done; [|apply Hk..].
  intros c Hc. assert (boot_cap x) by (right; by left).
  match goal with Hput : put_slot _ _ _ _ _ _ |- _ => 
    destruct (put_slot_holds _ _ _ _ _ _ _ Hput Hc) as [[-> _]|Hold] end; [done|]. by apply Hk.
Qed.

Lemma boot_endpoint_step i : 1 <= i <= 3 -> triple H booted (boot_endpoint m i) (fun _ => booted).
Proof using.
  intros Hi. unfold boot_endpoint. eapply (triple_seq _ _ _ booted).
  - apply triple_kernel. intros k Hk. pose proof (bo_eps _ Hk) as He.
    assert ((g_endpoints k).[i] = Some endpoint_zero) as Hget.
    { rewrite He, arr_get_lookup by lia. apply lookup_replicate_2. unfold MAX_ENDPOINTS. lia. }
    rewrite Hget. cbn [mbind option_bind]. apply arr_get_Some in Hget as [Hr Hl]. rewrite arr_set_in by done.
    cbn [mbind option_bind]. eexists _, _. split; [reflexivity|].
    change (_ <| pending := false |>) with endpoint_zero. rewrite list_insert_id by done.
    replace (k <| g_endpoints := g_endpoints k |>) with k by (by destruct k). done.
  - intros b Hk Hb.
    destruct (set_root_slot_step (10 + i) (ep_cap m i) (fun n => u32 (n + 1)) booted) with (b := b)
      as (r & b' & Hrun & Hc & HQ); try done.
    { unfold MAX_CAPS_PER_CNODE. lia. }
    { intros k [Hwf _ _ _ _]. destruct (kw_root _ _ Hwf) as [cn Hcn]. exists cn. split; [done|].
      by eapply (kw_cnodes _ _ Hwf). }
    exists r, b'. split; [done|]. split; [done|]. destruct r; [|done].
    destruct HQ as (k0 & h & Hk0 & -> & Hput). eapply booted_put; [done| |exact Hput].
    right; right. by exists i.
Qed.

(** The whole sequence. *)
Lemma kernel_boot_step dev : triple H (fun k => k = bt_k (power_on m)) (kernel_boot dev m) (fun _ => booted).
Proof using Hm.
  unfold kernel_boot. says.
  eapply triple_seq; [apply boot_traps_step|]. eapply triple_seq; [apply boot_cheri_step|].
  eapply triple_seq; [apply boot_sched_step|]. eapply triple_seq; [apply boot_cnode_step|].
  eapply triple_seq; [apply boot_alloc_step|]. eapply triple_seq; [apply boot_vspace_step|].
  eapply triple_seq; [apply boot_map_step|]. eapply triple_seq; [apply boot_check_paging_step|].
  eapply triple_seq; [apply boot_vga_step|]. eapply triple_seq; [apply boot_trap_test_step|].
  eapply triple_seq; [apply boot_ut_step|]. eapply triple_seq; [apply boot_hello_step|].
  eapply triple_seq; [apply boot_retype_step|]. eapply triple_seq; [unfold boot_driver_note; says; apply triple_say|].
  do 3 (eapply triple_seq; [by apply boot_endpoint_step|]).
  do 3 (eapply triple_seq; [by apply boot_server_step|]). apply triple_say.
Qed.
End Steps.

(** ** Threads without a capability space

    The boot code gives no thread a capability space. *)

Definition message_call (f : trap_frame_t) : Prop :=
  syscall_decode (a7 f) = Some SYS_CALL \/ syscall_decode (a7 f) = Some SYS_SEND \/
  syscall_decode (a7 f) = Some SYS_REPLY_RECV.

(** No thread has a capability space, and no capability could give it one. *)
Definition mute (k : kstate) : Prop :=
  (forall i t, (threads (g_tcbs k)).[i] = Some t -> cspace t = NULL) /\
  (forall c, holds (g_cnodes k) c -> type c <> CAP_TCB).

Lemma find_cap_mute lay k t sys p a : cspace t = NULL ->
  find_cap lay k t sys p a =
  if bool_decide (sys = SYS_INVOKE) && (p =? 0) then root_lookup lay k (u32 a) else Some None.
Proof. intros Hc. unfold find_cap, deref_cnode. rewrite Hc. done. Qed.

Lemma effect_mute lay k c op a1 a2 a3 e k' : mute k -> caps_typed (g_cnodes k) -> holds (g_cnodes k) c ->
  creates_object op a2 = false -> invoke_effect lay k c op a1 a2 a3 e k' ->
  mute k' /\ g_endpoints k' = g_endpoints k.
Proof.
  intros [Hcs Htcb] Hty Hc Hno Hef. pose proof (Hty c Hc) as Hr.
  split; [|by destruct Hef]. split.
  - destruct Hef; try done. by destruct (Htcb c Hc).
  - intros x Hx. destruct (effect_authority _ _ _ _ _ _ _ _ _ Hr Hef x Hx) as [(x0 & Hx0 & Ht & _)|(Hop & Hret & ->)].
    + rewrite Ht. by apply Htcb.
    + destruct (cap_retype_fields _ _ _ Hret) as [-> _]. unfold creates_object in Hno. rewrite Hop in Hno. by bools.
Qed.

Lemma mute_step lay t0 t1 k f cur e k' f' : mute k -> caps_typed (g_cnodes k) ->
  invokes f (fun op => creates_object op (a2 f)) = false ->
  syscall_handler lay t0 t1 k (Some f) cur = Some (e, k', f') ->
  mute k' /\ g_endpoints k' = g_endpoints k /\ (message_call f -> e <> ERR_OK).
Proof.
  intros Hmute Hty Hno Hrun.
  destruct (handler_gate _ _ _ _ _ _ _ _ _ Hrun) as [(-> & _ & He)|
    (f0 & sys & t & cap & x & [= <-] & Hd & Ht & _ & Hf & Hcap & Hdis & _)]; [done|].
  rewrite find_cap_mute in Hf by (by eapply Hmute). unfold invokes, message_call in *. rewrite Hd in *.
  destruct (decide (sys = SYS_INVOKE)) as [->|Hni].
  - rewrite bool_decide_eq_true_2 in Hno, Hf by done. cbn [andb] in Hno, Hf.
    destruct (_ =? 0); [|injection Hf as <-; by destruct Hcap].
    destruct cap as [c|]; [|by destruct Hcap]. destruct (root_lookup_holds _ _ _ _ Hf) as [Hc _].
    cbn [dispatch mbind option_bind] in Hdis. unfold sys_invoke in Hdis. peel Hdis. destruct p as [e1 k1].
    injection Hdis as _ <-. destruct (handle_invoke_effect _ _ _ _ _ _ _ _ _ E) as [Hef _].
    destruct (effect_mute _ _ _ _ _ _ _ _ _ Hmute Hty Hc Hno Hef) as [[? ?] ?].
    split_and!; [done..|]. by intros [?|[?|?]].
  - rewrite bool_decide_eq_false_2 in Hf by done. injection Hf as <-.
    destruct (decide (sys = SYS_YIELD)) as [->|Hny]; [|by destruct (Hcap Hny)].
    cbn [dispatch] in Hdis. injection Hdis as _ <-. split_and!; [apply Hmute..|done|]. by intros [?|[?|?]].
Qed.

Lemma booted_mute m k : booted m k -> mute k.
Proof.
  intros Hk. split; [intros i t Ht; by eapply bo_threads|]. intros c Hc.
  destruct (bo_caps _ _ Hk c Hc) as [->|[[Hr ->]|(i & _ & ->)]]; [done| |done].
  by destruct (cap_retype_fields _ _ _ Hr) as [-> _].
Qed.

Lemma mute_run lay l : layout_wf lay -> Forall event_ok l -> forall k es k', kernel_ok lay k -> mute k ->
  syscall_run lay k l = Some (es, k') -> g_endpoints k' = g_endpoints k /\
  Forall2 (fun ev e => message_call (ev_frame ev) -> e <> ERR_OK) l es.
Proof.
  intros Hlay Hl. induction Hl as [|ev l (Hc & Hf & Hno) Hl IH]; intros k es k' Hok Hmute Hrun.
  { injection Hrun as <- <-. by split; [|constructor]. }
  cbn [syscall_run] in Hrun.
  destruct (syscall_handler_total lay (ev_entry ev) (ev_exit ev) k (ev_frame ev) (ev_cur ev) Hlay Hok Hf Hc)
    as (e & k1 & f' & Hstep & Hw & Hb & Ho & _). rewrite Hstep in Hrun. cbn [mbind option_bind] in Hrun.
  destruct (syscall_run lay k1 l) as [[es1 k2]|] eqn:E; [|done]. injection Hrun as <- <-.
  destruct (mute_step _ _ _ _ _ _ _ _ _ Hmute (kw_caps _ _ (proj1 Hok)) Hno Hstep) as (Hm1 & He & Herr).
  destruct (IH k1 es1 k2) as [He2 Hall]; [by split_and!; auto|done|done|]. rewrite He2.
  by split; [|constructor].
Qed.

(** ** Properties *)

Lemma power_on_console m : console_ok (bt_vga (power_on m)).
Proof. done. Qed.

Lemma kernel_boot_runs dev m : machine_wf m ->
  exists r b, kernel_boot dev m (power_on m) = Some (r, b) /\
    match r with Some _ => booted m (bt_k b) | None => ~ bootable m end.
Proof.
  intros Hm. destruct (kernel_boot_step m Hm dev (power_on m) eq_refl (power_on_console m)) as (r & b & H & _ & Hr).
  by exists r, b.
Qed.

Lemma kernel_boot_booted dev m b : machine_wf m -> kernel_boot dev m (power_on m) = Some (Some tt, b) ->
  booted m (bt_k b).
Proof.
  intros Hm H. destruct (kernel_boot_runs dev m Hm) as (r & b' & H' & Hr). rewrite H in H'. by injection H' as <- <-.
Qed.

(** C3. Booting establishes the invariant of the kernel. Whatever the devices answer,
    the boot sequence runs without undefined behaviour to its parking loop or to a
    halt; if it parks, the kernel is well formed, every capability points to an
    object of its type, the only capabilities are the initial untyped one, the frame
    retyped from it and the three server endpoints, and the kernel's address space
    maps the image and the serial port to themselves. *)
Theorem kernel_boot_correct dev m : machine_wf m ->
  exists r b, kernel_boot dev m (power_on m) = Some (r, b) /\
    (r = Some tt -> kernel_ok (m_layout m) (bt_k b) /\
       (forall c, holds (g_cnodes (bt_k b)) c -> boot_cap m c) /\
       exists v, g_vspaces (bt_k b) = {[ m_vspace m := v ]} /\
         identity_mapped (g_pt (bt_k b)) v 0x80000000 (kernel_size m) /\
         identity_mapped (g_pt (bt_k b)) v 0x10000000 PAGE_SIZE).
Proof.
  intros Hm. destruct (kernel_boot_runs dev m Hm) as (r & b & H & Hr). exists r, b. split; [done|].
  intros ->. split; [by apply booted_ok|]. split; [apply Hr|].
  destruct (bo_space _ _ Hr) as (v & lab & Hv & Hs). exists v. split; [done|]. split; apply Hs.
Qed.

(** A machine on which the boot sequence runs. *)
Definition demo_machine : machine :=
  mk_machine demo_layout 0x5000 0x6000 0x7000 0x80040000 0x80001000 0x80000100 0 (demo_frame 0 0 0 0 0) 0 100.

Lemma demo_machine_wf : machine_wf demo_machine.
Proof. constructor; [exact demo_layout_wf|done|done]. Qed.

Lemma demo_bootable : bootable demo_machine.
Proof. split; vm_compute; congruence. Qed.

(** On it, four threads are created. *)
Lemma demo_boot_threads :
  option_map (fun '(r, b) => (r, count (g_tcbs (bt_k b)))) (kernel_boot demo_bus demo_machine (power_on demo_machine))
  = Some (Some tt, 4).
Proof. vm_compute. reflexivity. Qed.

Lemma kernel_boot_correct_witness :
  exists b, kernel_boot demo_bus demo_machine (power_on demo_machine) = Some (Some tt, b) /\
    kernel_ok demo_layout (bt_k b) /\ count (g_tcbs (bt_k b)) = 4.
Proof.
  destruct (kernel_boot_correct demo_bus demo_machine demo_machine_wf) as (r & b & H & Hr).
  pose proof demo_boot_threads as E. rewrite H in E. injection E as -> En. exists b. split; [exact H|].
  split; [apply (Hr eq_refl)|exact En].
Defined.

(** C4. The boot sequence reaches its parking loop: when a trap vector is installed and
    the image ends below the region given to the allocator, no check of the
    sequence fails, whatever the devices answer. *)
Theorem kernel_boot_parks dev m : machine_wf m -> bootable m ->
  exists b, kernel_boot dev m (power_on m) = Some (Some tt, b).
Proof.
  intros Hm Hb. destruct (kernel_boot_runs dev m Hm) as ([[]|] & b & H & Hr); [by exists b|by destruct (Hr Hb)].
Qed.

(** A bus on which every device register reads as ones. *)
Definition dead_bus : device := fun _ _ _ => 0xFFFFFFFF.

Lemma kernel_boot_parks_witness :
  exists b, kernel_boot dead_bus demo_machine (power_on demo_machine) = Some (Some tt, b).
Proof. apply (kernel_boot_parks dead_bus demo_machine demo_machine_wf demo_bootable). Defined.

(** Code that runs [user_hello] on a well-formed kernel, for any number of turns, does
    no harm: every turn has a result and the kernel stays well formed. *)
Theorem user_hello_runs m l H : machine_wf m -> Forall (fun '(_, _, f) => regs_ok f) l ->
  triple H (kernel_ok (m_layout m)) (user_hello m l)
    (fun es k => length es = length l /\ kernel_ok (m_layout m) k).
Proof.
  intros Hm Hl. apply triple_then_say, triple_kernel. intros k Hk.
  destruct (syscall_run_ok (m_layout m) k (map (fun '(entry, exit, f) => mk_event entry exit 0 (f <| a7 := 3 |>)) l)
    (mc_layout _ Hm) Hk) as (es & k' & Hrun & Hlen & Hok).
  - apply List.Forall_map. eapply Forall_impl; [|exact Hl]. intros [[entry exit] f] Hf.
    split; [cbn; unfold MAX_TCBS; lia|]. split; [exact Hf|done].
  - exists es, k'. rewrite Hlen, length_map. by split_and!.
Qed.

(** C5. The booted kernel serves: after boot, any sequence of system calls by any
    threads with any registers, except that nobody retypes memory into a thread, an
    endpoint or an address space (capabilities that would name objects nobody created),
    runs to its end without undefined behaviour, one result per call, and the kernel stays
    well formed. *)
Theorem boot_then_serve dev m l : machine_wf m -> bootable m -> Forall event_ok l ->
  exists b es k', kernel_boot dev m (power_on m) = Some (Some tt, b) /\
    syscall_run (m_layout m) (bt_k b) l = Some (es, k') /\ length es = length l /\ kernel_ok (m_layout m) k'.
Proof.
  intros Hm Hb Hl. destruct (kernel_boot_runs dev m Hm) as ([[]|] & b & H & Hr); [|by destruct (Hr Hb)].
  destruct (syscall_run_ok (m_layout m) (bt_k b) l (mc_layout _ Hm) (booted_ok m _ Hr) Hl) as (es & k' & ? & ? & ?).
  by exists b, es, k'.
Qed.

Lemma boot_then_serve_witness :
  exists b es k', kernel_boot demo_bus demo_machine (power_on demo_machine) = Some (Some tt, b) /\
    syscall_run demo_layout (bt_k b) demo_events = Some (es, k') /\ length es = 4%nat.
Proof.
  destruct (boot_then_serve demo_bus demo_machine demo_events demo_machine_wf demo_bootable)
    as (b & es & k' & H & Hrun & Hlen & _).
  - repeat constructor; vm_compute; congruence.
  - exists b, es, k'. split; [exact H|]. split; [exact Hrun|exact Hlen].
Defined.

(** C30. No thread of the booted system can use IPC: in any sequence of system calls
    after boot in which nobody retypes memory into a thread, an endpoint or an address
    space, every call, send and receive fails and the endpoints stay empty, because the
    threads are created without a capability space and the capabilities for the server
    endpoints are in the root node only. The comments of boot.c intend the opposite. *)
Theorem booted_threads_mute dev m b l es k' : machine_wf m ->
  kernel_boot dev m (power_on m) = Some (Some tt, b) -> Forall event_ok l ->
  syscall_run (m_layout m) (bt_k b) l = Some (es, k') ->
  g_endpoints k' = replicate (Z.to_nat MAX_ENDPOINTS) endpoint_zero /\
  Forall2 (fun ev e => message_call (ev_frame ev) -> e <> ERR_OK) l es.
Proof.
  intros Hm Hboot Hl Hrun. pose proof (kernel_boot_booted dev m b Hm Hboot) as Hb.
  destruct (mute_run _ l (mc_layout _ Hm) Hl _ _ _ (booted_ok m _ Hb) (booted_mute m _ Hb) Hrun) as [-> Hall].
  split; [apply Hb|done].
Qed.

Lemma booted_threads_mute_witness :
  exists b es k', kernel_boot demo_bus demo_machine (power_on demo_machine) = Some (Some tt, b) /\
    syscall_run demo_layout (bt_k b) demo_events = Some (es, k') /\
    g_endpoints k' = replicate 64 endpoint_zero /\
    Forall2 (fun ev e => message_call (ev_frame ev) -> e <> ERR_OK) demo_events es.
Proof.
  assert (Forall event_ok demo_events) as Hl by (repeat constructor; vm_compute; congruence).
  destruct (kernel_boot_runs demo_bus demo_machine demo_machine_wf) as ([[]|] & b & H & Hr);
    [|destruct (Hr demo_bootable)].
  destruct (syscall_run_ok demo_layout (bt_k b) demo_events demo_layout_wf (booted_ok demo_machine _ Hr) Hl)
    as (es & k' & Hrun & _). exists b, es, k'. split; [exact H|]. split; [exact Hrun|].
  exact (booted_threads_mute demo_bus demo_machine b demo_events es k' demo_machine_wf H Hl Hrun).
Defined.
