(* ===== verification/Server.v ===== *)
(** * The loop of a user-space server

    A server waits for a message, handles it and answers it. Its run is the endless
    loop of the [*_server_run] functions, seen through its finite prefixes: the
    contents of the message buffer after each [moonlight_recv], whatever put them
    there, and for each of them the answer handed to [moonlight_call], if any. *)

From S2P Require Import Prelude Types.

(** What the loop needs of a server: one turn, on the message received. [None] inside
    is a turn without an answer. *)
Class Server (S : Type) := handle : ipc_msg_t -> S -> option (option ipc_msg_t * S).

Section Serve.
Context {S : Type} `{Server S}.

Fixpoint serve (l : list ipc_msg_t) (s : S) : option (list (option ipc_msg_t) * S) :=
  match l with
  | [] => Some ([], s)
  | m :: l' =>
      '(r, s1) ← handle m s;
      '(rs, s2) ← serve l' s1;
      Some (r :: rs, s2)
  end.

(** A turn that is defined and keeps the invariant makes a run that does; [G] is the
    history the invariant speaks about, [upd] what a turn adds to it. *)
Lemma serve_inv {G} (ok : ipc_msg_t -> Prop) (upd : ipc_msg_t -> option ipc_msg_t -> G -> G) (I : G -> S -> Prop) :
  (forall m g s, ok m -> I g s -> exists r s', handle m s = Some (r, s') /\ I (upd m r g) s') ->
  forall l g s, Forall ok l -> I g s ->
  exists rs s', serve l s = Some (rs, s') /\ length rs = length l /\
    I (fold_left (fun g p => upd p.1 p.2 g) (zip l rs) g) s'.
Proof.
  intros Hstep l. induction l as [|m l IH]; intros g s Hl Hi; [by exists [], s|].
  apply list.Forall_cons in Hl as [Hm Hl]. destruct (Hstep m g s Hm Hi) as (r & s1 & Hr & Hi1).
  destruct (IH _ s1 Hl Hi1) as (rs & s' & Hrs & Hlen & Hi'). exists (r :: rs), s'. cbn [serve].
  rewrite Hr. cbn [mbind option_bind]. rewrite Hrs. cbn. by rewrite Hlen.
Qed.
End Serve.
