(* ===== verification/MemServer.v ===== *)
(** * userspace/mem_server/server.c: the memory server

    The table of untyped regions, allocation by size and colour, and the loop that
    serves requests to allocate and to free. [moonlight_retype] is a system call: what
    it answers is a function of the calls made so far, a parameter. *)

From S2P Require Import Prelude Types Alloc Server.

Definition MAX_UNTYPED : Z := 32.

Record untyped_t := mk_untyped {
  ut_paddr : Z;
  ut_size : Z;
  ut_cptr : Z;
  ut_free : bool;
  ut_color : Z
}.
#[export] Instance untyped_eta : Eta untyped_t := fun x =>
  mk_untyped (ut_paddr x) (ut_size x) (ut_cptr x) (ut_free x) (ut_color x).

Definition untyped_zero : untyped_t := mk_untyped 0 0 0 false 0.

(** [moonlight_retype(untyped_cptr, type, size, dest_cptr)]. *)
Record retype_call := mk_retype { rt_untyped : Z; rt_type : Z; rt_size : Z; rt_dest : Z }.

(** The static variables, and the calls made so far, the newest first. *)
Record mem_t := mk_mem {
  untypeds : list untyped_t;
  untyped_count : Z;
  next_frame_slot : Z;
  retypes : list retype_call
}.
#[export] Instance mem_eta : Eta mem_t := fun s =>
  mk_mem (untypeds s) (untyped_count s) (next_frame_slot s) (retypes s).

Definition mem_zero : mem_t := mk_mem (replicate (Z.to_nat MAX_UNTYPED) untyped_zero) 0 10 [].

Definition mem_server_init (bases sizes colors : list Z) (n : Z) (s : mem_t) : option mem_t :=
  l ← for_loop (Z.to_nat (Z.min n MAX_UNTYPED)) 0 (fun i l =>
        b ← bases.[i]; sz ← sizes.[i]; c ← colors.[i];
        l.[i := mk_untyped b sz i true c]) (untypeds s);
  Some (s <| untypeds := l |> <| untyped_count := n |> <| next_frame_slot := 10 |>).

(** The colours [mem_alloc] takes for a partition. *)
Definition color_matches (partition color' : Z) : bool :=
  let expected := u16 (u32 (partition * 2) mod 16) in
  (color' =? expected) || (color' =? expected + 1).

Section Mem.
Context (retype : list retype_call -> retype_call -> Z).

(** The loop of [mem_alloc] over [n] entries from [i] on: the entry it takes. *)
Fixpoint alloc_loop (n : nat) (i partition size : Z) (s : mem_t) : option (option untyped_t * mem_t) :=
  match n with
  | O => Some (None, s)
  | S n' =>
      x ← (untypeds s).[i];
      if negb (ut_free x) then alloc_loop n' (i + 1) partition size s
      else if ut_size x <? size then alloc_loop n' (i + 1) partition size s
      else if negb (color_matches partition (ut_color x)) then alloc_loop n' (i + 1) partition size s
      else
        let call := mk_retype (ut_cptr x) 5 size (next_frame_slot s) in
        let err := retype (retypes s) call in
        let s1 := s <| retypes ::= cons call |> in
        if negb (err =? 0) then alloc_loop n' (i + 1) partition size s1
        else
          l ← (untypeds s1).[i := x <| ut_free := false |>];
          Some (Some x, s1 <| untypeds := l |> <| next_frame_slot ::= fun k => u32 (k + 1) |>)
  end.

(** The result, and what [*out_paddr] and [*out_color] hold afterwards. *)
Definition mem_alloc (partition size out_paddr out_color : Z) (s : mem_t) : option (Z * Z * Z * mem_t) :=
  '(x, s') ← alloc_loop (Z.to_nat (untyped_count s)) 0 partition size s;
  match x with
  | Some x => Some (0, ut_paddr x, ut_color x, s')
  | None => Some (-1, out_paddr, out_color, s')
  end.

(** [for (i = 0; i < untyped_count; i++) if (untypeds[i].paddr == p) untypeds[i].free = true;] *)
Definition mem_free (p : Z) (s : mem_t) : option mem_t :=
  l ← for_loop (Z.to_nat (untyped_count s)) 0 (fun i l =>
        x ← l.[i]; if ut_paddr x =? p then l.[i := x <| ut_free := true |>] else Some l) (untypeds s);
  Some (s <| untypeds := l |>).

(** What the uninitialised variables [paddr] and [color] of the loop happen to hold. *)
Context (stack_paddr stack_color : Z).

Definition mem_server_run (msg : ipc_msg_t) (s : mem_t) : option (option ipc_msg_t * mem_t) :=
  if label msg =? 1 then
    w0 ← (words msg).[0];
    sz ← (words msg).[1];
    let part := u32 w0 in
    '(err, paddr, color', s') ← mem_alloc part sz stack_paddr stack_color s;
    ws ← (words msg).[0 := u64 err];
    ws ← ws.[1 := paddr];
    ws ← ws.[2 := color'];
    msg' ← (if err =? 0 then
              cp ← (cap_ptrs msg).[0 := u32 (next_frame_slot s' - 1)];
              Some (msg <| cap_ptrs := cp |> <| msg_caps := 1 |>)
            else Some msg);
    Some (Some (msg' <| words := ws |> <| msg_length := 3 |>), s')
  else if label msg =? 2 then
    p ← (words msg).[0];
    s' ← mem_free p s;
    ws ← (words msg).[0 := 0];
    Some (Some (msg <| words := ws |> <| msg_length := 1 |>), s')
  else Some (None, s).

#[export] Instance mem_server : Server mem_t := mem_server_run.
End Mem.

(** ** Specification

    The memory handed out and not given back, read off the conversation: a request
    that succeeds adds the address it got with the size and the partition it asked for;
    a release takes out everything at its address. *)

Record grant := mk_grant { gr_paddr : Z; gr_size : Z; gr_part : Z }.

Definition word (m : ipc_msg_t) (i : Z) : Z := default 0 (words m).[i].

Definition track (m : ipc_msg_t) (r : option ipc_msg_t) (g : list grant) : list grant :=
  match r with
  | Some r =>
      if label m =? 1 then
        if word r 0 =? 0 then mk_grant (word r 1) (word m 1) (u32 (word m 0)) :: g else g
      else filter (fun x => gr_paddr x <> word m 0) g
  | None => g
  end.

Definition outstanding (l : list ipc_msg_t) (rs : list (option ipc_msg_t)) : list grant :=
  fold_left (fun g p => track p.1 p.2 g) (zip l rs) [].

Definition disjoint (a n b k : Z) : Prop := a + n <= b \/ b + k <= a.

(** A table whose regions do not overlap. *)
Record mem_wf (s : mem_t) : Prop := {
  me_len : length (untypeds s) = Z.to_nat MAX_UNTYPED;
  me_count : 0 <= untyped_count s <= MAX_UNTYPED;
  me_region : forall i x, 0 <= i < untyped_count s -> (untypeds s).[i] = Some x -> 0 < ut_size x;
  me_disjoint : forall i j x y, i <> j -> 0 <= i < untyped_count s -> 0 <= j < untyped_count s ->
    (untypeds s).[i] = Some x -> (untypeds s).[j] = Some y ->
    disjoint (ut_paddr x) (ut_size x) (ut_paddr y) (ut_size y)
}.

(** A grant is the beginning of a region that is taken and has a colour of the partition. *)
Definition backed (s : mem_t) (g : grant) : Prop :=
  exists i x, 0 <= i < untyped_count s /\ (untypeds s).[i] = Some x /\ ut_free x = false /\
    ut_paddr x = gr_paddr g /\ gr_size g <= ut_size x /\ alloc_color_is_valid (gr_part g) (ut_color x) = true.

Definition mem_inv (g : list grant) (s : mem_t) : Prop :=
  mem_wf s /\ Forall (backed s) g /\ NoDup (map gr_paddr g).

(** A request as the kernel delivers it. *)
Definition request_ok (m : ipc_msg_t) : Prop :=
  length (words m) = Z.to_nat IPC_MSG_MAX /\ length (cap_ptrs m) = Z.to_nat IPC_CAPS_MAX.

(** ** Lemmas *)

Lemma color_matches_kernel p c : color_matches p c = alloc_color_is_valid p c.
Proof.
  unfold color_matches, alloc_color_is_valid, alloc_color_for_partition, COLORS_PER_PARTITION, NUM_COLORS. cbv zeta.
  pose proof (Z.mod_pos_bound (u32 (p * 2)) 16 ltac:(lia)). rewrite (u16_small (_ mod _)) by (unfold fits; lia).
  by rewrite u16_small by (unfold fits; lia).
Qed.

(** What the loop of [mem_alloc] does to the table. *)
Definition took (s : mem_t) (i n partition size : Z) (r : option untyped_t) (s' : mem_t) : Prop :=
  untyped_count s' = untyped_count s /\
  match r with
  | None => untypeds s' = untypeds s
  | Some x => exists j, i <= j < i + n /\ (untypeds s).[j] = Some x /\ ut_free x = true /\ size <= ut_size x /\
      color_matches partition (ut_color x) = true /\
      untypeds s' = <[Z.to_nat j := x <| ut_free := false |>]> (untypeds s)
  end.

Lemma alloc_loop_spec retype n : forall i partition size s, 0 <= i -> i + Z.of_nat n <= Z.of_nat (length (untypeds s)) ->
  exists r s', alloc_loop retype n i partition size s = Some (r, s') /\ took s i (Z.of_nat n) partition size r s'.
Proof.
  induction n as [|n IH]; intros i partition size s Hi Hn; cbn [alloc_loop]; [by eexists _, _|].
  destruct (arr_get_is_Some (untypeds s) i) as [x Hx]; [lia|]. rewrite Hx. cbn [mbind option_bind].
  assert (forall s1, untypeds s1 = untypeds s -> untyped_count s1 = untyped_count s ->
    exists r s', alloc_loop retype n (i + 1) partition size s1 = Some (r, s') /\
      took s i (Z.of_nat (S n)) partition size r s') as Hnext.
  { intros s1 E1 E2. destruct (IH (i + 1) partition size s1) as (r & s' & Hrun & Hc & Hr); [lia|rewrite E1; lia|].
    exists r, s'. split; [done|]. split; [congruence|]. destruct r as [y|]; [|congruence].
    destruct Hr as (j & Hj & Hrest). rewrite E1 in Hrest. exists j. split; [lia|exact Hrest]. }
  destruct (ut_free x) eqn:Ef; cbn [negb]; [|by apply Hnext].
  destruct (Z.ltb_spec (ut_size x) size) as [|Hs]; [by apply Hnext|].
  destruct (color_matches partition (ut_color x)) eqn:Ec; cbn [negb]; [|by apply Hnext].
  destruct (_ =? 0); cbn [negb]; [|by apply Hnext].
  change (untypeds (s <| retypes ::= _ |>)) with (untypeds s). rewrite arr_set_in by lia. cbn [mbind option_bind].
  eexists _, _. split; [reflexivity|]. split; [done|]. exists i. split; [lia|]. by split_and!.
Qed.

(** The entries keep their regions. *)
Lemma mem_wf_ext s s' : mem_wf s -> untyped_count s' = untyped_count s -> length (untypeds s') = length (untypeds s) ->
  (forall i x', (untypeds s').[i] = Some x' -> exists x, (untypeds s).[i] = Some x /\
     ut_paddr x' = ut_paddr x /\ ut_size x' = ut_size x) -> mem_wf s'.
Proof.
  intros [Hl Hc Hr Hd] Ec El He. constructor; rewrite ?Ec, ?El; try done.
  - intros i x' Hi Hx. destruct (He i x' Hx) as (x & Hx0 & _ & ->). by eapply Hr.
  - intros i j x' y' Hij Hi Hj Hx Hy. destruct (He i x' Hx) as (x & Hx0 & -> & ->).
    destruct (He j y' Hy) as (y & Hy0 & -> & ->). by eapply (Hd i j).
Qed.

(** Two taken regions with one address are one. *)
Lemma region_unique s i j x y : mem_wf s -> 0 <= i < untyped_count s -> 0 <= j < untyped_count s ->
  (untypeds s).[i] = Some x -> (untypeds s).[j] = Some y -> ut_paddr x = ut_paddr y -> i = j.
Proof.
  intros Hwf Hi Hj Hx Hy E. destruct (decide (i = j)) as [|Hne]; [done|].
  pose proof (me_region _ Hwf i x Hi Hx). pose proof (me_region _ Hwf j y Hj Hy).
  destruct (me_disjoint _ Hwf i j x y Hne Hi Hj Hx Hy); lia.
Qed.

Lemma alloc_keeps retype partition size o1 o2 g s : mem_inv g s -> 
  exists e p c s', mem_alloc retype partition size o1 o2 s = Some (e, p, c, s') /\
    (e = 0 \/ e = -1) /\
    mem_inv (if e =? 0 then mk_grant p size partition :: g else g) s'.
Proof.
  intros (Hwf & Hb & Hnd). pose proof (me_len _ Hwf) as Hl. pose proof (me_count _ Hwf) as Hc. unfold mem_alloc.
  destruct (alloc_loop_spec retype (Z.to_nat (untyped_count s)) 0 partition size s) as (r & s' & -> & Ec & Hr);
    [lia|rewrite Hl; unfold MAX_UNTYPED in *; lia|]. cbn [mbind option_bind]. destruct r as [x|].
  2:{ exists (-1), o1, o2, s'. split; [done|]. split; [by right|]. cbn [Z.eqb]. split_and!; [|clear Hnd|done].
      - eapply mem_wf_ext; [exact Hwf|done|by rewrite Hr|]. rewrite Hr. intros i x Hx. by exists x.
      - unfold backed in *. by rewrite Ec, Hr. }
  exists 0, (ut_paddr x), (ut_color x), s'. split; [done|]. split; [by left|]. cbn [Z.eqb].
  destruct Hr as (j & Hj & Hx & Hfree & Hsz & Hcol & Eu).
  assert (0 <= j < untyped_count s) as Hj' by lia.
  assert (0 <= j < Z.of_nat (length (untypeds s))) as Hjl by (apply arr_get_Some in Hx; lia).
  assert (forall i, (untypeds s').[i] = if i =? j then Some (x <| ut_free := false |>) else (untypeds s).[i]) as Hget.
  { intros i. rewrite Eu. by apply arr_get_insert. }
  split_and!.
  - eapply mem_wf_ext; [exact Hwf|done|by rewrite Eu, length_insert|]. intros i y Hy. rewrite Hget in Hy.
    destruct (Z.eqb_spec i j) as [->|]; [injection Hy as <-; by exists x|by exists y].
  - constructor.
    + exists j, (x <| ut_free := false |>). rewrite Hget, Z.eqb_refl, Ec, <- color_matches_kernel. by split_and!; try lia.
    + eapply Forall_impl; [|exact Hb]. intros h (i & y & Hi & Hy & Hf & Hrest). exists i, y. rewrite Hget, Ec.
      destruct (Z.eqb_spec i j) as [->|]; [congruence|done].
  - cbn [map]. constructor; [|done]. intros Hin. apply list_elem_of_fmap in Hin as (h & E & Hh).
    rewrite list.Forall_forall in Hb. destruct (Hb h Hh) as (i & y & Hi & Hy & Hf & Ep & _). cbn in E.
    assert (i = j) as -> by (eapply (region_unique s i j y x); try done; congruence). congruence.
Qed.

Lemma free_keeps p g s : mem_inv g s ->
  exists s', mem_free p s = Some s' /\ mem_inv (filter (fun x => gr_paddr x <> p) g) s'.
Proof.
  intros (Hwf & Hb & Hnd). pose proof (me_len _ Hwf) as Hl. pose proof (me_count _ Hwf) as Hc. unfold mem_free.
  destruct (for_loop_inv (fun k l => length l = length (untypeds s) /\
      forall i x', l.[i] = Some x' -> exists x, (untypeds s).[i] = Some x /\ (x' = x \/ ut_paddr x = p /\ x' = x <| ut_free := true |>))
    (fun i l => x ← l.[i]; if ut_paddr x =? p then l.[i := x <| ut_free := true |>] else Some l)
    (Z.to_nat (untyped_count s)) 0 (untypeds s)) as (l & -> & Hlen & Hget).
  - split; [done|]. intros i x Hx. exists x. auto.
  - intros k l Hk [Hlen Hget]. destruct (arr_get_is_Some l k) as [x Hx].
    { rewrite Hlen, Hl. unfold MAX_UNTYPED in *. lia. }
    rewrite Hx. cbn [mbind option_bind]. destruct (Z.eqb_spec (ut_paddr x) p) as [E|]; [|by exists l].
    assert (0 <= k < Z.of_nat (length l)) as Hkl by (apply arr_get_Some in Hx; lia).
    rewrite arr_set_in by done. eexists. split; [reflexivity|]. split; [by rewrite length_insert|].
    intros i x' Hx'. rewrite arr_get_insert in Hx' by done. destruct (Z.eqb_spec i k) as [->|]; [|by apply Hget].
    injection Hx' as <-. destruct (Hget k x Hx) as (x0 & Hx0 & [->|[? ->]]); exists x0; split; try done; right; done.
  - cbn [mbind option_bind]. eexists. split; [reflexivity|]. split_and!.
    + eapply mem_wf_ext; [exact Hwf|done|done|]. intros i x' Hx'. destruct (Hget i x' Hx') as (x & Hx & [->|[_ ->]]);
        by exists x.
    + rewrite list.Forall_forall in *. intros h Hh. apply list_elem_of_filter in Hh as [Hp Hh].
      destruct (Hb h Hh) as (i & x & Hi & Hx & Hf & Ep & Hrest).
      assert (is_Some l.[i]) as [x' Hx'].
      { apply arr_get_is_Some. rewrite Hlen. apply arr_get_Some in Hx. lia. }
      destruct (Hget i x' Hx') as (x0 & Hx0 & Hcase). rewrite Hx in Hx0. injection Hx0 as <-.
      exists i, x'. destruct Hcase as [->|[E ->]]; [done|congruence].
    + clear -Hnd. induction g as [|h g IH]; [constructor|]. cbn [map] in Hnd. apply list.NoDup_cons in Hnd as [Hn Hnd].
      rewrite filter_cons. destruct (decide _); [|auto]. cbn [map]. apply list.NoDup_cons. split; [|auto].
      intros Hin. apply Hn. apply list_elem_of_fmap in Hin as (h' & -> & Hh). apply list_elem_of_filter in Hh as [_ Hh].
      by apply list_elem_of_fmap_2.
Qed.

(** One turn of the server. *)
Lemma mem_turn retype sp sc m g s : request_ok m -> mem_inv g s ->
  exists r s', mem_server_run retype sp sc m s = Some (r, s') /\ mem_inv (track m r g) s'.
Proof.
  intros [Hw Hcp] Hinv.
  assert (forall i, 0 <= i < 30 -> is_Some (words m).[i]) as Hword.
  { intros i Hi. apply arr_get_is_Some. rewrite Hw. unfold IPC_MSG_MAX. lia. }
  unfold mem_server_run, track, word. destruct (Z.eqb_spec (label m) 1) as [E1|E1].
  - destruct (Hword 0 ltac:(lia)) as [w0 H0]. destruct (Hword 1 ltac:(lia)) as [w1 H1]. rewrite H0, H1.
    cbn [mbind option_bind default].
    destruct (alloc_keeps retype (u32 w0) w1 sp sc g s Hinv) as (e & p & c & s' & -> & He & Hinv').
    cbn [mbind option_bind]. rewrite (arr_set_in (cap_ptrs m)) by (rewrite Hcp; done).
    do 3 (rewrite arr_set_in by (rewrite ?length_insert, Hw; done); cbn [mbind option_bind]).
    set (ws := <[_ := c]> _).
    assert (ws.[0] = Some (u64 e) /\ ws.[1] = Some p) as [Hr0 Hr1].
    { unfold ws. rewrite !arr_get_insert by (rewrite ?length_insert, Hw; done). by split. }
    destruct He as [->| ->]; cbn [Z.eqb].
    + cbn [mbind option_bind]. eexists _, _. split; [reflexivity|].
      cbn [words modify_field]. by rewrite Hr0, Hr1.
    + cbn [mbind option_bind]. eexists _, _. split; [reflexivity|]. cbn [words modify_field]. by rewrite Hr0.
  - destruct (Z.eqb_spec (label m) 2) as [E2|E2]; [|by exists None, s].
    destruct (Hword 0 ltac:(lia)) as [w0 H0]. rewrite H0. cbn [mbind option_bind default].
    destruct (free_keeps w0 g s Hinv) as (s' & -> & Hinv'). cbn [mbind option_bind].
    rewrite arr_set_in by (rewrite Hw; done). cbn [mbind option_bind]. by eexists _, _.
Qed.

(** ** Properties *)

(** C34. The memory server never hands out memory twice: over any conversation, from a
    table of regions that do not overlap, the server answers without reading outside its
    table; what it has handed out and not been given back lies inside distinct
    regions, so that no two of these pieces overlap, and has a colour the kernel's
    allocator would accept for the partition that asked. This holds for every
    behaviour of the kernel on the retype calls. *)
Theorem mem_server_exclusive retype sp sc l s : mem_wf s -> Forall request_ok l ->
  exists rs s', serve (H := mem_server retype sp sc) l s = Some (rs, s') /\ length rs = length l /\
    Forall (backed s') (outstanding l rs) /\
    forall i j a b, i <> j -> outstanding l rs !! i = Some a -> outstanding l rs !! j = Some b ->
      disjoint (gr_paddr a) (gr_size a) (gr_paddr b) (gr_size b).
Proof.
  intros Hwf Hl. destruct (serve_inv (H := mem_server retype sp sc) request_ok track mem_inv) with (l := l) (g := @nil grant) (s := s)
    as (rs & s' & Hrun & Hlen & Hinv).
  - intros m g s0 Hm Hi. by apply mem_turn.
  - done.
  - split_and!; [done|constructor|constructor].
  - exists rs, s'. split; [done|]. split; [done|]. fold (outstanding l rs) in Hinv. destruct Hinv as (Hwf' & Hb & Hnd).
    split; [done|]. intros i j a b Hij Ha Hb'.
    rewrite list.Forall_lookup in Hb. destruct (Hb i a Ha) as (x & u & Hx & Hu & _ & Ea & Hsa & _).
    destruct (Hb j b Hb') as (y & v & Hy & Hv & _ & Eb & Hsb & _).
    assert (x <> y) as Hxy.
    { intros ->. apply Hij. eapply (NoDup_lookup (map gr_paddr (outstanding l rs))); [done| |].
      - rewrite list_lookup_fmap, Ha. reflexivity.
      - rewrite list_lookup_fmap, Hb'. cbn. congruence. }
    destruct (me_disjoint _ Hwf' x y u v Hxy Hx Hy Hu Hv); unfold disjoint; lia.
Qed.

(** The table after [mem_server_init] with as many regions as it has room for. *)
Lemma mem_server_init_table bases sizes colors n s : length (untypeds s) = Z.to_nat MAX_UNTYPED -> 0 <= n <= MAX_UNTYPED ->
  n <= Z.of_nat (length bases) -> n <= Z.of_nat (length sizes) -> n <= Z.of_nat (length colors) ->
  exists s', mem_server_init bases sizes colors n s = Some s' /\ untyped_count s' = n /\
    length (untypeds s') = Z.to_nat MAX_UNTYPED /\
    forall i, 0 <= i < n -> exists b sz c, bases.[i] = Some b /\ sizes.[i] = Some sz /\ colors.[i] = Some c /\
      (untypeds s').[i] = Some (mk_untyped b sz i true c).
Proof.
  intros Hl Hn Hb Hs Hc. unfold mem_server_init. rewrite Z.min_l by lia.
  destruct (for_loop_inv (fun k l => length l = Z.to_nat MAX_UNTYPED /\
      forall i, 0 <= i < k -> exists b sz c, bases.[i] = Some b /\ sizes.[i] = Some sz /\ colors.[i] = Some c /\
        l.[i] = Some (mk_untyped b sz i true c))
    (fun i l => b ← bases.[i]; sz ← sizes.[i]; c ← colors.[i]; l.[i := mk_untyped b sz i true c])
    (Z.to_nat n) 0 (untypeds s)) as (l & -> & Hlen & Hget).
  - split; [done|]. lia.
  - intros k l Hk [Hlen Hget]. destruct (arr_get_is_Some bases k) as [b Eb]; [lia|].
    destruct (arr_get_is_Some sizes k) as [sz Es]; [lia|]. destruct (arr_get_is_Some colors k) as [c Ec]; [lia|].
    rewrite Eb, Es, Ec. cbn [mbind option_bind].
    assert (0 <= k < Z.of_nat (length l)) as Hkl by (rewrite Hlen; unfold MAX_UNTYPED in *; lia).
    rewrite arr_set_in by done. eexists. split; [reflexivity|]. rewrite length_insert. split; [done|].
    intros i Hi. rewrite arr_get_insert by done. destruct (Z.eqb_spec i k) as [->|]; [by exists b, sz, c|apply Hget; lia].
  - cbn [mbind option_bind]. eexists. split; [reflexivity|]. split; [done|]. split; [done|].
    intros i Hi. apply Hget. lia.
Qed.

(** Disjoint regions make a well-formed table. *)
Lemma mem_server_init_wf bases sizes colors n s : length (untypeds s) = Z.to_nat MAX_UNTYPED -> 0 <= n <= MAX_UNTYPED ->
  n <= Z.of_nat (length bases) -> n <= Z.of_nat (length sizes) -> n <= Z.of_nat (length colors) ->
  (forall i z, 0 <= i < n -> sizes.[i] = Some z -> 0 < z) ->
  (forall i j a b x y, i <> j -> 0 <= i < n -> 0 <= j < n -> bases.[i] = Some a -> sizes.[i] = Some x ->
     bases.[j] = Some b -> sizes.[j] = Some y -> disjoint a x b y) ->
  exists s', mem_server_init bases sizes colors n s = Some s' /\ mem_wf s'.
Proof.
  intros Hl Hn Hb Hs Hc Hpos Hdis.
  destruct (mem_server_init_table bases sizes colors n s Hl Hn Hb Hs Hc) as (s' & Hrun & Ec & Hlen & Hget).
  exists s'. split; [done|]. constructor; rewrite ?Ec; try done.
  - intros i x Hi Hx. destruct (Hget i Hi) as (b & sz & c & _ & Es & _ & Hi'). rewrite Hx in Hi'. injection Hi' as ->.
    by eapply Hpos.
  - intros i j x y Hij Hi Hj Hx Hy. destruct (Hget i Hi) as (b & sz & c & Eb & Es & _ & Hi').
    destruct (Hget j Hj) as (b' & sz' & c' & Eb' & Es' & _ & Hj'). rewrite Hx in Hi'. rewrite Hy in Hj'.
    injection Hi' as ->. injection Hj' as ->. by eapply (Hdis i j).
Qed.

(** Two regions of 64 KiB for partition 0 and 1, a kernel that grants every retype, and a
    conversation: partition 0 gets the first region and asks again in vain, partition 1
    gets the second. *)
Definition demo_mem : mem_t :=
  default mem_zero (mem_server_init [0x90000000; 0x90010000] [0x10000; 0x10000] [0; 3] 2 mem_zero).
Definition always_ok : list retype_call -> retype_call -> Z := fun _ _ => 0.
Definition demo_request (lab w0 w1 : Z) : ipc_msg_t :=
  ipc_msg_zero <| label := lab |> <| words := w0 :: w1 :: replicate 28 0 |>.
Definition demo_talk : list ipc_msg_t := [demo_request 1 0 4096; demo_request 1 0 4096; demo_request 1 1 4096].

Lemma demo_mem_wf : mem_wf demo_mem.
Proof.
  destruct (mem_server_init_wf [0x90000000; 0x90010000] [0x10000; 0x10000] [0; 3] 2 mem_zero) as (s & Hs & Hwf); try done.
  - intros i z Hi Hz. assert (i = 0 \/ i = 1) as [->| ->] by lia; by injection Hz as <-.
  - intros i j a b x y Hij Hi Hj Ha Hx Hb Hy. unfold disjoint.
    assert (i = 0 \/ i = 1) as [->| ->] by lia; assert (j = 0 \/ j = 1) as [->| ->] by lia; try done;
      injection Ha as <-; injection Hx as <-; injection Hb as <-; injection Hy as <-; lia.
  - unfold demo_mem. by rewrite Hs.
Qed.

Lemma mem_server_exclusive_witness :
  exists rs s', serve (H := mem_server always_ok 0 0) demo_talk demo_mem = Some (rs, s') /\
    map gr_paddr (outstanding demo_talk rs) = [0x90010000; 0x90000000] /\
    Forall (backed s') (outstanding demo_talk rs).
Proof.
  destruct (mem_server_exclusive always_ok 0 0 demo_talk demo_mem demo_mem_wf) as (rs & s' & Hrun & _ & Hb & _).
  - repeat constructor.
  - exists rs, s'. split; [exact Hrun|]. split; [|exact Hb].
    assert (option_map (fun r => map gr_paddr (outstanding demo_talk r.1)) (serve (H := mem_server always_ok 0 0) demo_talk demo_mem)
      = Some [0x90010000; 0x90000000]) as E by (vm_compute; reflexivity).
    rewrite Hrun in E. injection E as E. exact E.
Defined.

(** [mem_server_init] stores [n] although the table has 32 entries: with 33 regions the
    first request that no entry serves reads past the end of the table. *)
Lemma mem_init_overcounts : exists s,
  mem_server_init (replicate 33 0x90000000) (replicate 33 4096) (replicate 33 0) 33 mem_zero = Some s /\
  untyped_count s = 33 /\ mem_alloc always_ok 5 4096 0 0 s = None.
Proof. eexists. split; [vm_compute; reflexivity|]. split; vm_compute; reflexivity. Qed.

(** The answer to a request that fails carries whatever the variables of the server held. *)
Lemma mem_refusal_leaks p c :
  option_map (fun r => map (option_map (fun m => take 3 (words m))) r.1)
    (serve (H := mem_server always_ok p c) [demo_request 1 5 4096] demo_mem) = Some [Some [2 ^ 64 - 1; p; c]].
Proof. vm_compute. reflexivity. Qed.

(** Any client can give back the memory of any other: after partition 1 has released the
    address partition 0 was given, partition 8, which has the same colours, is given it,
    while partition 0 has not released anything. *)
Lemma mem_free_by_anyone :
  option_map (fun r => map (option_map (fun m => take 2 (words m))) r.1)
    (serve (H := mem_server always_ok 0 0)
       [demo_request 1 0 4096; demo_request 2 0x90000000 0; demo_request 1 8 4096] demo_mem)
  = Some [Some [0; 0x90000000]; Some [0; 0]; Some [0; 0x90000000]].
Proof. vm_compute. reflexivity. Qed.
