(* ===== verification/SchedServer.v ===== *)
(** * userspace/sched_server/server.c: the scheduling policy

    The table of admitted tasks, the admission test per partition, and the loop that
    serves requests to admit a task. *)

From Stdlib Require Import QArith.
From S2P Require Import Prelude Types Sched Server.

Definition MAX_TASKS : Z := 64.

Record task_cfg_t := mk_task_cfg {
  tk_id : Z;
  tk_partition : Z;
  tk_budget : Z;
  tk_period : Z;
  tk_prio : Z;
  tk_rt : bool
}.

Definition task_zero : task_cfg_t := mk_task_cfg 0 0 0 0 0 false.

(** The static variables. *)
Record tasks_t := mk_tasks { tasks : list task_cfg_t; task_count : Z }.
#[export] Instance tasks_eta : Eta tasks_t := fun s => mk_tasks (tasks s) (task_count s).

Definition tasks_zero : tasks_t := mk_tasks (replicate (Z.to_nat MAX_TASKS) task_zero) 0.

(** [budget * 100 / period]. *)
Definition task_share (t : task_cfg_t) : option Z :=
  if tk_period t =? 0 then None else Some (u64 (tk_budget t * 100) / tk_period t).

(** The loop over [n] tasks from [i] on: the sum, or [None] when it returned false. *)
Fixpoint share_loop (n : nat) (i part sum : Z) (l : list task_cfg_t) : option (option Z) :=
  match n with
  | O => Some (Some sum)
  | S n' =>
      t ← l.[i];
      if tk_partition t =? part then
        x ← task_share t;
        let sum' := u64 (sum + x) in
        if 99 <? sum' then Some None else share_loop n' (i + 1) part sum' l
      else share_loop n' (i + 1) part sum l
  end.

Definition is_schedulable_for_partition (s : tasks_t) (part : Z) (new_task : option task_cfg_t) : option bool :=
  r ← share_loop (Z.to_nat (task_count s)) 0 part 0 (tasks s);
  match r with
  | None => Some false
  | Some sum =>
      match new_task with
      | Some t =>
          if tk_partition t =? part then
            x ← task_share t;
            let sum' := u64 (sum + x) in
            if 99 <? sum' then Some false else Some (sum' <=? 99)
          else Some (sum <=? 99)
      | None => Some (sum <=? 99)
      end
  end.

Definition sched_admit (cfg : task_cfg_t) (s : tasks_t) : option (Z * tasks_t) :=
  ok ← is_schedulable_for_partition s (tk_partition cfg) (Some cfg);
  if negb ok then Some (-1, s)
  else if MAX_TASKS <=? task_count s then Some (-1, s)
  else
    l ← (tasks s).[task_count s := cfg];
    Some (0, s <| tasks := l |> <| task_count ::= fun n => u32 (n + 1) |>).

(** [for (p = 0; p < 8; p++)]: [n] partitions from [p] on. *)
Fixpoint admissible_loop (n : nat) (p : Z) (s : tasks_t) : option bool :=
  match n with
  | O => Some true
  | S n' =>
      ok ← is_schedulable_for_partition s p None;
      if negb ok then Some false else admissible_loop n' (p + 1) s
  end.
Definition sched_is_admissible (s : tasks_t) : option bool := admissible_loop 8 0 s.

(** The request of a message; [rt] is not set by the loop. *)
Definition task_of (rt : bool) (msg : ipc_msg_t) : option task_cfg_t :=
  w0 ← (words msg).[0]; w1 ← (words msg).[1]; w2 ← (words msg).[2];
  w3 ← (words msg).[3]; w4 ← (words msg).[4];
  Some (mk_task_cfg (u32 w0) (u32 w1) w2 w3 (u8 w4) rt).

Definition sched_server_run (rt : bool) (msg : ipc_msg_t) (s : tasks_t) : option (option ipc_msg_t * tasks_t) :=
  if label msg =? 1 then
    cfg ← task_of rt msg;
    '(err, s') ← sched_admit cfg s;
    ws ← (words msg).[0 := u64 err];
    Some (Some (msg <| words := ws |> <| msg_length := 1 |>), s')
  else Some (None, s).

#[export] Instance sched_server rt : Server tasks_t := sched_server_run rt.

(** ** Specification *)

(** A task the kernel would bind: its budget is positive and at most its period and the
    major frame. *)
Definition task_ok (t : task_cfg_t) : Prop :=
  0 < tk_budget t <= tk_period t /\ tk_budget t <= MAJOR_FRAME_US /\ 0 <= tk_partition t < MAX_PARTITIONS.

(** The load of a partition in percent as the code counts it, the share of every task
    rounded down, and exactly. *)
Fixpoint load (p : Z) (l : list task_cfg_t) : Z :=
  match l with
  | [] => 0
  | t :: l' => (if tk_partition t =? p then tk_budget t * 100 / tk_period t else 0) + load p l'
  end.

Fixpoint exact_load (p : Z) (l : list task_cfg_t) : Q :=
  match l with
  | [] => 0
  | t :: l' =>
      (if tk_partition t =? p then inject_Z (tk_budget t * 100) / inject_Z (tk_period t) else 0) + exact_load p l'
  end%Q.

Definition admitted (s : tasks_t) : list task_cfg_t := take (Z.to_nat (task_count s)) (tasks s).

Record tasks_wf (s : tasks_t) : Prop := {
  ta_len : length (tasks s) = Z.to_nat MAX_TASKS;
  ta_count : 0 <= task_count s <= MAX_TASKS;
  ta_ok : Forall task_ok (admitted s)
}.

(** The kernel has a bound context for each task of the table and no others. *)
Definition context_of (t : task_cfg_t) (c : sched_context_t) : Prop :=
  sc_bound c = true /\ sc_partition_id c = tk_partition t /\ sc_budget_us c = tk_budget t /\ sc_period_us c = tk_period t.

Definition mirrors (s : tasks_t) (k : sched_state_t) : Prop :=
  exists cs rest, contexts k = cs ++ rest /\ Forall2 context_of (admitted s) cs /\
    Forall (fun c => sc_bound c = false) rest /\ Forall (fun t => tk_partition t < num_partitions k) (admitted s).

(** ** Lemmas *)

Lemma share_range t : task_ok t -> task_share t = Some (tk_budget t * 100 / tk_period t) /\
  0 <= tk_budget t * 100 / tk_period t <= 100.
Proof.
  intros (Hb & Hm & _). unfold task_share, MAJOR_FRAME_US in *. destruct (Z.eqb_spec (tk_period t) 0); [lia|].
  rewrite u64_small by (unfold fits; lia). split; [done|].
  split; [apply Z.div_pos; lia|apply Z.div_le_upper_bound; lia].
Qed.

Lemma load_nonneg p l : Forall task_ok l -> 0 <= load p l.
Proof.
  induction 1 as [|t l Ht _ IH]; cbn [load]; [done|]. destruct (share_range t Ht) as [_ Hr].
  destruct (tk_partition t =? p); lia.
Qed.

Lemma load_app p l l' : load p (l ++ l') = load p l + load p l'.
Proof. induction l as [|t l IH]; cbn [load app]; [done|]. rewrite IH. lia. Qed.

(** Rounding loses at most one point for each task of the partition. *)
Lemma exact_load_bounds p l : Forall task_ok l ->
  (inject_Z (load p l) <= exact_load p l)%Q /\
  (exact_load p l <= inject_Z (load p l + count_if (fun t => tk_partition t =? p) l))%Q.
Proof.
  induction 1 as [|t l (Hb & _) _ [IHlo IHhi]]; cbn [load exact_load]; [by split|].
  rewrite count_if_cons. destruct (tk_partition t =? p); [apply share_step; [lia|done..]|].
  rewrite !Z.add_0_l, Qplus_0_l. done.
Qed.

(** The loop computes the load, as far as it stays below the limit. *)
Lemma share_loop_spec n : forall i part sum l, 0 <= i -> 0 <= sum <= 99 ->
  i + Z.of_nat n <= Z.of_nat (length l) -> Forall task_ok (take n (drop (Z.to_nat i) l)) ->
  share_loop n i part sum l =
    Some (let x := sum + load part (take n (drop (Z.to_nat i) l)) in if 99 <? x then None else Some x).
Proof.
  induction n as [|n IH]; intros i part sum l Hi Hs Hn Hok; cbn [share_loop].
  { cbn [take load]. rewrite Z.add_0_r. cbv zeta. by rewrite (proj2 (Z.ltb_ge 99 sum)) by lia. }
  destruct (arr_get_is_Some l i) as [t Ht]; [lia|]. rewrite Ht. cbn [mbind option_bind].
  rewrite arr_get_lookup in Ht by lia. rewrite (drop_S _ _ _ Ht) in Hok |- *. cbn [take] in Hok |- *.
  apply list.Forall_cons in Hok as [Hto Hok]. replace (S (Z.to_nat i)) with (Z.to_nat (i + 1)) in * by lia.
  destruct (share_range t Hto) as [Hsh Hr]. cbn [load].
  pose proof (load_nonneg part _ Hok) as Hl. destruct (tk_partition t =? part).
  - rewrite Hsh. cbn [mbind option_bind]. rewrite u64_small by (unfold fits; lia). cbv zeta.
    destruct (Z.ltb_spec 99 (sum + tk_budget t * 100 / tk_period t)) as [Hgt|Hle].
    + by rewrite (proj2 (Z.ltb_lt 99 _)) by lia.
    + rewrite IH by (done || lia). cbv zeta. by rewrite Z.add_assoc.
  - rewrite IH by (done || lia). cbv zeta. by rewrite Z.add_0_l.
Qed.

Lemma partition_test s p t : tasks_wf s -> (forall x, t = Some x -> task_ok x) ->
  is_schedulable_for_partition s p t =
    Some (load p (admitted s) + match t with Some x => load p [x] | None => 0 end <=? 99).
Proof.
  intros [Hl Hc Hok] Ht. unfold is_schedulable_for_partition, admitted in *.
  rewrite share_loop_spec by (try done; rewrite ?Hl; unfold MAX_TASKS in *; cbn [Z.to_nat drop]; (lia || done)).
  cbn [mbind option_bind Z.to_nat drop]. cbv zeta. rewrite Z.add_0_l.
  pose proof (load_nonneg p _ Hok) as Hp. set (sum := load p (take _ _)) in *.
  assert (forall x, t = Some x -> 0 <= load p [x]) as Hx.
  { intros x E. apply load_nonneg. repeat constructor. all: by apply Ht. }
  destruct (Z.ltb_spec 99 sum) as [Hgt|Hle].
  { symmetry. f_equal. apply Z.leb_gt. destruct t as [x|]; [specialize (Hx x eq_refl)|]; lia. }
  destruct t as [x|]; [|by rewrite Z.add_0_r]. destruct (share_range x (Ht x eq_refl)) as [Hsh Hr]. cbn [load].
  destruct (tk_partition x =? p); [|by rewrite !Z.add_0_r]. rewrite Hsh. cbn [mbind option_bind].
  rewrite u64_small by (unfold fits; lia). cbv zeta. rewrite Z.add_0_r.
  destruct (Z.ltb_spec 99 (sum + tk_budget x * 100 / tk_period x)); [|done]. f_equal. symmetry. by apply Z.leb_gt.
Qed.

Lemma admissible_loop_spec s n : tasks_wf s -> forall p,
  exists r, admissible_loop n p s = Some r /\
    (r = true <-> forall k, p <= k < p + Z.of_nat n -> load k (admitted s) <= 99).
Proof.
  intros Hwf. induction n as [|n IH]; intros p; cbn [admissible_loop].
  { exists true. split; [done|]. split; [lia|done]. }
  rewrite (partition_test s p None Hwf) by done. cbn [mbind option_bind]. rewrite Z.add_0_r.
  destruct (Z.leb_spec (load p (admitted s)) 99) as [Hle|Hgt]; cbn [negb].
  - destruct (IH (p + 1)) as (r & -> & Hr). exists r. split; [done|]. rewrite Hr.
    split; intros Hk k Hkr; [|apply Hk; lia]. destruct (decide (k = p)) as [->|]; [lia|apply Hk; lia].
  - exists false. split; [done|]. split; [done|]. intros Hk. specialize (Hk p ltac:(lia)). lia.
Qed.

Lemma floor_sum_mirror p l cs rest : Forall2 context_of l cs -> Forall (fun c => sc_bound c = false) rest ->
  floor_sum p (cs ++ rest) = load p l.
Proof.
  intros H Hr. induction H as [|t c l cs (Hb & Hp & Hbu & Hpe) _ IH]; cbn [app floor_sum load].
  - induction Hr as [|c rest Hc _ IH]; [done|]. cbn [floor_sum]. rewrite IH. unfold in_part. by rewrite Hc.
  - unfold in_part. by rewrite Hb, Hp, Hbu, Hpe, IH.
Qed.

Lemma load_absent p l : Forall (fun t => tk_partition t <> p) l -> load p l = 0.
Proof.
  induction 1 as [|t l Ht _ IH]; cbn [load]; [done|]. rewrite IH. by rewrite (proj2 (Z.eqb_neq _ _) Ht).
Qed.

(** One admission. *)
Lemma admit_cases cfg s : tasks_wf s -> task_ok cfg ->
  exists e s', sched_admit cfg s = Some (e, s') /\ tasks_wf s' /\
    ((e = 0 /\ load (tk_partition cfg) (admitted s) + load (tk_partition cfg) [cfg] <= 99 /\
        admitted s' = admitted s ++ [cfg]) \/
     (e = -1 /\ s' = s /\
        (99 < load (tk_partition cfg) (admitted s) + load (tk_partition cfg) [cfg] \/ task_count s = MAX_TASKS))).
Proof.
  intros Hwf Hok. pose proof Hwf as [Hl Hc Hadm]. unfold sched_admit.
  rewrite (partition_test s (tk_partition cfg) (Some cfg) Hwf) by (by intros x [= <-]). cbn [mbind option_bind].
  destruct (Z.leb_spec (load (tk_partition cfg) (admitted s) + load (tk_partition cfg) [cfg]) 99) as [Hle|Hgt]; cbn [negb].
  2:{ exists (-1), s. split; [done|]. split; [done|]. right. split_and!; [done|done|by left]. }
  destruct (Z.leb_spec MAX_TASKS (task_count s)) as [Hfull|Hroom].
  { exists (-1), s. split; [done|]. split; [done|]. right. split_and!; [done|done|right; lia]. }
  assert (0 <= task_count s < Z.of_nat (length (tasks s))) as Hi by (rewrite Hl; unfold MAX_TASKS in *; lia).
  rewrite arr_set_in by done. cbn [mbind option_bind]. exists 0. eexists. split; [reflexivity|].
  set (s' := _ <| task_count ::= _ |>).
  assert (admitted s' = admitted s ++ [cfg]) as Ha.
  { unfold admitted, s'. cbn [modify_field tasks task_count].
    change (task_count (s <| tasks := _ |> <| task_count ::= _ |>)) with (u32 (task_count s + 1)).
    rewrite u32_small by (unfold fits, MAX_TASKS in *; lia).
    replace (Z.to_nat (task_count s + 1)) with (S (Z.to_nat (task_count s))) by lia.
    change (tasks (s <| tasks := ?l |> <| task_count ::= _ |>)) with l.
    rewrite (take_S_r _ _ cfg) by (apply list_lookup_insert_eq; lia). by rewrite take_insert_ge. }
  split; [|left; by split_and!]. constructor.
  - change (length (<[Z.to_nat (task_count s) := cfg]> (tasks s)) = Z.to_nat MAX_TASKS). by rewrite length_insert.
  - change (0 <= u32 (task_count s + 1) <= MAX_TASKS). rewrite u32_small by (unfold fits, MAX_TASKS in *; lia). lia.
  - rewrite Ha. apply Forall_app. split; [done|]. constructor; [done|constructor].
Qed.

(** A request whose task the kernel would bind. *)
Definition task_request (rt : bool) (m : ipc_msg_t) : Prop :=
  length (words m) = Z.to_nat IPC_MSG_MAX /\ exists t, task_of rt m = Some t /\ (label m = 1 -> task_ok t).

(** The table, with every partition below the limit. *)
Definition tasks_inv (s : tasks_t) : Prop := tasks_wf s /\ forall p, load p (admitted s) <= 99.

Lemma sched_turn rt m s : task_request rt m -> tasks_inv s ->
  exists r s', sched_server_run rt m s = Some (r, s') /\ tasks_inv s'.
Proof.
  intros (Hw & t & Ht & Hok) [Hwf Hload]. unfold sched_server_run.
  destruct (Z.eqb_spec (label m) 1) as [E|]; [|by exists None, s]. rewrite Ht. cbn [mbind option_bind].
  destruct (admit_cases t s Hwf (Hok E)) as (e & s' & -> & Hwf' & Hcase). cbn [mbind option_bind].
  rewrite arr_set_in by (rewrite Hw; done). cbn [mbind option_bind]. eexists _, _. split; [reflexivity|].
  split; [done|]. destruct Hcase as [(_ & Hle & ->)|(_ & -> & _)]; [|done]. intros p. rewrite load_app.
  destruct (Z.eq_dec (tk_partition t) p) as [<-|Hne]; [done|].
  rewrite (load_absent p [t]) by (repeat constructor; done). specialize (Hload p). lia.
Qed.

Lemma tasks_zero_inv : tasks_inv tasks_zero.
Proof. split; [|done]. by constructor. Qed.

(** ** Properties *)

(** C35. The policy server and the kernel agree: for every table of bindable tasks and
    every kernel state that has a context for each of them, the server's test of all
    partitions and the kernel's admission test are both defined and give the same
    answer, although the server stops summing as soon as the limit is passed. *)
Theorem sched_server_agrees s k : tasks_wf s -> sched_wf k -> mirrors s k ->
  exists r, sched_is_admissible s = Some r /\ sched_is_schedulable k = Some r.
Proof.
  intros Hwf Hk (cs & rest & Ec & Hcs & Hrest & Hpart). pose proof (sw_num _ Hk) as Hn.
  destruct (admissible_loop_spec s 8 Hwf 0) as (r & Hr & Hiff).
  destruct (schedulable_loop_spec (contexts k) 0 (Z.to_nat (num_partitions k)) (sched_contexts_ok k Hk)) as (r' & Hr' & Hiff').
  { rewrite (sw_contexts _ Hk). done. }
  exists r. split; [exact Hr|]. unfold sched_is_schedulable. rewrite Hr'. f_equal.
  assert (r = true <-> r' = true) as Hrr; [|destruct r, r'; intuition].
  rewrite Hiff, Hiff', Ec. unfold MAX_PARTITIONS in Hn. split; intros Hp p Hpr.
  - rewrite (floor_sum_mirror p _ _ _ Hcs Hrest). apply Hp. lia.
  - destruct (Z.lt_ge_cases p (num_partitions k)) as [Hlt|Hge].
    + specialize (Hp p ltac:(lia)). by rewrite (floor_sum_mirror p _ _ _ Hcs Hrest) in Hp.
    + rewrite load_absent; [lia|]. eapply Forall_impl; [|exact Hpart]. cbn. lia.
Qed.

(** The table and the kernel of the boot configuration with two tasks of partition 0. *)
Definition demo_tasks : tasks_t :=
  default tasks_zero ('(_, s) ← sched_admit (mk_task_cfg 0 0 1000 5000 10 false) tasks_zero;
                      '(_, s) ← sched_admit (mk_task_cfg 1 0 500 2000 5 false) s; Some s).
Definition demo_kernel_ops : list sched_op :=
  [SCreate 0 0 6000 1; SCreate 1 6000 2000 3; SBind 0 0 0 1000 5000 10; SBind 1 1 0 500 2000 5].

Lemma sched_server_agrees_witness :
  exists k r, sched_run sched_init demo_kernel_ops = Some k /\ mirrors demo_tasks k /\
    sched_is_admissible demo_tasks = Some r /\ sched_is_schedulable k = Some r.
Proof.
  destruct (sched_run_wf demo_kernel_ops sched_init sched_init_wf) as (k & Hk & Hwf).
  { repeat constructor; vm_compute; congruence. }
  assert (mirrors demo_tasks k) as Hm.
  { vm_compute in Hk. injection Hk as <-.
    eexists (take 2 _), (drop 2 _). split; [symmetry; apply take_drop|].
    split; [|split].
    - vm_compute. repeat constructor.
    - cbn [drop contexts]. repeat constructor.
    - vm_compute. repeat constructor. }
  destruct (sched_server_agrees demo_tasks k) as (r & H1 & H2); [|exact Hwf|exact Hm|].
  - constructor; [reflexivity|vm_compute; split; congruence|].
    vm_compute. repeat constructor; congruence.
  - exists k, r. split; [exact Hk|]. split; [exact Hm|]. split; [exact H1|exact H2].
Defined.

(** C36. What the server admits, the kernel can schedule: over any conversation whose
    requests describe bindable tasks the server answers every message, never writes
    outside its table, and keeps the sum of the shares of every partition, each rounded
    down to a percent, at most 99. The exact load of a partition is therefore at most 99
    percent plus one point for each of its tasks, and the kernel's admission test, which
    rounds in the same way, accepts every kernel state that has a context for each
    admitted task. *)
Theorem sched_admission_sound rt l k : Forall (task_request rt) l ->
  exists rs s, serve (H := sched_server rt) l tasks_zero = Some (rs, s) /\ length rs = length l /\
    (forall p, load p (admitted s) <= 99 /\
       (exact_load p (admitted s) <= inject_Z (99 + count_if (fun t => (tk_partition t =? p)%Z) (admitted s)))%Q) /\
    (sched_wf k -> mirrors s k -> sched_is_schedulable k = Some true).
Proof.
  intros Hl. destruct (serve_inv (H := sched_server rt) (task_request rt) (fun _ _ (g : unit) => g) (fun _ => tasks_inv))
    with (l := l) (g := tt) (s := tasks_zero) as (rs & s & Hrun & Hlen & Hwf & Hload).
  - intros m _ s Hm Hs. by apply sched_turn.
  - done.
  - apply tasks_zero_inv.
  - exists rs, s. do 2 (split; [done|]). split.
    { intros p. split; [done|]. destruct (exact_load_bounds p _ (ta_ok _ Hwf)) as [_ Hhi].
      eapply Qle_trans; [exact Hhi|]. rewrite <- Zle_Qle. specialize (Hload p). lia. }
    intros Hk (cs & rest & Ec & Hcs & Hrest & _).
    destruct (schedulable_loop_spec (contexts k) 0 (Z.to_nat (num_partitions k)) (sched_contexts_ok k Hk)) as (r & Hr & Hiff).
    { rewrite (sw_contexts _ Hk). done. }
    unfold sched_is_schedulable. rewrite Hr. f_equal. apply Hiff. intros p _. rewrite Ec.
    by rewrite (floor_sum_mirror p _ _ _ Hcs Hrest).
Qed.

Definition demo_task_msg (i p b q : Z) : ipc_msg_t :=
  ipc_msg_zero <| label := 1 |> <| words := i :: p :: b :: q :: 5 :: replicate 25 0 |>.
Definition demo_task_talk : list ipc_msg_t := [demo_task_msg 0 0 3000 5000; demo_task_msg 1 0 2000 4000; demo_task_msg 2 1 500 1000].

(** The second task does not fit. *)
Lemma sched_admission_sound_witness :
  exists rs s, serve (H := sched_server false) demo_task_talk tasks_zero = Some (rs, s) /\
    map (option_map (fun m => take 1 (words m))) rs = [Some [0]; Some [2 ^ 64 - 1]; Some [0]] /\
    forall p, load p (admitted s) <= 99.
Proof.
  destruct (sched_admission_sound false demo_task_talk sched_init) as (rs & s & Hrun & _ & Hload & _).
  - assert (forall i p b q, 0 < b <= q -> b <= 10000 -> 0 <= p < 8 -> task_request false (demo_task_msg i p b q)) as Hreq.
    { intros i p b q Hb Hm Hp. split; [reflexivity|]. eexists. split; [reflexivity|]. intros _.
      unfold task_ok, MAJOR_FRAME_US, MAX_PARTITIONS. cbn. rewrite u32_small by (unfold fits; lia). lia. }
    repeat constructor; apply Hreq; lia.
  - exists rs, s. split; [exact Hrun|]. split; [|intros p; exact (proj1 (Hload p))].
    assert (option_map (fun r => map (option_map (fun m => take 1 (words m))) r.1)
      (serve (H := sched_server false) demo_task_talk tasks_zero) = Some [Some [0]; Some [2 ^ 64 - 1]; Some [0]]) as E
      by (vm_compute; reflexivity).
    rewrite Hrun in E. injection E as E. exact E.
Defined.

(** The rounding admits an overload: 64 tasks of 199 us every 10 ms in one partition need
    127.36 percent of the processor, and each is counted as 1 percent. *)
Definition overload_tasks : option tasks_t :=
  foldl (fun s i => s ← s; '(e, s') ← sched_admit (mk_task_cfg i 0 199 10000 5 false) s; if e =? 0 then Some s' else None)
    (Some tasks_zero) (map Z.of_nat (seq 0 64)).
Lemma sched_server_admits_overload : exists s,
  overload_tasks = Some s /\ task_count s = 64 /\ (127 < exact_load 0 (admitted s))%Q.
Proof. eexists. split; [vm_compute; reflexivity|]. split; vm_compute; reflexivity. Qed.

(** The request is not checked: a task with period zero divides by it. *)
Lemma sched_zero_period_undefined : sched_admit (mk_task_cfg 0 0 1000 0 5 false) tasks_zero = None.
Proof. vm_compute. reflexivity. Qed.

(** [budget * 100] wraps around: a task that asks for far more time than there is passes
    as a load of zero percent. *)
Lemma sched_admits_wrapped : exists s,
  sched_admit (mk_task_cfg 0 0 (2 ^ 62) 1000 5 false) tasks_zero = Some (0, s) /\ task_count s = 1.
Proof. eexists. split; vm_compute; reflexivity. Qed.
