(* ===== verification/VfsServer.v ===== *)
(** * userspace/vfs_server/server.c: the file server

    The tables of files and of open descriptors, and the loop that serves requests. A C
    string is the list of the bytes that can be read from its address on; reading past
    its end has no defined result. The configuration is the hybrid one, in which a
    frame capability is the address of the frame. *)

From S2P Require Import Prelude Types Minilib Server.

Definition MAX_FILES : Z := 64.
Definition MAX_FD : Z := 32.
Definition NAME_LEN : nat := 32.

Record vfs_file_t := mk_vfs_file {
  vf_cap : Z;
  vf_size : Z;
  vf_used : Z;
  vf_color : Z;
  vf_name : list Z;
  vf_valid : bool
}.
#[export] Instance vfs_file_eta : Eta vfs_file_t := fun f =>
  mk_vfs_file (vf_cap f) (vf_size f) (vf_used f) (vf_color f) (vf_name f) (vf_valid f).

Record vfs_fd_t := mk_vfs_fd {
  fd_file_id : Z;
  fd_offset : Z;
  fd_rights : Z;
  fd_valid : bool
}.
#[export] Instance vfs_fd_eta : Eta vfs_fd_t := fun d =>
  mk_vfs_fd (fd_file_id d) (fd_offset d) (fd_rights d) (fd_valid d).

(** The static variables; [next_fd] is never used. *)
Record vfs_t := mk_vfs { files : list vfs_file_t; fds : list vfs_fd_t }.
#[export] Instance vfs_eta : Eta vfs_t := fun s => mk_vfs (files s) (fds s).

Definition vfs_zero : vfs_t :=
  mk_vfs (replicate (Z.to_nat MAX_FILES) (mk_vfs_file 0 0 0 0 (replicate NAME_LEN 0) false))
         (replicate (Z.to_nat MAX_FD) (mk_vfs_fd 0 0 0 false)).

(** [strncpy(dst, src, n)]: the bytes written to [dst]. *)
Fixpoint strncpy (n : nat) (src : list Z) : option (list Z) :=
  match n, src with
  | O, _ => Some []
  | S n', c :: src' => if c =? 0 then Some (replicate n 0) else r ← strncpy n' src'; Some (c :: r)
  | S _, [] => None
  end.

(** [strcmp(a, b) == 0]. *)
Fixpoint strcmp_eq (a b : list Z) : option bool :=
  match a, b with
  | x :: a', y :: b' =>
      if negb (x =? y) then Some false else if x =? 0 then Some true else strcmp_eq a' b'
  | _, _ => None
  end.

Definition frame_cap_is_valid (cptr len : Z) : bool := negb (cptr =? 0) && (len <? 0x100000).

Definition vfs_create (name : list Z) (cap size color' : Z) (s : vfs_t) : option (Z * vfs_t) :=
  match find_idx (fun f => negb (vf_valid f)) (files s) with
  | Some i =>
      retif negb (frame_cap_is_valid cap size) with Some (-1, s);;
      n ← strncpy NAME_LEN name;
      l ← (files s).[i := mk_vfs_file cap size 0 color' n true];
      Some (0, s <| files := l |>)
  | None => Some (-1, s)
  end.

(** The outer loop of [vfs_open] over the files from number [i] on; the inner one is the
    search for a free descriptor. *)
Fixpoint open_loop (l : list vfs_file_t) (i : Z) (name : list Z) (rights' : Z) (s : vfs_t) : option (Z * vfs_t) :=
  match l with
  | [] => Some (-1, s)
  | f :: l' =>
      eq ← (if vf_valid f then strcmp_eq (vf_name f) name else Some false);
      if (eq : bool) then
        match find_idx (fun d => negb (fd_valid d)) (fds s) with
        | Some fd =>
            ds ← (fds s).[fd := mk_vfs_fd i 0 rights' true];
            Some (fd, s <| fds := ds |>)
        | None => open_loop l' (i + 1) name rights' s
        end
      else open_loop l' (i + 1) name rights' s
  end.

Definition vfs_open (name : list Z) (rights' : Z) (s : vfs_t) : option (Z * vfs_t) :=
  open_loop (files s) 0 name rights' s.

Definition vfs_read (fd buf len : Z) (m : bmem) (s : vfs_t) : option (Z * vfs_t * bmem) :=
  retif (fd <? 0) || (MAX_FD <=? fd) with Some (-1, s, m);;
  d ← (fds s).[fd];
  retif negb (fd_valid d) with Some (-1, s, m);;
  f ← (files s).[fd_file_id d];
  let len := if vf_used f <? u64 (fd_offset d + len) then u32 (vf_used f - fd_offset d) else len in
  retif negb (frame_cap_is_valid (vf_cap f) len) with Some (-1, s, m);;
  retif vf_size f <? u64 (fd_offset d + len) with Some (-1, s, m);;
  m' ← memcpy m buf (vf_cap f + fd_offset d) len;
  ds ← (fds s).[fd := d <| fd_offset ::= fun o => u32 (o + len) |>];
  Some (len, s <| fds := ds |>, m').

(** [memcpy(name, msg.words, 32)]. *)
Definition msg_name (msg : ipc_msg_t) : list Z := concat (map (le_bytes 8) (take 4 (words msg))).

Definition vfs_server_run (msg : ipc_msg_t) (s : vfs_t) : option (option ipc_msg_t * vfs_t) :=
  if label msg =? 1 then
    w4 ← (words msg).[4];
    '(fd, s') ← vfs_open (msg_name msg) (u32 w4) s;
    ws ← (words msg).[0 := u64 fd];
    Some (Some (msg <| words := ws |> <| msg_length := 1 |>), s')
  else if label msg =? 2 then
    len ← (words msg).[1];
    ws ← (words msg).[0 := len];
    Some (Some (msg <| words := ws |> <| msg_length := 1 |>), s)
  else if label msg =? 3 then
    w4 ← (words msg).[4];
    w5 ← (words msg).[5];
    cp ← (cap_ptrs msg).[0];
    '(_, s') ← vfs_create (msg_name msg) cp (u32 w4) (u16 w5) s;
    ws ← (words msg).[0 := 0];
    Some (Some (msg <| words := ws |> <| msg_length := 1 |>), s')
  else Some (None, s).

#[export] Instance vfs_server : Server vfs_t := vfs_server_run.

(** ** Specification *)

(** The characters of a string, and that it ends within [n] bytes. *)
Fixpoint cstr (l : list Z) : list Z :=
  match l with [] => [] | c :: l' => if c =? 0 then [] else c :: cstr l' end.
Definition ends_in (n : nat) (l : list Z) : Prop := exists k, (k < n)%nat /\ l !! k = Some 0.

(** A file as the server leaves it: a name that ends, a capability, nothing written. *)
Definition file_ok (f : vfs_file_t) : Prop :=
  vf_valid f = true -> ends_in NAME_LEN (vf_name f) /\ vf_cap f <> 0 /\ vf_used f = 0 /\ 0 <= vf_size f.
Definition fd_ok (s : vfs_t) (d : vfs_fd_t) : Prop :=
  fd_valid d = true -> fd_offset d = 0 /\ exists f, (files s).[fd_file_id d] = Some f /\ vf_valid f = true.

Record vfs_inv (s : vfs_t) : Prop := {
  vi_files : length (files s) = Z.to_nat MAX_FILES;
  vi_fds : length (fds s) = Z.to_nat MAX_FD;
  vi_file : forall i f, (files s).[i] = Some f -> file_ok f;
  vi_fd : forall i d, (fds s).[i] = Some d -> fd_ok s d
}.

(** Calls of the three functions. *)
Inductive vfs_op :=
| VCreate (name : list Z) (cap size color' : Z)
| VOpen (name : list Z) (rights' : Z)
| VRead (fd buf len : Z).

Definition vfs_exec (o : vfs_op) (s : vfs_t) (m : bmem) : option (Z * vfs_t * bmem) :=
  match o with
  | VCreate n c z k => '(r, s') ← vfs_create n c z k s; Some (r, s', m)
  | VOpen n r => '(r, s') ← vfs_open n r s; Some (r, s', m)
  | VRead fd buf len => vfs_read fd buf len m s
  end.

Fixpoint vfs_run (l : list vfs_op) (s : vfs_t) (m : bmem) : option (list Z * vfs_t * bmem) :=
  match l with
  | [] => Some ([], s, m)
  | o :: l' =>
      '(r, s1, m1) ← vfs_exec o s m;
      '(rs, s2, m2) ← vfs_run l' s1 m1;
      Some (r :: rs, s2, m2)
  end.

(** Names that end within their 32 bytes, and sizes of the C types. *)
Definition op_ok (o : vfs_op) : Prop :=
  match o with
  | VCreate n _ z _ => ends_in NAME_LEN n /\ fits 32 z
  | VOpen n _ => ends_in NAME_LEN n
  | VRead _ _ len => fits 64 len
  end.

(** ** Lemmas *)

Lemma ends_in_nil n : ~ ends_in n [].
Proof. intros (k & _ & Hk). by rewrite lookup_nil in Hk. Qed.

Lemma ends_in_cons n c l : c <> 0 -> ends_in (S n) (c :: l) -> ends_in n l.
Proof. intros Hc ([|k] & Hk & H0); cbn in H0; [congruence|]. exists k. split; [lia|done]. Qed.

Lemma ends_in_len n l : ends_in n l -> (length (cstr l) < n)%nat.
Proof.
  revert n. induction l as [|c l IH]; intros [|n] H; try (by apply ends_in_nil in H);
    try (destruct H as (k & Hk & _); lia). cbn [cstr].
  destruct (Z.eqb_spec c 0) as [->|Hc]; cbn [length]; [lia|]. apply ends_in_cons in H; [|done].
  specialize (IH n H). lia.
Qed.

(** A name that ends is copied whole and ends in the copy. *)
Lemma strncpy_spec n : forall src, ends_in n src ->
  exists r, strncpy n src = Some r /\ length r = n /\ ends_in n r /\ cstr r = cstr src.
Proof.
  induction n as [|n IH]; intros src H; [destruct H as (k & Hk & _); lia|].
  destruct src as [|c src]; [by apply ends_in_nil in H|]. cbn [strncpy cstr].
  destruct (Z.eqb_spec c 0) as [->|Hc].
  - exists (replicate (S n) 0). split; [done|]. split; [apply length_replicate|]. split; [|done].
    exists 0%nat. split; [lia|done].
  - apply ends_in_cons in H; [|done]. destruct (IH src H) as (r & -> & Hl & (k & Hk & H0) & Hcs). cbn [mbind option_bind].
    exists (c :: r). cbn [length cstr]. rewrite Hl, Hcs, (proj2 (Z.eqb_neq _ _) Hc). split_and!; try done.
    exists (S k). split; [lia|done].
Qed.

Lemma strcmp_spec a : forall n k b, ends_in n a -> ends_in k b -> strcmp_eq a b = Some (bool_decide (cstr a = cstr b)).
Proof.
  induction a as [|x a IH]; intros [|n] [|k] [|y b] Ha Hb; try (by apply ends_in_nil in Ha); try (by apply ends_in_nil in Hb);
    try (destruct Ha as (? & ? & _); lia); try (destruct Hb as (? & ? & _); lia).
  cbn [strcmp_eq cstr]. destruct (Z.eqb_spec x y) as [<-|Hne]; cbn [negb].
  - destruct (Z.eqb_spec x 0) as [->|Hx]; [by rewrite bool_decide_eq_true_2|].
    rewrite (IH n k b) by (by eapply ends_in_cons). f_equal. apply bool_decide_ext. split; [congruence|].
    by intros [= ->].
  - symmetry. f_equal. apply bool_decide_eq_false_2. destruct (Z.eqb_spec x 0), (Z.eqb_spec y 0); congruence.
Qed.

Lemma find_free_file s i : find_idx (fun f => negb (vf_valid f)) (files s) = Some i ->
  exists f, (files s).[i] = Some f /\ vf_valid f = false /\ 0 <= i < Z.of_nat (length (files s)).
Proof.
  intros H. apply find_idx_Some in H as ((f & Hf & Hv) & _). apply negb_true_iff in Hv. exists f.
  split_and!; try done; apply arr_get_Some in Hf; lia.
Qed.

(** [vfs_create] on names that end. *)
Lemma vfs_create_cases name cap size color' s : vfs_inv s -> ends_in NAME_LEN name -> 0 <= size ->
  exists r s', vfs_create name cap size color' s = Some (r, s') /\ vfs_inv s' /\
    ((r = -1 /\ s' = s) \/
     (r = 0 /\ exists i n, find_idx (fun f => negb (vf_valid f)) (files s) = Some i /\ cstr n = cstr name /\
        length n = NAME_LEN /\
        s' = s <| files := <[Z.to_nat i := mk_vfs_file cap size 0 color' n true]> (files s) |>)).
Proof.
  intros Hinv Hn Hs. unfold vfs_create, guard_ret. destruct (find_idx _ _) as [i|] eqn:Ei; [|exists (-1), s; by auto].
  destruct (frame_cap_is_valid cap size) eqn:Ev; cbn [negb]; [|exists (-1), s; by auto].
  destruct (strncpy_spec NAME_LEN name Hn) as (n & -> & Hl & He & Hc). cbn [mbind option_bind].
  destruct (find_free_file s i Ei) as (f & Hf & Hv & Hr). rewrite arr_set_in by done. cbn [mbind option_bind].
  eexists _, _. split; [reflexivity|]. split; [|right; split; [done|]; by exists i, n].
  unfold frame_cap_is_valid in Ev. bools. destruct Hinv as [Hfl Hdl Hfile Hfd]. constructor; try done.
  - cbn [modify_field files]. change (length (<[Z.to_nat i := mk_vfs_file cap size 0 color' n true]> (files s)) = Z.to_nat MAX_FILES).
    by rewrite length_insert.
  - intros j g Hg. change ((<[Z.to_nat i := mk_vfs_file cap size 0 color' n true]> (files s)).[j] = Some g) in Hg.
    rewrite arr_get_insert in Hg by done. destruct (j =? i); [|by eapply Hfile]. injection Hg as <-. intros _. by split_and!.
  - intros j d Hd Hdv. destruct (Hfd j d Hd Hdv) as (Ho & g & Hg & Hgv). split; [done|].
    change (exists f, (<[Z.to_nat i := mk_vfs_file cap size 0 color' n true]> (files s)).[fd_file_id d] = Some f /\ vf_valid f = true).
    rewrite arr_get_insert by done. destruct (fd_file_id d =? i); [by eexists|by exists g].
Qed.

(** [vfs_open]: the first file of that name, if there is one and a descriptor is free. *)
Definition opened (s : vfs_t) (name : list Z) (rights' fd : Z) (s' : vfs_t) : Prop :=
  exists i f, (files s).[i] = Some f /\ vf_valid f = true /\ cstr (vf_name f) = cstr name /\
    (forall j g, 0 <= j < i -> (files s).[j] = Some g -> vf_valid g = true -> cstr (vf_name g) <> cstr name) /\
    find_idx (fun d => negb (fd_valid d)) (fds s) = Some fd /\
    s' = s <| fds := <[Z.to_nat fd := mk_vfs_fd i 0 rights' true]> (fds s) |>.

(** Without a free descriptor every file is passed over. *)
Lemma open_loop_full name rights' s l i : ends_in NAME_LEN name -> Forall file_ok l ->
  find_idx (fun d => negb (fd_valid d)) (fds s) = None -> open_loop l i name rights' s = Some (-1, s).
Proof.
  intros Hn Hl Hfull. revert i. induction Hl as [|f l Hf _ IH]; intros i; cbn [open_loop]; [done|].
  destruct (vf_valid f) eqn:Hv; cbn [mbind option_bind]; [|apply IH].
  destruct (Hf Hv) as (He & _). rewrite (strcmp_spec _ _ _ _ He Hn). cbn [mbind option_bind]. rewrite Hfull.
  by destruct (bool_decide _).
Qed.

Lemma open_loop_spec name rights' s fd : vfs_inv s -> ends_in NAME_LEN name ->
  find_idx (fun d => negb (fd_valid d)) (fds s) = Some fd -> forall l i,
  0 <= i -> drop (Z.to_nat i) (files s) = l ->
  (forall j g, 0 <= j < i -> (files s).[j] = Some g -> vf_valid g = true -> cstr (vf_name g) <> cstr name) ->
  exists r s', open_loop l i name rights' s = Some (r, s') /\
    (opened s name rights' r s' \/
     r = -1 /\ s' = s /\ forall j g, (files s).[j] = Some g -> vf_valid g = true -> cstr (vf_name g) <> cstr name).
Proof.
  intros Hinv Hn Efd l. induction l as [|f l IH]; intros i Hi Hl Hbefore; cbn [open_loop].
  { exists (-1), s. split; [done|]. right. split_and!; [done|done|]. intros j g Hg. eapply Hbefore; [|exact Hg].
    apply arr_get_Some in Hg as [Hj _]. apply (f_equal length) in Hl. rewrite length_drop in Hl. cbn in Hl. lia. }
  assert ((files s).[i] = Some f) as Hf.
  { rewrite arr_get_lookup by lia. rewrite <- (Nat.add_0_r (Z.to_nat i)), <- lookup_drop, Hl. done. }
  assert (drop (Z.to_nat (i + 1)) (files s) = l) as Hl'.
  { replace (Z.to_nat (i + 1)) with (Z.to_nat i + 1)%nat by lia. rewrite <- drop_drop, Hl. done. }
  assert ((vf_valid f = true -> cstr (vf_name f) <> cstr name) ->
    forall j g, 0 <= j < i + 1 -> (files s).[j] = Some g -> vf_valid g = true -> cstr (vf_name g) <> cstr name) as Hnext.
  { intros Hfn j g Hj Hg Hgv. destruct (decide (j = i)) as [->|]; [|by eapply (Hbefore j); [lia|..]]. rewrite Hf in Hg.
    injection Hg as <-. by apply Hfn. }
  destruct (vf_valid f) eqn:Hv; cbn [mbind option_bind]; [|by apply IH; [lia|done|apply Hnext]].
  destruct (vi_file _ Hinv i f Hf Hv) as (He & _). rewrite (strcmp_spec _ _ _ _ He Hn). cbn [mbind option_bind].
  destruct (bool_decide_reflect (cstr (vf_name f) = cstr name)) as [E|E]; [|by apply IH; [lia|done|apply Hnext]].
  rewrite Efd. assert (0 <= fd < Z.of_nat (length (fds s))) as Hfd.
  { apply find_idx_Some in Efd as ((d & Hd & _) & _). apply arr_get_Some in Hd. lia. }
  rewrite arr_set_in by done. cbn [mbind option_bind]. eexists _, _. split; [reflexivity|]. left. by exists i, f.
Qed.

Lemma vfs_open_cases name rights' s : vfs_inv s -> ends_in NAME_LEN name ->
  exists r s', vfs_open name rights' s = Some (r, s') /\ vfs_inv s' /\
    (opened s name rights' r s' \/
     r = -1 /\ s' = s /\ (find_idx (fun d => negb (fd_valid d)) (fds s) = None \/
       forall j g, (files s).[j] = Some g -> vf_valid g = true -> cstr (vf_name g) <> cstr name)).
Proof.
  intros Hinv Hn. unfold vfs_open. destruct (find_idx (fun d => negb (fd_valid d)) (fds s)) as [fd|] eqn:Efd.
  2:{ exists (-1), s. split; [|split; [done|right; auto]]. apply open_loop_full; try done.
      apply list.Forall_lookup. intros j f Hf. rewrite <- arr_get_nat in Hf. by eapply (vi_file _ Hinv). }
  destruct (open_loop_spec name rights' s fd Hinv Hn Efd (files s) 0) as (r & s' & Hrun & Hcase); [lia|done|lia|].
  exists r, s'. split; [done|]. split; [|destruct Hcase as [?|(? & ? & ?)]; auto].
  destruct Hcase as [(i & f & Hf & Hv & _ & _ & Hr & ->)|(_ & -> & _)]; [|done].
  assert (0 <= r < Z.of_nat (length (fds s))) as Hfd.
  { apply find_idx_Some in Hr as ((d & Hd & _) & _). apply arr_get_Some in Hd. lia. }
  destruct Hinv as [Hfl Hdl Hfile Hfds]. constructor; try done.
  - change (length (<[Z.to_nat r := mk_vfs_fd i 0 rights' true]> (fds s)) = Z.to_nat MAX_FD). by rewrite length_insert.
  - intros j d Hd. change ((<[Z.to_nat r := mk_vfs_fd i 0 rights' true]> (fds s)).[j] = Some d) in Hd.
    rewrite arr_get_insert in Hd by done. destruct (j =? r); [|by eapply (Hfds j)].
    injection Hd as <-. intros _. split; [done|]. by exists f.
Qed.

(** [vfs_read] finds nothing written. *)
Lemma vfs_read_cases fd buf len m s : vfs_inv s -> fits 64 len ->
  exists r s', vfs_read fd buf len m s = Some (r, s', m) /\ vfs_inv s' /\ (r = 0 \/ r = -1) /\
    (r = 0 <-> exists d, (fds s).[fd] = Some d /\ fd_valid d = true).
Proof.
  intros Hinv Hlen. pose proof (vi_fds _ Hinv) as Hdl. unfold vfs_read, guard_ret.
  destruct ((fd <? 0) || (MAX_FD <=? fd)) eqn:Er.
  { exists (-1), s. split; [done|]. split; [done|]. split; [by right|]. split; [done|]. intros (d & Hd & _).
    apply arr_get_Some in Hd as [Hd _]. rewrite Hdl in Hd. unfold MAX_FD in *. bools.
    destruct Er as [Er|Er]; bools; lia. }
  bools. assert (0 <= fd < Z.of_nat (length (fds s))) as Hfd by (rewrite Hdl; unfold MAX_FD in *; lia).
  destruct (arr_get_is_Some (fds s) fd Hfd) as [d Hd]. rewrite Hd. cbn [mbind option_bind].
  destruct (fd_valid d) eqn:Hdv; cbn [negb].
  2:{ exists (-1), s. split; [done|]. split; [done|]. split; [by right|]. split; [done|]. intros (d' & [= <-] & Hv). congruence. }
  destruct (vi_fd _ Hinv fd d Hd Hdv) as (Ho & f & Hf & Hfv). rewrite Hf. cbn [mbind option_bind].
  destruct (vi_file _ Hinv _ f Hf Hfv) as (_ & Hcap & Hused & Hsize). rewrite Ho, Hused.
  assert ((if 0 <? u64 (0 + len) then u32 (0 - 0) else len) = 0) as ->.
  { rewrite Z.add_0_l, u64_small by done. destruct (Z.ltb_spec 0 len); [done|]. unfold fits in Hlen. lia. }
  unfold frame_cap_is_valid. rewrite (proj2 (Z.eqb_neq _ _) Hcap). cbn [negb andb Z.ltb Z.compare].
  change (u64 (0 + 0)) with 0. rewrite (proj2 (Z.ltb_ge _ _) Hsize). unfold memcpy. cbn [Z.to_nat memcpy_loop mbind option_bind].
  rewrite arr_set_in by done. cbn [mbind option_bind]. eexists _, _. split; [reflexivity|].
  assert (d <| fd_offset ::= (fun o => u32 (o + 0)) |> = d) as ->.
  { destruct d as [fi o ri va]. cbn in Ho. by rewrite Ho. }
  rewrite arr_get_lookup in Hd by lia. rewrite list_insert_id by done.
  replace (s <| fds := fds s |>) with s by (by destruct s). split; [done|]. split; [by left|].
  split; [|done]. intros _. by exists d.
Qed.

Lemma vfs_exec_cases o s m : vfs_inv s -> op_ok o ->
  exists r s', vfs_exec o s m = Some (r, s', m) /\ vfs_inv s' /\
    match o with VRead _ _ _ => r = 0 \/ r = -1 | _ => True end.
Proof.
  intros Hinv Ho. destruct o as [n c z k|n r|fd buf len]; cbn [vfs_exec op_ok] in *.
  - destruct Ho as [Hn Hz]. destruct (vfs_create_cases n c z k s Hinv Hn) as (r & s' & -> & Hi & _); [unfold fits in Hz; lia|].
    by exists r, s'.
  - destruct (vfs_open_cases n r s Hinv Ho) as (r' & s' & -> & Hi & _). by exists r', s'.
  - destruct (vfs_read_cases fd buf len m s Hinv Ho) as (r & s' & -> & Hi & Hr & _). by exists r, s'.
Qed.

Lemma vfs_zero_inv : vfs_inv vfs_zero.
Proof.
  constructor; [done..| |].
  - intros i f Hf. apply arr_get_replicate in Hf as ->. done.
  - intros i d Hd. apply arr_get_replicate in Hd as ->. done.
Qed.

(** A request with a name that ends within its 32 bytes. *)
Definition file_request (m : ipc_msg_t) : Prop :=
  length (words m) = Z.to_nat IPC_MSG_MAX /\ length (cap_ptrs m) = Z.to_nat IPC_CAPS_MAX /\ ends_in NAME_LEN (msg_name m).

Lemma vfs_turn m s : file_request m -> vfs_inv s -> exists r s', vfs_server_run m s = Some (r, s') /\ vfs_inv s'.
Proof.
  intros (Hw & Hc & Hn) Hinv. unfold vfs_server_run.
  assert (forall i, 0 <= i < 30 -> is_Some (words m).[i]) as Hword.
  { intros i Hi. apply arr_get_is_Some. rewrite Hw. unfold IPC_MSG_MAX. lia. }
  destruct (Hword 4 ltac:(lia)) as [w4 ->], (Hword 5 ltac:(lia)) as [w5 ->], (Hword 1 ltac:(lia)) as [w1 ->].
  destruct (arr_get_is_Some (cap_ptrs m) 0) as [cp ->]; [rewrite Hc; done|]. cbn [mbind option_bind].
  destruct (label m =? 1).
  { destruct (vfs_open_cases (msg_name m) (u32 w4) s Hinv Hn) as (r & s' & -> & Hi & _). cbn [mbind option_bind].
    rewrite arr_set_in by (rewrite Hw; done). cbn [mbind option_bind]. by eexists _, _. }
  destruct (label m =? 2).
  { rewrite arr_set_in by (rewrite Hw; done). cbn [mbind option_bind]. by eexists _, _. }
  destruct (label m =? 3); [|by eexists _, _].
  destruct (vfs_create_cases (msg_name m) cp (u32 w4) (u16 w5) s Hinv Hn) as (r & s' & -> & Hi & _).
  { apply wrap_range. lia. }
  cbn [mbind option_bind]. rewrite arr_set_in by (rewrite Hw; done). cbn [mbind option_bind]. by eexists _, _.
Qed.

(** The server answers every conversation whose names end. *)
Lemma vfs_server_total l : Forall file_request l ->
  exists rs s, serve l vfs_zero = Some (rs, s) /\ length rs = length l /\ vfs_inv s.
Proof.
  intros Hl. destruct (serve_inv file_request (fun _ _ (g : unit) => g) (fun _ => vfs_inv))
    with (l := l) (g := tt) (s := vfs_zero) as (rs & s & Hrun & Hlen & Hinv); [|done|apply vfs_zero_inv|by exists rs, s].
  intros m _ s Hm Hs. by apply vfs_turn.
Qed.

(** ** Properties *)

(** C37. What is created can be opened: after a successful [vfs_create] of a new name that
    ends within its 32 bytes, [vfs_open] of that name takes the first free descriptor and
    makes it one at offset 0, with the requested rights, of the file that was created,
    with its name, capability, size and colour; when no descriptor is free it returns -1
    and changes nothing. *)
Theorem vfs_create_open name cap size color' rights' s s1 :
  vfs_inv s -> ends_in NAME_LEN name -> 0 <= size ->
  (forall j g, (files s).[j] = Some g -> vf_valid g = true -> cstr (vf_name g) <> cstr name) ->
  vfs_create name cap size color' s = Some (0, s1) ->
  match find_idx (fun d => negb (fd_valid d)) (fds s) with
  | Some fd => exists s2 i n, vfs_open name rights' s1 = Some (fd, s2) /\
      (fds s2).[fd] = Some (mk_vfs_fd i 0 rights' true) /\ (files s2) = files s1 /\
      (files s2).[i] = Some (mk_vfs_file cap size 0 color' n true) /\ cstr n = cstr name
  | None => vfs_open name rights' s1 = Some (-1, s1)
  end.
Proof.
  intros Hinv Hn Hs Hnew Hcreate.
  destruct (vfs_create_cases name cap size color' s Hinv Hn Hs) as (r & s' & Hrun & Hinv1 & Hcase).
  rewrite Hcreate in Hrun. injection Hrun as <- <-. destruct Hcase as [[? _]|(_ & i & n & Ei & Hcn & _ & ->)]; [done|].
  destruct (find_free_file s i Ei) as (f0 & _ & _ & Hi). set (fs := <[_ := _]> (files s)) in *.
  assert (forall j, fs.[j] = if j =? i then Some (mk_vfs_file cap size 0 color' n true) else (files s).[j]) as Hget.
  { intros j. by apply arr_get_insert. }
  destruct (vfs_open_cases name rights' (s <| files := fs |>) Hinv1 Hn) as (r & s2 & Hopen & _ & Hcase).
  destruct Hcase as [(k & f & Hf & Hv & Hc & _ & Hfree & ->)|(-> & -> & [Hfull|Hnone])].
  - change (fds (s <| files := fs |>)) with (fds s) in *. rewrite Hfree.
    assert (k = i) as ->.
    { change (fs.[k] = Some f) in Hf. rewrite Hget in Hf. destruct (Z.eqb_spec k i); [done|]. by destruct (Hnew k f Hf Hv). }
    exists (s <| files := fs |> <| fds := <[Z.to_nat r := mk_vfs_fd i 0 rights' true]> (fds s) |>), i, n.
    split; [done|]. split; [|split; [done|split; [|done]]].
    + apply arr_get_insert_eq. apply find_idx_Some in Hfree as ((d & Hd & _) & _). apply arr_get_Some in Hd. lia.
    + change (fs.[i] = Some (mk_vfs_file cap size 0 color' n true)). by rewrite Hget, Z.eqb_refl.
  - change (fds (s <| files := fs |>)) with (fds s) in Hfull. by rewrite Hfull.
  - exfalso. apply (Hnone i (mk_vfs_file cap size 0 color' n true)); [|done|done].
    change (fs.[i] = Some (mk_vfs_file cap size 0 color' n true)). by rewrite Hget, Z.eqb_refl.
Qed.

(** The name [a.txt] in a buffer of 32 bytes. *)
Definition demo_name : list Z := [97; 46; 116; 120; 116] ++ replicate 27 0.
Lemma demo_name_ends : ends_in NAME_LEN demo_name.
Proof. exists 5%nat. split; [vm_compute; lia|reflexivity]. Qed.

Definition demo_vfs : vfs_t := default vfs_zero (snd <$> vfs_create demo_name 0x90000000 4096 0 vfs_zero).

Lemma vfs_create_open_witness :
  exists s1 s2, vfs_create demo_name 0x90000000 4096 0 vfs_zero = Some (0, s1) /\
    vfs_open demo_name 3 s1 = Some (0, s2) /\ exists i, (fds s2).[0] = Some (mk_vfs_fd i 0 3 true).
Proof.
  exists demo_vfs. destruct (vfs_create_open demo_name 0x90000000 4096 0 3 vfs_zero demo_vfs vfs_zero_inv demo_name_ends)
    as (s2 & i & n & H1 & H2 & _); [lia| |vm_compute; reflexivity|].
  - intros j g Hg Hv. apply arr_get_replicate in Hg as ->. discriminate Hv.
  - exists s2. split; [vm_compute; reflexivity|]. split; [exact H1|]. exists i. exact H2.
Defined.

(** C38. No file ever has contents: whatever is created, opened and read, in any order and
    with any lengths, every call has a result, every read returns 0 on an open descriptor
    or -1, and no byte of memory is changed, because nothing ever sets [used]. *)
Theorem vfs_reads_nothing l : Forall op_ok l -> forall m,
  exists rs s, vfs_run l vfs_zero m = Some (rs, s, m) /\ vfs_inv s /\
    Forall2 (fun o r => match o with VRead _ _ _ => r = 0 \/ r = -1 | _ => True end) l rs.
Proof.
  intros Hl m. generalize vfs_zero_inv. generalize vfs_zero. induction Hl as [|o l Ho _ IH]; intros s Hinv.
  { exists [], s. by split_and!. }
  destruct (vfs_exec_cases o s m Hinv Ho) as (r & s1 & Hx & Hinv1 & Hr). cbn [vfs_run]. rewrite Hx. cbn [mbind option_bind].
  destruct (IH s1 Hinv1) as (rs & s2 & -> & Hinv2 & Hall). exists (r :: rs), s2. split; [done|]. split; [done|]. by constructor.
Qed.

Definition demo_vfs_ops : list vfs_op := [VCreate demo_name 0x90000000 4096 0; VOpen demo_name 3; VRead 0 0x5000 100; VRead 7 0x5000 100].

Lemma vfs_reads_nothing_witness :
  exists rs s, vfs_run demo_vfs_ops vfs_zero ∅ = Some (rs, s, ∅) /\ rs = [0; 0; 0; -1].
Proof.
  destruct (vfs_reads_nothing demo_vfs_ops) with (m := (∅ : bmem)) as (rs & s & Hrun & _).
  - repeat constructor; try apply demo_name_ends; vm_compute; congruence.
  - exists rs, s. split; [exact Hrun|].
    assert (option_map (fun r => r.1.1) (vfs_run demo_vfs_ops vfs_zero ∅) = Some [0; 0; 0; -1]) as E by (vm_compute; reflexivity).
    rewrite Hrun in E. injection E as E. exact E.
Defined.

(** A name of 32 characters is stored without its end; comparing it with an equal one reads
    past the end of both. *)
Lemma vfs_long_name_unterminated : exists s,
  vfs_create (replicate 32 97 ++ [0]) 0x90000000 4096 0 vfs_zero = Some (0, s) /\ vfs_open (replicate 32 97) 3 s = None.
Proof. eexists. split; vm_compute; reflexivity. Qed.

(** The loop answers a read with the length that was asked for, without a descriptor, and
    a creation with success even when it failed. *)
Lemma vfs_loop_ignores_result :
  option_map (fun r => map (option_map (fun m => take 1 (words m))) r.1)
    (serve [ipc_msg_zero <| label := 2 |> <| words := 31 :: 4096 :: replicate 28 0 |>;
            ipc_msg_zero <| label := 3 |>] vfs_zero) = Some [Some [4096]; Some [0]] /\
  vfs_create (msg_name ipc_msg_zero) 0 0 0 vfs_zero = Some (-1, vfs_zero).
Proof. split; vm_compute; reflexivity. Qed.
