(* ===== verification/NetDriver.v ===== *)
(** * userspace/drivers/virtio_net.c: the network driver

    The hybrid configuration: the registers are a static buffer of the driver. The
    driver keeps a pointer to the state of the IOMMU, which it shares with others, so the
    IOMMU objects live in a store by address; the null pointer is 0. *)

From S2P Require Import Prelude Types Cheri Cap Iommu.

Definition NULLP : Z := 0.

Record drv_caps_t := mk_drv_caps { mmio_base : Z; mmio_len : Z; irq : Z }.

(** The static variables; [virtio_regs] is null or the buffer. *)
Record net_t := mk_net {
  caps : drv_caps_t;
  virtio_regs : bool;
  g_iommu : Z;
  g_iommu_cap : cap_t;
  g_dev_id : Z;
  g_dma_base : Z;
  g_dma_len : Z;
  g_iommu_bound : bool
}.
#[export] Instance net_eta : Eta net_t := fun n =>
  mk_net (caps n) (virtio_regs n) (g_iommu n) (g_iommu_cap n) (g_dev_id n) (g_dma_base n) (g_dma_len n) (g_iommu_bound n).

Definition net_zero : net_t := mk_net (mk_drv_caps 0 0 0) false NULLP cap_zero 0 0 0 false.

Abbreviation iommus := (gmap Z iommu_state_t).

Definition net_driver_init (c : drv_caps_t) (n : net_t) : bool * net_t :=
  let n := n <| caps := c |> in
  retif (mmio_len c <? 0x1000) || (mmio_base c =? 0) with (false, n);;
  retif (mmio_base c <? 0x10000000) || (0x20000000 <? u64 (mmio_base c + mmio_len c)) with (false, n);;
  let mmio_cap := mk_sim_cap (mmio_base c) (u64 (mmio_base c + mmio_len c)) (mmio_base c)
                    (Z.lor CHERI_PERM_LOAD CHERI_PERM_STORE) 0 true false in
  retif negb (cheri_tag_get mmio_cap) with (false, n);;
  retif cheri_length_get mmio_cap <? mmio_len c with (false, n);;
  (true, n <| virtio_regs := true |>).

(** The object a pointer to an IOMMU addresses; the null pointer is passed on. *)
Definition deref_iommu (h : iommus) (p : Z) : option (option iommu_state_t) :=
  if p =? NULLP then Some None else s ← h !! p; Some (Some s).

Definition net_driver_set_iommu (iommu_cap : cap_t) (iommu dev_id dma_paddr dma_size : Z) (h : iommus) (n : net_t)
    : option (bool * iommus * net_t) :=
  retif iommu =? NULLP with Some (false, h, n);;
  retif negb (type iommu_cap =? CAP_IOMMU) with Some (false, h, n);;
  retif negb (is_valid iommu_cap) || negb (cheri_tag_get (hw_cap iommu_cap)) with Some (false, h, n);;
  let n := n <| g_iommu := iommu |> <| g_iommu_cap := iommu_cap |> <| g_dev_id := dev_id |>
             <| g_dma_base := dma_paddr |> <| g_dma_len := dma_size |> <| g_iommu_bound := false |> in
  s ← deref_iommu h iommu;
  '(e, s') ← iommu_map s (Some iommu_cap) dev_id dma_paddr dma_size (Z.lor CHERI_PERM_LOAD CHERI_PERM_STORE);
  s' ← s';
  let h := <[iommu := s']> h in
  retif negb (is_ok e) with Some (false, h, n);;
  Some (true, h, n <| g_iommu_bound := true |>).

Definition net_driver_dma_map (paddr size perms : Z) (h : iommus) (n : net_t) : option (bool * iommus) :=
  retif (g_iommu n =? NULLP) || negb (g_iommu_bound n) with Some (false, h);;
  retif negb (size mod PAGE_SIZE =? 0) || negb (paddr mod PAGE_SIZE =? 0) with Some (false, h);;
  retif (paddr <? g_dma_base n) || (u64 (g_dma_base n + g_dma_len n) <? u64 (paddr + size)) with Some (false, h);;
  s ← deref_iommu h (g_iommu n);
  '(e, s') ← iommu_map s (Some (g_iommu_cap n)) (g_dev_id n) paddr size perms;
  s' ← s';
  Some (is_ok e, <[g_iommu n := s']> h).

Definition net_driver_dma_unmap (paddr : Z) (h : iommus) (n : net_t) : option (bool * iommus) :=
  retif g_iommu n =? NULLP with Some (false, h);;
  s ← deref_iommu h (g_iommu n);
  '(e, s') ← iommu_unmap s (g_dev_id n) paddr;
  s' ← s';
  Some (is_ok e, <[g_iommu n := s']> h).

Definition net_driver_dma_check (paddr len : Z) (is_write : bool) (h : iommus) (n : net_t) : option bool :=
  retif g_iommu n =? NULLP with Some false;;
  s ← deref_iommu h (g_iommu n);
  Some (iommu_check s (g_dev_id n) paddr len is_write).

(** The ways out of the interrupt handler, which changes nothing. *)
Inductive irq_exit := NoDevice | Dropped | ReadOnly | Served.

Definition net_driver_handle_irq (h : iommus) (n : net_t) : option irq_exit :=
  retif negb (virtio_regs n) with Some NoDevice;;
  if g_iommu_bound n && negb (g_dma_base n =? 0) then
    s ← deref_iommu h (g_iommu n);
    retif negb (iommu_check s (g_dev_id n) (g_dma_base n) 512 false) with Some Dropped;;
    retif negb (iommu_check s (g_dev_id n) (g_dma_base n) 512 true) with Some ReadOnly;;
    Some Served
  else Some Served.

Definition net_driver_reboot (h : iommus) (n : net_t) : option (iommus * net_t) :=
  '(h, n) ← (if negb (g_iommu n =? NULLP) && g_iommu_bound n then
               s ← deref_iommu h (g_iommu n);
               '(_, s') ← iommu_unmap s (g_dev_id n) (g_dma_base n);
               s' ← s';
               Some (<[g_iommu n := s']> h, n <| g_iommu_bound := false |>)
             else Some (h, n));
  let n := n <| g_iommu := NULLP |> <| g_dma_base := 0 |> <| g_dma_len := 0 |> in
  Some (h, (net_driver_init (caps n) n).2).

(** ** Histories *)

Inductive net_op :=
| NInit (c : drv_caps_t)
| NMap (paddr size perms : Z)
| NUnmap (paddr : Z)
| NIrq
| NReboot.

Definition net_exec (o : net_op) (h : iommus) (n : net_t) : option (iommus * net_t) :=
  match o with
  | NInit c => Some (h, (net_driver_init c n).2)
  | NMap p z r => '(_, h') ← net_driver_dma_map p z r h n; Some (h', n)
  | NUnmap p => '(_, h') ← net_driver_dma_unmap p h n; Some (h', n)
  | NIrq => _ ← net_driver_handle_irq h n; Some (h, n)
  | NReboot => net_driver_reboot h n
  end.

Fixpoint net_run (l : list net_op) (h : iommus) (n : net_t) : option (iommus * net_t) :=
  match l with
  | [] => Some (h, n)
  | o :: l' => '(h', n') ← net_exec o h n; net_run l' h' n'
  end.

(** The arguments have their C types and the range to map does not wrap around. *)
Definition net_op_ok (o : net_op) : Prop :=
  match o with
  | NMap p z r => fits 32 r /\ 0 <= z /\ fits 64 p /\ fits 64 (p + z)
  | _ => True
  end.

(** A capability that is a range of addresses. *)
Definition cap_range (c : cap_t) : Prop := 0 <= hw_base (hw_cap c) <= hw_top (hw_cap c) /\ fits 64 (hw_top (hw_cap c)).

(** The live windows of the device are inside the pool. *)
Definition in_pool (dev base len : Z) (s : iommu_state_t) : Prop :=
  forall i w, (windows s).[i] = Some w -> win_valid w = true -> win_dev_id w = dev ->
    base <= win_paddr_base w /\ 0 <= win_size w /\ win_paddr_base w + win_size w <= base + len.

(** The windows of other devices are as in [s0]. *)
Definition others_same (dev : Z) (s0 s : iommu_state_t) : Prop :=
  forall d i w, d <> dev -> win_valid w = true -> win_dev_id w = d ->
    (windows s).[i] = Some w <-> (windows s0).[i] = Some w.

Section Driver.
Context (a dev base len : Z) (c : cap_t) (s0 : iommu_state_t).
Context (Ha : a <> NULLP) (Hb : 0 <= base) (Hl : 0 <= len) (Hbl : fits 64 (base + len)) (Hc : cap_range c).

(** The driver and the IOMMU it was given. *)
Record net_inv (h : iommus) (n : net_t) : Prop := {
  ni_state : exists s, h !! a = Some s /\ iommu_wf s /\ in_pool dev base len s /\ others_same dev s0 s;
  ni_driver : g_iommu n = NULLP \/
    (g_iommu n = a /\ g_iommu_cap n = c /\ g_dev_id n = dev /\ g_dma_base n = base /\ g_dma_len n = len)
}.

(** Opening a window inside the pool. *)
Lemma map_keeps s p z r : iommu_wf s -> in_pool dev base len s -> others_same dev s0 s ->
  fits 32 r -> 0 <= z -> fits 64 p -> fits 64 (p + z) -> base <= p -> p + z <= base + len ->
  exists e s', iommu_map (Some s) (Some c) dev p z r = Some (e, Some s') /\
    iommu_wf s' /\ in_pool dev base len s' /\ others_same dev s0 s'.
Proof using Hc.
  intros Hwf Hin Hoth Hr Hz Hp Hpz Hlo Hhi. destruct Hc as [Hc1 Hc2].
  destruct (iommu_map_cases s c dev p z r Hwf) as (e & s' & Hrun & Hcase); [by split_and!; try lia|].
  exists e, s'. split; [done|]. destruct Hcase as [[_ ->]|(_ & i & w & w' & Hw & Hv & Hv' & _ & Hfrom & Hs & Hwf')]; [done|].
  apply list_elem_of_singleton in Hfrom. injection Hfrom as _ Hd Hbase Hsize _.
  assert (0 <= i < Z.of_nat (length (windows s))) as Hi by (apply arr_get_Some in Hw; lia).
  split; [done|]. split.
  - intros j x Hj Hx Hxd. rewrite Hs, arr_get_insert in Hj by done. destruct (j =? i); [|by apply (Hin j)].
    injection Hj as <-. rewrite Hbase, Hsize. lia.
  - intros d j x Hne Hx Hxd. rewrite Hs, arr_get_insert by done. destruct (Z.eqb_spec j i) as [->|]; [|by apply (Hoth d)].
    split.
    + intros [= <-]. congruence.
    + intros H0. apply (Hoth d i x Hne Hx Hxd) in H0. rewrite Hw in H0. injection H0 as ->. congruence.
Qed.

Lemma unmap_keeps s p : iommu_wf s -> in_pool dev base len s -> others_same dev s0 s ->
  exists e s', iommu_unmap (Some s) dev p = Some (e, Some s') /\
    iommu_wf s' /\ in_pool dev base len s' /\ others_same dev s0 s'.
Proof using.
  intros Hwf Hin Hoth. destruct (iommu_unmap_cases s dev p Hwf) as (e & s' & Hrun & Hcase). exists e, s'. split; [done|].
  destruct Hcase as [(_ & -> & _)|(_ & i & w & Hw & Hv & Hd & _ & Hs & Hwf')]; [done|].
  assert (0 <= i < Z.of_nat (length (windows s))) as Hi by (apply arr_get_Some in Hw; lia).
  split; [done|]. split.
  - intros j x Hj Hx Hxd. rewrite Hs, arr_get_insert in Hj by done. destruct (j =? i); [|by apply (Hin j)].
    by injection Hj as <-.
  - intros d j x Hne Hx Hxd. rewrite Hs, arr_get_insert by done. destruct (Z.eqb_spec j i) as [->|]; [|by apply (Hoth d)].
    split; [by intros [= <-]|]. intros H0. apply (Hoth d i x Hne Hx Hxd) in H0. rewrite Hw in H0. injection H0 as ->. congruence.
Qed.

(** The store with a new state of the IOMMU. *)
Lemma store_keeps s h n n' : iommu_wf s -> in_pool dev base len s -> others_same dev s0 s ->
  net_inv h n -> g_iommu n' = NULLP \/
    (g_iommu n' = g_iommu n /\ g_iommu_cap n' = g_iommu_cap n /\ g_dev_id n' = g_dev_id n /\
     g_dma_base n' = g_dma_base n /\ g_dma_len n' = g_dma_len n) ->
  net_inv (<[a := s]> h) n'.
Proof using.
  intros Hwf Hin Hoth [_ Hd] Hn. constructor.
  - exists s. split; [apply lookup_insert_eq|]. done.
  - destruct Hn as [->|(-> & -> & -> & -> & ->)]; [by left|done].
Qed.

Lemma init_keeps x h n : net_inv h n -> net_inv h (net_driver_init x n).2.
Proof using.
  intros [Hs Hd]. constructor; [done|]. unfold net_driver_init, guard_ret. cbv zeta.
  by repeat match goal with |- context [if ?b then _ else _] => destruct b end.
Qed.

Lemma map_exec_keeps p z r h n : net_op_ok (NMap p z r) -> net_inv h n ->
  exists ok h', net_driver_dma_map p z r h n = Some (ok, h') /\ net_inv h' n.
Proof using Ha Hb Hl Hbl Hc.
  intros (Hr & Hz & Hp & Hpz) Hinv. pose proof Hinv as [(s & Hs & Hwf & Hin & Hoth) Hd].
  unfold net_driver_dma_map, guard_ret, deref_iommu.
  destruct Hd as [E|(E & Ec & Ed & Eb & El)]; rewrite E; [by exists false, h|].
  rewrite (proj2 (Z.eqb_neq _ _) Ha). cbn [orb]. destruct (g_iommu_bound n); [|by exists false, h]. cbn [negb].
  destruct (negb (z mod PAGE_SIZE =? 0) || _); [by exists false, h|]. rewrite Eb, El.
  rewrite (u64_small _ Hpz), (u64_small _ Hbl).
  destruct ((p <? base) || (base + len <? p + z)) eqn:Er; [by exists false, h|]. bools.
  rewrite Hs. cbn [mbind option_bind]. rewrite Ec, Ed.
  destruct (map_keeps s p z r) as (e & s' & -> & Hwf' & Hin' & Hoth'); try done.
  cbn [mbind option_bind]. eexists _, _. split; [reflexivity|]. eapply store_keeps; try done. by right.
Qed.

Lemma net_exec_keeps o h n : net_op_ok o -> net_inv h n -> exists h' n', net_exec o h n = Some (h', n') /\ net_inv h' n'.
Proof using Ha Hb Hl Hbl Hc.
  intros Ho Hinv. pose proof Hinv as [(s & Hs & Hwf & Hin & Hoth) Hd].
  destruct o as [x|p z r|p| |]; cbn [net_exec].
  - eexists _, _. split; [reflexivity|]. by apply init_keeps.
  - destruct (map_exec_keeps p z r h n Ho Hinv) as (ok & h' & -> & Hinv'). by exists h', n.
  - unfold net_driver_dma_unmap, guard_ret, deref_iommu.
    destruct Hd as [E|(E & Ec & Ed & _)]; rewrite E; [by exists h, n|].
    rewrite (proj2 (Z.eqb_neq _ _) Ha), Hs, Ed. cbn [mbind option_bind].
    destruct (unmap_keeps s p) as (e & s' & -> & Hwf' & Hin' & Hoth'); try done.
    cbn [mbind option_bind]. eexists _, _. split; [reflexivity|]. eapply store_keeps; try done. by right.
  - assert (is_Some (net_driver_handle_irq h n)) as [x ->]; [|by exists h, n].
    unfold net_driver_handle_irq, guard_ret, deref_iommu. destruct (negb (virtio_regs n)); [by eexists|].
    destruct (_ && _); [|by eexists].
    destruct Hd as [E|(E & _)]; rewrite E; cbn [Z.eqb NULLP mbind option_bind];
      rewrite ?(proj2 (Z.eqb_neq _ _) Ha), ?Hs; cbn [mbind option_bind];
      repeat match goal with |- context [if ?b then _ else _] => destruct b end; by eexists.
  - unfold net_driver_reboot, deref_iommu. destruct Hd as [E|(E & Ec & Ed & Eb & El)]; rewrite E.
    + cbn [Z.eqb NULLP negb andb mbind option_bind]. eexists _, _. split; [reflexivity|]. apply init_keeps.
      constructor; [apply Hinv|by left].
    + rewrite (proj2 (Z.eqb_neq _ _) Ha). cbn [negb andb]. destruct (g_iommu_bound n); cbn [mbind option_bind].
      * rewrite Hs, Ed. cbn [mbind option_bind].
        destruct (unmap_keeps s (g_dma_base n)) as (e & s' & -> & Hwf' & Hin' & Hoth'); try done.
        cbn [mbind option_bind]. eexists _, _. split; [reflexivity|]. apply init_keeps. eapply store_keeps; try done. by left.
      * eexists _, _. split; [reflexivity|]. apply init_keeps. constructor; [apply Hinv|by left].
Qed.

Lemma net_run_keeps l h n : Forall net_op_ok l -> net_inv h n -> exists h' n', net_run l h n = Some (h', n') /\ net_inv h' n'.
Proof using Ha Hb Hl Hbl Hc.
  intros Hlo. revert h n. induction Hlo as [|o l Ho _ IH]; intros h n Hinv; cbn [net_run]; [by exists h, n|].
  destruct (net_exec_keeps o h n Ho Hinv) as (h1 & n1 & -> & Hinv1). cbn [mbind option_bind]. by apply IH.
Qed.

(** What the check admits. *)
Lemma check_in_pool h n p k w : net_inv h n -> 0 <= k -> fits 64 (p + k) ->
  net_driver_dma_check p k w h n = Some true -> base <= p /\ p + k <= base + len.
Proof using Ha Hb Hbl.
  intros [(s & Hs & Hwf & Hin & _) Hd] Hk Hpk. unfold net_driver_dma_check, guard_ret, deref_iommu.
  destruct Hd as [E|(E & _ & Ed & _)]; rewrite E; [done|]. rewrite (proj2 (Z.eqb_neq _ _) Ha), Hs, Ed. cbn [mbind option_bind].
  intros [= Hchk]. apply iommu_check_loop_window in Hchk as (i & win & Hw & Hcov & _).
  apply win_covers_true in Hcov as (Hv & Hd & Hlo & Hhi). rewrite <- arr_get_nat in Hw.
  destruct (Hin _ win Hw Hv Hd) as (H1 & H2 & H3).
  rewrite (u64_small _ Hpk), u64_small in Hhi by (unfold fits in *; lia). lia.
Qed.

Lemma set_iommu_keeps h n : h !! a = Some s0 -> iommu_wf s0 ->
  (forall i w, (windows s0).[i] = Some w -> win_valid w = true -> win_dev_id w <> dev) ->
  (g_iommu n = NULLP) ->
  exists ok h' n', net_driver_set_iommu c a dev base len h n = Some (ok, h', n') /\ net_inv h' n'.
Proof using Ha Hb Hl Hbl Hc.
  intros Hh Hwf Hno Hn.
  assert (in_pool dev base len s0) as Hin by (intros i w Hw Hv Hd; by destruct (Hno i w Hw Hv)).
  assert (others_same dev s0 s0) as Hoth by done.
  assert (net_inv h n) as Hinv by (constructor; [by exists s0|by left]).
  unfold net_driver_set_iommu, guard_ret, deref_iommu. rewrite (proj2 (Z.eqb_neq _ _) Ha).
  destruct (negb (type c =? CAP_IOMMU)); [by exists false, h, n|].
  destruct (negb (is_valid c) || _); [by exists false, h, n|]. cbv zeta. rewrite Hh. cbn [mbind option_bind].
  destruct (map_keeps s0 base len (Z.lor CHERI_PERM_LOAD CHERI_PERM_STORE)) as (e & s' & -> & Hwf' & Hin' & Hoth');
    try done; try lia; [unfold fits in *; lia|].
  cbn [mbind option_bind].
  assert (forall n', g_iommu n' = a -> g_iommu_cap n' = c -> g_dev_id n' = dev -> g_dma_base n' = base -> g_dma_len n' = len ->
    net_inv (<[a := s']> h) n') as Hnew.
  { intros n' E1 E2 E3 E4 E5. constructor; [|right; by split_and!]. exists s'. split; [apply lookup_insert_eq|done]. }
  destruct (negb (is_ok e)); eexists _, _, _; (split; [reflexivity|]); by apply Hnew.
Qed.
End Driver.

(** ** Properties *)

(** C39. The network driver stays in its DMA pool: when a fresh driver is given a pool for a
    device that has no windows yet, then whatever it does until it is given another pool
    (initialisation, mapping ranges that do not pass 2^64, unmapping, interrupts,
    micro-reboots), every call has a result, no window of another device is touched, and
    every access that does not pass 2^64 (the check wraps around) and that its check
    admits lies inside the pool. *)
Theorem net_dma_confined a dev base len c s0 h n l :
  a <> NULLP -> 0 <= base -> 0 <= len -> fits 64 (base + len) -> cap_range c ->
  h !! a = Some s0 -> iommu_wf s0 ->
  (forall i w, (windows s0).[i] = Some w -> win_valid w = true -> win_dev_id w <> dev) ->
  g_iommu n = NULLP -> Forall net_op_ok l ->
  exists ok h1 n1 h' n' s, net_driver_set_iommu c a dev base len h n = Some (ok, h1, n1) /\
    net_run l h1 n1 = Some (h', n') /\ h' !! a = Some s /\ others_same dev s0 s /\
    forall p k w, 0 <= k -> fits 64 (p + k) -> net_driver_dma_check p k w h' n' = Some true ->
      base <= p /\ p + k <= base + len.
Proof.
  intros Ha Hb Hl Hbl Hc Hh Hwf Hno Hn Hlo.
  destruct (set_iommu_keeps a dev base len c s0 Ha Hb Hl Hbl Hc h n Hh Hwf Hno Hn) as (ok & h1 & n1 & Hset & Hinv1).
  destruct (net_run_keeps a dev base len c s0 Ha Hb Hl Hbl Hc l h1 n1 Hlo Hinv1) as (h' & n' & Hrun & Hinv').
  pose proof Hinv' as [(s & Hs & _ & _ & Hoth) _]. exists ok, h1, n1, h', n', s. split_and!; try done.
  intros p k w Hk Hpk Hchk. by eapply (check_in_pool a dev base len c s0).
Qed.

(** A pool of 1 MiB for device 0, as in the tests of the driver, and a second buffer in it. *)
Definition demo_pool_cap : cap_t :=
  mk_cap CAP_IOMMU 3 0 true true 0 (mk_cap_u 0 0 0 0) (mk_sim_cap 0x50000000 0x50100000 0x50000000 0 0 true true).
Definition demo_iommus : iommus := {[ 0x7000 := iommu_state_zero ]}.

Lemma net_dma_confined_witness :
  exists ok h1 n1 h' n', net_driver_set_iommu demo_pool_cap 0x7000 0 0x50000000 0x100000 demo_iommus net_zero = Some (ok, h1, n1) /\
    net_run [NMap 0x50001000 0x1000 1; NIrq; NUnmap 0x50001000] h1 n1 = Some (h', n') /\
    net_driver_dma_check 0x50000000 512 true h' n' = Some true /\ 0x50000000 + 512 <= 0x50000000 + 0x100000.
Proof.
  destruct (net_dma_confined 0x7000 0 0x50000000 0x100000 demo_pool_cap iommu_state_zero demo_iommus net_zero
    [NMap 0x50001000 0x1000 1; NIrq; NUnmap 0x50001000]) as (ok & h1 & n1 & h' & n' & s & Hset & Hrun & _ & _ & Hchk).
  - unfold NULLP. discriminate.
  - lia.
  - lia.
  - fits_now.
  - split; [split; vm_compute; discriminate|fits_now].
  - reflexivity.
  - apply iommu_zero_wf.
  - intros i w Hw Hv. apply arr_get_replicate in Hw as ->. discriminate Hv.
  - reflexivity.
  - repeat constructor; vm_compute; congruence.
  - assert (net_driver_dma_check 0x50000000 512 true h' n' = Some true) as E.
    { vm_compute in Hset. injection Hset as <- <- <-. vm_compute in Hrun. injection Hrun as <- <-. vm_compute. reflexivity. }
    exists ok, h1, n1, h', n'. split; [exact Hset|]. split; [exact Hrun|]. split; [exact E|].
    apply (Hchk 0x50000000 512 true); [lia|fits_now|exact E].
Defined.

(** The registers the driver accepts lie in the window for devices, if their end does not
    wrap around. *)
Lemma net_driver_init_window c n : fits 64 (mmio_base c + mmio_len c) -> (net_driver_init c n).1 = true ->
  0x10000000 <= mmio_base c /\ 0x1000 <= mmio_len c /\ mmio_base c + mmio_len c <= 0x20000000.
Proof.
  intros Hf. unfold net_driver_init, guard_ret. cbv zeta. rewrite (u64_small _ Hf). branches. intros _. bools. lia.
Qed.

(** If it does, a region that reaches far beyond the window is accepted. *)
Lemma net_driver_init_wraps : (net_driver_init (mk_drv_caps 0x10000000 (2 ^ 64 - 1) 3) net_zero).1 = true.
Proof. vm_compute. reflexivity. Qed.

(** A micro-reboot unmaps only the window of the pool: the windows opened later stay open
    for the device. *)
Lemma net_reboot_leaves_windows : exists h1 n1 h2 n2 s,
  net_driver_set_iommu demo_pool_cap 0x7000 0 0x50000000 0x100000 demo_iommus net_zero = Some (true, h1, n1) /\
  net_run [NMap 0x50001000 0x1000 3; NReboot] h1 n1 = Some (h2, n2) /\ h2 !! 0x7000 = Some s /\
  iommu_check (Some s) 0 0x50001000 512 true = true /\ net_driver_dma_check 0x50001000 512 true h2 n2 = Some false.
Proof.
  do 5 eexists. split; [vm_compute; reflexivity|]. split; [vm_compute; reflexivity|].
  split; [vm_compute; reflexivity|]. split; vm_compute; reflexivity.
Qed.
