(* ===== verification/BlockDriver.v ===== *)
(** * userspace/drivers/block.c: the block driver

    The hybrid configuration. Accesses to the registers are events of the trace of
    [Io]; the answers of the device are a parameter. *)

From stdpp Require Import strings.
From S2P Require Import Prelude Types Io.

Record blk_caps_t := mk_blk_caps { mmio_base : Z; mmio_len : Z; irq : Z; iommu_cap : Z }.

(** The static variables; a null pointer is 0. *)
Record blk_t := mk_blk {
  caps : blk_caps_t;
  blk_regs : Z;
  dma_pool : Z;
  dma_pool_size : Z
}.
#[export] Instance blk_eta : Eta blk_t := fun b => mk_blk (caps b) (blk_regs b) (dma_pool b) (dma_pool_size b).

Definition blk_zero : blk_t := mk_blk (mk_blk_caps 0 0 0 0) 0 0 0.

Definition block_driver_init (c : blk_caps_t) (dma_mem dma_len : Z) (b : blk_t) : bool * blk_t :=
  let b := b <| caps := c |> in
  retif mmio_len c <? 0x1000 with (false, b);;
  retif (mmio_base c <? 0x10000000) || (0x20000000 <? u64 (mmio_base c + mmio_len c)) with (false, b);;
  (true, b <| blk_regs := mmio_base c |> <| dma_pool := dma_mem |> <| dma_pool_size := dma_len |>).

Definition block_map_dma (paddr len : Z) (b : blk_t) : bool :=
  retif (paddr <? dma_pool b) || (u64 (dma_pool b + dma_pool_size b) <? u64 (paddr + len)) with false;;
  true.

(** A [size_t] returned as an [int]. *)
Definition to_int (z : Z) : Z := let x := u32 z in if 2 ^ 31 <=? x then x - 2 ^ 32 else x.

(** [blk_regs[i]]. *)
Definition reg (b : blk_t) (i : Z) : Z := blk_regs b + 4 * i.

Definition block_read (sector buf len : Z) (b : blk_t) (t : trace) : Z * trace :=
  retif (blk_regs b =? 0) || (buf =? 0) with (-1, t);;
  retif negb (len mod 512 =? 0) with (-1, t);;
  retif negb (block_map_dma buf len b) with (-1, t);;
  let t := io_write 32 (reg b 16) sector t in
  let t := io_write 32 (reg b 17) len t in
  (to_int len, t).

Definition block_write (sector buf len : Z) (b : blk_t) (t : trace) : Z * trace :=
  retif (blk_regs b =? 0) || (buf =? 0) with (-1, t);;
  retif negb (block_map_dma buf len b) with (-1, t);;
  let t := io_write 32 (reg b 16) sector t in
  let t := io_write 32 (reg b 17) (Z.lor len 0x80000000) t in
  (to_int len, t).

(** The pointer is not tested. *)
Definition block_driver_handle_irq (dev : device) (b : blk_t) (t : trace) : option trace :=
  if blk_regs b =? 0 then None
  else
    let '(status, t) := io_read dev 32 (reg b 4) t in
    Some (io_write 32 (reg b 4) status t).

Definition block_driver_reboot (b : blk_t) : blk_t :=
  (block_driver_init (caps b) (dma_pool b) (dma_pool_size b) b).2.

(** ** Histories *)

Inductive blk_op :=
| BRead (sector buf len : Z)
| BWrite (sector buf len : Z)
| BIrq
| BReboot.

(** One call: what it returns, if anything. *)
Definition blk_exec (dev : device) (o : blk_op) (b : blk_t) (t : trace) : option (Z * blk_t * trace) :=
  match o with
  | BRead s buf len => let '(r, t) := block_read s buf len b t in Some (r, b, t)
  | BWrite s buf len => let '(r, t) := block_write s buf len b t in Some (r, b, t)
  | BIrq => t ← block_driver_handle_irq dev b t; Some (0, b, t)
  | BReboot => Some (0, block_driver_reboot b, t)
  end.

Fixpoint blk_run (dev : device) (l : list blk_op) (b : blk_t) (t : trace) : option (list Z * blk_t * trace) :=
  match l with
  | [] => Some ([], b, t)
  | o :: l' =>
      '(r, b1, t1) ← blk_exec dev o b t;
      '(rs, b2, t2) ← blk_run dev l' b1 t1;
      Some (r :: rs, b2, t2)
  end.

(** A buffer is a range of addresses. *)
Definition blk_op_ok (o : blk_op) : Prop :=
  match o with BRead _ buf len | BWrite _ buf len => 0 <= len /\ fits 64 (buf + len) | _ => True end.

(** An access to a register of the driver. *)
Definition reg_event (c : blk_caps_t) (e : io_event) : Prop :=
  match e with IoRead w a _ | IoWrite w a _ => w = 32 /\ mmio_base c <= a /\ a + 4 <= mmio_base c + mmio_len c end.

(** A read or write is refused without an access, or its buffer is in the pool and the
    sector and the length (with the direction) are written to registers 16 and 17, in this
    order; an interrupt acknowledges the status it read; a reboot makes no access. *)
Definition transfer (b : blk_t) (sector buf len cmd r : Z) (t t' : trace) : Prop :=
  (r = -1 /\ t' = t) \/
  (dma_pool b <= buf /\ buf + len <= dma_pool b + dma_pool_size b /\ r = to_int len /\
   t' = io_write 32 (reg b 17) cmd (io_write 32 (reg b 16) sector t)).
Definition served (dev : device) (b : blk_t) (o : blk_op) (r : Z) (t t' : trace) : Prop :=
  match o with
  | BRead sector buf len => transfer b sector buf len len r t t'
  | BWrite sector buf len => transfer b sector buf len (Z.lor len 0x80000000) r t t'
  | BIrq => let '(status, t1) := io_read dev 32 (reg b 4) t in t' = io_write 32 (reg b 4) status t1
  | BReboot => t' = t
  end.

(** A history, call by call. *)
Fixpoint all_served (dev : device) (b : blk_t) (l : list blk_op) (rs : list Z) (t t' : trace) : Prop :=
  match l, rs with
  | [], [] => t' = t
  | o :: l', r :: rs' => exists t1, served dev b o r t t1 /\ all_served dev b l' rs' t1 t'
  | _, _ => False
  end.

(** The driver after a successful initialisation. *)
Record blk_ready (b : blk_t) : Prop := {
  br_regs : blk_regs b = mmio_base (caps b);
  br_len : 0x1000 <= mmio_len (caps b);
  br_base : 0x10000000 <= mmio_base (caps b);
  br_end : mmio_base (caps b) + mmio_len (caps b) <= 0x20000000;
  br_pool : fits 64 (dma_pool b + dma_pool_size b)
}.

Lemma init_ready c mem len b b' : fits 64 (mmio_base c + mmio_len c) -> fits 64 (mem + len) ->
  block_driver_init c mem len b = (true, b') -> blk_ready b'.
Proof.
  intros Hf Hp. unfold block_driver_init, guard_ret. cbv zeta. rewrite (u64_small _ Hf). branches. bools.
  intros [= <-]. by constructor.
Qed.

Lemma ready_reg b i : blk_ready b -> 0 <= i < 1024 ->
  mmio_base (caps b) <= reg b i /\ reg b i + 4 <= mmio_base (caps b) + mmio_len (caps b).
Proof. intros [Hr Hl _ _ _] Hi. unfold reg. rewrite Hr. lia. Qed.

Lemma ready_map_dma b p n : blk_ready b -> fits 64 (p + n) -> block_map_dma p n b = true ->
  dma_pool b <= p /\ p + n <= dma_pool b + dma_pool_size b.
Proof.
  intros [_ _ _ _ Hp] Hf. unfold block_map_dma, guard_ret. rewrite (u64_small _ Hf), (u64_small _ Hp). branches. by bools.
Qed.

Lemma reboot_same b : blk_ready b -> block_driver_reboot b = b.
Proof.
  intros [Hr Hl Hb He _]. unfold block_driver_reboot, block_driver_init, guard_ret. cbv zeta.
  rewrite u64_small by (unfold fits; lia). rewrite (proj2 (Z.ltb_ge _ _) Hl), (proj2 (Z.ltb_ge _ _) Hb), (proj2 (Z.ltb_ge _ _) He).
  destruct b as [c r p s]. cbn in *. by rewrite Hr.
Qed.

(** What a call that is served does stays within the registers. *)
Lemma served_registers dev b o r t t' : blk_ready b -> served dev b o r t t' -> extends (reg_event (caps b)) t t'.
Proof.
  intros Hb. assert (extends (reg_event (caps b)) t t) as Hrefl by (by exists []).
  assert (forall i, 0 <= i < 1024 -> forall v, reg_event (caps b) (IoWrite 32 (reg b i) v)) as Hw.
  { intros i Hi v. destruct (ready_reg b i Hb Hi). by split. }
  assert (forall s buf n cmd, transfer b s buf n cmd r t t' -> extends (reg_event (caps b)) t t') as Htr.
  { intros s buf n cmd [[_ ->]|(_ & _ & _ & ->)]; [done|].
    apply extends_write; [apply Hw; lia|]. apply extends_write; [apply Hw; lia|done]. }
  destruct o as [s buf n|s buf n| |]; cbn [served]; [apply Htr|apply Htr| |by intros ->].
  destruct (io_read dev 32 (reg b 4) t) as [v t1] eqn:Er. intros ->. apply extends_write; [apply Hw; lia|].
  eapply extends_read; [exact Er| |done]. destruct (ready_reg b 4 Hb); [lia|]. by split.
Qed.

Lemma blk_exec_served dev o b t : blk_ready b -> blk_op_ok o ->
  exists r t', blk_exec dev o b t = Some (r, b, t') /\ served dev b o r t t'.
Proof.
  intros Hb Ho. destruct o as [s buf n|s buf n| |]; cbn [blk_exec blk_op_ok served] in *.
  - unfold block_read, guard_ret. destruct (_ || _); [eexists _, _; split; [done|by left]|].
    destruct (negb (_ =? 0)); [eexists _, _; split; [done|by left]|].
    destruct (block_map_dma buf n b) eqn:Em; cbn [negb]; [|eexists _, _; split; [done|by left]].
    eexists _, _. split; [reflexivity|]. right. by destruct (ready_map_dma b buf n Hb (proj2 Ho) Em).
  - unfold block_write, guard_ret. destruct (_ || _); [eexists _, _; split; [done|by left]|].
    destruct (block_map_dma buf n b) eqn:Em; cbn [negb]; [|eexists _, _; split; [done|by left]].
    eexists _, _. split; [reflexivity|]. right. by destruct (ready_map_dma b buf n Hb (proj2 Ho) Em).
  - unfold block_driver_handle_irq. destruct (Z.eqb_spec (blk_regs b) 0) as [E|_]; [destruct Hb; lia|].
    destruct (io_read dev 32 (reg b 4) t) as [v t1]. by eexists _, _.
  - rewrite reboot_same by done. by eexists _, _.
Qed.

(** ** Properties *)

(** C40. The block driver keeps to its registers and its pool: after a successful
    initialisation whose register range and pool do not wrap around, any sequence of
    reads and writes of buffers that do not wrap around, interrupts and micro-reboots has
    a result and leaves the driver configured as it was, whatever the device answers. A
    call that is refused makes no access at all; a transfer is started, by the writes to
    registers 16 and 17, only for a buffer inside the pool; and every access is to a
    register inside the MMIO range. *)
Theorem block_confined dev c mem len b0 b t l :
  fits 64 (mmio_base c + mmio_len c) -> fits 64 (mem + len) -> block_driver_init c mem len b0 = (true, b) ->
  Forall blk_op_ok l ->
  exists rs t', blk_run dev l b t = Some (rs, b, t') /\ extends (reg_event c) t t' /\ all_served dev b l rs t t'.
Proof.
  intros Hf Hp Hinit Hl. pose proof (init_ready c mem len b0 b Hf Hp Hinit) as Hb.
  assert (caps b = c) as <- by (unfold block_driver_init, guard_ret in Hinit; branches; by injection Hinit as <-).
  clear Hinit Hf Hp. revert t. induction Hl as [|o l Ho _ IH]; intros t; cbn [blk_run].
  { exists [], t. split; [done|]. split; [by exists []|done]. }
  destruct (blk_exec_served dev o b t Hb Ho) as (r & t1 & -> & Hr). cbn [mbind option_bind].
  destruct (IH t1) as (rs & t2 & -> & Ht2 & Hrs). exists (r :: rs), t2. split; [done|].
  split; [|by exists t1]. etransitivity; [by eapply served_registers|done].
Qed.

Definition demo_blk_caps : blk_caps_t := mk_blk_caps 0x10001000 0x1000 2 0.

Lemma block_confined_witness :
  exists b rs t', block_driver_init demo_blk_caps 0x50000000 0x10000 blk_zero = (true, b) /\
    blk_run (fun _ _ _ => 1) [BRead 7 0x50000000 512; BWrite 7 0x60000000 512; BIrq; BReboot] b [] = Some (rs, b, t') /\
    rs = [512; -1; 0; 0] /\ length t' = 4%nat /\ extends (reg_event demo_blk_caps) [] t'.
Proof.
  set (b := (block_driver_init demo_blk_caps 0x50000000 0x10000 blk_zero).2).
  destruct (block_confined (fun _ _ _ => 1) demo_blk_caps 0x50000000 0x10000 blk_zero b []
    [BRead 7 0x50000000 512; BWrite 7 0x60000000 512; BIrq; BReboot]) as (rs & t' & Hrun & He & _).
  - fits_now.
  - fits_now.
  - reflexivity.
  - repeat constructor; vm_compute; congruence.
  - exists b, rs, t'. split; [reflexivity|]. split; [exact Hrun|].
    vm_compute in Hrun. injection Hrun as <- <-. split; [reflexivity|]. split; [reflexivity|exact He].
Defined.

(** The end of the buffer may wrap around: a buffer far beyond the pool is then accepted. *)
Lemma block_map_dma_wraps :
  block_map_dma 0x60000000 (2 ^ 64 - 0x10000000) (mk_blk demo_blk_caps 0x10001000 0x50000000 0x10000) = true.
Proof. vm_compute. reflexivity. Qed.

(** Only [block_read] insists on whole sectors. *)
Lemma block_write_partial_sector :
  let b := mk_blk demo_blk_caps 0x10001000 0x50000000 0x10000 in
  (block_read 0 0x50000000 100 b []).1 = -1 /\ (block_write 0 0x50000000 100 b []).1 = 100.
Proof. split; vm_compute; reflexivity. Qed.

(** An interrupt before the initialisation dereferences a null pointer. *)
Lemma block_early_irq dev t : block_driver_handle_irq dev blk_zero t = None.
Proof. reflexivity. Qed.
