(* ===== verification/VgaDriver.v ===== *)
(** * userspace/drivers/vga.c: the isolated framebuffer driver

    The hybrid configuration: the capability for the framebuffer is a [sim_cap_t] and a
    store through its address is an event of the trace of [Io]. *)

From stdpp Require Import strings.
From S2P Require Import Prelude Types Cheri Io.

Record vga_drv_t := mk_vga_drv {
  fb_cap : sim_cap_t;
  fb_paddr : Z;
  fb_len : Z;
  width : Z;
  height : Z;
  bpp : Z
}.

(** The static variable before the first call. *)
Definition vga_drv_zero : vga_drv_t := mk_vga_drv sim_cap_zero 0 0 0 0 0.

(** The last test comes after the variable has been written. *)
Definition vga_drv_init (cap : sim_cap_t) (paddr len : Z) (g : vga_drv_t) : Z * vga_drv_t :=
  retif negb (cheri_tag_get cap) with (-1, g);;
  retif negb (cheri_base_get cap =? paddr) with (-1, g);;
  retif cheri_length_get cap <? len with (-1, g);;
  let g := mk_vga_drv cap paddr len 800 600 32 in
  retif negb (cheri_cap_is_valid cap paddr len (Z.lor CHERI_PERM_LOAD CHERI_PERM_STORE)) with (-1, g);;
  (0, g).

(** Everything it computes is discarded. *)
Definition vga_drv_puts (s : list Z) (x y : Z) (g : vga_drv_t) (t : trace) : trace := t.

(** [for(i = 0; i < pixels; i++) fb[i] = color;] from number [i] on. *)
Fixpoint clear_loop (n : nat) (fb i color' : Z) (t : trace) : trace :=
  match n with
  | O => t
  | S n' => clear_loop n' fb (i + 1) color' (io_write 32 (fb + 4 * i) color' t)
  end.

Definition vga_drv_clear (color' : Z) (g : vga_drv_t) (t : trace) : trace :=
  let fb := hw_addr (fb_cap g) in
  let pixels := u32 (width g * height g) in
  clear_loop (Z.to_nat pixels) fb 0 color' t.

(** ** Properties *)

(** A store inside the bounds of a capability. *)
Definition inside (c : sim_cap_t) (e : io_event) : Prop :=
  match e with
  | IoWrite w a _ => w = 32 /\ hw_base c <= a /\ a + 4 <= hw_top c
  | IoRead _ _ _ => False
  end.

(** What the loop adds to the trace. *)
Lemma clear_loop_adds n : forall fb i color' t, exists l, clear_loop n fb i color' t = l ++ t /\
  forall e, e ∈ l <-> exists k, i <= k < i + Z.of_nat n /\ e = IoWrite 32 (fb + 4 * k) (u32 color').
Proof.
  induction n as [|n IH]; intros fb i color' t; cbn [clear_loop].
  { exists []. split; [done|]. intros e. split; [by intros ?%not_elem_of_nil|]. intros (k & Hk & _). lia. }
  destruct (IH fb (i + 1) color' (io_write 32 (fb + 4 * i) color' t)) as (l & -> & Hl).
  exists (l ++ [IoWrite 32 (fb + 4 * i) (u32 color')]). split; [by rewrite <- app_assoc|].
  intros e. rewrite elem_of_app, list_elem_of_singleton, Hl. split.
  - intros [(k & Hk & ->)| ->]; [exists k|exists i]; (split; [lia|done]).
  - intros (k & Hk & ->). destruct (decide (k = i)) as [->|]; [by right|]. left. exists k. split; [lia|done].
Qed.

(** Clearing the screen stays inside the framebuffer capability exactly when that
    capability is large enough: after a successful [vga_drv_init] with a capability whose
    address is its base, [vga_drv_clear] stores the colour to the 480000 words from the
    base on, and all of them are inside the capability if and only if the length given to
    [vga_drv_init] is at least the 1920000 bytes of the screen. *)
Theorem vga_drv_clear_confined cap paddr len g0 g color' t :
  0 <= paddr -> 0 <= len -> paddr + len < 2 ^ 64 -> hw_addr cap = hw_base cap ->
  vga_drv_init cap paddr len g0 = (0, g) ->
  exists l, vga_drv_clear color' g t = l ++ t /\
    (forall e, e ∈ l <-> exists k, 0 <= k < 480000 /\ e = IoWrite 32 (paddr + 4 * k) (u32 color')) /\
    (Forall (inside cap) l <-> 1920000 <= len).
Proof.
  intros Hp Hl Hpl Haddr. unfold vga_drv_init, guard_ret. cbv zeta. branches. bools. intros [= <-].
  match goal with H : cheri_cap_is_valid _ _ _ _ = true |- _ => apply cheri_cap_is_valid_spec in H as (_ & _ & Hb & Ht & _) end.
  rewrite u64_small in Ht by (unfold fits; lia).
  unfold vga_drv_clear. cbn [fb_cap width height]. cbv zeta. change (u32 (800 * 600)) with 480000.
  destruct (clear_loop_adds (Z.to_nat 480000) (hw_addr cap) 0 color' t) as (l & -> & Hin). rewrite Haddr, Hb in Hin.
  exists l. split; [done|]. rewrite Z2Nat.id, Z.add_0_l in Hin by lia. split; [done|].
  rewrite list.Forall_forall. split.
  - intros Hall. destruct (Hall (IoWrite 32 (paddr + 4 * 479999) (u32 color'))) as (_ & _ & Hhi).
    + apply Hin. by exists 479999.
    + rewrite Ht in Hhi. lia.
  - intros Hlen e (k & Hk & ->)%Hin. split; [done|]. rewrite Hb, Ht. lia.
Qed.

(** A capability for the whole screen. *)
Definition demo_fb_cap : sim_cap_t := mk_sim_cap 0x40000000 0x401D4C00 0x40000000 3 0 true false.

Lemma vga_drv_clear_confined_witness :
  exists g l, vga_drv_init demo_fb_cap 0x40000000 1920000 vga_drv_zero = (0, g) /\
    vga_drv_clear 0 g [] = l ++ [] /\ Forall (inside demo_fb_cap) l.
Proof.
  set (g := mk_vga_drv demo_fb_cap 0x40000000 1920000 800 600 32).
  destruct (vga_drv_clear_confined demo_fb_cap 0x40000000 1920000 vga_drv_zero g 0 []) as (l & H & _ & Hiff).
  - lia.
  - lia.
  - lia.
  - reflexivity.
  - reflexivity.
  - exists g, l. split; [reflexivity|]. split; [exact H|]. apply Hiff. lia.
Defined.

(** A capability for one page is accepted for the screen: the loop then stores past its
    end, which the check of the hybrid build does not stop. *)
Lemma vga_drv_init_small :
  let cap := mk_sim_cap 0x40000000 0x40001000 0x40000000 3 0 true false in
  (vga_drv_init cap 0x40000000 4096 vga_drv_zero).1 = 0.
Proof. reflexivity. Qed.

(** A capability that fails the last test is kept all the same. *)
Lemma vga_drv_init_keeps_rejected :
  let cap := mk_sim_cap 0x40000000 0x401D4C00 0x40000000 1 0 true false in
  vga_drv_init cap 0x40000000 1920000 vga_drv_zero = (-1, mk_vga_drv cap 0x40000000 1920000 800 600 32).
Proof. reflexivity. Qed.
