(* ===== verification/Dice.v ===== *)
(** * boot/dice.c: measured boot

    [sha256] is code of another file: a parameter that gives 32 bytes. The kernel image
    is the list of its bytes. *)

From S2P Require Import Prelude Types.

Definition DICE_CDI_SIZE : nat := 32.
Definition HASH_SIZE : nat := 32.

Record dice_state_t := mk_dice {
  cdi : list Z;
  kernel_hash : list Z;
  attestation_cert : list Z
}.
#[export] Instance dice_eta : Eta dice_state_t := fun d => mk_dice (cdi d) (kernel_hash d) (attestation_cert d).

Section Dice.
Context (sha256 : list Z -> list Z).

(** [tmp], the local copy of the secret, is erased before the return. *)
Definition dice_derive_cdi (uds hash : list Z) : list Z :=
  let tmp := take 32 uds ++ take 32 hash in sha256 tmp.

Definition boot_measure_and_attest (image : list Z) (dice : dice_state_t) : Z * dice_state_t :=
  let k_hash := sha256 image in
  let expected := replicate HASH_SIZE 0 in
  if negb (bool_decide (k_hash = expected)) then (-1, dice)
  else
    let uds := replicate DICE_CDI_SIZE 0 in
    (0, dice <| cdi := dice_derive_cdi uds k_hash |> <| kernel_hash := k_hash |>).

(** Measured boot fails closed, and on success records the measurement: it succeeds
    exactly when the hash of the image is the expected one, otherwise the state is
    untouched; on success the state holds that hash and the identifier derived from the
    device secret and the hash, and the certificate is untouched. *)
Lemma dice_fail_closed image d :
  let '(r, d') := boot_measure_and_attest image d in
  (r = 0 <-> sha256 image = replicate HASH_SIZE 0) /\
  (r <> 0 -> r = -1 /\ d' = d) /\
  (r = 0 -> kernel_hash d' = sha256 image /\
     cdi d' = dice_derive_cdi (replicate DICE_CDI_SIZE 0) (sha256 image) /\ attestation_cert d' = attestation_cert d).
Proof using.
  unfold boot_measure_and_attest. cbv zeta. destruct (bool_decide_reflect (sha256 image = replicate HASH_SIZE 0)); cbn [negb].
  - split_and!; done.
  - split_and!; done.
Qed.

(** The expected hash and the device secret are placeholders of zeros: an image whose hash
    is not zero never boots, and the identifier is the same for every image that does. *)
Lemma dice_identifier_constant image image' d d' :
  (boot_measure_and_attest image d).1 = 0 -> (boot_measure_and_attest image' d').1 = 0 ->
  cdi (boot_measure_and_attest image d).2 = cdi (boot_measure_and_attest image' d').2.
Proof using.
  unfold boot_measure_and_attest. cbv zeta.
  destruct (bool_decide_reflect (sha256 image = replicate HASH_SIZE 0)) as [E|]; [|done].
  destruct (bool_decide_reflect (sha256 image' = replicate HASH_SIZE 0)) as [E'|]; [|done].
  intros _ _. cbn. by rewrite E, E'.
Qed.
End Dice.
