(* ===== verification/Harness.v ===== *)
(** * kernel/cbmc_harness.c: the assertions of the bounded model checking harness

    A harness is a run that starts from arbitrary local variables: they are arguments
    here. Its result is the list of the conditions it asserts, in order; a run that
    violates an assumption stops there, asserting nothing further. *)

From S2P Require Import Prelude Types Cap Tcb Endpoint Sched Alloc VSpace.

(** [__CPROVER_assume(c)] *)
Definition cprover_assume (c : bool) (k : option (list bool)) : option (list bool) := if c then k else Some [].
(** [__CPROVER_assert(c, ...)] *)
Definition cprover_assert (c : bool) (k : option (list bool)) : option (list bool) := l ← k; Some (c :: l).

Definition one_of (e : kerror_t) (l : list kerror_t) : bool := existsb (fun x => bool_decide (e = x)) l.

Definition harn_endpoint (tcbs : tcb_table_t) (ep : endpoint_t) (msg out : ipc_msg_t) : option (list bool) :=
  cprover_assume (msg_length msg <=? IPC_MSG_MAX) (
  cprover_assume (msg_caps msg <=? IPC_CAPS_MAX) (
  '(e, ep1, tcbs1) ← endpoint_send tcbs (Some ep) 0 (Some msg);
  cprover_assert (one_of e [ERR_OK; ERR_OVERFLOW; ERR_INVALID_ARG]) (
  '(e, _, _, _) ← endpoint_recv tcbs1 ep1 1 (Some out);
  cprover_assert (one_of e [ERR_OK]) (Some [])))).

Definition harn_vspace (w : pt_world) (vs : vspace_t) (pa : Z) : option (list bool) :=
  let root := 0x1000 in
  let vs := vs <| vs_root := root |> <| vs_asid := 1 |> in
  cprover_assume (negb (vs_root vs =? 0)) (
  '(e, vs1, w1) ← vspace_map w (Some vs) 0x1000 0x1000 4096 0x3 0;
  cprover_assert (one_of e [ERR_OK; ERR_INVALID_ARG]) (
  '(ok, pa) ← vspace_resolve w1 vs1 0x1000 (Some pa);
  pa ← pa;
  cprover_assert (negb ok || (pa =? 0x1000)) (Some []))).

Definition harn_sched : option (list bool) :=
  '(e, s) ← sched_partition_create (Some sched_init) 0 0 6000 1;
  cprover_assert (one_of e [ERR_OK]) (
  '(e, s) ← sched_context_bind s 0 0 0 100 1000 10;
  s ← s;
  cprover_assert (one_of e [ERR_OK; ERR_INVALID_ARG]) (
  ok ← sched_is_schedulable s;
  cprover_assert ok (Some []))).

Definition harn_main (tcbs : tcb_table_t) (ep : endpoint_t) (msg out : ipc_msg_t) (w : pt_world) (vs : vspace_t)
    (pa : Z) : option (list bool) :=
  a ← harn_endpoint tcbs ep msg out; b ← harn_vspace w vs pa; c ← harn_sched; Some (a ++ b ++ c).

(** ** What the assertions come to *)

Definition holds (r : option (list bool)) : bool := match r with Some l => forallb (fun b => b) l | None => false end.

(** From any endpoint in the invariant and any message, no run of [harn_endpoint] goes
    out of bounds or fails an assertion. *)
Theorem harn_endpoint_holds tcbs ep msg out : endpoint_wf ep -> tcbs_wf tcbs ->
  holds (harn_endpoint tcbs ep msg out) = true.
Proof.
  intros Hep Ht. unfold harn_endpoint, cprover_assume. do 2 (destruct (_ <=? _); [|done]).
  destruct (send_refines tcbs ep 0 msg Hep Ht ltac:(lia)) as (e & ep1 & tcbs1 & w & -> & Hs & Hep1 & Ht1 & _).
  cbn [mbind option_bind].
  destruct (recv_refines tcbs1 ep1 1 out Hep1 Ht1 ltac:(lia)) as (ep2 & tcbs2 & d & w2 & -> & _).
  unfold spec_send in Hs. repeat case_match; simplify_eq; done.
Qed.

(** From an arbitrary endpoint, which is what the harness declares, a run may write out
    of bounds: the invariant is a precondition of [endpoint_send]. *)
Theorem harn_endpoint_unconstrained : exists ep, harn_endpoint tcb_table_zero ep ipc_msg_zero ipc_msg_zero = None.
Proof. exists (endpoint_zero <| q_tail := 16 |>). vm_compute. reflexivity. Qed.

(** The errors of the walk, and of a request that passes the alignment and colour tests. *)
Lemma map_loop_errors fuel : forall w v vaddr paddr size flags off e v' w',
  map_loop fuel w v vaddr paddr size flags off = Some (e, v', w') -> In e [ERR_OK; ERR_INVALID_ARG; ERR_NO_MEM].
Proof.
  induction fuel as [|n IH]; intros w v vaddr paddr size flags off e v' w' H; cbn [map_loop] in H;
    (destruct (off <? size); [|simplify_eq; cbn; auto]); [done|].
  destruct (map_page w v _ _ _) as [[[r v1] w1]|] eqn:Hp; [|done]. cbn [mbind option_bind] in H.
  destruct r as [x|]; [|by eapply IH]. simplify_eq. unfold map_page, guard_ret in Hp.
  repeat (simplify_option_eq; case_match || auto); simplify_eq; cbn; auto.
Qed.

Lemma vspace_map_errors w v e v' w' :
  vspace_map w (Some v) 0x1000 0x1000 4096 0x3 0 = Some (e, v', w') -> In e [ERR_OK; ERR_INVALID_ARG; ERR_NO_MEM].
Proof.
  unfold vspace_map, guard_ret. destruct (vs_root v =? NULL); [intros H; simplify_eq; cbn; auto|].
  change (0x1000 mod PAGE_SIZE) with 0. change (4096 mod PAGE_SIZE) with 0. cbn [negb orb Z.eqb].
  change (0 mod 2 =? 0) with true. rewrite andb_false_r. cbn [negb].
  destruct (map_loop _ _ _ _ _ _ _ _) as [[[x v1] w1]|] eqn:Hl; [|done]. intros H. cbn in H. simplify_eq.
  by eapply map_loop_errors.
Qed.

(** [harn_vspace], from tables in the invariant with the page not mapped yet: it stays
    within the tables, the translation it asserts is right whatever [vspace_map] returns,
    and the only result [vspace_map] may give beyond those asserted is [ERR_NO_MEM]. *)
Theorem harn_vspace_holds w vs pa lab :
  let v := vs <| vs_root := 0x1000 |> <| vs_asid := 1 |> in
  vspace_wf w v lab -> xlate w 0x1000 0x1000 = None ->
  exists e v' w', vspace_map w (Some v) 0x1000 0x1000 4096 0x3 0 = Some (e, Some v', w') /\
    In e [ERR_OK; ERR_INVALID_ARG; ERR_NO_MEM] /\
    harn_vspace w vs pa = Some [one_of e [ERR_OK; ERR_INVALID_ARG]; true].
Proof.
  intros v Hwf Hx. destruct (vspace_map_cases w v lab 0x1000 0x1000 4096 0x3 0 Hwf)
    as (e & v' & w' & lab' & k & Hrun & Hst & _ & Hk & (_ & Hmap & Hkept) & _); [fits_now|].
  exists e, v', w'. split; [done|]. split; [by apply vspace_map_errors in Hrun|].
  unfold harn_vspace, cprover_assume. cbv zeta. fold v. change (vs_root v =? 0) with false.
  cbn [negb]. rewrite Hrun. cbn [mbind option_bind].
  rewrite (vspace_resolve_xlate w' v' lab') by apply Hst.
  destruct (ts_same _ _ _ _ _ _ Hst) as (Hroot & _). rewrite Hroot.
  assert (k = 0 \/ k = 1) as [-> | ->] by (unfold PAGE_SIZE in Hk; change (4096 / 4096) with 1 in Hk; lia).
  - rewrite Hkept by (intros j Hj; lia). change (vs_root v) with 0x1000. rewrite Hx. done.
  - rewrite (Hmap _ 0) by (lia || reflexivity). unfold pte_at.
    rewrite pte_table_encode; [done|fits_now|reflexivity| apply map_flags_bits].
Qed.

Theorem harn_sched_holds : holds harn_sched = true.
Proof. vm_compute. reflexivity. Qed.

(** From an arbitrary address space, which is what the harness declares, the first
    assertion of [harn_vspace] fails when the count of table pages is already at its
    limit. *)
Theorem harn_vspace_unconstrained : exists w vs, harn_vspace w vs 0 = Some [false; true].
Proof.
  exists (mk_pt_world {[ 0x1000 := zero_page ]} ∅ 0x90000000 0), (vspace_zero <| vs_pt_caps_count := MAX_PT_PAGES |>).
  vm_compute. reflexivity.
Qed.
